(* ===== verification/_CoqProject ===== *)
-Q . S2P
Prelude.v
PyStr.v
Regex.v
RePattern.v
Lint.v
FileInfo.v
IncludeState.v
Cleanse.v
Collapse.v
Brackets.v
Nesting.v
FunctionState.v
FileChecks.v
IncludeWhatYouUse.v
LineChecks.v
Spacing.v
RValue.v
Style.v
Language.v
Driver.v
Frame.v
Config.v
Options.v
Terminate.v
Safe.v
Protoc.v
CpplintDir.v
