(* ===== verification/Prelude.v ===== *)
(** * Verification of the repository's Python programs

    The repository holds three Python programs: script/cpplint.py, the C++
    style checker (nearly all of the code), script/cpplint_dir.py, which runs
    it over the source tree, and build/protoc_wrapper.py, which the build runs
    instead of protoc.  This library models the three, function by function,
    and proves what makes them correct.  Paths are under src/; a name such as
    [CloseExpression] is the name of the function in the code.

    ** The parts of cpplint and how they interact

    A run is [main]: read the command line into the global state, then
    [ProcessFile] each file.  [ProcessFile] backs the filters up, applies the
    CPPLINT.cfg files of the directories above the file, splits the file into
    lines, runs [ProcessFileData], and restores the filters.
    [ProcessFileData] makes the cleansed versions of the lines, then runs
    [ProcessLine] on each line in order.  [ProcessLine] reads the NOLINT
    comment, updates the nesting state, and runs the checks, which read the
    lines and the nesting state and report to [error].  The checks of a whole
    file come before and after.  [Error] decides by the suppressions, the
    verbosity and the filters whether a report is printed and counted; the
    exit status tells whether any was.

    ** The files

    - Prelude.v: text as lists of code points, Python's exceptions as [res],
      indexing and slicing with Python's negative indices, the tactics and the
      hint database [py].
    - PyStr.v: the string methods.  Regex.v: the matcher of [re] and its
      declarative semantics.  RePattern.v: the pattern parser, so that every
      pattern stands in the model as the string it is in the code, match
      objects, [sub], [split], and the cached [Match], [Search] and
      [ReplaceAll] of cpplint (Module Cache), over any engine.
    - Lint.v: the module's globals as the record [world]; the methods of
      [_CppLintState] (Module CppLintState), NOLINT, [_ShouldPrintError],
      [Error], and the monad [M] of state and exceptions the checks run in.
    - FileInfo.v: os.path, [FileInfo], header guard names, modules of files.
    - IncludeState.v: [_IncludeState] (Module IncludeState) and
      [CheckIncludeLine].  Cleanse.v: [CleansedLines].  Brackets.v:
      [CloseExpression] and its reverse.  Nesting.v: [_NestingState], the
      block classes and the preprocessor stack.  FunctionState.v: function
      lengths.
    - FileChecks.v, LineChecks.v, Spacing.v, RValue.v, Style.v, Language.v:
      the checks, in the groups the code has them in.
    - Driver.v: [ProcessLine] to [main].
    - Theorems that take a file of their own: Collapse.v (what the string pass
      of Cleanse.v computes), IncludeWhatYouUse.v (the reports of the check of
      FileChecks.v of that name).  Theorems about the composition: Frame.v
      (what a run changes), Config.v (how configuration files combine, and what
      a line length does to later files), Options.v (the command line),
      Terminate.v (every run ends, and only [main] calls [sys.exit]), Safe.v
      (the nesting state never raises).
    - Protoc.v: build/protoc_wrapper.py.  CpplintDir.v:
      script/cpplint_dir.py, composed with the model of cpplint it runs.

    ** State and operations

    The module-level variables are fields of [world].  A function that reads
    or changes them, or reports, is a computation in [M]; one that only may
    raise returns [res].  The objects of a file ([_IncludeState],
    [_FunctionState], [_NestingState]) are records passed along.  The blocks
    of the nesting state are changed in place and shared, so that state has a
    heap; [Update] is written against the interface [NestingOps], whose
    instance on the heap is the program and whose instance on values is the
    specification.  The error handler is an argument of every check, as in the
    code; [ErrorFn] is its type.

    The environment is given as data: the files of the disk, the configuration
    files, the current directory.  Standard input is a field of [world], as it
    can be read only once.  What Python leaves open is an instance the
    theorems quantify over: the order of a dictionary ([DictOrder]) and the
    Unicode database ([UnicodeDB]).

    ** What the theorems show

    - Termination (Terminate.v): every run of [main] ends, where no top
      directory has a [.svn].  Loops that are not
      over a range carry fuel in the model, the fuel is computed from the
      input (the length of the text or of the path, the number of lines), and
      exhausting it raises [OutOfFuel], which is no Python exception; the
      theorem says that it is never raised.  Regex.v and RePattern.v show the
      same of the matcher.  [IsRValueType] recurs as deep as Python allows:
      its depth is a parameter, and it can indeed reach it.
    - Nesting: [Update] on the heap refines [Update] on values; conditional
      compilation restores the blocks; the depth of the stack is the depth of
      the braces; [Update] never raises on the lines of a file.
    - Frames and invariants (Frame.v): linting a file changes no
      configuration, counts and output only grow, [ProcessFile] restores the
      filters; counts agree with what is printed.
    - The functional behaviour of the components: which reports are printed,
      what NOLINT suppresses, which include orders are accepted, what the
      comment and string passes do to lines, what the bracket scanners find,
      when a function is too long, what the searches of the checks return,
      how configuration files combine, and that the report of missing
      includes does not depend on the order of dictionaries.
    - The command line: which ones are accepted, and the state they ask for.
    - The wrapper and the runner: what is written where, which files that
      cannot be opened make them fail and how, that copies are removed, which
      files are linted and when the run succeeds.

    Errors the code makes are theorems too: inputs on which [IsRValueType]
    recurs forever, an index out of range, the search for an SVN checkout
    that never ends, a line length that stays for the files that come later.

    ** Not modelled

    Decoding the bytes of files (their text is data, or that a file cannot be
    opened), the stream wrapper around standard error, and starting processes
    (the program that is run is a parameter).  Regular expressions: the parser
    covers what the patterns of the program use.  Users write patterns in two
    places, exclude_files of a CPPLINT.cfg and --root: where such a pattern uses
    more of the syntax of [re] (look-behind, back references, named groups),
    the model raises [ReError] and the program would not.  The replacement texts
    the program passes to [ReplaceAll] have no backslash; the one that refers to
    a group is written as a function of the match.  The parser of command lines
    of the wrapper is optparse, from the standard library: its result is the
    argument of [main].  The C++ code of the repository, which these programs
    only read, and the third-party code are not modelled. *)

From stdpp Require Export base numbers list gmap strings sets.
From Stdlib Require Export ZArith Lia.
From Stdlib Require Import Ascii.

(** ** Text

    A Python [unicode] string is a list of code points.  [u"..."] writes a
    literal the way the source does; [dq] is the double quote character, and
    [ch "x"] the code point of a character. *)

Abbreviation pystr := (list N) (only parsing).

Fixpoint u (s : string) : list N :=
  match s with
  | EmptyString => []
  | String a s' => N_of_ascii a :: u s'
  end.

Definition ch (a : ascii) : N := N_of_ascii a.
Definition dq : list N := [34%N].

Arguments u s%_string_scope : simpl never.
Arguments ch a%_char_scope : simpl never.
#[global] Arguments N_of_ascii a : simpl never.

Declare Scope py_scope.
Delimit Scope py_scope with py.
Open Scope py_scope.

(** Decidable equality of strings and characters, as booleans. *)
Definition eqs (a b : list N) : bool := bool_decide (a = b).
Notation "a =s b" := (eqs a b) (at level 70, no associativity) : py_scope.
Notation "a =c b" := (N.eqb a b) (at level 70, no associativity) : py_scope.

(** [c in s] for a character, [x in xs] for a list of strings. *)
Definition in_chars (c : N) (s : list N) : bool := existsb (N.eqb c) s.
Definition in_strs (x : list N) (xs : list (list N)) : bool := existsb (eqs x) xs.

#[global] Arguments in_chars c s : simpl never.
#[global] Arguments in_strs x xs : simpl never.
#[global] Arguments eqs a b : simpl never.

Lemma eqs_true a b : (a =s b) = true <-> a = b.
Proof. unfold eqs. apply bool_decide_eq_true. Qed.
Lemma eqs_false a b : (a =s b) = false <-> a <> b.
Proof. unfold eqs. apply bool_decide_eq_false. Qed.
Lemma eqs_refl a : (a =s a) = true.
Proof. by apply eqs_true. Qed.

Lemma in_chars_spec c s : in_chars c s = true <-> c ∈ s.
Proof.
  unfold in_chars. rewrite existsb_exists. setoid_rewrite N.eqb_eq.
  rewrite list_elem_of_In. naive_solver.
Qed.
Lemma in_chars_false c s : in_chars c s = false <-> c ∉ s.
Proof. rewrite <- not_true_iff_false, in_chars_spec. done. Qed.
Lemma in_strs_spec x xs : in_strs x xs = true <-> x ∈ xs.
Proof.
  unfold in_strs. rewrite existsb_exists. setoid_rewrite eqs_true.
  rewrite list_elem_of_In. naive_solver.
Qed.
Lemma in_strs_false x xs : in_strs x xs = false <-> x ∉ xs.
Proof. rewrite <- not_true_iff_false, in_strs_spec. done. Qed.

(** ** Exceptions

    [res] is the result of a Python expression that may raise; [exn] lists
    the exceptions the modelled code can raise.  [OutOfFuel] is no Python
    exception: it marks a loop whose bound was too small, and the theorems
    show that it does not occur. *)

Inductive exn :=
  | IndexError
  | KeyError
  | ValueError (msg : list N)
  | TypeError
  | AttributeError
  | AssertionError
  | IOError
  | OSError
  | RuntimeError (msg : list N)
  | ReError
  | SystemExit (status : Z)
  | SystemExitMsg (msg : list N)
  | OutOfFuel.

Inductive res (A : Type) :=
  | Ok (a : A)
  | Exc (e : exn).
Arguments Ok {A} a.
Arguments Exc {A} e.

#[export] Instance res_ret : MRet res := fun A a => Ok a.
#[export] Instance res_bind : MBind res := fun A B f m =>
  match m with Ok a => f a | Exc e => Exc e end.
#[export] Instance res_fmap : FMap res := fun A B f m =>
  match m with Ok a => Ok (f a) | Exc e => Exc e end.

Definition of_option {A} (e : exn) (o : option A) : res A :=
  match o with Some a => Ok a | None => Exc e end.

Lemma res_bind_Ok {A B} (m : res A) (f : A -> res B) b :
  (m ≫= f) = Ok b <-> exists a, m = Ok a /\ f a = Ok b.
Proof. destruct m; simpl; naive_solver. Qed.

(** ** Python list operations *)

(** [l[i]]: a negative index counts from the end, and an index out of range
    raises [IndexError]. *)
Definition py_index {A} (l : list A) (i : Z) : res A :=
  let j := (if i <? 0 then i + Z.of_nat (length l) else i)%Z in
  if (j <? 0)%Z then Exc IndexError
  else of_option IndexError (l !! Z.to_nat j).

(** A slice bound: negative bounds count from the end, and all are clamped
    to the list. *)
Definition clamp (n i : Z) : nat :=
  Z.to_nat (Z.min n (Z.max 0 (if i <? 0 then i + n else i)))%Z.

(** [l[lo:hi]], [l[lo:]] and [l[:hi]]. *)
Definition slice {A} (l : list A) (lo hi : Z) : list A :=
  let n := Z.of_nat (length l) in
  drop (clamp n lo) (take (clamp n hi) l).
Definition slice_from {A} (l : list A) (lo : Z) : list A :=
  drop (clamp (Z.of_nat (length l)) lo) l.
Definition slice_to {A} (l : list A) (hi : Z) : list A :=
  take (clamp (Z.of_nat (length l)) hi) l.

(** [len(l)] *)
Definition len {A} (l : list A) : Z := Z.of_nat (length l).

Lemma py_index_nat {A} (l : list A) (i : nat) :
  py_index l (Z.of_nat i) = of_option IndexError (l !! i).
Proof.
  unfold py_index. destruct (Z.ltb_spec (Z.of_nat i) 0); [lia|].
  destruct (Z.ltb_spec (Z.of_nat i) 0); [lia|]. by rewrite Nat2Z.id.
Qed.
Lemma py_index_pos {A} (l : list A) (i : Z) :
  (0 <= i)%Z -> py_index l i = of_option IndexError (l !! Z.to_nat i).
Proof. intros H. by rewrite <- py_index_nat, Z2Nat.id. Qed.
Lemma py_index_Ok_lt {A} (l : list A) (i : Z) a :
  py_index l i = Ok a -> (i < len l)%Z /\ (- len l <= i)%Z.
Proof.
  unfold py_index, len. set (j := if (i <? 0)%Z then _ else _).
  destruct (Z.ltb_spec j 0); [done|].
  destruct (l !! Z.to_nat j) eqn:E; [|done]. intros _.
  apply lookup_lt_Some in E. unfold j in *. destruct (Z.ltb_spec i 0); lia.
Qed.
Lemma py_index_in_range {A} (l : list A) (i : Z) :
  (0 <= i < len l)%Z -> exists a, py_index l i = Ok a /\ l !! Z.to_nat i = Some a.
Proof.
  intros H. rewrite py_index_pos by lia.
  destruct (lookup_lt_is_Some_2 l (Z.to_nat i)) as [a Ha]; [unfold len in H; lia|].
  exists a. by rewrite Ha.
Qed.

Lemma clamp_in n i : (0 <= i <= n)%Z -> clamp n i = Z.to_nat i.
Proof. intros. unfold clamp. destruct (Z.ltb_spec i 0); lia. Qed.
Lemma slice_from_pos {A} (l : list A) (i : Z) :
  (0 <= i)%Z -> slice_from l i = drop (Z.to_nat i) l.
Proof.
  intros H. unfold slice_from, clamp. destruct (Z.ltb_spec i 0); [lia|].
  destruct (Z.le_gt_cases i (Z.of_nat (length l))).
  - f_equal. lia.
  - rewrite !drop_ge; [done| |]; lia.
Qed.
Lemma slice_to_pos {A} (l : list A) (i : Z) :
  (0 <= i)%Z -> slice_to l i = take (Z.to_nat i) l.
Proof.
  intros H. unfold slice_to, clamp. destruct (Z.ltb_spec i 0); [lia|].
  destruct (Z.le_gt_cases i (Z.of_nat (length l))).
  - f_equal. lia.
  - rewrite !take_ge; [done| |]; lia.
Qed.
Lemma slice_from_1 {A} (l : list A) : slice_from l 1 = tail l.
Proof. rewrite slice_from_pos by lia. by destruct l. Qed.
Lemma len_nonneg {A} (l : list A) : (0 <= len l)%Z.
Proof. unfold len. lia. Qed.
Lemma len_app {A} (a b : list A) : len (a ++ b) = (len a + len b)%Z.
Proof. unfold len. rewrite length_app. lia. Qed.

(** [xrange(lo, hi)] for a unit step, as a list. *)
Definition xrange (lo hi : Z) : list Z :=
  (fun k => lo + Z.of_nat k)%Z <$> seq 0 (Z.to_nat (hi - lo)).
(** [xrange(hi, lo, -1)] *)
Definition xrange_down (hi lo : Z) : list Z :=
  (fun k => hi - Z.of_nat k)%Z <$> seq 0 (Z.to_nat (hi - lo)).

Lemma elem_of_xrange lo hi i : i ∈ xrange lo hi <-> (lo <= i < hi)%Z.
Proof.
  unfold xrange. rewrite list_elem_of_fmap. setoid_rewrite elem_of_seq. split.
  - intros (k & -> & Hk). lia.
  - intros H. exists (Z.to_nat (i - lo)). lia.
Qed.
Lemma elem_of_xrange_down lo hi i : i ∈ xrange_down hi lo <-> (lo < i <= hi)%Z.
Proof.
  unfold xrange_down. rewrite list_elem_of_fmap. setoid_rewrite elem_of_seq. split.
  - intros (k & -> & Hk). lia.
  - intros H. exists (Z.to_nat (hi - i)). lia.
Qed.

(** ** Automation *)

Create HintDb py.
#[export] Hint Resolve len_nonneg eqs_refl : py.

(** Split the boolean tests of a goal and of its hypotheses. *)
Ltac case_bool :=
  match goal with
  | |- context [if ?b then _ else _] =>
      lazymatch type of b with bool => destruct b eqn:? end
  | H : context [if ?b then _ else _] |- _ =>
      lazymatch type of b with bool => destruct b eqn:? end
  end.
Ltac bool_simpl :=
  repeat match goal with
  | H : _ && _ = true |- _ => apply andb_true_iff in H as [? ?]
  | H : _ || _ = false |- _ => apply orb_false_iff in H as [? ?]
  | H : negb _ = true |- _ => apply negb_true_iff in H
  | H : negb _ = false |- _ => apply negb_false_iff in H
  | H : (_ =s _) = true |- _ => apply eqs_true in H
  | H : (_ =s _) = false |- _ => apply eqs_false in H
  | H : N.eqb _ _ = true |- _ => apply N.eqb_eq in H
  | H : N.eqb _ _ = false |- _ => apply N.eqb_neq in H
  | H : Z.eqb _ _ = true |- _ => apply Z.eqb_eq in H
  | H : Z.eqb _ _ = false |- _ => apply Z.eqb_neq in H
  | H : Z.ltb _ _ = true |- _ => apply Z.ltb_lt in H
  | H : Z.ltb _ _ = false |- _ => apply Z.ltb_ge in H
  | H : Z.leb _ _ = true |- _ => apply Z.leb_le in H
  | H : Z.leb _ _ = false |- _ => apply Z.leb_gt in H
  | H : in_chars _ _ = true |- _ => apply in_chars_spec in H
  | H : in_chars _ _ = false |- _ => apply in_chars_false in H
  | H : in_strs _ _ = true |- _ => apply in_strs_spec in H
  | H : in_strs _ _ = false |- _ => apply in_strs_false in H
  end.
(** Invert the monadic binds of a [res] computation that returned. *)
Ltac res_inv :=
  repeat match goal with
  | H : (_ ≫= _) = Ok _ |- _ => apply res_bind_Ok in H as (? & ? & H); cbn beta iota in H
  | H : mret _ = Ok _ |- _ => injection H as H
  | H : Ok _ = Ok _ |- _ => injection H as H
  | H : Exc _ = Ok _ |- _ => discriminate H
  end.
