(* ===== verification/PyStr.v ===== *)
(** * Python string methods used by the scripts

    [find], [rfind], [count], [replace], [startswith], [endswith], the
    [strip] family, [split], [partition], [isspace], [isdigit], case mapping
    and the decimal conversions, on strings as lists of code points.  The
    lemmas give each search method its declarative reading: the first
    occurrence, the last occurrence, no occurrence. *)

From S2P Require Import Prelude.
From stdpp Require Import pretty.
From Stdlib Require Import Ascii.

(** ** Prefixes and suffixes *)

(** [starts p s] is [s.startswith(p)]. *)
Fixpoint starts (p s : list N) : bool :=
  match p, s with
  | [], _ => true
  | a :: p', b :: s' => (a =c b) && starts p' s'
  | _ :: _, [] => false
  end.
Definition ends (p s : list N) : bool := starts (reverse p) (reverse s).

Lemma starts_spec p s : starts p s = true <-> exists t, s = p ++ t.
Proof.
  revert s. induction p as [|a p IH]; intros s; simpl.
  - split; [by exists s | done].
  - destruct s as [|b s]; [split; [done | by intros [t [=]]]|].
    rewrite andb_true_iff, N.eqb_eq, IH. naive_solver.
Qed.
Lemma starts_prefix p s : starts p s = true <-> p `prefix_of` s.
Proof. apply starts_spec. Qed.
Lemma ends_spec p s : ends p s = true <-> exists t, s = t ++ p.
Proof.
  unfold ends. rewrite starts_spec. split; intros [t Ht].
  - exists (reverse t). by rewrite <- (reverse_involutive s), Ht, reverse_app, reverse_involutive.
  - exists (reverse t). by rewrite Ht, reverse_app.
Qed.
Lemma starts_app p s : starts p (p ++ s) = true.
Proof. apply starts_spec. by exists s. Qed.
Lemma starts_length p s : starts p s = true -> length p <= length s.
Proof. rewrite starts_spec. intros [t ->]. rewrite length_app. lia. Qed.

(** ** Searching *)

Fixpoint find_nat (sub s : list N) : option nat :=
  if starts sub s then Some 0
  else match s with [] => None | _ :: s' => S <$> find_nat sub s' end.
Fixpoint rfind_nat (sub s : list N) : option nat :=
  match s with
  | [] => if starts sub [] then Some 0 else None
  | _ :: s' =>
      match rfind_nat sub s' with
      | Some i => Some (S i)
      | None => if starts sub s then Some 0 else None
      end
  end.

Definition Z_of_pos (o : option nat) : Z :=
  match o with Some i => Z.of_nat i | None => (-1)%Z end.

(** [s.find(sub)], [s.find(sub, start)] and [s.rfind(sub)] *)
Definition find (s sub : list N) : Z := Z_of_pos (find_nat sub s).
Definition find_from (s sub : list N) (start : Z) : Z :=
  let k := clamp (len s) start in
  if (len s <? start)%Z then -1
  else match find_nat sub (drop k s) with
       | Some i => Z.of_nat (k + i)
       | None => (-1)%Z
       end.
Definition rfind (s sub : list N) : Z := Z_of_pos (rfind_nat sub s).

(** [sub in s] *)
Definition contains (sub s : list N) : bool :=
  match find_nat sub s with Some _ => true | None => false end.

Definition occurs_at (sub s : list N) (i : nat) : Prop :=
  starts sub (drop i s) = true.

Lemma find_nat_Some sub s i :
  find_nat sub s = Some i <->
  occurs_at sub s i /\ i <= length s /\ forall j, j < i -> ~ occurs_at sub s j.
Proof.
  unfold occurs_at. revert i. induction s as [|c s IH]; intros i; simpl.
  - destruct (starts sub []) eqn:E; [split|].
    + intros [= <-]. repeat split; [done | lia | lia].
    + intros (_ & Hi & _). f_equal. lia.
    + split; [done|]. intros (H & Hi & _). assert (i = 0) as -> by lia.
      simpl in H. congruence.
  - destruct (starts sub (c :: s)) eqn:E.
    + split.
      * intros [= <-]. repeat split; [done | lia | lia].
      * intros (_ & _ & H). destruct i; [done|]. destruct (H 0); [lia | done].
    + destruct i as [|i].
      * split; [by intros (? & ? & [=])%fmap_Some|].
        intros (H & _). simpl in H. congruence.
      * rewrite fmap_Some. split.
        -- intros (k & Hk & [= ->]). apply IH in Hk as (? & ? & Hmin).
           repeat split; [done | lia|]. intros [|j] Hj; simpl; [congruence|].
           apply Hmin. lia.
        -- intros (H & Hl & Hmin). exists i. split; [|done]. apply IH.
           repeat split; [done | lia|]. intros j Hj.
           apply (Hmin (S j)). lia.
Qed.
Lemma find_nat_None sub s :
  find_nat sub s = None <-> forall i, i <= length s -> ~ occurs_at sub s i.
Proof.
  unfold occurs_at. induction s as [|c s IH]; simpl.
  - destruct (starts sub []) eqn:E; split; [done| | |done].
    + intros H. by destruct (H 0); [lia|].
    + intros _ i Hi. assert (i = 0) as -> by lia. simpl. congruence.
  - destruct (starts sub (c :: s)) eqn:E; split; [done| | |].
    + intros H. by destruct (H 0); [lia|].
    + intros H i Hi. destruct i; simpl; [congruence|].
      apply IH; [|lia]. by destruct (find_nat sub s).
    + intros H. rewrite (proj2 IH); [done|]. intros i Hi. apply (H (S i)). lia.
Qed.
Lemma contains_spec sub s :
  contains sub s = true <-> exists a b, s = a ++ sub ++ b.
Proof.
  unfold contains. destruct (find_nat sub s) as [i|] eqn:E; (split; [|]); try done.
  - intros _. apply find_nat_Some in E as (H & _ & _).
    apply starts_spec in H as [t Ht]. exists (take i s), t.
    by rewrite <- Ht, take_drop.
  - intros (a & b & ->). rewrite find_nat_None in E.
    destruct (E (length a)).
    + rewrite length_app. lia.
    + unfold occurs_at. rewrite drop_app_length. apply starts_app.
Qed.
Lemma find_nonneg s sub : (0 <= find s sub)%Z <-> contains sub s = true.
Proof. unfold find, contains. destruct (find_nat sub s); simpl; split; done || lia. Qed.
Lemma find_lower s sub : (-1 <= find s sub)%Z.
Proof. unfold find. destruct (find_nat sub s); simpl; lia. Qed.

(** Searching for one character. *)
Lemma find_nat_char c a b : c ∉ a -> find_nat [c] (a ++ c :: b) = Some (length a).
Proof.
  induction a as [|x a IH]; intros Hc; cbn [app find_nat starts].
  - by rewrite N.eqb_refl.
  - apply not_elem_of_cons in Hc as [Hx Ha]. destruct (N.eqb_spec c x); [done|].
    cbn [andb]. by rewrite IH.
Qed.
Lemma find_nat_no_char c a : c ∉ a -> find_nat [c] a = None.
Proof.
  induction a as [|x a IH]; intros Hc; cbn [find_nat starts]; [done|].
  apply not_elem_of_cons in Hc as [Hx Ha]. destruct (N.eqb_spec c x); [done|].
  cbn [andb]. by rewrite IH.
Qed.
Lemma find_char_split c s :
  ((find s [c] = (-1)%Z /\ c ∉ s)
   \/ exists a b, s = a ++ c :: b /\ c ∉ a /\ find s [c] = Z.of_nat (length a)).
Proof.
  unfold find. destruct (decide (c ∈ s)) as [(a & b & -> & Ha)%list_elem_of_split_l|Hc].
  - right. exists a, b. by rewrite (find_nat_char c a b Ha).
  - left. by rewrite (find_nat_no_char c s Hc).
Qed.

Lemma rfind_nat_Some sub s i :
  rfind_nat sub s = Some i -> occurs_at sub s i /\ i <= length s.
Proof.
  unfold occurs_at. revert i. induction s as [|c s IH]; intros i; simpl.
  - case_bool; [|done]. intros [= <-]. done.
  - destruct (rfind_nat sub s) as [k|] eqn:E.
    + intros [= <-]. destruct (IH k eq_refl). simpl. split; [done | lia].
    + case_bool; [|done]. intros [= <-]. simpl. split; [done | lia].
Qed.
Lemma rfind_nat_max sub s j :
  j <= length s -> occurs_at sub s j ->
  exists i, rfind_nat sub s = Some i /\ j <= i.
Proof.
  unfold occurs_at. revert j. induction s as [|c s IH]; intros j Hj H; simpl in *.
  - assert (j = 0) as -> by lia. simpl in H. rewrite H. by exists 0.
  - destruct j as [|j]; simpl in H.
    + destruct (rfind_nat sub s) as [k|]; [exists (S k); split; [done | lia]|].
      rewrite H. by exists 0.
    + destruct (IH j) as (i & -> & Hi); [lia | done|]. exists (S i). split; [done | lia].
Qed.

(** ** Counting and replacing

    Occurrences do not overlap: after one, the scan goes on behind it.
    [skip] is the number of characters of the last occurrence still to be
    passed over; [sub] is never empty in the scripts. *)

Fixpoint count_go (sub : list N) (skip : nat) (s : list N) : Z :=
  match s with
  | [] => 0
  | _ :: s' =>
      match skip with
      | S k => count_go sub k s'
      | 0 => if starts sub s then (1 + count_go sub (pred (length sub)) s')%Z
             else count_go sub 0 s'
      end
  end.
Definition count (s sub : list N) : Z := count_go sub 0 s.

Fixpoint replace_go (sub rep : list N) (skip : nat) (s : list N) : list N :=
  match s with
  | [] => []
  | c :: s' =>
      match skip with
      | S k => replace_go sub rep k s'
      | 0 => if starts sub s then rep ++ replace_go sub rep (pred (length sub)) s'
             else c :: replace_go sub rep 0 s'
      end
  end.
Definition replace (s sub rep : list N) : list N := replace_go sub rep 0 s.

Lemma count_go_nonneg sub k s : (0 <= count_go sub k s)%Z.
Proof.
  revert k. induction s as [|c s IH]; intros k; simpl; [lia|].
  destruct k; [|apply IH]. case_bool; [|apply IH].
  specialize (IH (pred (length sub))). lia.
Qed.
Lemma replace_id sub rep s :
  contains sub s = false -> replace s sub rep = s.
Proof.
  unfold replace, contains. induction s as [|c s IH]; [done|].
  simpl. destruct (starts sub (c :: s)); [done|].
  intros H. f_equal. apply IH. by destruct (find_nat sub s).
Qed.

(** Deleting the occurrences of a single character. *)
Lemma replace_char c s : replace s [c] [] = List.filter (fun d => negb (d =c c)) s.
Proof.
  unfold replace. induction s as [|d s IH]; [done|]. cbn [replace_go starts List.filter].
  rewrite andb_true_r, (N.eqb_sym d c). by destruct (c =c d); cbn; rewrite IH.
Qed.
(** The number of occurrences of a single character. *)
Fixpoint count_char (c : N) (s : list N) : nat :=
  match s with
  | [] => 0
  | d :: s' => (if c =c d then 1 else 0) + count_char c s'
  end.
Lemma count_singleton s c : count s [c] = Z.of_nat (count_char c s).
Proof.
  unfold count. induction s as [|d s IH]; [done|]. simpl.
  destruct (c =c d); simpl; rewrite IH; lia.
Qed.

(** ** Character classes

    [is_ascii_space] is C's [isspace] (byte strings and the class [\s]),
    [is_uspace] is [unicode.isspace]. *)

Definition between (lo hi c : N) : bool := (N.leb lo c) && (N.leb c hi).
Definition is_ascii_space (c : N) : bool := between 9 13 c || (c =c 32)%N.
Definition is_uspace (c : N) : bool :=
  (is_ascii_space c || between 28 31 c || (c =c 133) || (c =c 160)
   || (c =c 5760) || (c =c 6158) || between 8192 8202 c || (c =c 8232)
   || (c =c 8233) || (c =c 8239) || (c =c 8287) || (c =c 12288))%N.
Definition is_digit (c : N) : bool := between 48 57 c.
Definition is_upper (c : N) : bool := between 65 90 c.
Definition is_lower (c : N) : bool := between 97 122 c.
Definition is_alnum (c : N) : bool := is_digit c || is_upper c || is_lower c.
Definition is_word (c : N) : bool := is_alnum c || (c =c 95)%N.

Definition to_lower (c : N) : N := if is_upper c then (c + 32)%N else c.
Definition to_upper (c : N) : N := if is_lower c then (c - 32)%N else c.

(** [s.isspace()] is false of the empty string. *)
Definition isspace (s : list N) : bool :=
  match s with [] => false | _ => forallb is_uspace s end.
(** [s.upper()] on ASCII text *)
Definition upper (s : list N) : list N := to_upper <$> s.

(** ** Stripping *)

Fixpoint drop_while (p : N -> bool) (s : list N) : list N :=
  match s with
  | [] => []
  | c :: s' => if p c then drop_while p s' else s
  end.
Definition lstrip_p (p : N -> bool) (s : list N) : list N := drop_while p s.
Definition rstrip_p (p : N -> bool) (s : list N) : list N :=
  reverse (drop_while p (reverse s)).
Definition strip_p (p : N -> bool) (s : list N) : list N := rstrip_p p (lstrip_p p s).

(** [s.strip()] and its variants on unicode strings; [strip_bytes] on byte
    strings; [strip_chars] is [s.strip(chars)]. *)
Definition lstrip := lstrip_p is_uspace.
Definition rstrip := rstrip_p is_uspace.
Definition strip := strip_p is_uspace.
Definition strip_bytes := strip_p is_ascii_space.
Definition lstrip_chars (cs s : list N) : list N := lstrip_p (fun c => in_chars c cs) s.
Definition rstrip_chars (cs s : list N) : list N := rstrip_p (fun c => in_chars c cs) s.
Definition strip_chars (cs s : list N) : list N := strip_p (fun c => in_chars c cs) s.

Lemma drop_while_spec p s :
  exists a, s = a ++ drop_while p s /\ Forall (fun c => p c = true) a.
Proof.
  induction s as [|c s (a & Ha & Hp)]; simpl; [by exists []|].
  destruct (p c) eqn:E; [|by exists []].
  exists (c :: a). simpl. split; [by f_equal | by constructor].
Qed.
Lemma drop_while_head p s c s' : drop_while p s = c :: s' -> p c = false.
Proof.
  induction s as [|d s IH]; simpl; [done|].
  destruct (p d) eqn:E; [apply IH|]. by intros [= <- _].
Qed.
Lemma drop_while_stop p a c s :
  p c = false -> drop_while p (a ++ c :: s) = drop_while p a ++ c :: s.
Proof. intros Hc. induction a as [|x a IH]; simpl; [by rewrite Hc|]. by destruct (p x). Qed.
Lemma drop_while_all p a : Forall (fun c => p c = true) a -> drop_while p a = [].
Proof. induction 1 as [|c a Hc _ IH]; simpl; [done|]. by rewrite Hc. Qed.
Lemma rstrip_p_spec p s :
  exists b, s = rstrip_p p s ++ b /\ Forall (fun c => p c = true) b.
Proof.
  unfold rstrip_p. destruct (drop_while_spec p (reverse s)) as (a & Ha & Hp).
  exists (reverse a). split; [|by apply Forall_reverse].
  rewrite <- reverse_app, <- Ha. by rewrite reverse_involutive.
Qed.
(** Stripping around a text that begins and ends in characters that stay. *)
Lemma rstrip_p_stop p a c w :
  p c = false -> rstrip_p p (a ++ c :: w) = a ++ c :: rstrip_p p w.
Proof.
  intros Hc. unfold rstrip_p. rewrite reverse_app, reverse_cons, <- app_assoc. cbn [app].
  rewrite drop_while_stop, reverse_app, reverse_cons, reverse_involutive by done.
  by rewrite <- app_assoc.
Qed.
Lemma rstrip_p_all p w : Forall (fun c => p c = true) w -> rstrip_p p w = [].
Proof. intros H. unfold rstrip_p. by rewrite drop_while_all by by apply Forall_reverse. Qed.
Lemma strip_p_parts p s :
  exists w w', s = w ++ strip_p p s ++ w'
    /\ Forall (fun c => p c = true) w /\ Forall (fun c => p c = true) w'.
Proof.
  destruct (drop_while_spec p s) as (w & Hw & Hp). unfold strip_p, lstrip_p.
  destruct (rstrip_p_spec p (drop_while p s)) as (w' & Hw' & Hp').
  exists w, w'. by rewrite <- Hw', <- Hw.
Qed.

(** ** Splitting *)

(** [s.split(sep)] for a non-empty separator *)
Fixpoint split_go (sep cur : list N) (skip : nat) (s : list N) : list (list N) :=
  match s with
  | [] => [reverse cur]
  | c :: s' =>
      match skip with
      | S k => split_go sep cur k s'
      | 0 => if starts sep s then reverse cur :: split_go sep [] (pred (length sep)) s'
             else split_go sep (c :: cur) 0 s'
      end
  end.
Definition split_on (s sep : list N) : list (list N) := split_go sep [] 0 s.

(** [s.split()]: runs of white space separate the words. *)
Fixpoint words_go (cur s : list N) : list (list N) :=
  match s with
  | [] => match cur with [] => [] | _ => [reverse cur] end
  | c :: s' =>
      if is_uspace c
      then match cur with [] => words_go [] s' | _ => reverse cur :: words_go [] s' end
      else words_go (c :: cur) s'
  end.
Definition split_ws (s : list N) : list (list N) := words_go [] s.

(** [sep.join(l)] *)
Fixpoint join (sep : list N) (l : list (list N)) : list N :=
  match l with
  | [] => []
  | [x] => x
  | x :: l' => x ++ sep ++ join sep l'
  end.

Definition hd_str (l : list (list N)) : list N := default [] (head l).
Definition last_str (l : list (list N)) : list N := default [] (last l).

(** [s.partition(sep)] *)
Definition partition (s sep : list N) : list N * list N * list N :=
  match find_nat sep s with
  | Some i => (take i s, sep, drop (i + length sep) s)
  | None => (s, [], [])
  end.

Lemma split_go_not_nil sep cur k s : split_go sep cur k s <> [].
Proof.
  revert cur k. induction s as [|c s IH]; intros cur k; simpl; [done|].
  destruct k; [|apply IH]. destruct (starts sep (c :: s)); [done | apply IH].
Qed.
Lemma split_go_join c cur s :
  join [c] (split_go [c] cur 0 s) = reverse cur ++ s.
Proof.
  revert cur. induction s as [|d s IH]; intros cur; [by rewrite app_nil_r|].
  simpl. rewrite andb_true_r. destruct (c =c d) eqn:E.
  - apply N.eqb_eq in E as ->.
    destruct (split_go [d] [] 0 s) as [|x l] eqn:E; [by apply split_go_not_nil in E|].
    change (join [d] (reverse cur :: x :: l)) with (reverse cur ++ [d] ++ join [d] (x :: l)).
    by rewrite <- E, IH.
  - rewrite IH. rewrite reverse_cons, <- app_assoc. done.
Qed.
(** Joining with a character undoes the split at that character. *)
Lemma split_on_join c s : join [c] (split_on s [c]) = s.
Proof. apply split_go_join. Qed.

Lemma split_go_pieces c cur s :
  c ∉ cur -> Forall (fun x => c ∉ x) (split_go [c] cur 0 s).
Proof.
  revert cur. induction s as [|d s IH]; intros cur Hc; cbn [split_go starts length pred].
  - constructor; [by rewrite elem_of_reverse|constructor].
  - rewrite andb_true_r. destruct (N.eqb_spec c d) as [->|Hd].
    + constructor; [by rewrite elem_of_reverse|]. apply IH. apply not_elem_of_nil.
    + apply IH. by apply not_elem_of_cons.
Qed.
(** The pieces do not hold the character. *)
Lemma split_on_pieces c s : Forall (fun x => c ∉ x) (split_on s [c]).
Proof. apply split_go_pieces, not_elem_of_nil. Qed.
Lemma join_cons sep x l : l <> [] -> join sep (x :: l) = x ++ sep ++ join sep l.
Proof. by destruct l. Qed.

(** ** Numbers *)

(** ["%d" % z] *)
Definition show_Z (z : Z) : list N := u (pretty z).

Fixpoint digits_val (acc : Z) (s : list N) : option Z :=
  match s with
  | [] => Some acc
  | c :: s' => if is_digit c then digits_val (acc * 10 + (Z.of_N c - 48))%Z s' else None
  end.
(** [int(s)] for a byte string; [None] is a [ValueError]. *)
Definition py_int (s : list N) : option Z :=
  match strip_bytes s with
  | [] => None
  | c :: s' =>
      if (c =c ch "-") || (c =c ch "+") then
        match s' with
        | [] => None
        | _ => (if c =c ch "-" then Z.opp else id) <$> digits_val 0 s'
        end
      else digits_val 0 (c :: s')
  end.

Example py_int_ex : py_int (u" -12 ") = Some (-12)%Z /\ py_int (u"8x") = None.
Proof. split; reflexivity. Qed.
Example show_Z_ex : show_Z (-120) = u"-120".
Proof. reflexivity. Qed.
Example count_ex : count (u"aaaa") (u"aa") = 2%Z.
Proof. reflexivity. Qed.
Example split_ex : split_on (u"a::b::c") (u"::") = [u"a"; u"b"; u"c"].
Proof. reflexivity. Qed.

(** ** The Unicode database

    Case mapping, digits, normalisation and width of characters beyond ASCII are
    tables of the [unicodedata] module; the model takes them as an interface
    and relies only on what they say of ASCII. *)

Class UnicodeDB := {
  udb_lower : N -> N;
  udb_digit : N -> bool;
  udb_nfc : list N -> list N;
  udb_wide : N -> bool;          (* east_asian_width in ('W', 'F') *)
  udb_combining : N -> bool      (* combining(c) != 0 *)
}.
Definition is_ascii (c : N) : bool := N.ltb c 128.
Class UnicodeDBOk (U : UnicodeDB) := {
  udb_lower_ascii c : is_ascii c = true -> udb_lower c = to_lower c;
  udb_digit_ascii c : is_ascii c = true -> udb_digit c = is_digit c;
  udb_nfc_ascii s : forallb is_ascii s = true -> udb_nfc s = s;
  udb_wide_ascii c : is_ascii c = true -> udb_wide c = false;
  udb_combining_ascii c : is_ascii c = true -> udb_combining c = false
}.

(** [s.lower()] *)
Definition lower `{UnicodeDB} (s : list N) : list N := udb_lower <$> s.

(** [s.isdigit()], false of the empty string. *)
Definition isdigit `{UnicodeDB} (s : list N) : bool :=
  match s with [] => false | _ => forallb udb_digit s end.

(** A database that knows ASCII only, for the witnesses. *)
Definition ascii_db : UnicodeDB :=
  {| udb_lower := to_lower; udb_digit := is_digit; udb_nfc := id; udb_wide := fun _ => false;
     udb_combining := fun _ => false |}.
#[export] Instance ascii_db_ok : UnicodeDBOk ascii_db.
Proof. by split. Qed.

(** The order of strings: [a < b], code point by code point. *)
Fixpoint str_ltb (a b : list N) : bool :=
  match a, b with
  | _, [] => false
  | [], _ :: _ => true
  | x :: a', y :: b' => N.ltb x y || ((x =c y) && str_ltb a' b')
  end.

Lemma str_ltb_irrefl a : str_ltb a a = false.
Proof. induction a as [|x a IH]; [done|]. simpl. by rewrite N.ltb_irrefl, N.eqb_refl. Qed.
