(* ===== verification/Regex.v ===== *)
(** * Regular expressions

    The scripts are written with Python's [re]: every rule is a pattern.  This
    file models the part of [re] they use: the abstract syntax of patterns,
    the backtracking matcher (greedy and lazy repetition, groups, lookahead,
    anchors, word boundaries) and the zero-width guard of its loops.

    The matcher is proved against a declarative semantics [den]: whatever it
    returns is a derivation ([m_sound]), and it fails only when there is none
    ([m_complete]).  The repetition loop carries fuel; completeness shows that
    the fuel it starts with is always enough. *)

From S2P Require Import Prelude PyStr.
From Stdlib Require Import Ascii.

(** ** Syntax *)

Inductive cclass := CDigit | CSpace | CWord.
Inductive citem :=
  | CRange (lo hi : N)
  | CCls (neg : bool) (k : cclass).

Inductive re :=
  | REps
  | RChr (c : N)
  | RAny
  | RSet (neg : bool) (items : list citem)
  | RBol
  | REol
  | REos
  | RWordB (neg : bool)
  | RSeq (r1 r2 : re)
  | RAlt (r1 r2 : re)
  | RRep (greedy : bool) (mn : nat) (mx : option nat) (r : re)
  | RGrp (n : nat) (r : re)
  | RLook (neg : bool) (r : re).

(** [re.I] and [re.M] *)
Record flags := Flags { f_icase : bool; f_mline : bool }.
Definition no_flags := Flags false false.

(** ** Positions and captures

    A position in the subject splits it; [zpre] is reversed. *)

Record zs := Zs { zpre : list N; zpost : list N }.
Definition pos (z : zs) : nat := length (zpre z).
Definition caps := list (option (nat * nat)).

Definition cls_ok (k : cclass) (c : N) : bool :=
  match k with
  | CDigit => is_digit c
  | CSpace => is_ascii_space c
  | CWord => is_word c
  end.
Definition item_ok (fl : flags) (c : N) (i : citem) : bool :=
  match i with
  | CRange lo hi =>
      between lo hi c
      || (f_icase fl && (between lo hi (to_lower c) || between lo hi (to_upper c)))
  | CCls neg k => xorb neg (cls_ok k c)
  end.
Definition set_ok (fl : flags) (neg : bool) (items : list citem) (c : N) : bool :=
  xorb neg (existsb (item_ok fl c) items).
Definition chr_ok (fl : flags) (a c : N) : bool :=
  (a =c c) || (f_icase fl && (to_lower a =c to_lower c)).
Definition any_ok (c : N) : bool := negb (c =c 10%N).

Definition word_at (o : option N) : bool :=
  match o with Some c => is_word c | None => false end.
Definition at_wordb (z : zs) : bool :=
  xorb (word_at (head (zpre z))) (word_at (head (zpost z))).
Definition at_bol (fl : flags) (z : zs) : bool :=
  match zpre z with
  | [] => true
  | c :: _ => f_mline fl && (c =c 10%N)
  end.
Definition at_eol (fl : flags) (z : zs) : bool :=
  match zpost z with
  | [] => true
  | c :: t => (c =c 10%N) && (f_mline fl || match t with [] => true | _ => false end)
  end.
Definition at_eos (z : zs) : bool :=
  match zpost z with [] => true | _ => false end.

(** The character test of a one-character pattern, when it is one. *)
Definition one_char (fl : flags) (r : re) : option (N -> bool) :=
  match r with
  | RChr a => Some (chr_ok fl a)
  | RAny => Some any_ok
  | RSet neg items => Some (set_ok fl neg items)
  | _ => None
  end.
(** The test of a zero-width assertion, when it is one. *)
Definition zero_width (fl : flags) (r : re) : option (zs -> bool) :=
  match r with
  | REps => Some (fun _ => true)
  | RBol => Some (at_bol fl)
  | REol => Some (at_eol fl)
  | REos => Some at_eos
  | RWordB neg => Some (fun z => xorb neg (at_wordb z))
  | _ => None
  end.

(** ** The matcher

    [m r z g k] matches [r] at [z] and hands the positions it can end at to
    [k], in the order of [re]'s backtracking, until [k] succeeds. *)

Definition cont := zs -> caps -> option (zs * caps).

Definition step_char (p : N -> bool) (z : zs) (g : caps) (k : cont) : option (zs * caps) :=
  match zpost z with
  | c :: t => if p c then k (Zs (c :: zpre z) t) g else None
  | [] => None
  end.

Definition orelse {A} (a : option A) (b : unit -> option A) : option A :=
  match a with Some x => Some x | None => b tt end.

Definition max_left (mx : option nat) : bool :=
  match mx with Some 0 => false | _ => true end.
Definition max_pred (mx : option nat) : option nat := pred <$> mx.

(** The repetition loop: [mn] iterations are mandatory; after them an
    iteration is tried while the maximum allows it and the position moved
    since the last one started. *)
Fixpoint rep (body : zs -> caps -> cont -> option (zs * caps)) (greedy : bool) (k : cont)
    (fuel mn : nat) (mx last : option nat) (z : zs) (g : caps) : option (zs * caps) :=
  match fuel with
  | 0 => None
  | S fuel' =>
      match mn with
      | S mn' => body z g (fun z' g' => rep body greedy k fuel' mn' (max_pred mx) last z' g')
      | 0 =>
          let here := Some (length (zpost z)) in
          let more (_ : unit) :=
            if max_left mx && negb (bool_decide (last = here))
            then body z g (fun z' g' => rep body greedy k fuel' 0 (max_pred mx) here z' g')
            else None in
          if greedy then orelse (more tt) (fun _ => k z g)
          else orelse (k z g) more
      end
  end.

Definition set_cap (n : nat) (a b : nat) (g : caps) : caps :=
  <[n := Some (a, b)]> g.

Fixpoint m (fl : flags) (r : re) (z : zs) (g : caps) (k : cont) : option (zs * caps) :=
  match r with
  | REps => k z g
  | RChr a => step_char (chr_ok fl a) z g k
  | RAny => step_char any_ok z g k
  | RSet neg items => step_char (set_ok fl neg items) z g k
  | RBol => if at_bol fl z then k z g else None
  | REol => if at_eol fl z then k z g else None
  | REos => if at_eos z then k z g else None
  | RWordB neg => if xorb neg (at_wordb z) then k z g else None
  | RSeq r1 r2 => m fl r1 z g (fun z' g' => m fl r2 z' g' k)
  | RAlt r1 r2 => orelse (m fl r1 z g k) (fun _ => m fl r2 z g k)
  | RRep greedy mn mx r1 =>
      rep (m fl r1) greedy k (mn + length (zpost z) + 1) mn mx None z g
  | RGrp n r1 => m fl r1 z g (fun z' g' => k z' (set_cap n (pos z) (pos z') g'))
  | RLook neg r1 =>
      match m fl r1 z g (fun z' g' => Some (z', g')) with
      | Some (_, g') => if neg then None else k z g'
      | None => if neg then k z g else None
      end
  end.

(** ** Declarative semantics *)

Inductive iter (R : zs -> caps -> zs -> caps -> Prop) : nat -> zs -> caps -> zs -> caps -> Prop :=
  | iter_O z g : iter R 0 z g z g
  | iter_S n z g z1 g1 z2 g2 :
      R z g z1 g1 -> iter R n z1 g1 z2 g2 -> iter R (S n) z g z2 g2.

Definition le_max (n : nat) (mx : option nat) : Prop :=
  match mx with Some k => n <= k | None => True end.

Definition den_char (p : N -> bool) (z : zs) (g : caps) (z' : zs) (g' : caps) : Prop :=
  exists c t, zpost z = c :: t /\ p c = true /\ z' = Zs (c :: zpre z) t /\ g' = g.
Definition den_zw (p : zs -> bool) (z : zs) (g : caps) (z' : zs) (g' : caps) : Prop :=
  p z = true /\ z' = z /\ g' = g.

Fixpoint den (fl : flags) (r : re) (z : zs) (g : caps) (z' : zs) (g' : caps) : Prop :=
  match r with
  | REps => den_zw (fun _ => true) z g z' g'
  | RChr a => den_char (chr_ok fl a) z g z' g'
  | RAny => den_char any_ok z g z' g'
  | RSet neg items => den_char (set_ok fl neg items) z g z' g'
  | RBol => den_zw (at_bol fl) z g z' g'
  | REol => den_zw (at_eol fl) z g z' g'
  | REos => den_zw at_eos z g z' g'
  | RWordB neg => den_zw (fun z => xorb neg (at_wordb z)) z g z' g'
  | RSeq r1 r2 => exists z1 g1, den fl r1 z g z1 g1 /\ den fl r2 z1 g1 z' g'
  | RAlt r1 r2 => den fl r1 z g z' g' \/ den fl r2 z g z' g'
  | RRep _ mn mx r1 => exists n, mn <= n /\ le_max n mx /\ iter (den fl r1) n z g z' g'
  | RGrp n r1 => exists g1, den fl r1 z g z' g1 /\ g' = set_cap n (pos z) (pos z') g1
  | RLook false r1 => (exists z1, den fl r1 z g z1 g') /\ z' = z
  | RLook true r1 => ~ (exists z1 g1, den fl r1 z g z1 g1) /\ z' = z /\ g' = g
  end.

(** [z'] is [z] with some characters consumed. *)
Definition advances (z z' : zs) : Prop :=
  exists w, zpost z = w ++ zpost z' /\ zpre z' = reverse w ++ zpre z.

Lemma advances_refl z : advances z z.
Proof. by exists []. Qed.
Lemma advances_trans z1 z2 z3 : advances z1 z2 -> advances z2 z3 -> advances z1 z3.
Proof.
  intros (w & Hw & Hp) (v & Hv & Hq). exists (w ++ v).
  rewrite Hw, Hv, Hq, Hp, reverse_app. by rewrite <- !app_assoc.
Qed.
Lemma advances_length z z' : advances z z' -> length (zpost z') <= length (zpost z).
Proof. intros (w & -> & _). rewrite length_app. lia. Qed.
Lemma advances_same z z' :
  advances z z' -> length (zpost z') = length (zpost z) -> z' = z.
Proof.
  destruct z, z'. intros (w & Hw & Hp) Hl. simpl in *. subst.
  rewrite length_app in Hl. assert (w = []) as -> by (apply nil_length_inv; lia). done.
Qed.
#[export] Hint Resolve advances_refl : py.

Lemma iter_advances R n z g z' g' :
  (forall z g z' g', R z g z' g' -> advances z z') ->
  iter R n z g z' g' -> advances z z'.
Proof.
  intros HR. induction 1; [apply advances_refl|].
  eapply advances_trans; [by eapply HR | done].
Qed.

Lemma den_char_advances p z g z' g' : den_char p z g z' g' -> advances z z'.
Proof. intros (c & t & Hz & _ & -> & _). by exists [c]. Qed.

Lemma den_advances fl r z g z' g' : den fl r z g z' g' -> advances z z'.
Proof.
  revert z g z' g'.
  induction r as [| | | | | | | |r1 IH1 r2 IH2|r1 IH1 r2 IH2|gr mn mx r1 IH|k r1 IH|[] r1 IH];
    intros z g z' g' H; simpl in H; unfold den_zw in H;
    try (destruct H as (_ & -> & _); apply advances_refl);
    try (by eapply den_char_advances).
  - destruct H as (z1 & g1 & ? & ?). eauto using advances_trans.
  - destruct H; eauto.
  - destruct H as (n & _ & _ & H). by eapply iter_advances.
  - destruct H as (g1 & H & _). eauto.
  - destruct H as [_ ->]. apply advances_refl.
Qed.

(** Captures never decide whether a pattern matches. *)
Lemma iter_caps R n z g z' g' :
  (forall z g z' g', R z g z' g' -> forall g2, exists g2', R z g2 z' g2') ->
  iter R n z g z' g' -> forall g2, exists g2', iter R n z g2 z' g2'.
Proof.
  intros HR. induction 1 as [z g|n z g z1 g1 z2 g2 H1 H2 IH]; intros g3.
  - exists g3. constructor.
  - destruct (HR _ _ _ _ H1 g3) as [g4 H4]. destruct (IH g4) as [g5 H5].
    exists g5. by econstructor.
Qed.
Lemma den_caps fl r z g z' g' :
  den fl r z g z' g' -> forall g2, exists g2', den fl r z g2 z' g2'.
Proof.
  revert z g z' g'.
  induction r as [| | | | | | | |r1 IH1 r2 IH2|r1 IH1 r2 IH2|gr mn mx r1 IH|k r1 IH|[] r1 IH];
    intros z g z' g' H g2; simpl in *; unfold den_zw, den_char in *;
    try (destruct H as (? & -> & ->); by eauto);
    try (destruct H as (? & ? & ? & ? & -> & ->); by eauto 10).
  - destruct H as (z1 & g1 & H1 & H2).
    destruct (IH1 _ _ _ _ H1 g2) as [g3 ?]. destruct (IH2 _ _ _ _ H2 g3) as [g4 ?]. eauto.
  - destruct H as [H|H]; [destruct (IH1 _ _ _ _ H g2)|destruct (IH2 _ _ _ _ H g2)]; eauto.
  - destruct H as (n & ? & ? & H). destruct (iter_caps _ _ _ _ _ _ IH H g2). eauto.
  - destruct H as (g1 & H & _). destruct (IH _ _ _ _ H g2). eauto.
  - destruct H as (H & -> & ->). exists g2. repeat split. intros (z1 & g1 & H1).
    destruct (IH _ _ _ _ H1 g). eauto.
  - destruct H as ([z1 H] & ->). destruct (IH _ _ _ _ H g2). eauto.
Qed.

(** ** Soundness and completeness of the matcher *)

Definition sound fl r := forall z g k x,
  m fl r z g k = Some x -> exists z' g', den fl r z g z' g' /\ k z' g' = Some x.
Definition reach fl r z z' := exists g g', den fl r z g z' g'.
Definition complete fl r := forall z z' g k,
  reach fl r z z' -> (forall g', is_Some (k z' g')) -> is_Some (m fl r z g k).

Lemma orelse_Some {A} (a : option A) b x :
  orelse a b = Some x -> a = Some x \/ b tt = Some x.
Proof. destruct a; simpl; [intros [= ->]|]; auto. Qed.
Lemma orelse_is_Some_l {A} (a : option A) b : is_Some a -> is_Some (orelse a b).
Proof. intros [x ->]. by exists x. Qed.
Lemma orelse_is_Some_r {A} (a : option A) b : is_Some (b tt) -> is_Some (orelse a b).
Proof. destruct a; simpl; [by eexists | done]. Qed.

Lemma step_char_sound p z g k x :
  step_char p z g k = Some x ->
  exists z' g', den_char p z g z' g' /\ k z' g' = Some x.
Proof.
  unfold step_char, den_char. destruct (zpost z) as [|c t] eqn:E; [done|].
  destruct (p c) eqn:Hp; [|done]. intros H. eauto 15.
Qed.
Lemma step_char_complete p z z' g k :
  (exists g1 g2, den_char p z g1 z' g2) -> (forall g', is_Some (k z' g')) ->
  is_Some (step_char p z g k).
Proof.
  intros (g1 & g2 & c & t & Hz & Hp & -> & _) Hk. unfold step_char.
  rewrite Hz, Hp. apply Hk.
Qed.

Lemma rep_sound fl r gr k fuel : sound fl r -> forall mn mx last z g x,
  rep (m fl r) gr k fuel mn mx last z g = Some x ->
  exists n z' g', mn <= n /\ (le_max mn mx -> le_max n mx)
    /\ iter (den fl r) n z g z' g' /\ k z' g' = Some x.
Proof.
  intros Hs. induction fuel as [|fuel IH]; intros mn mx last z g x; [done|].
  destruct mn as [|mn]; simpl.
  - set (here := Some (length (zpost z))).
    set (more := if max_left mx && negb (bool_decide (last = here)) then _ else _).
    intros H. assert (more = Some x \/ k z g = Some x) as [Hb|Hk].
    { destruct gr; apply orelse_Some in H; tauto. }
    + subst more. destruct (max_left mx && _) eqn:Hml; [|done].
      apply andb_true_iff in Hml as [Hml _].
      apply Hs in Hb as (z1 & g1 & H1 & Hr).
      apply IH in Hr as (n & z' & g' & _ & Hn & Hi & Hk).
      exists (S n), z', g'. repeat split; [lia| |by econstructor|done].
      intros _. destruct mx as [[|mx]|]; simpl in *; [done| |done].
      apply le_n_S, Hn. lia.
    + exists 0, z, g. repeat split; [done | done | constructor | done].
  - intros H. apply Hs in H as (z1 & g1 & H1 & Hr).
    apply IH in Hr as (n & z' & g' & Hmn & Hn & Hi & Hk).
    exists (S n), z', g'. repeat split; [lia| |by econstructor|done].
    destruct mx as [[|mx]|]; simpl in *; [lia| |done].
    intros Hle. apply le_n_S, Hn. lia.
Qed.

(** Iterations of the reachability relation, without captures; [steps_ne]
    counts the iterations that consume something. *)
Inductive steps (R : zs -> zs -> Prop) : nat -> zs -> zs -> Prop :=
  | steps_O z : steps R 0 z z
  | steps_S n z z1 z2 : R z z1 -> steps R n z1 z2 -> steps R (S n) z z2.
Inductive steps_ne (R : zs -> zs -> Prop) : nat -> zs -> zs -> Prop :=
  | ne_O z : steps_ne R 0 z z
  | ne_S n z z1 z2 :
      R z z1 -> length (zpost z1) < length (zpost z) -> steps_ne R n z1 z2 ->
      steps_ne R (S n) z z2.

Lemma iter_steps fl r n z g z' g' :
  iter (den fl r) n z g z' g' -> steps (reach fl r) n z z'.
Proof.
  induction 1 as [|n z g z1 g1 z2 g2 H1 _ IH]; [constructor|].
  econstructor; [by exists g, g1 | done].
Qed.
Lemma steps_split fl r i j z z' :
  steps (reach fl r) (i + j) z z' ->
  exists z1, steps (reach fl r) i z z1 /\ steps (reach fl r) j z1 z'.
Proof.
  revert z. induction i as [|i IH]; intros z H; simpl in *.
  - exists z. split; [constructor | done].
  - inversion H as [|? ? z1 ? Hr Hs]; subst. apply IH in Hs as (z2 & ? & ?).
    exists z2. split; [by econstructor | done].
Qed.
Lemma steps_drop_empty fl r n z z' :
  steps (reach fl r) n z z' -> exists j, j <= n /\ steps_ne (reach fl r) j z z'.
Proof.
  induction 1 as [z|n z z1 z2 H1 _ (j & Hj & IH)].
  - exists 0. split; [done | constructor].
  - pose proof H1 as (g & g' & Hd). apply den_advances in Hd.
    pose proof (advances_length _ _ Hd).
    destruct (decide (length (zpost z1) = length (zpost z))) as [E|E].
    + apply (advances_same _ _ Hd) in E as ->. exists j. split; [lia | done].
    + exists (S j). split; [lia|]. econstructor; [done | lia | done].
Qed.

Lemma rep_more_complete fl r gr k : complete fl r ->
  forall j z z', steps_ne (reach fl r) j z z' -> (forall g, is_Some (k z' g)) ->
  forall fuel mx last g, le_max j mx -> length (zpost z) < fuel ->
    (forall L, last = Some L -> length (zpost z) < L) ->
    is_Some (rep (m fl r) gr k fuel 0 mx last z g).
Proof.
  intros Hc j z z' Hst Hk. induction Hst as [z|j z z1 z2 H1 Hlt _ IH];
    intros fuel mx last g Hmx Hf Hl; (destruct fuel as [|fuel]; [lia|]); simpl.
  - destruct gr; [apply orelse_is_Some_r | apply orelse_is_Some_l]; apply Hk.
  - assert (bool_decide (last = Some (length (zpost z))) = false) as Hb.
    { apply bool_decide_eq_false. intros E. specialize (Hl _ E). lia. }
    destruct gr; [apply orelse_is_Some_l | apply orelse_is_Some_r];
      rewrite Hb, andb_true_r; (destruct mx as [[|mx]|]; simpl in *; [lia| |]);
      (eapply Hc; [exact H1|]; intros g'; apply IH; [done | simpl; lia | lia|]);
      intros L [= <-]; lia.
Qed.

Lemma rep_complete fl r gr k : complete fl r ->
  forall mn z z1 z', steps (reach fl r) mn z z1 ->
  forall j, steps_ne (reach fl r) j z1 z' -> (forall g, is_Some (k z' g)) ->
  forall fuel mx g, le_max (mn + j) mx -> mn + length (zpost z) < fuel ->
    is_Some (rep (m fl r) gr k fuel mn mx None z g).
Proof.
  intros Hc mn z z1 z' Hst j Hne Hk.
  induction Hst as [z|mn z z2 z1 H1 _ IH]; intros fuel mx g Hmx Hf.
  - eapply rep_more_complete; [done..| lia | done].
  - destruct fuel as [|fuel]; [lia|]. simpl. eapply Hc; [exact H1|].
    intros g'. apply IH; [done | destruct mx; simpl in *; lia|].
    destruct H1 as (? & ? & Hd). apply den_advances, advances_length in Hd. lia.
Qed.

Lemma look_found fl r z g :
  sound fl r -> complete fl r ->
  (exists z' g', m fl r z g (fun z' g' => Some (z', g')) = Some (z', g') /\ den fl r z g z' g')
  \/ (m fl r z g (fun z' g' => Some (z', g')) = None /\ ~ exists z' g', den fl r z g z' g').
Proof.
  intros Hs Hc. destruct (m fl r z g _) as [[z' g']|] eqn:E.
  - left. pose proof E as E'. apply Hs in E' as (z1 & g1 & Hd & [= -> ->]). eauto.
  - right. split; [done|]. intros (z' & g' & Hd).
    assert (is_Some (m fl r z g (fun z' g' => Some (z', g')))) as [x Hx].
    { eapply Hc; [by exists g, g'|]. intros g2. by eexists. }
    congruence.
Qed.

(** The two directions of the loop, for the pattern [RRep]. *)
Lemma sound_rep fl gr mn mx r : sound fl r -> le_max mn mx -> sound fl (RRep gr mn mx r).
Proof.
  intros Hs Hm z g k x H. apply (rep_sound _ _ _ _ _ Hs) in H
    as (n & z' & g' & ? & Hn & Hi & ?).
  exists z', g'. split; [|done]. exists n. auto.
Qed.
Lemma complete_rep fl gr mn mx r : complete fl r -> complete fl (RRep gr mn mx r).
Proof.
  intros Hc z z' g k (g1 & g2 & n & Hmn & Hmx & Hi) Hk.
  apply iter_steps in Hi. replace n with (mn + (n - mn)) in Hi by lia.
  apply steps_split in Hi as (z1 & H1 & H2).
  apply steps_drop_empty in H2 as (j & Hj & H2).
  eapply rep_complete; [done..| |lia].
  destruct mx; simpl in *; lia.
Qed.

(** Every repetition of the pattern has its minimum below its maximum. *)
Fixpoint wf_re (r : re) : Prop :=
  match r with
  | RSeq r1 r2 | RAlt r1 r2 => wf_re r1 /\ wf_re r2
  | RRep _ mn mx r1 => le_max mn mx /\ wf_re r1
  | RGrp _ r1 | RLook _ r1 => wf_re r1
  | _ => True
  end.

Lemma m_sound_complete fl r : wf_re r -> sound fl r /\ complete fl r.
Proof.
  induction r as [| | | | | | | |r1 IH1 r2 IH2|r1 IH1 r2 IH2|gr mn mx r1 IH|n r1 IH|b r1 IH];
    intros Hwf; simpl in Hwf.
  all: try (split; [intros z g k x H; simpl in *; unfold den_zw;
         try case_bool; [by eauto 10 | done]
       |intros z z' g k (g1 & g2 & Hp & -> & ->) Hk; simpl in *; rewrite ?Hp; apply Hk]; fail).
  all: try (split; [intros z g k x H; apply step_char_sound, H
       |intros z z' g k H Hk; eapply step_char_complete; [exact H | done]]; fail).
  - split; [|intros z z' g k (g1 & g2 & _ & -> & ->) Hk; apply Hk].
    intros z g k x H. exists z, g. done.
  - destruct Hwf as [W1 W2]. destruct (IH1 W1) as [S1 C1], (IH2 W2) as [S2 C2]. split.
    + intros z g k x H. apply S1 in H as (z1 & g1 & H1 & H).
      apply S2 in H as (z2 & g2 & H2 & H). exists z2, g2. split; [by exists z1, g1 | done].
    + intros z z' g k (g1 & g2 & z1 & g3 & H1 & H2) Hk. simpl.
      eapply C1; [by exists g1, g3|]. intros g4. eapply C2; [by exists g3, g2 | done].
  - destruct Hwf as [W1 W2]. destruct (IH1 W1) as [S1 C1], (IH2 W2) as [S2 C2]. split.
    + intros z g k x H. simpl in H. apply orelse_Some in H as [H|H];
        [apply S1 in H | apply S2 in H]; destruct H as (z1 & g1 & ? & ?);
        exists z1, g1; simpl; auto.
    + intros z z' g k (g1 & g2 & [H|H]) Hk; simpl;
        [apply orelse_is_Some_l, (C1 z z') | apply orelse_is_Some_r, (C2 z z')]; try done;
        by exists g1, g2.
  - destruct Hwf as [Hm W]. destruct (IH W).
    split; [by apply sound_rep | by apply complete_rep].
  - destruct (IH Hwf) as [Hs Hc]. split.
    + intros z g k x H. apply Hs in H as (z' & g' & Hd & H).
      exists z', (set_cap n (pos z) (pos z') g'). split; [by exists g' | done].
    + intros z z' g k (g1 & g2 & g3 & Hd & _) Hk. simpl.
      eapply Hc; [by exists g1, g3 | intros; apply Hk].
  - destruct (IH Hwf) as [Hs Hc]. split.
    + intros z g k x H. simpl in H.
      destruct (look_found fl r1 z g Hs Hc) as [(z' & g' & E & Hd)|[E Hd]];
        rewrite E in H; destruct b; try done.
      * exists z, g'. split; [|done]. split; [by exists z' | done].
      * exists z, g. split; [|done]. by repeat split.
    + intros z z' g k (g1 & g2 & Hd) Hk. simpl.
      destruct (look_found fl r1 z g Hs Hc) as [(z1 & g' & E & H1)|[E Hn]];
        rewrite E; destruct b; simpl in Hd.
      * destruct Hd as (Hd & _). destruct Hd.
        destruct (den_caps _ _ _ _ _ _ H1 g1). eauto.
      * destruct Hd as (_ & ->). apply Hk.
      * destruct Hd as (_ & -> & _). apply Hk.
      * destruct Hd as ([z1 Hd] & _). destruct Hn.
        destruct (den_caps _ _ _ _ _ _ Hd g). eauto.
Qed.

(** ** Reading derivations

    The derivations of a repeated one-character pattern are runs of
    characters. *)

Lemma den_one_char fl r p z g z' g' :
  one_char fl r = Some p -> den fl r z g z' g' <-> den_char p z g z' g'.
Proof. destruct r; simpl; try done; by intros [= <-]. Qed.

Lemma iter_one_char fl r p n z g z' g' :
  one_char fl r = Some p ->
  iter (den fl r) n z g z' g' <->
  exists w, length w = n /\ Forall (fun c => p c = true) w /\ zpost z = w ++ zpost z'
    /\ zpre z' = reverse w ++ zpre z /\ g' = g.
Proof.
  intros Hp. split.
  - induction 1 as [z g|n z g z1 g1 z2 g2 H1 _ (w & <- & Hw & E1 & E2 & ->)];
      [by exists []|].
    rewrite (den_one_char _ _ _ _ _ _ _ Hp) in H1. destruct H1 as (c & t & Hz & Hc & -> & ->).
    simpl in *. subst t. exists (c :: w). rewrite reverse_cons, <- app_assoc.
    split; [done|]. split; [by constructor|]. done.
  - intros (w & <- & Hw & E1 & E2 & ->). revert z E1 E2.
    induction Hw as [|c w Hc Hw IH]; intros z E1 E2.
    + destruct z, z'. simpl in *. subst. constructor.
    + econstructor; [apply (den_one_char _ _ _ _ _ _ _ Hp); by exists c, (w ++ zpost z')|].
      apply IH; [done|]. simpl. by rewrite E2, reverse_cons, <- app_assoc.
Qed.

Lemma den_rep_char fl gr mn mx r p z g z' g' :
  one_char fl r = Some p ->
  den fl (RRep gr mn mx r) z g z' g' <->
  exists w, mn <= length w /\ le_max (length w) mx /\ Forall (fun c => p c = true) w
    /\ zpost z = w ++ zpost z' /\ zpre z' = reverse w ++ zpre z /\ g' = g.
Proof.
  intros Hp. simpl. setoid_rewrite (iter_one_char _ _ _ _ _ _ _ _ Hp). naive_solver.
Qed.

Lemma zs_eta z pre post : zpre z = pre -> zpost z = post -> z = Zs pre post.
Proof. by destruct z; simpl; intros -> ->. Qed.
