(* ===== verification/RePattern.v ===== *)
(** * Patterns as strings, match objects, and Match / Search / ReplaceAll

    [compile] parses the pattern syntax of [re], so that every pattern of the
    scripts is written here verbatim, as the string it is in the source; [rx]
    is a pattern checked when the definition is typed: it is ill-typed when
    the pattern does not parse.  On top of the matcher: match objects with
    their groups, [search], [sub], [finditer], [findall], [re.split] and
    [re.escape]; and the scripts' own [Match], [Search] and [ReplaceAll],
    with their cache of compiled patterns. *)

From S2P Require Import Prelude PyStr Regex.
From Stdlib Require Import Ascii.

(** ** Parsing a pattern *)

Definition is_alpha (c : N) : bool := is_upper c || is_lower c.

(** The meaning of an escaped character: a class or a literal. *)
Definition esc_item (c : N) : option citem :=
  if c =c ch "s" then Some (CCls false CSpace)
  else if c =c ch "S" then Some (CCls true CSpace)
  else if c =c ch "w" then Some (CCls false CWord)
  else if c =c ch "W" then Some (CCls true CWord)
  else if c =c ch "d" then Some (CCls false CDigit)
  else if c =c ch "D" then Some (CCls true CDigit)
  else if c =c ch "n" then Some (CRange 10 10)
  else if c =c ch "t" then Some (CRange 9 9)
  else if c =c ch "r" then Some (CRange 13 13)
  else if is_alnum c then None
  else Some (CRange c c).

(** The items of a set up to the closing bracket; [first] admits a literal
    bracket. *)
Fixpoint p_set (fuel : nat) (first : bool) (s : list N) (acc : list citem)
    : option (list citem * list N) :=
  match fuel with
  | 0 => None
  | S f =>
      let after (it : citem) (s : list N) :=
        match it, s with
        | CRange lo _, d :: c2 :: s' =>
            if (d =c ch "-") && negb (c2 =c ch "]") then
              if c2 =c ch "\" then
                match s' with
                | c3 :: s'' =>
                    match esc_item c3 with
                    | Some (CRange hi _) => p_set f false s'' (CRange lo hi :: acc)
                    | _ => None
                    end
                | [] => None
                end
              else p_set f false s' (CRange lo c2 :: acc)
            else p_set f false s (it :: acc)
        | _, _ => p_set f false s (it :: acc)
        end in
      match s with
      | [] => None
      | c :: s' =>
          if (c =c ch "]") && negb first then Some (reverse acc, s')
          else if c =c ch "\" then
            match s' with
            | c2 :: s'' =>
                match esc_item c2 with
                | Some it => after it s''
                | None => None
                end
            | [] => None
            end
          else after (CRange c c) s'
      end
  end.

Fixpoint p_digits (s : list N) (acc : option nat) : option nat * list N :=
  match s with
  | c :: s' =>
      if is_digit c
      then p_digits s' (Some (10 * default 0 acc + N.to_nat (c - 48)))
      else (acc, s)
  | [] => (acc, [])
  end.

(** A quantifier at the head of the pattern: its bounds and what follows.
    A brace that starts no quantifier is a literal. *)
Definition p_quant (s : list N) : option (nat * option nat * list N) :=
  match s with
  | c :: s' =>
      if c =c ch "*" then Some (0, None, s')
      else if c =c ch "+" then Some (1, None, s')
      else if c =c ch "?" then Some (0, Some 1, s')
      else if c =c ch "{" then
        if match s' with d :: _ => d =c ch "}" | [] => false end then None else
        let '(lo, s1) := p_digits s' None in
        let '(hi, s2) :=
          match s1 with
          | d :: s1' => if d =c ch "," then p_digits s1' None else (lo, s1)
          | [] => (lo, s1)
          end in
        match s2 with
        | e :: s3 => if e =c ch "}" then Some (default 0 lo, hi, s3) else None
        | [] => None
        end
      else None
  | [] => None
  end.

(** What the last item parsed was: nothing to repeat, repeatable, or a
    repetition (which cannot be repeated again). *)
Inductive last_item := LNone | LItem | LRep.

(** What follows the parser of a branch so far and its last item. *)
Definition seq_re (a b : re) : re :=
  match a, b with REps, _ => b | _, REps => a | _, _ => RSeq a b end.

(** What the parser of an alternation returns: the pattern, the text that is
    left, and the number of groups. *)
Abbreviation parsed := (option (re * list N * nat)).

(** One item of a branch at the head of [s]: the item, what it is, and what is
    left; [alt] parses the inside of a group. *)
Definition p_atom (fuel : nat) (alt : list N -> nat -> parsed) (s : list N) (ng : nat)
    : option (re * last_item * list N * nat) :=
  let group (wrap : re -> re) (s : list N) (ng : nat) :=
    match alt s ng with
    | Some (r, c :: s', ng') => if c =c ch ")" then Some (wrap r, LItem, s', ng') else None
    | _ => None
    end in
  match s with
  | [] => None
  | c :: s' =>
      if (c =c ch "*") || (c =c ch "+") || (c =c ch "?") then None
      else if c =c ch "." then Some (RAny, LItem, s', ng)
      else if c =c ch "^" then Some (RBol, LNone, s', ng)
      else if c =c ch "$" then Some (REol, LNone, s', ng)
      else if c =c ch "[" then
        let '(neg, s1) :=
          match s' with
          | d :: s1 => if d =c ch "^" then (true, s1) else (false, s')
          | [] => (false, s')
          end in
        match p_set fuel true s1 [] with
        | Some (items, s2) => Some (RSet neg items, LItem, s2, ng)
        | None => None
        end
      else if c =c ch "(" then
        match s' with
        | q :: t :: s2 =>
            if q =c ch "?" then
              if t =c ch ":" then group id s2 ng
              else if t =c ch "=" then group (RLook false) s2 ng
              else if t =c ch "!" then group (RLook true) s2 ng
              else None
            else group (RGrp ng) s' (S ng)
        | _ => group (RGrp ng) s' (S ng)
        end
      else if c =c ch "\" then
        match s' with
        | d :: s2 =>
            if d =c ch "b" then Some (RWordB false, LNone, s2, ng)
            else if d =c ch "B" then Some (RWordB true, LNone, s2, ng)
            else if d =c ch "Z" then Some (REos, LNone, s2, ng)
            else match esc_item d with
            | Some (CRange a _) => Some (RChr a, LItem, s2, ng)
            | Some i => Some (RSet false [i], LItem, s2, ng)
            | None => None
            end
        | [] => None
        end
      else Some (RChr c, LItem, s', ng)
  end.

(** The lazy mark behind a quantifier. *)
Definition p_lazy (s : list N) : bool * list N :=
  match s with
  | d :: s' => if d =c ch "?" then (false, s') else (true, s)
  | [] => (true, s)
  end.

(** [p_alt] parses an alternation, [p_seq] a branch of it; [acc] is the
    branch so far, [it] its last item.  [ng] counts the groups. *)
Fixpoint p_alt (fuel : nat) (s : list N) (ng : nat) : parsed :=
  match fuel with
  | 0 => None
  | S f =>
      match p_seq f s ng REps REps LNone with
      | Some (r, c :: s', ng') =>
          if c =c ch "|" then
            match p_alt f s' ng' with
            | Some (r2, s2, ng2) => Some (RAlt r r2, s2, ng2)
            | None => None
            end
          else Some (r, c :: s', ng')
      | o => o
      end
  end
with p_seq (fuel : nat) (s : list N) (ng : nat) (acc it : re) (l : last_item) : parsed :=
  match fuel with
  | 0 => None
  | S f =>
      match s with
      | [] => Some (seq_re acc it, [], ng)
      | c :: s' =>
          if (c =c ch "|") || (c =c ch ")") then Some (seq_re acc it, s, ng)
          else match p_quant s with
          | Some (mn, mx, s1) =>
              let '(greedy, s2) := p_lazy s1 in
              match l with
              | LItem => p_seq f s2 ng acc (RRep greedy mn mx it) LRep
              | _ => None
              end
          | None =>
              match p_atom f (p_alt f) s ng with
              | Some (r, l', s2, ng') => p_seq f s2 ng' (seq_re acc it) r l'
              | None => None
              end
          end
      end
  end.

Fixpoint wf_reb (r : re) : bool :=
  match r with
  | RSeq r1 r2 | RAlt r1 r2 => wf_reb r1 && wf_reb r2
  | RRep _ mn mx r1 => match mx with Some k => mn <=? k | None => true end && wf_reb r1
  | RGrp _ r1 | RLook _ r1 => wf_reb r1
  | _ => true
  end.
Lemma wf_reb_spec r : wf_reb r = true -> wf_re r.
Proof.
  induction r as [| | | | | | | |r1 IH1 r2 IH2|r1 IH1 r2 IH2|gr mn mx r1 IH|n r1 IH|b r1 IH];
    simpl; try done; rewrite ?andb_true_iff; try tauto.
  intros [H ?]. split; [|tauto]. destruct mx; simpl; [by apply Nat.leb_le | done].
Qed.

Record regex := Regex { rx_re : re; rx_flags : flags; rx_groups : nat }.

(** [re.compile(p, flags)]; a leading [(?i)] sets [re.I].  [None] is
    [re.error], or syntax this file does not model. *)
Definition compile_fl (fl : flags) (p : list N) : option regex :=
  let '(fl, s) :=
    if starts (u"(?i)") p then (Flags true (f_mline fl), drop 4 p) else (fl, p) in
  match p_alt (2 + 2 * length s) s 0 with
  | Some (r, [], ng) => if wf_reb r then Some (Regex r fl ng) else None
  | _ => None
  end.
Definition compile := compile_fl no_flags.
Definition compile_res (p : list N) : res regex := of_option ReError (compile p).

Lemma compile_wf fl p r : compile_fl fl p = Some r -> wf_re (rx_re r).
Proof.
  unfold compile_fl. destruct (if starts _ p then _ else _) as [fl' s].
  destruct (p_alt _ _ _) as [[[r' [|? ?]] ng]|]; [|done..].
  destruct (wf_reb r') eqn:E; [|done]. intros [= <-]. by apply wf_reb_spec.
Qed.

(** [re.escape(s)] *)
Definition re_escape (s : list N) : list N :=
  s ≫= fun c => if is_alnum c then [c] else if (c =c 0)%N then u"\000" else [ch "\"; c].

(** ** Patterns built from text

    [parses n l s t]: with fuel [n] or more, the parser reads [s] as the rest
    of a branch whose last item is an [l], and stops at [t]; [alts n s t] says
    the same of alternations. *)
Definition parses (n : nat) (l : last_item) (s t : list N) : Prop :=
  forall f ng acc it, n <= f -> wf_reb acc = true -> wf_reb it = true ->
    exists r ng', p_seq f s ng acc it l = Some (r, t, ng') /\ wf_reb r = true.
Definition alts (n : nat) (s t : list N) : Prop :=
  forall f ng, n <= f ->
    exists r ng', p_alt f s ng = Some (r, t, ng') /\ wf_reb r = true.

Lemma wf_seq_re a b : wf_reb a = true -> wf_reb b = true -> wf_reb (seq_re a b) = true.
Proof. intros Ha Hb. destruct a, b; simpl in *; rewrite ?Ha, ?Hb; done. Qed.

Lemma parses_mono n n' l s t : parses n l s t -> n <= n' -> parses n' l s t.
Proof. intros Hs Hn f ng acc it Hf. apply Hs. lia. Qed.
Lemma alts_mono n n' s t : alts n s t -> n <= n' -> alts n' s t.
Proof. intros Hs Hn f ng Hf. apply Hs. lia. Qed.
Lemma parses_nil l : parses 1 l [] [].
Proof.
  intros [|f] ng acc it Hf Ha Hi; [lia|]. exists (seq_re acc it), ng.
  split; [reflexivity|by apply wf_seq_re].
Qed.
(** A branch ends at a bar and at a closing parenthesis. *)
Definition ends_branch (c : N) : bool := (c =c ch "|") || (c =c ch ")").
Lemma parses_end l c s : ends_branch c = true -> parses 1 l (c :: s) (c :: s).
Proof.
  intros Hc [|f] ng acc it Hf Ha Hi; [lia|]. exists (seq_re acc it), ng.
  split; [|by apply wf_seq_re]. cbn [p_seq]. unfold ends_branch in Hc. by rewrite Hc.
Qed.
Lemma parses_atom n l c s l' s' t :
  ends_branch c = false -> p_quant (c :: s) = None ->
  (forall f ng, n <= f -> exists r ng',
     p_atom f (p_alt f) (c :: s) ng = Some (r, l', s', ng') /\ wf_reb r = true) ->
  parses n l' s' t -> parses (S n) l (c :: s) t.
Proof.
  intros Hc Hq Hat Hs [|f] ng acc it Hf Ha Hi; [lia|].
  destruct (Hat f ng) as (r & ng' & E & W); [lia|].
  destruct (Hs f ng' (seq_re acc it) r) as (r2 & ng2 & E2 & W2);
    [lia|by apply wf_seq_re|done|].
  exists r2, ng2. split; [|done]. cbn [p_seq]. unfold ends_branch in Hc.
  by rewrite Hc, Hq, E.
Qed.
Lemma parses_quant n c s s' mn mx t :
  ends_branch c = false -> p_quant (c :: s) = Some (mn, mx, s') ->
  (match mx with Some k => mn <=? k | None => true end) = true ->
  parses n LRep (snd (p_lazy s')) t -> parses (S n) LItem (c :: s) t.
Proof.
  intros Hc Hq Hm Hs [|f] ng acc it Hf Ha Hi; [lia|].
  destruct (Hs f ng acc (RRep (fst (p_lazy s')) mn mx it)) as (r & ng' & E & W);
    [lia|done|cbn; by rewrite Hm, Hi|].
  exists r, ng'. split; [|done]. cbn [p_seq]. unfold ends_branch in Hc. rewrite Hc, Hq.
  destruct (p_lazy s'). exact E.
Qed.
Lemma alts_branch n s t :
  parses n LNone s t -> match t with c :: _ => (c =c ch "|") = false | [] => True end ->
  alts (S n) s t.
Proof.
  intros Hs Ht [|f] ng Hf; [lia|]. cbn [p_alt].
  destruct (Hs f ng REps REps) as (r & ng' & -> & W); [lia|done..|].
  exists r, ng'. destruct t as [|c t]; [done|]. by rewrite Ht.
Qed.
Lemma alts_bar n s s' t :
  parses n LNone s (ch "|" :: s') -> alts n s' t -> alts (S n) s t.
Proof.
  intros Hs Hr [|f] ng Hf; [lia|]. cbn [p_alt].
  destruct (Hs f ng REps REps) as (r & ng' & -> & W); [lia|done..|].
  destruct (Hr f ng') as (r2 & ng2 & E & W2); [lia|].
  exists (RAlt r r2), ng2. rewrite E. simpl. by rewrite W, W2.
Qed.
(** A group. *)
Lemma parses_group n l c d s s' t :
  (c =c ch "?") = false -> alts n (c :: d :: s) (ch ")" :: s') ->
  parses n LItem s' t -> parses (S n) l (ch "(" :: c :: d :: s) t.
Proof.
  intros Hc Hg. apply parses_atom; [done..|].
  intros f ng Hf. destruct (Hg f (S ng) Hf) as (r & ng' & E & W).
  exists (RGrp ng r), ng'. split; [|exact W].
  transitivity (if c =c ch "?" then
      if d =c ch ":" then
        match p_alt f s ng with
        | Some (r, c :: s', ng') => if c =c ch ")" then Some (id r, LItem, s', ng') else None
        | _ => None
        end
      else if d =c ch "=" then
        match p_alt f s ng with
        | Some (r, c :: s', ng') =>
            if c =c ch ")" then Some (RLook false r, LItem, s', ng') else None
        | _ => None
        end
      else if d =c ch "!" then
        match p_alt f s ng with
        | Some (r, c :: s', ng') =>
            if c =c ch ")" then Some (RLook true r, LItem, s', ng') else None
        | _ => None
        end
      else None
    else
      match p_alt f (c :: d :: s) (S ng) with
      | Some (r, c :: s', ng') => if c =c ch ")" then Some (RGrp ng r, LItem, s', ng') else None
      | _ => None
      end); [reflexivity|]. by rewrite Hc, E.
Qed.
(** A character with no meaning of its own. *)
Definition literal_char (c : N) : bool := negb (in_chars c (u"|)*+?.^$[({\")).
Lemma literal_char_ne c d : literal_char c = true -> d ∈ u"|)*+?.^$[({\" -> (c =c d) = false.
Proof.
  intros Hc%negb_true_iff%in_chars_false Hd. apply N.eqb_neq. by intros ->.
Qed.
Lemma parses_char n l c s t :
  literal_char c = true -> parses n LItem s t -> parses (S n) l (c :: s) t.
Proof.
  intros Hc. pose proof (fun d => literal_char_ne c d Hc) as H.
  apply parses_atom.
  - unfold ends_branch. by rewrite !H by (apply in_chars_spec; reflexivity).
  - unfold p_quant. by repeat (rewrite H by (apply in_chars_spec; reflexivity)).
  - intros f ng _. exists (RChr c), ng. split; [|done]. unfold p_atom.
    by repeat (rewrite H by (apply in_chars_spec; reflexivity)).
Qed.
Lemma parses_text n w s t :
  forallb literal_char w = true -> (forall l, parses n l s t) ->
  forall l, parses (length w + n) l (w ++ s) t.
Proof.
  intros Hw Hs. induction w as [|c w IH]; [exact Hs|]. intros l.
  simpl in Hw. apply andb_true_iff in Hw as [Hc Hw]. by apply parses_char, IH.
Qed.
(** An escaped character. *)
Lemma parses_escaped n l c s t :
  is_alnum c = false -> parses n LItem s t -> parses (S n) l (ch "\" :: c :: s) t.
Proof.
  intros Hc. apply parses_atom; [done..|].
  intros f ng _. exists (RChr c), ng. split; [|done].
  assert (forall d, is_alnum d = true -> (c =c d) = false) as H.
  { intros d Hd. apply N.eqb_neq. intros ->. congruence. }
  transitivity (
    if c =c ch "b" then Some (RWordB false, LNone, s, ng)
    else if c =c ch "B" then Some (RWordB true, LNone, s, ng)
    else if c =c ch "Z" then Some (REos, LNone, s, ng)
    else match esc_item c with
    | Some (CRange a _) => Some (RChr a, LItem, s, ng)
    | Some i => Some (RSet false [i], LItem, s, ng)
    | None => None
    end); [reflexivity|].
  unfold esc_item. rewrite Hc. by rewrite !H by reflexivity.
Qed.
(** An escaped text is a pattern, whatever the text is (without NUL, which
    is escaped as an octal number). *)
Lemma parses_re_escape n w s t :
  (forall l, parses n l s t) -> 0%N ∉ w ->
  forall l, parses (length w + n) l (re_escape w ++ s) t.
Proof.
  intros Hs. induction w as [|c w IH]; intros H0 l; [apply Hs|].
  unfold re_escape. cbn [mbind list_bind]. fold (re_escape w).
  destruct (is_alnum c) eqn:Ec.
  - apply parses_char; [|apply IH; set_solver].
    unfold literal_char. apply negb_true_iff, in_chars_false. intros Hin.
    apply in_chars_spec in Hin. unfold in_chars in Hin. apply existsb_exists in Hin as (d & Hd & E).
    apply N.eqb_eq in E as <-. repeat (destruct Hd as [<-|Hd]; [by vm_compute in Ec|]). done.
  - destruct (N.eqb_spec c 0) as [->|_]; [set_solver|].
    apply parses_escaped; [done|]. apply IH. set_solver.
Qed.
(** A pattern that is read to its end compiles. *)
Lemma parses_compile n p :
  parses n LNone p [] -> n <= 2 * length p -> starts (u"(?i)") p = false ->
  exists r, compile p = Some r.
Proof.
  intros Hp Hn Hi. unfold compile, compile_fl. rewrite Hi.
  destruct (alts_branch n p [] Hp I (2 + 2 * length p) 0) as (r & ng & E & W); [lia|].
  rewrite E, W. eauto.
Qed.

(** A literal pattern: [rx p] has type [regex] exactly when [p] parses. *)
Definition from_some {A} (o : option A) : match o with Some _ => A | None => unit end :=
  match o with Some a => a | None => tt end.
Definition rxp (p : list N) := from_some (compile p).
Definition rx (p : string) := rxp (u p).
Definition rx_fl (fl : flags) (p : string) := from_some (compile_fl fl (u p)).
Arguments rx p%_string_scope.
Arguments rx_fl fl p%_string_scope.

(** ** Match objects *)

Record match_obj := Mo { mo_str : list N; mo_start : nat; mo_end : nat; mo_caps : caps }.

Definition sub_str (s : list N) (a b : nat) : list N := drop a (take b s).

(** [m.group(0)], [m.start()], [m.end()] *)
Definition group0 (o : match_obj) : list N := sub_str (mo_str o) (mo_start o) (mo_end o).
Definition m_start (o : match_obj) : Z := Z.of_nat (mo_start o).
Definition m_end (o : match_obj) : Z := Z.of_nat (mo_end o).
(** [m.group(n)] for n > 0; [None] when the group did not take part. *)
Definition group (o : match_obj) (n : nat) : option (list N) :=
  match mo_caps o !! (n - 1) with
  | Some (Some (a, b)) => Some (sub_str (mo_str o) a b)
  | _ => None
  end.
(** The text of a group that takes part in every match of its pattern. *)
Definition grp (o : match_obj) (n : nat) : list N := default [] (group o n).
(** [m.start(n)] *)
Definition g_start (o : match_obj) (n : nat) : Z :=
  match mo_caps o !! (n - 1) with
  | Some (Some (a, _)) => Z.of_nat a
  | _ => (-1)%Z
  end.

Definition start_zs (s : list N) : zs := Zs [] s.
(** The text a position belongs to. *)
Definition zs_str (z : zs) : list N := reverse (zpre z) ++ zpost z.

Definition run (r : regex) (z : zs) : option match_obj :=
  match m (rx_flags r) (rx_re r) z (replicate (rx_groups r) None)
          (fun z' g' => Some (z', g')) with
  | Some (z', g') => Some (Mo (zs_str z) (pos z) (pos z') g')
  | None => None
  end.

(** [r.match(s)] *)
Definition re_match (r : regex) (s : list N) : option match_obj := run r (start_zs s).

(** [r.search(s)] from a position: the leftmost match. *)
Fixpoint search_go (r : regex) (pre post : list N) : option match_obj :=
  match run r (Zs pre post) with
  | Some o => Some o
  | None => match post with [] => None | c :: t => search_go r (c :: pre) t end
  end.
Definition re_search (r : regex) (s : list N) : option match_obj := search_go r [] s.

(** [r.search] starting at index [i]. *)
Definition search_from (r : regex) (s : list N) (i : nat) : option match_obj :=
  if length s <? i then None else search_go r (reverse (take i s)) (drop i s).

(** [r.finditer(s)]: non-overlapping matches; an empty match is followed by
    a step of one character. *)
Fixpoint finditer_go (fuel : nat) (r : regex) (s : list N) (i : nat) : list match_obj :=
  match fuel with
  | 0 => []
  | S f =>
      match search_from r s i with
      | None => []
      | Some o =>
          o :: finditer_go f r s
                 (if mo_end o =? mo_start o then S (mo_end o) else mo_end o)
      end
  end.
Definition finditer (r : regex) (s : list N) : list match_obj :=
  finditer_go (S (S (length s))) r s 0.

(** [r.findall(s)] for a pattern with one group. *)
Definition findall1 (r : regex) (s : list N) : list (list N) :=
  (fun o => grp o 1) <$> finditer r s.

(** [r.sub(rep, s)]: [last] is the end of the text already copied; an empty
    match right behind the previous match is not replaced. *)
Fixpoint sub_go (rep : match_obj -> list N) (s : list N) (last : nat) (first : bool)
    (ms : list match_obj) : list N :=
  match ms with
  | [] => drop last s
  | o :: ms' =>
      if (mo_start o =? last) && (mo_end o =? last) && negb first
      then sub_go rep s last first ms'
      else sub_str s last (mo_start o) ++ rep o ++ sub_go rep s (mo_end o) false ms'
  end.
Definition re_sub (r : regex) (rep : match_obj -> list N) (s : list N) : list N :=
  sub_go rep s 0 true (finditer r s).

(** [re.split(r, s)] for a pattern without groups; empty matches do not
    split. *)
Fixpoint re_split_go (s : list N) (last : nat) (ms : list match_obj) : list (list N) :=
  match ms with
  | [] => [drop last s]
  | o :: ms' =>
      if mo_start o =? mo_end o then re_split_go s last ms'
      else sub_str s last (mo_start o) :: re_split_go s (mo_end o) ms'
  end.
Definition re_split (r : regex) (s : list N) : list (list N) :=
  re_split_go s 0 (finditer r s).

Definition is_match (o : option match_obj) : bool :=
  match o with Some _ => true | None => false end.

(** ** Match, Search and ReplaceAll *)

Definition Match (pattern : regex) (s : list N) : option match_obj := re_match pattern s.
Definition Search (pattern : regex) (s : list N) : option match_obj := re_search pattern s.
(** [rep] is inserted as it stands, which is what Python does with a text that
    has no backslash: all the texts the scripts pass to [ReplaceAll]. *)
Definition ReplaceAll (pattern : regex) (rep s : list N) : list N :=
  re_sub pattern (fun _ => rep) s.
Definition Matches (pattern : regex) (s : list N) : bool := is_match (Match pattern s).
Definition Searches (pattern : regex) (s : list N) : bool := is_match (Search pattern s).

Example parse_ex1 :
  rx "a*b|^\s*(?:c|[^x-z\]])+?$" =
  Regex (RAlt (RSeq (RRep true 0 None (RChr 97)) (RChr 98))
     (RSeq (RSeq (RSeq RBol (RRep true 0 None (RSet false [CCls false CSpace])))
        (RRep false 1 None (RAlt (RChr 99) (RSet true [CRange 120 122; CRange 93 93]))))
        REol)) no_flags 0.
Proof. vm_compute. reflexivity. Qed.
Example match_ex1 :
  (fun o => (grp o 1, grp o 2)) <$> Match (rx "^(.*)([;,])\s*{") (u"int a;b, {")
  = Some (u"int a;b", u",").
Proof. vm_compute. reflexivity. Qed.
Example sub_ex1 : ReplaceAll (rx "x*") (u"-") (u"abxd") = u"-a-b-d-".
Proof. vm_compute. reflexivity. Qed.
Example sub_ex2 : ReplaceAll (rx " *<") (u"<") (u"a  <b <") = u"a<b<".
Proof. vm_compute. reflexivity. Qed.
Example findall_ex : findall1 (rx "(\w+)=") (u"a=1, bc=2") = [u"a"; u"bc"].
Proof. vm_compute. reflexivity. Qed.
Example todo_ex :
  (fun o => (group o 2, group o 3)) <$>
    Match (rx "^//(\s*)TODO(\(.+?\))?:?(\s|$)?") (u"// TODO(a): x")
  = Some (Some (u"(a)"), Some (u" ")).
Proof. vm_compute. reflexivity. Qed.

(** ** What the searches return *)

Lemma run_Some r z o :
  wf_re (rx_re r) -> run r z = Some o ->
  exists z' g', den (rx_flags r) (rx_re r) z (replicate (rx_groups r) None) z' g'
    /\ o = Mo (zs_str z) (pos z) (pos z') g'.
Proof.
  intros Hwf. unfold run.
  destruct (m _ _ _ _ _) as [[z' g']|] eqn:E; [|done]. intros [= <-].
  apply (proj1 (m_sound_complete (rx_flags r) _ Hwf)) in E as (z1 & g1 & Hd & [= -> ->]).
  eauto.
Qed.
Lemma run_is_Some r z :
  wf_re (rx_re r) ->
  is_Some (run r z) <-> exists z', reach (rx_flags r) (rx_re r) z z'.
Proof.
  intros Hwf. split.
  - intros [o Ho]. apply run_Some in Ho as (z' & g' & Hd & _); [|done].
    exists z'. by eexists _, _.
  - intros [z' Hr]. unfold run.
    edestruct (proj2 (m_sound_complete (rx_flags r) _ Hwf)) as [[z1 g1] ->];
      [exact Hr | intros; by eexists | by eexists].
Qed.

(** [Match] finds a match exactly when the pattern derives a prefix. *)
Lemma Match_is_Some r s :
  wf_re (rx_re r) ->
  is_Some (Match r s) <-> exists z', reach (rx_flags r) (rx_re r) (start_zs s) z'.
Proof. intros Hwf. by apply run_is_Some. Qed.

Lemma search_go_Some r pre post o :
  search_go r pre post = Some o ->
  exists w post', post = w ++ post'
    /\ run r (Zs (reverse w ++ pre) post') = Some o
    /\ forall w1 c w2, w = w1 ++ c :: w2 ->
         run r (Zs (reverse w1 ++ pre) (c :: w2 ++ post')) = None.
Proof.
  assert (Hhere : forall pre post, run r (Zs pre post) = Some o ->
    exists w post', post = w ++ post' /\ run r (Zs (reverse w ++ pre) post') = Some o
    /\ forall w1 c w2, w = w1 ++ c :: w2 ->
         run r (Zs (reverse w1 ++ pre) (c :: w2 ++ post')) = None).
  { intros pre0 post0 H. exists [], post0. repeat split; [done|]. intros [|? ?] ? ? [=]. }
  revert pre. induction post as [|c t IH]; intros pre; cbn [search_go];
    destruct (run r _) as [o'|] eqn:E; try done.
  1,2: intros [= ->]; by apply Hhere.
  clear Hhere. intros H. apply IH in H as (w & post' & -> & Hr & Hmin).
  exists (c :: w), post'. split; [done|]. split.
  - by rewrite reverse_cons, <- app_assoc.
  - intros [|d w1] c' w2 [= <- ->]; [done|].
    rewrite reverse_cons, <- app_assoc. by apply (Hmin w1 c' w2).
Qed.
Lemma search_go_None r pre post :
  search_go r pre post = None <->
  forall w post', post = w ++ post' -> run r (Zs (reverse w ++ pre) post') = None.
Proof.
  revert pre. induction post as [|c t IH]; intros pre; cbn [search_go].
  - destruct (run r _) eqn:E; split; [done| | |done].
    + intros H. by rewrite <- (H [] []), <- E.
    + intros _ w post' Hw. symmetry in Hw. apply app_eq_nil in Hw as [-> ->]. done.
  - destruct (run r (Zs pre (c :: t))) eqn:E; split; try done.
    + intros H. by rewrite <- (H [] (c :: t)), <- E.
    + intros H [|d w] post' Hw; simpl in Hw; [by subst|].
      injection Hw as <- ->. rewrite reverse_cons, <- app_assoc.
      by apply (proj1 (IH (c :: pre)) H w post').
    + intros H. apply IH. intros w post' ->.
      specialize (H (c :: w) post' eq_refl). by rewrite reverse_cons, <- app_assoc in H.
Qed.

(** The positions of a match lie in the subject, in order. *)
Lemma run_bounds r z o :
  wf_re (rx_re r) -> run r z = Some o ->
  mo_str o = zs_str z /\ mo_start o = pos z
  /\ mo_start o <= mo_end o <= length (zs_str z).
Proof.
  intros Hwf H. apply run_Some in H as (z' & g' & Hd & ->); [|done].
  apply den_advances in Hd as (w & Hw & Hp). split; [done|]. split; [done|].
  unfold zs_str, pos. simpl.
  rewrite Hp, Hw, !length_app, !length_reverse. lia.
Qed.

(** The spans of the groups lie in the subject. *)
Definition span_in (n : nat) (c : option (nat * nat)) : Prop :=
  match c with Some (a, b) => a <= b <= n | None => True end.

Lemma set_cap_in n i a b g :
  Forall (span_in n) g -> a <= b <= n -> Forall (span_in n) (set_cap i a b g).
Proof. intros Hg Hab. by apply Forall_insert. Qed.

Lemma advances_str z z' : advances z z' -> zs_str z' = zs_str z.
Proof.
  intros (w & Hw & Hp). unfold zs_str.
  by rewrite Hw, Hp, reverse_app, reverse_involutive, <- app_assoc.
Qed.
Lemma advances_pos z z' : advances z z' -> pos z <= pos z' <= length (zs_str z).
Proof.
  intros H. pose proof (advances_str _ _ H) as E. destruct H as (w & Hw & Hp).
  rewrite <- E. unfold zs_str, pos. rewrite Hp, !length_app, !length_reverse, length_app, length_reverse. lia.
Qed.

Lemma den_caps_in fl r z g z' g' :
  den fl r z g z' g' -> Forall (span_in (length (zs_str z))) g ->
  Forall (span_in (length (zs_str z))) g'.
Proof.
  revert z g z' g'.
  induction r as [| | | | | | | |r1 IH1 r2 IH2|r1 IH1 r2 IH2|gr mn mx r1 IH|k r1 IH|[] r1 IH];
    intros z g z' g' H Hg; simpl in *; unfold den_zw, den_char in *;
    try (destruct H as (? & -> & ->); done);
    try (destruct H as (? & ? & ? & ? & -> & ->); done).
  - destruct H as (z1 & g1 & H1 & H2). pose proof (den_advances _ _ _ _ _ _ H1) as A.
    rewrite <- (advances_str _ _ A). eapply IH2; [done|].
    rewrite (advances_str _ _ A). by eapply IH1.
  - destruct H as [H|H]; eauto.
  - destruct H as (n & _ & _ & H). induction H as [|? z g z1 g1 z' g' H1 _ IHi]; [done|].
    pose proof (den_advances _ _ _ _ _ _ H1) as A.
    rewrite <- (advances_str _ _ A) in *. apply IHi. 
    rewrite (advances_str _ _ A) in *. by eapply IH.
  - destruct H as (g1 & H & ->). apply set_cap_in; [by eapply IH|].
    apply advances_pos. by eapply den_advances.
  - destruct H as ((z1 & H) & _). by eapply IH.
Qed.

(** A group is no longer than the subject. *)
Lemma grp_length r z o n :
  wf_re (rx_re r) -> run r z = Some o -> length (grp o n) <= length (zs_str z).
Proof.
  intros Hwf H. apply run_Some in H as (z' & g' & Hd & ->); [|done].
  unfold grp, group. cbn [mo_caps mo_str].
  apply den_caps_in in Hd.
  - destruct (g' !! (n - 1)) as [[[a b]|]|] eqn:E; simpl; try lia.
    eapply Forall_lookup_1 in Hd; [|exact E]. simpl in Hd.
    unfold sub_str. rewrite length_drop, length_take. lia.
  - by apply Forall_replicate.
Qed.

(** ** What a pattern consumes

    [min_width r] characters at least are consumed by [r], and at least
    [skip n r] before its group [n] starts. *)

Fixpoint min_width (r : re) : nat :=
  match r with
  | RChr _ | RAny | RSet _ _ => 1
  | RSeq r1 r2 => min_width r1 + min_width r2
  | RAlt r1 r2 => min (min_width r1) (min_width r2)
  | RRep _ mn _ r1 => mn * min_width r1
  | RGrp _ r1 => min_width r1
  | _ => 0
  end.
Definition omin (a b : option nat) : option nat :=
  match a, b with
  | Some x, Some y => Some (min x y)
  | Some x, None | None, Some x => Some x
  | None, None => None
  end.
Fixpoint skip (n : nat) (r : re) : option nat :=
  match r with
  | RSeq r1 r2 => omin (skip n r1) (Nat.add (min_width r1) <$> skip n r2)
  | RAlt r1 r2 => omin (skip n r1) (skip n r2)
  | RRep _ _ _ r1 | RLook _ r1 => skip n r1
  | RGrp k r1 => if k =? n - 1 then Some 0 else skip n r1
  | _ => None
  end.

Lemma den_char_pos p z g z' g' : den_char p z g z' g' -> pos z' = S (pos z).
Proof. intros (c & t & Hz & _ & -> & _). done. Qed.
Lemma iter_pos R n w z g z' g' :
  (forall z g z' g', R z g z' g' -> pos z + w <= pos z') ->
  iter R n z g z' g' -> pos z + n * w <= pos z'.
Proof. intros HR. induction 1; [lia|]. apply HR in H. lia. Qed.
Lemma den_min_width fl r z g z' g' : den fl r z g z' g' -> pos z + min_width r <= pos z'.
Proof.
  revert z g z' g'.
  induction r as [| | | | | | | |r1 IH1 r2 IH2|r1 IH1 r2 IH2|gr mn mx r1 IH|k r1 IH|[] r1 IH];
    intros z g z' g' H; simpl in H |- *; unfold den_zw in H;
    try (destruct H as (_ & -> & _); lia);
    try (apply den_char_pos in H; lia).
  - destruct H as (z1 & g1 & ?%IH1 & ?%IH2). lia.
  - destruct H as [?%IH1|?%IH2]; lia.
  - destruct H as (n & Hn & _ & H). eapply iter_pos in H; [|by apply IH]. nia.
  - destruct H as (g1 & ?%IH & _). done.
  - destruct H as [_ ->]. lia.
Qed.

Lemma set_cap_eq i a b (g : caps) : i < length g -> set_cap i a b g !! i = Some (Some (a, b)).
Proof. apply list_lookup_insert_eq. Qed.
Lemma set_cap_ne i j a b (g : caps) : i <> j -> set_cap i a b g !! j = g !! j.
Proof. apply list_lookup_insert_ne. Qed.
Lemma set_cap_ge i a b (g : caps) : length g <= i -> set_cap i a b g = g.
Proof. apply list_insert_ge. Qed.

(** A capture of group [n] from [p + k] on, if [skip] says [k]. *)
Definition late (k : option nat) (p : nat) (c : option (option (nat * nat))) : Prop :=
  exists a b j, c = Some (Some (a, b)) /\ k = Some j /\ p + j <= a.
Lemma late_weaken k k' p p' c :
  late k p c -> (forall j, k = Some j -> exists j', k' = Some j' /\ p' + j' <= p + j) ->
  late k' p' c.
Proof.
  intros (a & b & j & -> & Hk & Hj) H. destruct (H j Hk) as (j' & -> & ?).
  exists a, b, j'. repeat split. lia.
Qed.

Lemma den_skip n fl r z g z' g' :
  den fl r z g z' g' ->
  g' !! (n - 1) = g !! (n - 1) \/ late (skip n r) (pos z) (g' !! (n - 1)).
Proof.
  revert z g z' g'.
  induction r as [| | | | | | | |r1 IH1 r2 IH2|r1 IH1 r2 IH2|gr mn mx r1 IH|k r1 IH|[] r1 IH];
    intros z g z' g' H; simpl in H |- *; unfold den_zw, den_char in H;
    try (destruct H as (? & -> & ->); by left);
    try (destruct H as (? & ? & ? & ? & -> & ->); by left).
  - destruct H as (z1 & g1 & H1 & H2). pose proof (den_min_width _ _ _ _ _ _ H1) as W.
    apply IH1 in H1. apply IH2 in H2. destruct H2 as [->|H2].
    + destruct H1 as [H1|H1]; [by left|right]. eapply late_weaken; [exact H1|].
      intros j ->. destruct (skip n r2); eexists; (split; [reflexivity|]); lia.
    + right. eapply late_weaken; [exact H2|].
      intros j ->. destruct (skip n r1); eexists; (split; [reflexivity|]); lia.
  - destruct H as [H|H]; [apply IH1 in H|apply IH2 in H]; destruct H as [H|H]; try by left.
    + right. eapply late_weaken; [exact H|]. intros j ->.
      destruct (skip n r2); eexists; (split; [reflexivity|]); lia.
    + right. eapply late_weaken; [exact H|]. intros j ->.
      destruct (skip n r1); eexists; (split; [reflexivity|]); lia.
  - destruct H as (i & _ & _ & H). induction H as [|i z g z1 g1 z2 g2 H1 _ IHi]; [by left|].
    pose proof (den_min_width _ _ _ _ _ _ H1) as W.
    destruct IHi as [->|IHi]; [by eapply IH|].
    right. eapply late_weaken; [exact IHi|]. intros j ->. exists j. split; [done|lia].
  - destruct H as (g1 & H & ->). apply IH in H.
    destruct (Nat.eqb_spec k (n - 1)) as [->|Hk].
    + destruct (decide (n - 1 < length g1)) as [Hl|Hl].
      * right. exists (pos z), (pos z'), 0. rewrite set_cap_eq by done. repeat split. lia.
      * rewrite set_cap_ge by lia. destruct H as [H|(a & b & j & H & _)]; [by left|].
        apply lookup_lt_Some in H. lia.
    + rewrite set_cap_ne by done. exact H.
  - destruct H as ((z1 & H) & _). by eapply IH.
Qed.

(** The group [n] of a match from the start of [s] is shorter than [s]. *)
Definition shortens (r : regex) (n : nat) : bool :=
  (1 <=? min_width (rx_re r))
  && match skip n (rx_re r) with Some k => 1 <=? k | None => true end.
Lemma grp_shorter r s o n :
  wf_re (rx_re r) -> shortens r n = true -> Match r s = Some o -> length (grp o n) < length s.
Proof.
  intros Hwf Hs H. unfold shortens in Hs. apply andb_true_iff in Hs as [Hw%Nat.leb_le Hs].
  apply run_Some in H as (z' & g' & Hd & ->); [|done].
  pose proof (den_min_width _ _ _ _ _ _ Hd) as W.
  pose proof (advances_pos _ _ (den_advances _ _ _ _ _ _ Hd)) as Hp.
  pose proof (den_skip n _ _ _ _ _ _ Hd) as K. apply den_caps_in in Hd; [|by apply Forall_replicate].
  change (pos (start_zs s)) with 0 in *.
  assert (zs_str (start_zs s) = s) as E by reflexivity.
  rewrite E in *.
  unfold grp, group. cbn [mo_caps mo_str].
  destruct K as [K|(a & b & j & K & Hj & Ha)].
  - assert (g' !! (n - 1) = None \/ g' !! (n - 1) = Some None) as [->| ->]; [|simpl; lia..].
    rewrite K. destruct (decide (n - 1 < rx_groups r)).
    + right. by apply lookup_replicate_2.
    + left. apply lookup_ge_None_2. rewrite length_replicate. lia.
  - rewrite K. rewrite Hj in Hs. apply Nat.leb_le in Hs.
    eapply Forall_lookup_1 in Hd; [|exact K]. simpl in Hd |- *.
    unfold sub_str. rewrite length_drop, length_take. lia.
Qed.

(** ** What a group holds

    [only p r]: all characters that [r] consumes satisfy [p]. *)
Fixpoint only (fl : flags) (p : N -> Prop) (r : re) : Prop :=
  match r with
  | RChr a => forall c, chr_ok fl a c = true -> p c
  | RAny => forall c, any_ok c = true -> p c
  | RSet neg items => forall c, set_ok fl neg items c = true -> p c
  | RSeq r1 r2 | RAlt r1 r2 => only fl p r1 /\ only fl p r2
  | RRep _ _ _ r1 | RGrp _ r1 => only fl p r1
  | _ => True
  end.
(** Group [n] of the pattern consumes such characters only. *)
Fixpoint group_only (n : nat) (fl : flags) (p : N -> Prop) (r : re) : Prop :=
  match r with
  | RSeq r1 r2 | RAlt r1 r2 => group_only n fl p r1 /\ group_only n fl p r2
  | RRep _ _ _ r1 | RLook _ r1 => group_only n fl p r1
  | RGrp k r1 => (k = n - 1 -> only fl p r1) /\ group_only n fl p r1
  | _ => True
  end.

(** The text between two positions. *)
Lemma sub_str_app a w b : sub_str (a ++ w ++ b) (length a) (length a + length w) = w.
Proof.
  unfold sub_str. rewrite app_assoc.
  replace (length a + length w) with (length (a ++ w)) by (rewrite length_app; lia).
  by rewrite take_app_length, drop_app_length.
Qed.

Definition consumes (p : N -> Prop) (z z' : zs) : Prop :=
  exists w, zpost z = w ++ zpost z' /\ zpre z' = reverse w ++ zpre z /\ Forall p w.
Lemma consumes_refl p z : consumes p z z.
Proof. by exists []. Qed.
Lemma consumes_trans p z1 z2 z3 : consumes p z1 z2 -> consumes p z2 z3 -> consumes p z1 z3.
Proof.
  intros (w & Hw & Hp & Ha) (v & Hv & Hq & Hb). exists (w ++ v).
  rewrite Hw, Hv, Hq, Hp, reverse_app, Forall_app. by rewrite <- !app_assoc.
Qed.
Lemma consumes_char (p q : N -> Prop) (t : N -> bool) z g z' g' :
  (forall c, t c = true -> p c) -> den_char t z g z' g' -> consumes p z z'.
Proof.
  intros Ht (c & s & Hz & Hc & -> & _). exists [c]. rewrite Hz. repeat split.
  constructor; [by apply Ht|done].
Qed.
Lemma den_only fl p r z g z' g' : den fl r z g z' g' -> only fl p r -> consumes p z z'.
Proof.
  revert z g z' g'.
  induction r as [| | | | | | | |r1 IH1 r2 IH2|r1 IH1 r2 IH2|gr mn mx r1 IH|k r1 IH|[] r1 IH];
    intros z g z' g' H Ho; simpl in H, Ho; unfold den_zw in H;
    try (destruct H as (_ & -> & _); apply consumes_refl);
    try (by eapply consumes_char).
  - destruct H as (z1 & g1 & H1 & H2). destruct Ho. eapply consumes_trans; eauto.
  - destruct H, Ho; eauto.
  - destruct H as (i & _ & _ & H).
    induction H as [|i z g z1 g1 z2 g2 H1 _ IHi]; [apply consumes_refl|].
    eapply consumes_trans; eauto.
  - destruct H as (g1 & H & _). eauto.
  - destruct H as [_ ->]. apply consumes_refl.
Qed.
Lemma consumes_str p z z' : consumes p z z' -> Forall p (sub_str (zs_str z) (pos z) (pos z')).
Proof.
  intros (w & Hw & Hp & Ha). unfold zs_str, pos. rewrite Hw, Hp, length_app, length_reverse.
  rewrite Nat.add_comm, <- (length_reverse (zpre z)). by rewrite sub_str_app.
Qed.

Definition holds (p : N -> Prop) (s : list N) (c : option (option (nat * nat))) : Prop :=
  exists a b, c = Some (Some (a, b)) /\ Forall p (sub_str s a b).
Lemma den_group n fl p r z g z' g' :
  den fl r z g z' g' -> group_only n fl p r ->
  g' !! (n - 1) = g !! (n - 1) \/ holds p (zs_str z) (g' !! (n - 1)).
Proof.
  revert z g z' g'.
  induction r as [| | | | | | | |r1 IH1 r2 IH2|r1 IH1 r2 IH2|gr mn mx r1 IH|k r1 IH|[] r1 IH];
    intros z g z' g' H Ho; simpl in H, Ho; unfold den_zw, den_char in H;
    try (destruct H as (? & -> & ->); by left);
    try (destruct H as (? & ? & ? & ? & -> & ->); by left).
  - destruct H as (z1 & g1 & H1 & H2), Ho as [Ho1 Ho2].
    rewrite <- (advances_str _ _ (den_advances _ _ _ _ _ _ H1)).
    apply IH2 in H2 as [->|H2]; [|by right|done].
    rewrite (advances_str _ _ (den_advances _ _ _ _ _ _ H1)). eauto.
  - destruct Ho. destruct H as [H|H]; eauto.
  - destruct H as (i & _ & _ & H). induction H as [|i z g z1 g1 z2 g2 H1 _ IHi]; [by left|].
    rewrite <- (advances_str _ _ (den_advances _ _ _ _ _ _ H1)) in *.
    destruct IHi as [->|IHi]; [|by right].
    rewrite (advances_str _ _ (den_advances _ _ _ _ _ _ H1)). eauto.
  - destruct H as (g1 & H & ->), Ho as [Ho1 Ho2].
    destruct (Nat.eqb_spec k (n - 1)) as [->|Hk].
    + destruct (decide (n - 1 < length g1)) as [Hl|Hl].
      * right. exists (pos z), (pos z'). rewrite set_cap_eq by done. split; [done|].
        apply consumes_str. eapply den_only; eauto.
      * rewrite set_cap_ge by lia. eauto.
    + rewrite set_cap_ne by done. eauto.
  - destruct H as [[z1 H] _]. eauto.
Qed.
(** The characters of a group of a match. *)
Lemma grp_only p r n s o :
  wf_re (rx_re r) -> group_only n (rx_flags r) p (rx_re r) -> Match r s = Some o ->
  Forall p (grp o n).
Proof.
  intros Hwf Ho H. apply run_Some in H as (z' & g' & Hd & ->); [|done].
  apply (den_group n _ p) in Hd; [|done]. unfold grp, group. cbn [mo_caps mo_str].
  destruct Hd as [->|(a & b & -> & Hf)]; [|exact Hf].
  destruct ((replicate (rx_groups r) None : caps) !! (n - 1)) as [c|] eqn:E; [|constructor].
  apply lookup_replicate in E as [-> _]. constructor.
Qed.

(** ** Patterns of one character *)

Definition single (r : regex) (p : N -> bool) : Prop :=
  one_char (rx_flags r) (rx_re r) = Some p.

Lemma run_single r p pre post :
  single r p ->
  run r (Zs pre post) =
  match post with
  | c :: t => if p c then Some (Mo (reverse pre ++ c :: t) (length pre) (S (length pre))
                                   (replicate (rx_groups r) None)) else None
  | [] => None
  end.
Proof.
  unfold single, run. destruct (rx_re r); simpl; try done; intros [= <-]; clear;
    destruct post as [|x t]; unfold step_char; simpl; try done; by case_bool.
Qed.
Lemma search_from_single r p s i :
  single r p ->
  search_from r s i =
  match drop i s with
  | c :: t => if p c then Some (Mo s i (S i) (replicate (rx_groups r) None))
              else search_from r s (S i)
  | [] => None
  end.
Proof.
  intros Hp. unfold search_from. destruct (drop i s) as [|c t] eqn:E.
  - destruct (length s <? i); [done|]. cbn [search_go]. by rewrite (run_single r p).
  - assert (i < length s) as Hi.
    { destruct (decide (i < length s)); [done|]. rewrite drop_ge in E; [done | lia]. }
    assert (s !! i = Some c) as Hc by (rewrite <- (Nat.add_0_r i), <- lookup_drop, E; done).
    assert (drop (S i) s = t) as Ht.
    { replace (S i) with (i + 1) by lia. by rewrite <- drop_drop, E. }
    destruct (Nat.ltb_spec (length s) i); [lia|]. destruct (Nat.ltb_spec (length s) (S i)); [lia|].
    cbn [search_go]. rewrite (run_single r p) by done.
    rewrite (take_S_r s i c Hc), reverse_snoc, Ht.
    rewrite reverse_involutive, length_reverse, length_take_le by lia.
    rewrite <- E, take_drop. by case_bool.
Qed.

Lemma sub_str_S s a i c :
  a <= i -> s !! i = Some c -> sub_str s a (S i) = sub_str s a i ++ [c].
Proof.
  intros Ha Hc. unfold sub_str. rewrite (take_S_r s i c Hc), drop_app_le; [done|].
  apply lookup_lt_Some in Hc. rewrite length_take. lia.
Qed.
Lemma sub_str_ge s a b : b <= a -> sub_str s a b = [].
Proof. intros H. unfold sub_str. apply drop_ge. rewrite length_take. lia. Qed.

Lemma sub_single_go r p rep s fuel i last fst :
  single r p -> last <= i -> length s - i < fuel ->
  sub_go (fun _ => rep) s last fst (finditer_go fuel r s i)
  = sub_str s last i ++ (drop i s ≫= fun c => if p c then rep else [c]).
Proof.
  intros Hp. remember (length s - i) as n eqn:Hn.
  revert fuel i last fst Hn. induction n as [n IH] using lt_wf_ind.
  intros [|f] i last fst Hn Hl Hf; [lia|].
  cbn [finditer_go]. rewrite (search_from_single r p) by done.
  destruct (drop i s) as [|c t] eqn:E.
  - simpl. rewrite app_nil_r. unfold sub_str.
    assert (length s <= i) by (pose proof (length_drop s i); rewrite E in *; simpl in *; lia).
    by rewrite take_ge.
  - assert (i < length s) as Hi.
    { destruct (decide (i < length s)); [done|]. rewrite drop_ge in E; [done | lia]. }
    assert (s !! i = Some c) as Hc by (rewrite <- (Nat.add_0_r i), <- lookup_drop, E; done).
    assert (drop (S i) s = t) as Ht.
    { replace (S i) with (i + 1) by lia. by rewrite <- drop_drop, E. }
    cbn [mbind list_bind]. destruct (p c).
    + cbn [mo_end mo_start]. destruct (Nat.eqb_spec (S i) i); [lia|].
      cbn [sub_go mo_end mo_start]. destruct (Nat.eqb_spec (S i) last); [lia|].
      rewrite andb_false_r. simpl.
      rewrite (IH (length s - S i)) by lia. rewrite (sub_str_ge s (S i)) by lia.
      by rewrite Ht.
    + transitivity (sub_go (fun _ => rep) s last fst (finditer_go (S f) r s (S i))); [done|].
      rewrite (IH (length s - S i)) by lia. rewrite Ht.
      rewrite (sub_str_S s last i c) by done. by rewrite <- app_assoc.
Qed.
(** Substituting a one-character pattern maps the characters. *)
Lemma re_sub_single r p rep s :
  single r p ->
  re_sub r (fun _ => rep) s = s ≫= fun c => if p c then rep else [c].
Proof.
  intros Hp. unfold re_sub, finditer. rewrite (sub_single_go r p) by (done || lia). done.
Qed.

(** ** The cache of compiled patterns

    [_regexp_compile_cache] maps a pattern to its compiled form.  The three
    functions look the pattern up and compile it on a miss.  Python's engine
    is a parameter: its compiler, which raises on what is no pattern, and the
    methods of the compiled objects; [sub] raises on a replacement text that
    is no template.  The rest of the development uses the functions above, on
    compiled patterns. *)
Module Cache.
Section Engine.
Context {re_object found : Type}.
Context (sre_compile : list N -> res re_object).
Context (obj_match obj_search : re_object -> list N -> option found).
Context (obj_sub : re_object -> list N -> list N -> res (list N)).

(** The cache survives an exception: a computation returns its result and the
    cache it leaves. *)
Definition lookup_or_compile (pattern : list N) (c : gmap (list N) re_object)
    : res re_object * gmap (list N) re_object :=
  match c !! pattern with
  | Some r => (Ok r, c)
  | None =>
      match sre_compile pattern with
      | Ok r => (Ok r, <[pattern := r]> c)
      | Exc e => (Exc e, c)
      end
  end.

Definition Match (pattern s : list N) (c : gmap (list N) re_object)
    : res (option found) * gmap (list N) re_object :=
  let '(r, c) := lookup_or_compile pattern c in (r ← r; Ok (obj_match r s), c).
Definition ReplaceAll (pattern rep s : list N) (c : gmap (list N) re_object)
    : res (list N) * gmap (list N) re_object :=
  let '(r, c) := lookup_or_compile pattern c in (r ← r; obj_sub r rep s, c).
Definition Search (pattern s : list N) (c : gmap (list N) re_object)
    : res (option found) * gmap (list N) re_object :=
  let '(r, c) := lookup_or_compile pattern c in (r ← r; Ok (obj_search r s), c).

(** A run of calls, each of which may raise, and what they answer. *)
Inductive call :=
  | CallMatch (pattern s : list N)
  | CallReplaceAll (pattern rep s : list N)
  | CallSearch (pattern s : list N).
Inductive answer := Found (o : res (option found)) | Replaced (t : res (list N)).

Definition run_call (k : call) (c : gmap (list N) re_object)
    : answer * gmap (list N) re_object :=
  match k with
  | CallMatch p s => let '(o, c) := Match p s c in (Found o, c)
  | CallReplaceAll p rep s => let '(t, c) := ReplaceAll p rep s c in (Replaced t, c)
  | CallSearch p s => let '(o, c) := Search p s c in (Found o, c)
  end.
Fixpoint run_calls (ks : list call) (c : gmap (list N) re_object)
    : list answer * gmap (list N) re_object :=
  match ks with
  | [] => ([], c)
  | k :: ks =>
      let '(a, c) := run_call k c in
      let '(l, c) := run_calls ks c in (a :: l, c)
  end.

(** The same call without a cache: compile the pattern, then use it. *)
Definition uncached (k : call) : answer :=
  match k with
  | CallMatch p s => Found (r ← sre_compile p; Ok (obj_match r s))
  | CallReplaceAll p rep s => Replaced (r ← sre_compile p; obj_sub r rep s)
  | CallSearch p s => Found (r ← sre_compile p; Ok (obj_search r s))
  end.
Definition pattern_of (k : call) : list N :=
  match k with CallMatch p _ | CallReplaceAll p _ _ | CallSearch p _ => p end.

Definition valid (c : gmap (list N) re_object) : Prop :=
  forall p r, c !! p = Some r -> sre_compile p = Ok r.

Lemma lookup_or_compile_spec p c :
  valid c ->
  exists c', lookup_or_compile p c = (sre_compile p, c') /\ valid c' /\ c ⊆ c'
    /\ (forall r, sre_compile p = Ok r -> c' !! p = Some r).
Proof.
  intros Hc. unfold lookup_or_compile. destruct (c !! p) as [r|] eqn:E.
  - rewrite (Hc _ _ E). exists c. do 3 (split; [done|]). congruence.
  - destruct (sre_compile p) as [r|e] eqn:Ep; [|by exists c].
    eexists. split; [done|]. split; [|split; [by apply insert_subseteq|]].
    + intros p' r'. destruct (decide (p = p')) as [<-|Hne].
      * rewrite lookup_insert_eq. congruence.
      * rewrite lookup_insert_ne by done. apply Hc.
    + intros r' [= <-]. apply lookup_insert_eq.
Qed.
Lemma run_call_spec k c :
  valid c ->
  exists c', run_call k c = (uncached k, c') /\ valid c' /\ c ⊆ c'
    /\ (forall r, sre_compile (pattern_of k) = Ok r -> c' !! pattern_of k = Some r).
Proof.
  intros Hc. destruct (lookup_or_compile_spec (pattern_of k) c Hc) as (c' & E & H).
  exists c'. split; [|done].
  destruct k; cbn in *; unfold Match, Search, ReplaceAll; by rewrite E.
Qed.

(** C16: the cache is transparent, whatever the engine: from a valid cache, a
    run of calls of [Match], [ReplaceAll] and [Search] answers each call as
    compiling its pattern afresh would, exceptions of the compiler and of the
    replacement included.  The cache stays valid, keeps every entry, and holds
    at the end each pattern of the calls that compiles, so that no pattern is
    compiled twice. *)
Theorem cache_transparent ks c :
  valid c ->
  exists c', run_calls ks c = (uncached <$> ks, c') /\ valid c' /\ c ⊆ c'
    /\ forall k r, k ∈ ks -> sre_compile (pattern_of k) = Ok r -> c' !! pattern_of k = Some r.
Proof.
  revert c. induction ks as [|k ks IH]; intros c Hc; cbn [run_calls fmap list_fmap].
  - exists c. do 3 (split; [done|]). intros k r Hk. by apply elem_of_nil in Hk.
  - destruct (run_call_spec k c Hc) as (c1 & -> & Hc1 & Hs1 & Hk1).
    destruct (IH c1 Hc1) as (c2 & -> & Hc2 & Hs2 & Hk2).
    exists c2. split; [done|]. split; [done|]. split; [by etrans|].
    intros k' r [->|Hk]%elem_of_cons Hr; [|by apply Hk2].
    eapply lookup_weaken; [by apply Hk1|done].
Qed.
End Engine.

(** With the patterns of this file for an engine: a match, a text that is no
    pattern, and the first pattern again. *)
Definition sample_calls : list call :=
  [CallSearch (u"a+") (u"baa"); CallMatch (u"*") (u"a"); CallReplaceAll (u"a+") (u"x") (u"baa")].
Lemma cache_transparent_witness :
  let sub r rep s := Ok (re_sub r (fun _ => rep) s) in
  valid compile_res ∅
  /\ exists c', run_calls compile_res re_match re_search sub sample_calls ∅
       = ([Found (Ok (re_search (rx "a+") (u"baa"))); Found (Exc ReError); Replaced (Ok (u"bx"))], c')
     /\ c' !! u"a+" = Some (rx "a+").
Proof.
  intros sub.
  assert (valid compile_res ∅) as H by (intros p r Hp; by rewrite lookup_empty in Hp).
  split; [exact H|].
  destruct (cache_transparent compile_res re_match re_search sub sample_calls ∅ H)
    as (c' & E & _ & _ & Hk).
  exists c'. split.
  - rewrite E. apply (f_equal2 pair); [vm_compute; reflexivity|reflexivity].
  - apply (Hk (CallSearch (u"a+") (u"baa"))); [left|vm_compute; reflexivity].
Defined.

End Cache.

Lemma group_is (o : match_obj) n a w b :
  mo_str o = a ++ w ++ b -> mo_caps o !! (n - 1) = Some (Some (length a, length a + length w)) ->
  grp o n = w.
Proof. intros Hs Hc. unfold grp, group. rewrite Hc, Hs. apply sub_str_app. Qed.

(** A match at the start of a string, as a derivation. *)
Lemma Match_den r s o :
  wf_re (rx_re r) -> Match r s = Some o ->
  exists z' g', den (rx_flags r) (rx_re r) (Zs [] s) (replicate (rx_groups r) None) z' g'
    /\ o = Mo s 0 (pos z') g'.
Proof. intros Hwf H. apply run_Some in H as (z' & g' & ? & ->); [|done]. eauto. Qed.

Lemma chr_ok_eq fl a c : f_icase fl = false -> chr_ok fl a c = true -> c = a.
Proof.
  unfold chr_ok. intros -> H. rewrite orb_false_r in H. symmetry. by apply N.eqb_eq.
Qed.

Ltac regex_wf := apply wf_reb_spec; vm_compute; reflexivity.

(** Replace a literal pattern by its syntax tree. *)
Ltac rx_norm r := let a := eval vm_compute in r in change r with a; cbn [rx_re rx_flags].
Ltac rx_norm_in r H :=
  let a := eval vm_compute in r in change r with a in H;
  cbn [rx_re rx_flags rx_groups] in H.
(** Derive a run of a one-character pattern. *)
Ltac den_run :=
  match goal with
  | |- den ?fl (RRep ?gr ?mn ?mx ?r) _ _ _ _ =>
      let p := eval cbn in (one_char fl r) in
      lazymatch p with
      | Some ?q => apply (den_rep_char fl gr mn mx r q _ _ _ _ eq_refl)
      end
  end.

(** Compute a group of a match whose subject is [a ++ w ++ b]. *)
Ltac grp_is n a w b :=
  match goal with
  | |- context [grp ?o n] =>
      rewrite (group_is o n a w b);
      [|cbn [mo_str]; rewrite <- ?app_assoc; reflexivity
       |cbn; unfold pos; cbn [zpre];
        apply (f_equal Some), (f_equal Some), (f_equal2 pair);
        repeat first [rewrite length_app | rewrite length_reverse | progress cbn [length]]; lia]
  end.

(** Read a derivation: split it along the pattern; the positions become
    explicit, and the subject a concatenation of the parts. *)
Ltac den_step :=
  match goal with
  | H : den _ (RSeq _ _) _ _ _ _ |- _ =>
      destruct H as (? & ? & ? & ?)
  | H : den _ (RGrp _ _) _ _ _ _ |- _ => destruct H as (? & ? & ?)
  | H : den _ (RAlt _ _) _ _ _ _ |- _ => destruct H as [H|H]
  | H : den _ (RChr _) _ _ _ _ |- _ => destruct H as (? & ? & ? & ? & ? & ?)
  | H : den _ RAny _ _ _ _ |- _ => destruct H as (? & ? & ? & ? & ? & ?)
  | H : den _ (RSet _ _) _ _ _ _ |- _ => destruct H as (? & ? & ? & ? & ? & ?)
  | H : den _ RBol _ _ _ _ |- _ => destruct H as (? & ? & ?)
  | H : den _ REol _ _ _ _ |- _ => destruct H as (? & ? & ?)
  | H : den _ REps _ _ _ _ |- _ => destruct H as (_ & ? & ?)
  | H : den _ (RWordB _) _ _ _ _ |- _ => destruct H as (? & ? & ?)
  | H : den ?fl (RRep ?gr ?mn ?mx ?r) _ _ _ _ |- _ =>
      let p := eval cbn in (one_char fl r) in
      lazymatch p with
      | Some ?q =>
          rewrite (den_rep_char fl gr mn mx r q _ _ _ _ eq_refl) in H;
          let w := fresh "w" in destruct H as (w & ? & ? & ? & ? & ? & ?)
      end
  | H : chr_ok _ _ _ = true |- _ => apply chr_ok_eq in H; [|reflexivity]
  end.
Ltac den_inv :=
  repeat den_step;
  repeat match goal with z : zs |- _ => destruct z end;
  cbn [zpre zpost] in *; simplify_eq; cbn [zpre zpost] in *.
