(* ===== verification/Lint.v ===== *)
(** * Global state: filters, counts, suppressions and the Error function

    Models lines 177-254, 486-554 and 757-909 and 1064-1124 of cpplint.py: the
    error categories, [_error_suppressions] with its NOLINT parser, the
    [_CppLintState] object and the [Error] function.  [world] holds every
    module-level variable the code assigns; [M] is the state and exception
    monad the checks run in. *)

From S2P Require Import Prelude PyStr Regex RePattern.
From Stdlib Require Import Ascii.

(** ** Categories *)

Definition _ERROR_CATEGORIES : list (list N) :=
    [u"build/class"; u"build/c++11"; u"build/deprecated";
     u"build/endif_comment"; u"build/explicit_make_pair";
     u"build/forward_decl"; u"build/header_guard"; u"build/include";
     u"build/include_alpha"; u"build/include_order";
     u"build/include_what_you_use"; u"build/namespaces";
     u"build/printf_format"; u"build/storage_class"; u"legal/copyright";
     u"readability/alt_tokens"; u"readability/braces";
     u"readability/casting"; u"readability/check";
     u"readability/constructors"; u"readability/fn_size";
     u"readability/function"; u"readability/inheritance";
     u"readability/multiline_comment"; u"readability/multiline_string";
     u"readability/namespace"; u"readability/nolint"; u"readability/nul";
     u"readability/strings"; u"readability/todo"; u"readability/utf8";
     u"runtime/arrays"; u"runtime/casting"; u"runtime/explicit";
     u"runtime/int"; u"runtime/init"; u"runtime/invalid_increment";
     u"runtime/member_string_references"; u"runtime/memset";
     u"runtime/indentation_namespace"; u"runtime/operator";
     u"runtime/printf"; u"runtime/printf_format"; u"runtime/references";
     u"runtime/string"; u"runtime/threadsafe_fn"; u"runtime/vlog";
     u"whitespace/blank_line"; u"whitespace/braces"; u"whitespace/comma";
     u"whitespace/comments"; u"whitespace/empty_conditional_body";
     u"whitespace/empty_loop_body"; u"whitespace/end_of_line";
     u"whitespace/ending_newline"; u"whitespace/forcolon";
     u"whitespace/indent"; u"whitespace/line_length"; u"whitespace/newline";
     u"whitespace/operators"; u"whitespace/parens"; u"whitespace/semicolon";
     u"whitespace/tab"; u"whitespace/todo"].

Definition _LEGACY_ERROR_CATEGORIES : list (list N) := [u"readability/streams"].

Definition _DEFAULT_FILTERS : list (list N) := [u"-build/include_alpha"].

(** ** The state of the module *)

Record cpplint_state := CppLintState {
  verbose_level : Z;
  error_count : Z;
  filters : list (list N);
  filters_backup : list (list N);
  counting : list N;
  errors_by_category : gmap (list N) Z;
  output_format : list N
}.

(** [_error_suppressions] maps a category, or [None] for all of them, to the
    lines where it is suppressed; [stderr] lists the strings written, in
    order; [stdin] is what has not been read of standard input. *)
Record world := World {
  error_suppressions : gmap (option (list N)) (gset Z);
  lint : cpplint_state;
  root : option (list N);
  line_length : Z;
  valid_extensions : list (list N);
  stderr : list (list N);
  stdin : list N
}.

Definition init_state : cpplint_state :=
  CppLintState 1 0 _DEFAULT_FILTERS _DEFAULT_FILTERS (u"total") ∅ (u"emacs").
Definition init_world : world :=
  World ∅ init_state None 80 [u"cc"; u"h"; u"cpp"; u"cu"; u"cuh"] [] [].

Definition set_suppressions s w :=
  World s (lint w) (root w) (line_length w) (valid_extensions w) (stderr w)
    (stdin w).
Definition set_lint l w :=
  World (error_suppressions w) l (root w) (line_length w) (valid_extensions w) (stderr w)
    (stdin w).
Definition set_root r w :=
  World (error_suppressions w) (lint w) r (line_length w) (valid_extensions w) (stderr w)
    (stdin w).
Definition set_line_length n w :=
  World (error_suppressions w) (lint w) (root w) n (valid_extensions w) (stderr w)
    (stdin w).
Definition set_valid_extensions e w :=
  World (error_suppressions w) (lint w) (root w) (line_length w) e (stderr w) (stdin w).
Definition write_stderr t w :=
  World (error_suppressions w) (lint w) (root w) (line_length w) (valid_extensions w)
    (stderr w ++ [t]) (stdin w).
Definition set_stdin t w :=
  World (error_suppressions w) (lint w) (root w) (line_length w) (valid_extensions w) (stderr w)
    t.

(** ** The monad of the checks *)

Definition M (A : Type) : Type := world -> res A * world.
#[export] Instance M_ret : MRet M := fun A a w => (Ok a, w).
#[export] Instance M_bind : MBind M := fun A B f mm w =>
  match mm w with (Ok a, w') => f a w' | (Exc e, w') => (Exc e, w') end.
#[export] Instance M_fmap : FMap M := fun A B f mm => mm ≫= (fun a => mret (f a)).

Definition raise {A} (e : exn) : M A := fun w => (Exc e, w).
Definition lift {A} (r : res A) : M A := fun w => (r, w).
Definition gets {A} (f : world -> A) : M A := fun w => (Ok (f w), w).
Definition modify (f : world -> world) : M unit := fun w => (Ok tt, f w).
Definition when (b : bool) (mm : M unit) : M unit := if b then mm else mret tt.
Fixpoint for_ {A} (l : list A) (f : A -> M unit) : M unit :=
  match l with [] => mret tt | a :: l' => f a ≫= fun _ => for_ l' f end.
Definition print_err (t : list N) : M unit := modify (write_stderr t).

Lemma M_bind_Ok {A B} (mm : M A) (f : A -> M B) w b w' :
  (mm ≫= f) w = (Ok b, w') <-> exists a w1, mm w = (Ok a, w1) /\ f a w1 = (Ok b, w').
Proof.
  unfold mbind, M_bind. destruct (mm w) as [[a|e] w1]; naive_solver.
Qed.
Lemma lift_Ok {A} (r : res A) w a w' : lift r w = (Ok a, w') <-> r = Ok a /\ w' = w.
Proof. unfold lift. naive_solver. Qed.
Lemma M_ret_Ok {A} (x : A) w a w' :
  (mret x : M A) w = (Ok a, w') <-> a = x /\ w' = w.
Proof. unfold mret, M_ret. naive_solver. Qed.
(** Invert a computation of the monad that returned. *)
Ltac M_inv :=
  repeat match goal with
  | H : (_ ≫= _) _ = (Ok _, _) |- _ => apply M_bind_Ok in H as (? & ? & ? & H)
  | H : lift _ _ = (Ok _, _) |- _ => apply lift_Ok in H as [? ->]
  | H : mret _ _ = (Ok _, _) |- _ => apply M_ret_Ok in H as [-> ->]
  end.

(** An error handler takes the file, the line, the category, the confidence
    and the message. *)
Abbreviation ErrorFn := (list N -> Z -> list N -> Z -> list N -> M unit).

(** ** _CppLintState *)

Module CppLintState.

Definition SetOutputFormat f s :=
  CppLintState (verbose_level s) (error_count s) (filters s) (filters_backup s)
    (counting s) (errors_by_category s) f.
Definition SetVerboseLevel level s : Z * cpplint_state :=
  (verbose_level s,
   CppLintState level (error_count s) (filters s) (filters_backup s) (counting s)
     (errors_by_category s) (output_format s)).
Definition SetCountingStyle c s :=
  CppLintState (verbose_level s) (error_count s) (filters s) (filters_backup s) c
    (errors_by_category s) (output_format s).
Definition set_filters fs s :=
  CppLintState (verbose_level s) (error_count s) fs (filters_backup s) (counting s)
    (errors_by_category s) (output_format s).

Definition signed_filter (f : list N) : bool := starts (u"+") f || starts (u"-") f.

(** The filters are appended first and validated afterwards, all of them:
    the object keeps the appended filters when it raises. *)
Definition AddFilters (fs : list N) (s : cpplint_state) : res unit * cpplint_state :=
  let added := List.filter (fun f => negb (f =s [])) (strip_bytes <$> split_on fs (u",")) in
  let s' := set_filters (filters s ++ added) s in
  match List.find (fun f => negb (signed_filter f)) (filters s') with
  | Some filt =>
      (Exc (ValueError (u"Every filter in --filters must start with + or - ("
                        ++ filt ++ u" does not)")), s')
  | None => (Ok tt, s')
  end.
Definition SetFilters (fs : list N) (s : cpplint_state) : res unit * cpplint_state :=
  AddFilters fs (set_filters _DEFAULT_FILTERS s).

Definition BackupFilters (s : cpplint_state) : cpplint_state :=
  CppLintState (verbose_level s) (error_count s) (filters s) (filters s) (counting s)
    (errors_by_category s) (output_format s).
Definition RestoreFilters (s : cpplint_state) : cpplint_state :=
  set_filters (filters_backup s) s.
Definition ResetErrorCounts (s : cpplint_state) : cpplint_state :=
  CppLintState (verbose_level s) 0 (filters s) (filters_backup s) (counting s) ∅
    (output_format s).

Definition IncrementErrorCount (category : list N) (s : cpplint_state) : cpplint_state :=
  let by_category :=
    if in_strs (counting s) [u"toplevel"; u"detailed"] then
      let category :=
        if negb (counting s =s u"detailed") then hd_str (split_on category (u"/"))
        else category in
      <[category := (default 0 (errors_by_category s !! category) + 1)%Z]>
        (errors_by_category s)
    else errors_by_category s in
  CppLintState (verbose_level s) (error_count s + 1) (filters s) (filters_backup s)
    (counting s) by_category (output_format s).

(** The dictionary is listed in the order Python iterates over it, which the
    argument [items] gives. *)
Definition PrintErrorCounts (items : list (list N * Z)) (s : cpplint_state) : list (list N) :=
  ((fun '(category, n) =>
      u"Category '" ++ category ++ u"' errors found: " ++ show_Z n ++ [10%N]) <$> items)
  ++ [u"Total errors found: " ++ show_Z (error_count s) ++ [10%N]].

End CppLintState.

(** ** NOLINT suppressions *)

Definition add_suppression (k : option (list N)) (line : Z) : M unit :=
  modify (fun w => set_suppressions
    (<[k := {[line]} ∪ default ∅ (error_suppressions w !! k)]> (error_suppressions w)) w).

Definition ParseNolintSuppressions (filename raw_line : list N) (linenum : Z)
    (error : ErrorFn) : M unit :=
  match Search (rx "\bNOLINT(NEXTLINE)?\b(\([^)]+\))?") raw_line with
  | None => mret tt
  | Some matched =>
      let suppressed_line :=
        match group matched 1 with
        | Some (_ :: _) => (linenum + 1)%Z
        | _ => linenum
        end in
      match group matched 2 with
      | None => add_suppression None suppressed_line
      | Some category =>
          if category =s u"(*)" then add_suppression None suppressed_line
          else if starts (u"(") category && ends (u")") category then
            let category := slice category 1 (-1) in
            if in_strs category _ERROR_CATEGORIES
            then add_suppression (Some category) suppressed_line
            else when (negb (in_strs category _LEGACY_ERROR_CATEGORIES))
                   (error filename linenum (u"readability/nolint") 5%Z
                      (u"Unknown NOLINT error category: " ++ category))
          else mret tt
      end
  end.

Definition ResetNolintSuppressions : M unit := modify (set_suppressions ∅).

Definition IsErrorSuppressedByNolint (category : list N) (linenum : Z) (w : world) : bool :=
  bool_decide (linenum ∈ (default ∅ (error_suppressions w !! Some category) : gset Z))
  || bool_decide (linenum ∈ (default ∅ (error_suppressions w !! None) : gset Z)).

(** ** Error *)

(** The loop over the filters: the last filter that applies decides. *)
Fixpoint is_filtered_go (category : list N) (fs : list (list N)) (acc : bool) : res bool :=
  match fs with
  | [] => Ok acc
  | one_filter :: fs' =>
      if starts (u"-") one_filter then
        is_filtered_go category fs' (if starts (slice_from one_filter 1) category then true else acc)
      else if starts (u"+") one_filter then
        is_filtered_go category fs' (if starts (slice_from one_filter 1) category then false else acc)
      else Exc AssertionError
  end.

Definition _ShouldPrintError (category : list N) (confidence linenum : Z) : M bool :=
  fun w =>
    if IsErrorSuppressedByNolint category linenum w then (Ok false, w)
    else if (confidence <? verbose_level (lint w))%Z then (Ok false, w)
    else (negb <$> is_filtered_go category (filters (lint w)) false, w).

Definition error_line (fmt filename : list N) (linenum : Z) (category : list N)
    (confidence : Z) (message : list N) : list N :=
  let tail := message ++ u"  [" ++ category ++ u"] [" ++ show_Z confidence ++ u"]" ++ [10%N] in
  if fmt =s u"vs7" then filename ++ u"(" ++ show_Z linenum ++ u"):  " ++ tail
  else if fmt =s u"eclipse" then filename ++ u":" ++ show_Z linenum ++ u": warning: " ++ tail
  else filename ++ u":" ++ show_Z linenum ++ u":  " ++ tail.

Definition Error : ErrorFn := fun filename linenum category confidence message =>
  b ← _ShouldPrintError category confidence linenum;
  when b
    (modify (fun w => set_lint (CppLintState.IncrementErrorCount category (lint w)) w) ≫= fun _ =>
     fmt ← gets (fun w => output_format (lint w));
     print_err (error_line fmt filename linenum category confidence message)).

(** ** Filters *)

Definition signed (fs : list (list N)) : Prop :=
  Forall (fun f => CppLintState.signed_filter f = true) fs.

(** A filter applies to a category when the rest of it is a prefix of the
    category. *)
Definition applies (sign : N) (category f : list N) : Prop :=
  exists p, f = sign :: p /\ p `prefix_of` category.

(** The category is filtered out: some [-] filter applies and no later [+]
    filter does. *)
Definition filtered (category : list N) (fs : list (list N)) : Prop :=
  exists l1 f l2, fs = l1 ++ f :: l2 /\ applies (ch "-") category f
    /\ forall g, g ∈ l2 -> ~ applies (ch "+") category g.

Definition is_plus (f : list N) : Prop := exists p, f = ch "+" :: p.
Definition is_minus (f : list N) : Prop := exists p, f = ch "-" :: p.

Lemma signed_cases f :
  CppLintState.signed_filter f = true -> is_plus f \/ is_minus f.
Proof.
  unfold CppLintState.signed_filter. intros [H|H]%orb_true_iff;
    apply starts_spec in H as [t ->]; [left | right]; by exists t.
Qed.

Lemma starts_minus f : starts (u"-") f = true <-> is_minus f.
Proof. rewrite starts_spec. done. Qed.

(** [filtered] by the last filter first: how the loop accumulates. *)
Lemma is_filtered_go_spec c fs acc :
  signed fs ->
  exists b, is_filtered_go c fs acc = Ok b
    /\ (b = true <-> filtered c fs
          \/ (acc = true /\ forall g, g ∈ fs -> ~ applies (ch "+") c g)).
Proof.
  intros Hs. revert acc. induction Hs as [|f fs Hf _ IH]; intros acc; simpl.
  - exists acc. split; [done|]. split; [intros ->; right; split; [done|]; set_solver|].
    intros [(l1 & f & l2 & H & _)|[H _]]; [by destruct l1 | done].
  - assert (filtered c (f :: fs) <-> filtered c fs \/
      (applies (ch "-") c f /\ forall g, g ∈ fs -> ~ applies (ch "+") c g)) as Hcons.
    { split.
      - intros ([|x l1] & g & l2 & [= -> ->] & Ha & Hl); [by right|].
        left. by exists l1, g, l2.
      - intros [(l1 & g & l2 & -> & Ha & Hl)|[Ha Hl]];
          [by exists (f :: l1), g, l2 | by exists [], f, fs]. }
    rewrite slice_from_1.
    destruct (signed_cases _ Hf) as [[p ->]|[p ->]]; simpl in *;
      destruct (starts p c) eqn:E; rewrite ?starts_prefix in E.
    all: match goal with |- context [is_filtered_go _ _ ?a] =>
           destruct (IH a) as (b & -> & Hb) end.
    all: exists b; split; [done|]; rewrite Hb, Hcons; clear Hb IH Hcons.
    all: try (rewrite <- not_true_iff_false, starts_prefix in E).
    all: unfold applies in *; setoid_rewrite elem_of_cons; naive_solver.
Qed.

Lemma should_print_cases category confidence linenum w :
  signed (filters (lint w)) ->
  exists b, _ShouldPrintError category confidence linenum w = (Ok b, w)
    /\ (b = true <->
        IsErrorSuppressedByNolint category linenum w = false
        /\ (verbose_level (lint w) <= confidence)%Z
        /\ ~ filtered category (filters (lint w))).
Proof.
  intros Hs. unfold _ShouldPrintError.
  destruct (IsErrorSuppressedByNolint _ _ _); [exists false; naive_solver|].
  destruct (Z.ltb_spec confidence (verbose_level (lint w))).
  { exists false. split; [done|]. split; [done|]. lia. }
  destruct (is_filtered_go_spec category _ false Hs) as (b & -> & Hb).
  exists (negb b). split; [done|]. destruct b; naive_solver.
Qed.

(** C9: an error is printed exactly when no NOLINT suppresses its category on
    the line, its confidence reaches the verbosity, and the last filter that
    applies to its category is not a [-] filter.  Deciding changes nothing. *)
Theorem ShouldPrintError_spec category confidence linenum w :
  signed (filters (lint w)) ->
  exists b, _ShouldPrintError category confidence linenum w = (Ok b, w)
    /\ (b = true <->
        IsErrorSuppressedByNolint category linenum w = false
        /\ (verbose_level (lint w) <= confidence)%Z
        /\ ~ filtered category (filters (lint w))).
Proof. apply should_print_cases. Qed.

Lemma ShouldPrintError_spec_witness :
  filtered (u"whitespace/tab") [u"-whitespace"; u"+whitespace/indent"]
  /\ exists b, _ShouldPrintError (u"build/class") 5 3 init_world = (Ok b, init_world)
       /\ (b = true <->
           IsErrorSuppressedByNolint (u"build/class") 3 init_world = false
           /\ (1 <= 5)%Z /\ ~ filtered (u"build/class") _DEFAULT_FILTERS).
Proof.
  split.
  - exists [], (u"-whitespace"), [u"+whitespace/indent"].
    split; [done|]. split; [by exists (u"whitespace"); split; [|exists (u"/tab")]|].
    intros g Hg. apply list_elem_of_singleton in Hg as ->. intros (p & Hp & [t Ht]).
    injection Hp as <-. discriminate Ht.
  - apply (ShouldPrintError_spec (u"build/class") 5 3 init_world).
    constructor; [reflexivity | constructor].
Defined.

(** ** The filters of the command line *)

Lemma find_unsigned_None fs :
  List.find (fun f => negb (CppLintState.signed_filter f)) fs = None <-> signed fs.
Proof.
  unfold signed. induction fs as [|f fs IH]; simpl; [by split; [constructor|]|].
  rewrite Forall_cons, <- IH.
  destruct (CppLintState.signed_filter f); simpl; naive_solver.
Qed.

Lemma AddFilters_Ok fs s s' :
  CppLintState.AddFilters fs s = (Ok tt, s') -> signed (filters s').
Proof.
  unfold CppLintState.AddFilters.
  destruct (List.find _ _) eqn:E; intros [= <-]. by apply find_unsigned_None.
Qed.

(** C11: [SetFilters] accepts a filter list exactly when every non-empty,
    stripped, comma-separated item starts with a sign; the filters are then
    the defaults followed by the items, in order, and [Error] can no longer
    run into the assertion of [_ShouldPrintError]. *)
Theorem SetFilters_spec fs s :
  let items := List.filter (fun f => negb (f =s [])) (strip_bytes <$> split_on fs (u",")) in
  let s' := CppLintState.set_filters (_DEFAULT_FILTERS ++ items) s in
  if forallb CppLintState.signed_filter items
  then CppLintState.SetFilters fs s = (Ok tt, s') /\ signed (filters s')
  else exists msg, CppLintState.SetFilters fs s = (Exc (ValueError msg), s').
Proof.
  intros items s'. unfold CppLintState.SetFilters, CppLintState.AddFilters.
  fold items. change (CppLintState.set_filters _ (CppLintState.set_filters _ s)) with s'.
  assert (signed (filters s') <-> forallb CppLintState.signed_filter items = true) as Hs.
  { unfold s', signed. simpl. rewrite Forall_cons, forallb_forall, Forall_forall.
    setoid_rewrite list_elem_of_In. naive_solver. }
  destruct (List.find _ (filters s')) as [f|] eqn:E.
  - destruct (forallb _ items) eqn:F; [|by eexists].
    exfalso. pose proof (proj2 Hs eq_refl) as Hf.
    apply find_unsigned_None in Hf. congruence.
  - apply find_unsigned_None in E. rewrite (proj1 Hs E). done.
Qed.

(** ** Error counts *)

(** The total of the per-category counts. *)
Definition sum_counts (cs : gmap (list N) Z) : Z := map_fold (fun _ v acc => (v + acc)%Z) 0%Z cs.

Lemma sum_counts_insert_None cs k v :
  cs !! k = None -> sum_counts (<[k := v]> cs) = (v + sum_counts cs)%Z.
Proof.
  intros H. unfold sum_counts. apply map_fold_insert_L; [|done].
  intros. lia.
Qed.
Lemma sum_counts_insert cs k v :
  sum_counts (<[k := v]> cs) = (v - default 0 (cs !! k) + sum_counts cs)%Z.
Proof.
  destruct (cs !! k) as [x|] eqn:E; simpl.
  - rewrite <- (insert_delete_id cs k x E) at 2. rewrite <- insert_delete_eq.
    rewrite !sum_counts_insert_None by apply lookup_delete_eq. lia.
  - rewrite sum_counts_insert_None by done. lia.
Qed.

(** Whether the counting style keeps a count for each category. *)
Definition by_category (s : cpplint_state) : bool :=
  in_strs (counting s) [u"toplevel"; u"detailed"].

Lemma sum_IncrementErrorCount c s :
  let s' := CppLintState.IncrementErrorCount c s in
  if by_category s
  then sum_counts (errors_by_category s') = (sum_counts (errors_by_category s) + 1)%Z
  else errors_by_category s' = errors_by_category s.
Proof.
  unfold by_category, CppLintState.IncrementErrorCount. cbn [errors_by_category].
  destruct (in_strs _ _); [|done]. rewrite sum_counts_insert. lia.
Qed.

(** What [Error] does to the module's state: nothing, or one count and one
    line on stderr. *)
Lemma Error_step filename linenum category confidence message w :
  signed (filters (lint w)) ->
  exists w', Error filename linenum category confidence message w = (Ok tt, w')
    /\ (w' = w \/
        w' = write_stderr (error_line (output_format (lint w)) filename linenum category
                             confidence message)
               (set_lint (CppLintState.IncrementErrorCount category (lint w)) w)).
Proof.
  intros Hs. unfold Error, mbind, M_bind.
  destruct (should_print_cases category confidence linenum w Hs) as (b & -> & _).
  destruct b; eexists; split; [done| |done|]; auto.
Qed.

(** C8: counting and printing stay in step.  With signed filters, any sequence
    of errors returns, and the error count grows by the number of reports that
    were printed.  With the counting styles toplevel and detailed the counts of
    the categories grow by that much together; with any other style, such as
    the default total, they stay as they are. *)
Theorem Error_counts_agree (es : list (list N * Z * list N * Z * list N)) w :
  signed (filters (lint w)) ->
  exists w', for_ es (fun '(f, l, c, k, msg) => Error f l c k msg) w = (Ok tt, w')
    /\ (error_count (lint w') - error_count (lint w) = len (stderr w') - len (stderr w))%Z
    /\ counting (lint w') = counting (lint w) /\ filters (lint w') = filters (lint w)
    /\ if by_category (lint w)
       then (sum_counts (errors_by_category (lint w')) - sum_counts (errors_by_category (lint w))
             = error_count (lint w') - error_count (lint w))%Z
       else errors_by_category (lint w') = errors_by_category (lint w).
Proof.
  revert w. induction es as [|[[[[f l] c] k] msg] es IH]; intros w Hs; simpl.
  - exists w. split; [done|]. split; [lia|]. repeat split. destruct (by_category _); [lia|done].
  - unfold mbind, M_bind.
    destruct (Error_step f l c k msg w Hs) as (w1 & E & [->| ->]); rewrite E; [by apply IH|].
    match type of E with _ = (_, ?w1) => destruct (IH w1 Hs) as (w' & E' & Hn & Hc & Hf & Hb) end.
    exists w'. split; [exact E'|].
    pose proof (sum_IncrementErrorCount c (lint w)) as Hsum. cbv zeta in Hsum.
    cbn [lint write_stderr set_lint stderr] in *. rewrite len_app in Hn.
    change (error_count (CppLintState.IncrementErrorCount c (lint w)))
      with (error_count (lint w) + 1)%Z in *.
    change (len [error_line (output_format (lint w)) f l c k msg]) with 1%Z in Hn.
    split; [lia|]. do 2 (split; [done|]).
    change (by_category (CppLintState.IncrementErrorCount c (lint w))) with (by_category (lint w)) in Hb.
    destruct (by_category (lint w)); [lia|congruence].
Qed.

Lemma Error_counts_agree_witness :
  exists w', for_ [(u"a.cc", 1%Z, u"build/class", 5%Z, u"m"); (u"a.cc", 2%Z, u"build/include_alpha", 4%Z, u"m")]
      (fun '(f, l, c, k, msg) => Error f l c k msg)
      (set_lint (CppLintState.SetCountingStyle (u"toplevel") init_state) init_world) = (Ok tt, w')
    /\ (error_count (lint w') - 0 = len (stderr w') - 0)%Z
    /\ (sum_counts (errors_by_category (lint w')) - 0 = error_count (lint w') - 0)%Z.
Proof.
  destruct (Error_counts_agree
    [(u"a.cc", 1%Z, u"build/class", 5%Z, u"m"); (u"a.cc", 2%Z, u"build/include_alpha", 4%Z, u"m")]
    (set_lint (CppLintState.SetCountingStyle (u"toplevel") init_state) init_world))
    as (w' & E & Hn & _ & _ & Hb); [constructor; [reflexivity | constructor]|].
  exists w'. split; [exact E|]. split; [exact Hn|exact Hb].
Defined.

(** ** NOLINT *)

(** What a NOLINT comment says: it names all categories, one category that
    can be suppressed, a category of older versions, or an unknown one.  With
    text in parentheses that is not closed it would say nothing. *)
Inductive nolint :=
  | NolintAll
  | NolintOne (category : list N)
  | NolintLegacy (category : list N)
  | NolintUnknown (category : list N)
  | NolintNothing.

(** The comment by the text in parentheses behind NOLINT. *)
Definition nolint_of (text : option (list N)) : nolint :=
  match text with
  | None => NolintAll
  | Some c =>
      if c =s u"(*)" then NolintAll
      else
        match c with
        | b :: t =>
            if (b =c ch "(") && bool_decide (last t = Some (ch ")")) then
              let category := take (length t - 1) t in
              if bool_decide (category ∈ _ERROR_CATEGORIES) then NolintOne category
              else if bool_decide (category ∈ _LEGACY_ERROR_CATEGORIES) then NolintLegacy category
              else NolintUnknown category
            else NolintNothing
        | [] => NolintNothing
        end
  end.
Definition nolint_line (matched : match_obj) (linenum : Z) : Z :=
  match group matched 1 with Some (_ :: _) => (linenum + 1)%Z | _ => linenum end.

Definition suppresses (n : nolint) (category : list N) : Prop :=
  match n with
  | NolintAll => True
  | NolintOne c => c = category
  | _ => False
  end.

Definition key_of (n : nolint) : option (list N) :=
  match n with NolintOne c => Some c | _ => None end.

Lemma suppressed_add k line w category l :
  IsErrorSuppressedByNolint category l
    (set_suppressions (<[k := {[line]} ∪ default ∅ (error_suppressions w !! k)]>
       (error_suppressions w)) w) = true
  <-> IsErrorSuppressedByNolint category l w = true
      \/ (l = line /\ (k = None \/ k = Some category)).
Proof.
  unfold IsErrorSuppressedByNolint. simpl.
  rewrite !orb_true_iff, !bool_decide_eq_true, !lookup_insert.
  repeat case_decide; subst; simpl; set_solver.
Qed.

Lemma in_strs_decide x xs : in_strs x xs = bool_decide (x ∈ xs).
Proof. apply eq_true_iff_eq. by rewrite in_strs_spec, bool_decide_eq_true. Qed.
Lemma add_suppression_spec n line w :
  match n with NolintAll | NolintOne _ => True | _ => False end ->
  exists w', add_suppression (key_of n) line w = (Ok tt, w')
    /\ lint w' = lint w /\ stderr w' = stderr w
    /\ forall category l, IsErrorSuppressedByNolint category l w' = true <->
         IsErrorSuppressedByNolint category l w = true \/ (l = line /\ suppresses n category).
Proof.
  intros Hn. eexists. split; [done|]. split; [done|]. split; [done|].
  intros category l. rewrite suppressed_add. destruct n; simpl; naive_solver.
Qed.
(** The text in parentheses, as [startswith], [endswith] and the slice see it. *)
Lemma nolint_of_parens c :
  c <> u"(*)" ->
  nolint_of (Some c) =
  if starts (u"(") c && ends (u")") c then
    if in_strs (slice c 1 (-1)) _ERROR_CATEGORIES then NolintOne (slice c 1 (-1))
    else if in_strs (slice c 1 (-1)) _LEGACY_ERROR_CATEGORIES then NolintLegacy (slice c 1 (-1))
    else NolintUnknown (slice c 1 (-1))
  else NolintNothing.
Proof.
  intros Hc. unfold nolint_of. apply eqs_false in Hc. rewrite Hc.
  destruct c as [|b t]; [done|].
  change (starts (u"(") (b :: t)) with ((ch "(" =c b) && true). rewrite andb_true_r, (N.eqb_sym b).
  destruct (N.eqb_spec (ch "(") b) as [<-|_]; [|done]. cbn [andb].
  destruct t as [|e t _] using rev_ind.
  - rewrite bool_decide_eq_false_2 by done. destruct (ends _ _) eqn:E; [|done].
    apply ends_spec in E as [[|x a] E]; [discriminate E|by destruct a].
  - rewrite last_snoc, length_app, Nat.add_sub, take_app_length.
    replace (slice (ch "(" :: t ++ [e]) 1 (-1)) with t.
    2:{ unfold slice. replace (clamp _ 1) with 1 by (unfold clamp; simpl; lia).
        replace (clamp _ (-1)) with (S (length t))
          by (unfold clamp; cbn [length]; rewrite length_app; simpl; lia).
        cbn [take drop]. by rewrite take_app_length. }
    rewrite !in_strs_decide.
    replace (ends (u")") (ch "(" :: t ++ [e])) with (bool_decide (Some e = Some (ch ")"))); [done|].
    apply eq_true_iff_eq. rewrite bool_decide_eq_true, ends_spec. split.
    + intros [= ->]. by exists (ch "(" :: t).
    + intros [a E]. rewrite app_comm_cons in E. by apply app_inj_tail in E as [_ ->].
Qed.

(** C10: the NOLINT comment of a line adds exactly its own suppression: after
    parsing, an error is suppressed when it was before, or when it is on the
    suppressed line (the next one for NOLINTNEXTLINE) and the comment names
    all categories or its own.  A comment that names an unknown category is
    reported, with that category, and suppresses nothing; one that names a
    category of older versions does nothing, and neither does a line without
    such a comment. *)
Theorem ParseNolintSuppressions_spec filename raw_line linenum error w :
  let run := ParseNolintSuppressions filename raw_line linenum error w in
  match Search (rx "\bNOLINT(NEXTLINE)?\b(\([^)]+\))?") raw_line with
  | None => run = (Ok tt, w)
  | Some matched =>
      match nolint_of (group matched 2) with
      | NolintLegacy _ | NolintNothing => run = (Ok tt, w)
      | NolintUnknown category =>
          run = error filename linenum (u"readability/nolint") 5%Z
                  (u"Unknown NOLINT error category: " ++ category) w
      | n =>
          exists w', run = (Ok tt, w') /\ lint w' = lint w /\ stderr w' = stderr w
            /\ forall category l,
                 IsErrorSuppressedByNolint category l w' = true <->
                 IsErrorSuppressedByNolint category l w = true
                 \/ (l = nolint_line matched linenum /\ suppresses n category)
      end
  end.
Proof.
  cbv zeta. unfold ParseNolintSuppressions. destruct (Search _ raw_line) as [matched|]; [|done].
  fold (nolint_line matched linenum).
  destruct (group matched 2) as [c|]; [|by apply (add_suppression_spec NolintAll)].
  destruct (c =s u"(*)") eqn:Es.
  { apply eqs_true in Es as ->. by apply (add_suppression_spec NolintAll). }
  rewrite nolint_of_parens by (by apply eqs_false).
  destruct (starts (u"(") c && ends (u")") c); [|done].
  destruct (in_strs _ _ERROR_CATEGORIES); [by apply (add_suppression_spec (NolintOne _))|].
  by destruct (in_strs _ _LEGACY_ERROR_CATEGORIES).
Qed.
