(* ===== verification/FileInfo.v ===== *)
(** * File names: os.path, FileInfo, header guards and modules

    Models [FileInfo] (lines 974-1061), [GetHeaderGuardCPPVariable]
    (1650-1674), [_DropCommonSuffixes] (4500-4525), [_IsTestFilename]
    (4527-4542) and [FilesBelongToSameModule] (5521-5573), over a model of the
    functions of [os.path] they call.  The file system is an argument: what
    exists, and the current directory. *)

From S2P Require Import Prelude PyStr Regex RePattern Lint.
From Stdlib Require Import Ascii.

(** ** os.path (POSIX) *)

Definition slash : list N := u"/".

Definition os_split (p : list N) : list N * list N :=
  let i := (rfind p slash + 1)%Z in
  let head := slice_to p i in
  let tail := slice_from p i in
  let head :=
    if negb (forallb (N.eqb (ch "/")) head) then rstrip_chars slash head else head in
  (head, tail).
Definition dirname (p : list N) : list N := (os_split p).1.
Definition basename (p : list N) : list N := (os_split p).2.

Definition splitext (p : list N) : list N * list N :=
  let sepIndex := rfind p slash in
  let dotIndex := rfind p (u".") in
  if (sepIndex <? dotIndex)%Z then
    (* leading dots of the file name do not start an extension *)
    if forallb (N.eqb (ch ".")) (slice p (sepIndex + 1) dotIndex)
    then (p, [])
    else (slice_to p dotIndex, slice_from p dotIndex)
  else (p, []).

Definition path_join (a b : list N) : list N :=
  if starts slash b then b
  else if (a =s []) || ends slash a then a ++ b
  else a ++ slash ++ b.

Fixpoint norm_comps (initial_slashes : bool) (new_comps comps : list (list N))
    : list (list N) :=
  match comps with
  | [] => reverse new_comps
  | comp :: comps' =>
      if in_strs comp [[]; u"."] then norm_comps initial_slashes new_comps comps'
      else if negb (comp =s u"..")
              || (negb initial_slashes && match new_comps with [] => true | _ => false end)
              || match new_comps with c :: _ => c =s u".." | [] => false end
      then norm_comps initial_slashes (comp :: new_comps) comps'
      else norm_comps initial_slashes (tail new_comps) comps'
  end.
Definition normpath (path : list N) : list N :=
  if path =s [] then u"."
  else
    let initial := starts slash path in
    let slashes :=
      if negb initial then []
      else if starts (u"//") path && negb (starts (u"///") path) then u"//"
      else slash in
    let path' := slashes ++ join slash (norm_comps initial [] (split_on path slash)) in
    if path' =s [] then u"." else path'.

(** The part of the file system the scripts look at. *)
Record filesystem := Filesystem {
  fs_cwd : list N;
  fs_exists : list N -> bool
}.

Definition abspath (fs : filesystem) (path : list N) : list N :=
  normpath (if starts slash path then path else path_join (fs_cwd fs) path).

Fixpoint commonprefix2 (a b : list N) : list N :=
  match a, b with
  | x :: a', y :: b' => if x =c y then x :: commonprefix2 a' b' else []
  | _, _ => []
  end.

(** ** FileInfo *)

Module FileInfo.

Section with_fs.
Context (fs : filesystem).

Definition FullName (filename : list N) : list N :=
  replace (abspath fs filename) (u"\") (u"/").

(** The loop that climbs to the top of an SVN checkout. *)
Fixpoint svn_root (fuel : nat) (root_dir one_up_dir : list N) : res (list N) :=
  match fuel with
  | 0 => Exc OutOfFuel
  | S f =>
      if fs_exists fs (path_join one_up_dir (u".svn"))
      then svn_root f (dirname root_dir) (dirname one_up_dir)
      else Ok root_dir
  end.

Definition has_vcs (d : list N) : bool :=
  fs_exists fs (path_join d (u".git")) || fs_exists fs (path_join d (u".hg"))
  || fs_exists fs (path_join d (u".svn")).

(** The loop that climbs to a directory with a [.git], [.hg] or [.svn]. *)
Fixpoint vcs_root (fuel : nat) (root_dir : list N) : res (list N) :=
  match fuel with
  | 0 => Exc OutOfFuel
  | S f =>
      if negb (root_dir =s dirname root_dir) && negb (has_vcs root_dir)
      then vcs_root f (dirname root_dir)
      else Ok root_dir
  end.

Definition RepositoryName (filename : list N) : res (list N) :=
  let fullname := FullName filename in
  if fs_exists fs fullname then
    let project_dir := dirname fullname in
    if fs_exists fs (path_join project_dir (u".svn")) then
      root_dir ← svn_root (S (length fullname)) project_dir (dirname project_dir);
      let prefix := commonprefix2 root_dir project_dir in
      Ok (slice_from fullname (len prefix + 1))
    else
      root_dir ← vcs_root (S (length fullname)) (dirname fullname);
      if has_vcs root_dir then
        let prefix := commonprefix2 root_dir project_dir in
        Ok (slice_from fullname (len prefix + 1))
      else Ok fullname
  else Ok fullname.

Definition Split (filename : list N) : res (list N * list N * list N) :=
  googlename ← RepositoryName filename;
  let '(project, rest) := os_split googlename in
  Ok (project, (splitext rest).1, (splitext rest).2).
Definition BaseName (filename : list N) : res (list N) :=
  '(_, b, _) ← Split filename; Ok b.
Definition Extension (filename : list N) : res (list N) :=
  '(_, _, e) ← Split filename; Ok e.
Definition NoExtension (filename : list N) : res (list N) :=
  '(d, b, _) ← Split filename; Ok (join slash [d; b]).
Definition IsSource (filename : list N) : res bool :=
  e ← Extension filename;
  Ok (in_strs (slice_from e 1) [u"c"; u"cc"; u"cpp"; u"cxx"]).

End with_fs.
End FileInfo.

(** ** Header guards *)

(** The name of the guard variable; [root] is the global [_root]. *)
Definition GetHeaderGuardCPPVariable (fs : filesystem) (root : option (list N))
    (filename : list N) : res (list N) :=
  let filename := re_sub (rx "_flymake\.h$") (fun _ => u".h") filename in
  let filename := re_sub (rx "/\.flymake/([^/]*)$") (fun o => u"/" ++ grp o 1) filename in
  let filename := replace (replace filename (u"C++") (u"cpp")) (u"c++") (u"cpp") in
  file_path_from_root ← FileInfo.RepositoryName fs filename;
  file_path_from_root ←
    match root with
    | Some ((_ :: _) as r) =>
        p ← compile_res (u"^" ++ r ++ u"/");
        Ok (re_sub p (fun _ => []) file_path_from_root)
    | _ => Ok file_path_from_root
    end;
  Ok (upper (ReplaceAll (rx "[^a-zA-Z0-9]") (u"_") file_path_from_root) ++ u"_").

(** ** Modules *)

Fixpoint drop_suffix_go (filename : list N) (suffixes : list (list N)) : res (list N) :=
  match suffixes with
  | [] => Ok (splitext filename).1
  | suffix :: rest =>
      if ends suffix filename && (len suffix <? len filename)%Z then
        c ← py_index filename (- len suffix - 1);
        if in_chars c (u"-_")
        then Ok (slice_to filename (- len suffix - 1))
        else drop_suffix_go filename rest
      else drop_suffix_go filename rest
  end.
Definition _DropCommonSuffixes (filename : list N) : res (list N) :=
  drop_suffix_go filename [u"test.cc"; u"regtest.cc"; u"unittest.cc";
                           u"inl.h"; u"impl.h"; u"internal.h"].

Definition _IsTestFilename (filename : list N) : bool :=
  if ends (u"_test.cc") filename || ends (u"_unittest.cc") filename
     || ends (u"_regtest.cc") filename
  then true else false.

Definition FilesBelongToSameModule (filename_cc filename_h : list N) : bool * list N :=
  if negb (ends (u".cc") filename_cc) then (false, [])
  else
    let filename_cc := slice_to filename_cc (- len (u".cc")) in
    let filename_cc :=
      if ends (u"_unittest") filename_cc then slice_to filename_cc (- len (u"_unittest"))
      else if ends (u"_test") filename_cc then slice_to filename_cc (- len (u"_test"))
      else filename_cc in
    let filename_cc := replace filename_cc (u"/public/") slash in
    let filename_cc := replace filename_cc (u"/internal/") slash in
    if negb (ends (u".h") filename_h) then (false, [])
    else
      let filename_h := slice_to filename_h (- len (u".h")) in
      let filename_h :=
        if ends (u"-inl") filename_h then slice_to filename_h (- len (u"-inl"))
        else filename_h in
      let filename_h := replace filename_h (u"/public/") slash in
      let filename_h := replace filename_h (u"/internal/") slash in
      let files_belong_to_same_module := ends filename_h filename_cc in
      let common_path :=
        if files_belong_to_same_module
        then slice_to filename_cc (- len filename_h) else [] in
      (files_belong_to_same_module, common_path).

Example splitext_ex :
  splitext (u"a.b/c.tar.gz") = (u"a.b/c.tar", u".gz")
  /\ splitext (u"a.b/.bashrc") = (u"a.b/.bashrc", []).
Proof. split; vm_compute; reflexivity. Qed.
Example normpath_ex : normpath (u"/a/./b/../../c//d") = u"/c/d".
Proof. vm_compute. reflexivity. Qed.
Example module_ex :
  FilesBelongToSameModule (u"/abs/base/public/sysinfo_test.cc") (u"base/sysinfo-inl.h")
  = (true, u"/abs/").
Proof. vm_compute. reflexivity. Qed.

(** ** Paths *)

Lemma rfind_slash_tail p : ~ ch "/" ∈ slice_from p (rfind p slash + 1).
Proof.
  unfold rfind. intros Hin. apply list_elem_of_lookup in Hin as [j Hj].
  destruct (rfind_nat slash p) as [i|] eqn:E; simpl in Hj.
  - replace (Z.of_nat i + 1)%Z with (Z.of_nat (S i)) in Hj by lia.
    rewrite slice_from_pos, Nat2Z.id, lookup_drop in Hj by lia.
    destruct (rfind_nat_max slash p (S i + j)) as (i' & E' & ?);
      [apply lookup_lt_Some in Hj; lia| |rewrite E in E'; injection E' as <-; lia].
    unfold occurs_at. by rewrite (drop_S p _ _ Hj).
  - rewrite slice_from_pos in Hj by lia. simpl in Hj. rewrite drop_0 in Hj.
    destruct (rfind_nat_max slash p j) as (i' & E' & _);
      [apply lookup_lt_Some in Hj; lia| |congruence].
    unfold occurs_at. by rewrite (drop_S p _ _ Hj).
Qed.

Lemma rfind_bounds s sub : sub <> [] -> (-1 <= rfind s sub < len s)%Z.
Proof.
  intros Hsub. unfold rfind, len. destruct (rfind_nat sub s) as [i|] eqn:E; simpl; [|lia].
  apply rfind_nat_Some in E as [H _]. unfold occurs_at in H.
  apply starts_length in H. rewrite length_drop in H. destruct sub; [done|]. simpl in H. lia.
Qed.
Lemma slice_to_from {A} (l : list A) i : (0 <= i)%Z -> slice_to l i ++ slice_from l i = l.
Proof. intros. rewrite slice_to_pos, slice_from_pos by done. apply take_drop. Qed.

Lemma os_split_tail p : ~ ch "/" ∈ basename p.
Proof. apply rfind_slash_tail. Qed.
(** The head and the tail are the path, up to the slashes between them. *)
Lemma os_split_app p :
  exists sl, p = dirname p ++ sl ++ basename p /\ Forall (fun c => c = ch "/") sl.
Proof.
  pose proof (rfind_bounds p slash ltac:(done)) as Hb.
  unfold dirname, basename, os_split. cbn [fst snd].
  assert (0 <= rfind p slash + 1)%Z as Hi by lia.
  pose proof (slice_to_from p _ Hi) as Hp.
  destruct (negb _); [|exists []; split; [symmetry; apply Hp | constructor]].
  destruct (rstrip_p_spec (fun c => in_chars c slash) (slice_to p (rfind p slash + 1)))
    as (sl & Hsl & Hall).
  exists sl. split.
  - rewrite app_assoc. unfold rstrip_chars. by rewrite <- Hsl, Hp.
  - eapply Forall_impl; [exact Hall|]. intros c Hc. apply in_chars_spec in Hc.
    by apply list_elem_of_singleton in Hc.
Qed.
Lemma dirname_prefix p : dirname p `prefix_of` p.
Proof. destruct (os_split_app p) as (sl & H & _). by exists (sl ++ basename p). Qed.
Lemma dirname_length p : dirname p <> p -> length (dirname p) < length p.
Proof.
  intros Hne. destruct (dirname_prefix p) as [k Hk].
  assert (k <> []) as Hk0 by (intros ->; rewrite app_nil_r in Hk; congruence).
  rewrite Hk at 2. rewrite length_app. destruct k; [done|]. simpl. lia.
Qed.

(** Splitting off the extension loses nothing, and the extension is empty or
    a dot followed by characters that are neither dots nor slashes. *)
Lemma splitext_app p : (splitext p).1 ++ (splitext p).2 = p.
Proof.
  unfold splitext. pose proof (rfind_bounds p (u".") ltac:(done)).
  pose proof (rfind_bounds p slash ltac:(done)).
  destruct (Z.ltb_spec (rfind p slash) (rfind p (u"."))); [|apply app_nil_r].
  destruct (forallb _ _); [apply app_nil_r|]. apply slice_to_from. lia.
Qed.

(** ** The repository name *)

(** The name of the current directory is absolute, as [os.getcwd] returns it,
    and the directory at the top of the tree has no [.svn]: there the SVN loop
    would not stop.  A top directory is an absolute path that is its own
    [dirname]. *)
Definition no_top_svn (fs : filesystem) : Prop :=
  starts slash (fs_cwd fs) = true /\
  forall d, starts slash d = true -> dirname d = d -> fs_exists fs (path_join d (u".svn")) = false.

Lemma starts_dirname p : starts slash p = true -> starts slash (dirname p) = true.
Proof.
  intros [t ->]%starts_spec. change (slash ++ t) with (ch "/" :: t).
  destruct (os_split_app (ch "/" :: t)) as (sl & E & _).
  destruct (dirname (ch "/" :: t)) as [|c d] eqn:Ed.
  - exfalso. unfold dirname, os_split in Ed. cbn [fst] in Ed.
    pose proof (rfind_bounds (ch "/" :: t) slash ltac:(done)) as Hb.
    assert (0 <= rfind (ch "/" :: t) slash)%Z as Hr.
    { unfold rfind. destruct (rfind_nat_max slash (ch "/" :: t) 0) as (i & -> & _);
        [lia| |cbn; lia]. unfold occurs_at. apply starts_spec. by exists t. }
    rewrite slice_to_pos in Ed by lia.
    replace (Z.to_nat (rfind (ch "/" :: t) slash + 1))
      with (S (Z.to_nat (rfind (ch "/" :: t) slash))) in Ed by lia.
    cbn [take] in Ed. destruct (negb _) eqn:Hn; [|done].
    set (k := take _ t) in *. destruct (rstrip_p_spec (fun c => in_chars c slash) (ch "/" :: k))
      as (w & Hw & Hall). unfold rstrip_chars in Ed. rewrite Ed in Hw. cbn [app] in Hw. subst w.
    apply negb_true_iff in Hn. rewrite <- not_true_iff_false, forallb_forall in Hn. apply Hn.
    intros x Hx%list_elem_of_In. rewrite Forall_forall in Hall. specialize (Hall x Hx).
    apply in_chars_spec, list_elem_of_singleton in Hall as ->. apply N.eqb_refl.
  - injection E as <- _. apply starts_spec. by exists d.
Qed.
Lemma starts_normpath p : starts slash p = true -> starts slash (normpath p) = true.
Proof.
  intros H. unfold normpath. case_bool; [by apply eqs_true in Heqb as ->|]. cbv zeta. rewrite H.
  cbn [negb]. assert (forall x, starts slash ((if starts (u"//") p && negb (starts (u"///") p)
    then u"//" else slash) ++ x) = true) as Hs by (intros x; case_bool; [apply starts_spec; by exists (slash ++ x)|apply starts_app]).
  case_bool; [|apply Hs]. apply eqs_true in Heqb0. specialize (Hs (join slash (norm_comps true [] (split_on p slash)))).
  by rewrite Heqb0 in Hs.
Qed.
Lemma starts_join a b : starts slash a = true -> starts slash (path_join a b) = true.
Proof.
  intros [t ->]%starts_spec. unfold path_join. case_bool; [done|].
  case_bool; rewrite <- ?app_assoc; apply starts_app.
Qed.
Lemma FullName_absolute fs filename :
  starts slash (fs_cwd fs) = true -> starts slash (FileInfo.FullName fs filename) = true.
Proof.
  intros Hc. unfold FileInfo.FullName, abspath.
  assert (starts slash (normpath (if starts slash filename then filename
    else path_join (fs_cwd fs) filename)) = true) as [t ->]%starts_spec.
  { apply starts_normpath. case_bool; [done|]. by apply starts_join. }
  apply (starts_app slash).
Qed.

Lemma svn_root_total fs fuel r d :
  no_top_svn fs -> starts slash d = true -> length d < fuel ->
  exists x, FileInfo.svn_root fs fuel r d = Ok x.
Proof.
  intros [_ Htop]. revert r d. induction fuel as [|f IH]; intros r d Hd Hf; [lia|]. simpl.
  destruct (fs_exists fs _) eqn:E; [|by eexists].
  apply IH; [by apply starts_dirname|]. destruct (decide (dirname d = d)) as [Ht|Ht].
  - by rewrite (Htop _ Hd Ht) in E.
  - apply dirname_length in Ht. lia.
Qed.
Lemma vcs_root_total fs fuel d :
  length d < fuel -> exists x, FileInfo.vcs_root fs fuel d = Ok x.
Proof.
  revert d. induction fuel as [|f IH]; intros d Hf; [lia|]. simpl.
  destruct (d =s dirname d) eqn:E; simpl; [by eexists|].
  apply eqs_false in E.
  destruct (FileInfo.has_vcs fs d); [by eexists|]. apply IH.
  pose proof (dirname_length d ltac:(congruence)). lia.
Qed.

Lemma RepositoryName_cut fs filename :
  no_top_svn fs ->
  exists name cut, FileInfo.RepositoryName fs filename = Ok name
    /\ FileInfo.FullName fs filename = cut ++ name.
Proof.
  intros Htop. unfold FileInfo.RepositoryName.
  set (full := FileInfo.FullName fs filename).
  assert (length (dirname full) < S (length full)) as L1.
  { destruct (dirname_prefix full) as [k Hk]. rewrite Hk at 2. rewrite length_app. lia. }
  assert (length (dirname (dirname full)) < S (length full)) as L2.
  { destruct (dirname_prefix (dirname full)) as [k Hk]. rewrite Hk, length_app in L1. lia. }
  assert (forall i, exists name cut, Ok (slice_from full i) = Ok name /\ full = cut ++ name)
    as Hcut.
  { intros i. unfold slice_from. eexists _, (take _ full). split; [done|].
    symmetry. apply take_drop. }
  assert (starts slash (dirname (dirname full)) = true) as Habs.
  { apply starts_dirname, starts_dirname, FullName_absolute, Htop. }
  destruct (fs_exists fs full); [|by exists full, []].
  destruct (fs_exists fs _).
  - destruct (svn_root_total fs _ (dirname full) _ Htop Habs L2) as [x Hx].
    rewrite Hx. apply Hcut.
  - destruct (vcs_root_total fs _ _ L1) as [x Hx]. rewrite Hx. cbn.
    destruct (FileInfo.has_vcs fs x); [apply Hcut | by exists full, []].
Qed.

(** C24: [RepositoryName] always returns when the current directory has an
    absolute name and no top directory holds a [.svn]: both climbing loops end
    within the length of the path.  The name it returns is the full name with
    a prefix cut off. *)
Theorem RepositoryName_total fs filename :
  no_top_svn fs ->
  exists name cut, FileInfo.RepositoryName fs filename = Ok name
    /\ FileInfo.FullName fs filename = cut ++ name.
Proof. apply RepositoryName_cut. Qed.

(** A checkout below /home/me/proj, marked by its .git. *)
Definition git_fs : filesystem :=
  Filesystem (u"/home/me/proj")
    (fun p => in_strs p [u"/home/me/proj/.git"; u"/home/me/proj/src/net/a.h"]).

Lemma git_no_top_svn : no_top_svn git_fs.
Proof.
  split; [reflexivity|]. intros d _ _. apply in_strs_false. intros H.
  assert (ends (u".svn") (path_join d (u".svn")) = true) as E.
  { apply ends_spec. unfold path_join. destruct (starts slash _) eqn:S; [done|].
    destruct (_ || _); eexists; rewrite ?app_assoc; done. }
  repeat (apply elem_of_cons in H as [H|H]; [rewrite H in E; discriminate E|]).
  by apply elem_of_nil in H.
Qed.

Lemma RepositoryName_total_witness :
  FileInfo.RepositoryName git_fs (u"src/net/a.h") = Ok (u"src/net/a.h")
  /\ exists name cut, FileInfo.RepositoryName git_fs (u"src/net/a.h") = Ok name
       /\ FileInfo.FullName git_fs (u"src/net/a.h") = cut ++ name.
Proof.
  split; [vm_compute; reflexivity|].
  apply (RepositoryName_total git_fs (u"src/net/a.h") git_no_top_svn).
Defined.

(** With a [.svn] at the top the SVN loop runs out of any fuel. *)
Lemma svn_root_diverges fs d fuel r :
  dirname d = d -> fs_exists fs (path_join d (u".svn")) = true ->
  FileInfo.svn_root fs fuel r d = Exc OutOfFuel.
Proof.
  intros Hd He. revert r. induction fuel as [|f IH]; intros r; [done|].
  simpl. rewrite He, Hd. apply IH.
Qed.

(** ** Header guards *)

Definition guard_char (c : N) : bool := is_digit c || is_upper c || (c =c ch "_").

Lemma upper_guard_chars s :
  forallb guard_char (upper (ReplaceAll (rx "[^a-zA-Z0-9]") (u"_") s)) = true.
Proof.
  unfold ReplaceAll.
  rewrite (re_sub_single _ (set_ok no_flags true
    [CRange 97 122; CRange 65 90; CRange 48 57])) by (vm_compute; reflexivity).
  unfold upper. rewrite forallb_forall. intros c Hc.
  apply list_elem_of_In, list_elem_of_fmap in Hc as (d & -> & Hd).
  apply list_elem_of_bind in Hd as (x & Hd & _).
  unfold set_ok in Hd. simpl in Hd. rewrite !orb_false_r in Hd.
  destruct (between 97 122 x || (between 65 90 x || between 48 57 x)) eqn:E; simpl in Hd.
  - apply list_elem_of_singleton in Hd as ->. unfold between in E. bool_simpl.
    unfold guard_char, to_upper, is_lower, is_upper, is_digit, between.
    rewrite !orb_true_iff, !andb_true_iff, !N.leb_le in E.
    destruct (N.leb 97 x && N.leb x 122) eqn:F;
      rewrite ?andb_true_iff, ?andb_false_iff, ?N.leb_le, ?N.leb_gt in F;
      rewrite !orb_true_iff, !andb_true_iff, !N.leb_le, N.eqb_eq; lia.
  - by apply list_elem_of_singleton in Hd as ->.
Qed.

(** C25: the header guard name is an upper-case identifier: it consists of
    capital letters, digits and underscores, and ends with an underscore. *)
Theorem GetHeaderGuardCPPVariable_shape fs root filename name :
  GetHeaderGuardCPPVariable fs root filename = Ok name ->
  forallb guard_char name = true /\ ends (u"_") name = true.
Proof.
  intros H. unfold GetHeaderGuardCPPVariable in H. res_inv. subst name. split.
  - rewrite forallb_app, upper_guard_chars. done.
  - apply ends_spec. by eexists.
Qed.

Lemma GetHeaderGuardCPPVariable_shape_witness :
  GetHeaderGuardCPPVariable git_fs (Some (u"src")) (u"src/net/a.h") = Ok (u"NET_A_H_")
  /\ forallb guard_char (u"NET_A_H_") = true /\ ends (u"_") (u"NET_A_H_") = true.
Proof.
  assert (GetHeaderGuardCPPVariable git_fs (Some (u"src")) (u"src/net/a.h") = Ok (u"NET_A_H_"))
    as H by (vm_compute; reflexivity).
  split; [exact H|]. apply (GetHeaderGuardCPPVariable_shape _ _ _ _ H).
Defined.

(** ** Modules *)

(** [suffix_of] decomposition used by the source: cutting a suffix. *)
Lemma slice_to_suffix (a b : list N) : b <> [] -> slice_to (a ++ b) (- len b) = a.
Proof.
  intros Hb. unfold slice_to, clamp, len. rewrite length_app.
  destruct (Z.ltb_spec (- Z.of_nat (length b)) 0); [|destruct b; simpl in *; [done | lia]].
  replace (Z.to_nat _) with (length a) by lia. apply take_app_length.
Qed.

(** The name of a module's .cc or .h file without what varies within the
    module: extension, test or inl suffix, public and internal directories. *)
Definition strip_dirs (s : list N) : list N :=
  replace (replace s (u"/public/") slash) (u"/internal/") slash.
Definition cut_suffix (suf s : list N) : option (list N) :=
  if ends suf s then Some (slice_to s (- len suf)) else None.
Definition cc_module (f : list N) : option (list N) :=
  b ← cut_suffix (u".cc") f;
  Some (strip_dirs (match cut_suffix (u"_unittest") b with
                    | Some x => x
                    | None => default b (cut_suffix (u"_test") b)
                    end)).
Definition h_module (f : list N) : option (list N) :=
  b ← cut_suffix (u".h") f; Some (strip_dirs (default b (cut_suffix (u"-inl") b))).

(** C23: two files belong to the same module exactly when both have a module
    name and the header's is a suffix of the source's.  The common path is
    then what precedes it, so that path and header name give the source's
    module name back, unless the header's module name is empty, as that of
    [.h] is: then the common path is empty too. *)
Theorem FilesBelongToSameModule_spec filename_cc filename_h :
  let '(same, common) := FilesBelongToSameModule filename_cc filename_h in
  (same = true <-> exists mc mh a, cc_module filename_cc = Some mc
     /\ h_module filename_h = Some mh /\ mc = a ++ mh)
  /\ (forall mc mh, same = true -> cc_module filename_cc = Some mc ->
        h_module filename_h = Some mh -> if mh =s [] then common = [] else mc = common ++ mh)
  /\ (same = false -> common = []).
Proof.
  unfold FilesBelongToSameModule, cc_module, h_module, cut_suffix, strip_dirs.
  destruct (ends (u".cc") filename_cc); cbn [negb mbind option_bind];
    [|repeat split; (done || naive_solver)].
  set (b := slice_to filename_cc (- len (u".cc"))).
  replace (match (if ends (u"_unittest") b then _ else _) with Some x => x | None => _ end)
    with (if ends (u"_unittest") b then slice_to b (- len (u"_unittest"))
          else if ends (u"_test") b then slice_to b (- len (u"_test")) else b)
    by (repeat case_bool; done).
  set (mc := replace (replace (if ends (u"_unittest") b then _ else _) _ _) _ _).
  destruct (ends (u".h") filename_h); cbn [negb mbind option_bind];
    [|repeat split; (done || naive_solver)].
  set (d := slice_to filename_h (- len (u".h"))).
  replace (default d (if ends (u"-inl") d then _ else _))
    with (if ends (u"-inl") d then slice_to d (- len (u"-inl")) else d) by (repeat case_bool; done).
  set (mh := replace (replace (if ends (u"-inl") d then _ else _) _ _) _ _).
  clearbody mc mh.
  destruct (ends mh mc) eqn:E.
  - apply ends_spec in E as [a Ha]. split; [|split].
    + split; [|done]. intros _. by exists mc, mh, a.
    + intros mc' mh' _ [= <-] [= <-]. case_bool.
      { apply eqs_true in Heqb0 as ->. by rewrite slice_to_pos. }
      apply eqs_false in Heqb0. by rewrite Ha, slice_to_suffix.
    + done.
  - split; [|split]; [|done|done]. split; [done|].
    intros (mc' & mh' & a & [= <-] & [= <-] & Ha).
    assert (ends mh mc = true) by (apply ends_spec; by exists a). congruence.
Qed.
