(* ===== verification/IncludeState.v ===== *)
(** * Include order: _IncludeState and the checks of #include lines

    Models lines 261-403, 468-472, 592-754, 4491-4675 of cpplint.py: the
    table of C++ headers, [_IncludeState] (which headers were included, and
    the section the include list is in), [_ClassifyInclude] and
    [CheckIncludeLine].  [CheckNextIncludeOrder] is proved to accept exactly
    the sequences of the form [section_order]. *)

From S2P Require Import Prelude PyStr Regex RePattern Lint FileInfo.
From Stdlib Require Import Ascii.

Definition _CPP_HEADERS : list (list N) :=
    [u"algobase.h"; u"algo.h"; u"alloc.h"; u"builtinbuf.h"; u"bvector.h";
     u"complex.h"; u"defalloc.h"; u"deque.h"; u"editbuf.h"; u"fstream.h";
     u"function.h"; u"hash_map"; u"hash_map.h"; u"hash_set"; u"hash_set.h";
     u"hashtable.h"; u"heap.h"; u"indstream.h"; u"iomanip.h"; u"iostream.h";
     u"istream.h"; u"iterator.h"; u"list.h"; u"map.h"; u"multimap.h";
     u"multiset.h"; u"ostream.h"; u"pair.h"; u"parsestream.h"; u"pfstream.h";
     u"procbuf.h"; u"pthread_alloc"; u"pthread_alloc.h"; u"rope"; u"rope.h";
     u"ropeimpl.h"; u"set.h"; u"slist"; u"slist.h"; u"stack.h";
     u"stdiostream.h"; u"stl_alloc.h"; u"stl_relops.h"; u"streambuf.h";
     u"stream.h"; u"strfile.h"; u"strstream.h"; u"tempbuf.h"; u"tree.h";
     u"type_traits.h"; u"vector.h"; u"algorithm"; u"array"; u"atomic";
     u"bitset"; u"chrono"; u"codecvt"; u"complex"; u"condition_variable";
     u"deque"; u"exception"; u"forward_list"; u"fstream"; u"functional";
     u"future"; u"initializer_list"; u"iomanip"; u"ios"; u"iosfwd";
     u"iostream"; u"istream"; u"iterator"; u"limits"; u"list"; u"locale";
     u"map"; u"memory"; u"mutex"; u"new"; u"numeric"; u"ostream"; u"queue";
     u"random"; u"ratio"; u"regex"; u"set"; u"sstream"; u"stack";
     u"stdexcept"; u"streambuf"; u"string"; u"strstream"; u"system_error";
     u"thread"; u"tuple"; u"typeindex"; u"typeinfo"; u"type_traits";
     u"unordered_map"; u"unordered_set"; u"utility"; u"valarray"; u"vector";
     u"cassert"; u"ccomplex"; u"cctype"; u"cerrno"; u"cfenv"; u"cfloat";
     u"cinttypes"; u"ciso646"; u"climits"; u"clocale"; u"cmath"; u"csetjmp";
     u"csignal"; u"cstdalign"; u"cstdarg"; u"cstdbool"; u"cstddef";
     u"cstdint"; u"cstdio"; u"cstdlib"; u"cstring"; u"ctgmath"; u"ctime";
     u"cuchar"; u"cwchar"; u"cwctype"].

Definition _THIRD_PARTY_HEADERS_PATTERN : regex :=
  rx "^(?:[^/]*[A-Z][^/]*\.h|lua\.h|lauxlib\.h|lualib\.h)$".
Definition _RE_PATTERN_INCLUDE : regex :=
  rxp (u"^\s*#\s*include\s*([<" ++ dq ++ u"])([^>" ++ dq ++ u"]*)[>" ++ dq ++ u"].*$").
Definition _RE_FIRST_COMPONENT : regex := rx "^[^-_.]+".

(** Types of headers *)
Definition _C_SYS_HEADER : Z := 1.
Definition _CPP_SYS_HEADER : Z := 2.
Definition _LIKELY_MY_HEADER : Z := 3.
Definition _POSSIBLE_MY_HEADER : Z := 4.
Definition _OTHER_HEADER : Z := 5.

(** ** _IncludeState *)

Record include_state := IncludeState {
  include_list : list (list (list N * Z));
  section : Z;
  last_header : list N
}.

Module IncludeState.

Definition _INITIAL_SECTION : Z := 0.
Definition _MY_H_SECTION : Z := 1.
Definition _C_SECTION : Z := 2.
Definition _CPP_SECTION : Z := 3.
Definition _OTHER_H_SECTION : Z := 4.

Definition _TYPE_NAMES (header_type : Z) : res (list N) :=
  if (header_type =? _C_SYS_HEADER)%Z then Ok (u"C system header")
  else if (header_type =? _CPP_SYS_HEADER)%Z then Ok (u"C++ system header")
  else if (header_type =? _LIKELY_MY_HEADER)%Z then Ok (u"header this file implements")
  else if (header_type =? _POSSIBLE_MY_HEADER)%Z then Ok (u"header this file may implement")
  else if (header_type =? _OTHER_HEADER)%Z then Ok (u"other header")
  else Exc KeyError.
Definition _SECTION_NAMES (s : Z) : res (list N) :=
  if (s =? _INITIAL_SECTION)%Z then Ok (u"... nothing. (This can't be an error.)")
  else if (s =? _MY_H_SECTION)%Z then Ok (u"a header this file implements")
  else if (s =? _C_SECTION)%Z then Ok (u"C system header")
  else if (s =? _CPP_SECTION)%Z then Ok (u"C++ system header")
  else if (s =? _OTHER_H_SECTION)%Z then Ok (u"other header")
  else Exc KeyError.

Definition set_section n s := IncludeState (include_list s) n (last_header s).
Definition SetLastHeader (header_path : list N) (s : include_state) : include_state :=
  IncludeState (include_list s) (section s) header_path.

(** [l[-1] = x] *)
Definition set_last {A} (l : list A) (x : A) : res (list A) :=
  match reverse l with
  | [] => Exc IndexError
  | _ :: l' => Ok (reverse (x :: l'))
  end.

Definition ResetSection (directive : list N) (s : include_state) : res include_state :=
  let s := IncludeState (include_list s) _INITIAL_SECTION [] in
  if in_strs directive [u"if"; u"ifdef"; u"ifndef"] then
    Ok (IncludeState (include_list s ++ [[]]) (section s) (last_header s))
  else if in_strs directive [u"else"; u"elif"] then
    l ← set_last (include_list s) [];
    Ok (IncludeState l (section s) (last_header s))
  else Ok s.

(** The constructor resets the section with the directive ''. *)
Definition init : include_state := IncludeState [[]] _INITIAL_SECTION [].
Example init_reset : ResetSection [] (IncludeState [[]] 0 []) = Ok init.
Proof. reflexivity. Qed.

Fixpoint find_in_section (header : list N) (l : list (list N * Z)) : option Z :=
  match l with
  | [] => None
  | (f, line) :: l' => if f =s header then Some line else find_in_section header l'
  end.
Fixpoint find_header_go (header : list N) (ls : list (list (list N * Z))) : Z :=
  match ls with
  | [] => -1
  | section_list :: ls' =>
      match find_in_section header section_list with
      | Some line => line
      | None => find_header_go header ls'
      end
  end.
Definition FindHeader (header : list N) (s : include_state) : Z :=
  find_header_go header (include_list s).

Definition CanonicalizeAlphabeticalOrder `{UnicodeDB} (header_path : list N) : list N :=
  lower (replace (replace header_path (u"-inl.h") (u".h")) (u"-") (u"_")).

(** [elided] is [clean_lines.elided]. *)
Definition IsInAlphabeticalOrder (s : include_state) (elided : list (list N))
    (linenum : Z) (header_path : list N) : res bool :=
  if str_ltb header_path (last_header s) then
    prev ← py_index elided (linenum - 1);
    Ok (negb (Matches (rx "^\s*#\s*include\b") prev))
  else Ok true.

Definition CheckNextIncludeOrder (header_type : Z) (s : include_state)
    : res (list N * include_state) :=
  tn ← _TYPE_NAMES header_type;
  sn ← _SECTION_NAMES (section s);
  let error_message := u"Found " ++ tn ++ u" after " ++ sn in
  let last_section := section s in
  let finish (s' : include_state) : res (list N * include_state) :=
    Ok ([], if negb (last_section =? section s')%Z then SetLastHeader [] s' else s') in
  if (header_type =? _C_SYS_HEADER)%Z then
    if (section s <=? _C_SECTION)%Z then finish (set_section _C_SECTION s)
    else Ok (error_message, SetLastHeader [] s)
  else if (header_type =? _CPP_SYS_HEADER)%Z then
    if (section s <=? _CPP_SECTION)%Z then finish (set_section _CPP_SECTION s)
    else Ok (error_message, SetLastHeader [] s)
  else if (header_type =? _LIKELY_MY_HEADER)%Z then
    if (section s <=? _MY_H_SECTION)%Z then finish (set_section _MY_H_SECTION s)
    else finish (set_section _OTHER_H_SECTION s)
  else if (header_type =? _POSSIBLE_MY_HEADER)%Z then
    if (section s <=? _MY_H_SECTION)%Z then finish (set_section _MY_H_SECTION s)
    else finish (set_section _OTHER_H_SECTION s)
  else if (header_type =? _OTHER_HEADER)%Z then finish (set_section _OTHER_H_SECTION s)
  else Exc AssertionError.

End IncludeState.

(** ** _ClassifyInclude *)

Definition _ClassifyInclude (fs : filesystem) (filename include : list N) (is_system : bool)
    : res Z :=
  let is_cpp_h := in_strs include _CPP_HEADERS in
  if is_system then Ok (if is_cpp_h then _CPP_SYS_HEADER else _C_SYS_HEADER)
  else
    repo ← FileInfo.RepositoryName fs filename;
    target ← _DropCommonSuffixes repo;
    let '(target_dir, target_base) := os_split target in
    inc ← _DropCommonSuffixes include;
    let '(include_dir, include_base) := os_split inc in
    if (target_base =s include_base)
       && ((include_dir =s target_dir)
           || (include_dir =s normpath (target_dir ++ u"/../public")))
    then Ok _LIKELY_MY_HEADER
    else
      let target_first_component := Match _RE_FIRST_COMPONENT target_base in
      let include_first_component := Match _RE_FIRST_COMPONENT include_base in
      match target_first_component, include_first_component with
      | Some a, Some b =>
          if group0 a =s group0 b then Ok _POSSIBLE_MY_HEADER else Ok _OTHER_HEADER
      | _, _ => Ok _OTHER_HEADER
      end.

(** ** CheckIncludeLine *)

(** [include_list[-1].append(x)] *)
Definition append_last (l : list (list (list N * Z))) (x : list N * Z)
    : res (list (list (list N * Z))) :=
  match reverse l with
  | [] => Exc IndexError
  | h :: l' => Ok (reverse ((h ++ [x]) :: l'))
  end.

(** The part for a header that is neither a duplicate nor a third party's:
    record it and check the order of sections and the alphabetical order. *)
Definition check_include_order `{UnicodeDB} (fs : filesystem) (filename : list N)
    (elided : list (list N)) (linenum : Z) (include : list N) (is_system : bool)
    (st : include_state) (error : ErrorFn) : M include_state :=
  l ← lift (append_last (include_list st) (include, linenum));
  let st := IncludeState l (section st) (last_header st) in
  ty ← lift (_ClassifyInclude fs filename include is_system);
  '(error_message, st) ← lift (IncludeState.CheckNextIncludeOrder ty st);
  _ ← match error_message with
      | [] => mret tt
      | _ =>
          base ← lift (FileInfo.BaseName fs filename);
          error filename linenum (u"build/include_order") 4%Z
            (error_message ++ u". Should be: " ++ base ++ u".h, c system, c++ system, other.")
      end;
  let canonical_include := IncludeState.CanonicalizeAlphabeticalOrder include in
  ok ← lift (IncludeState.IsInAlphabeticalOrder st elided linenum canonical_include);
  when (negb ok) (error filename linenum (u"build/include_alpha") 4%Z
    (u"Include " ++ dq ++ include ++ dq ++ u" not in alphabetical order")) ≫= fun _ =>
  mret (IncludeState.SetLastHeader canonical_include st).

(** [lines] and [elided] are the attributes of [clean_lines]. *)
Definition CheckIncludeLine `{UnicodeDB} (fs : filesystem) (filename : list N)
    (lines elided : list (list N)) (linenum : Z) (st : include_state) (error : ErrorFn)
    : M include_state :=
  line ← lift (py_index lines linenum);
  _ ← match Match (rxp (u"#include\s*" ++ dq ++ u"([^/]+\.h)" ++ dq)) line with
      | Some o =>
          when (negb (Matches _THIRD_PARTY_HEADERS_PATTERN (grp o 1)))
            (error filename linenum (u"build/include") 4%Z
               (u"Include the directory when naming .h files"))
      | None => mret tt
      end;
  match Search _RE_PATTERN_INCLUDE line with
  | None => mret st
  | Some o =>
      let include := grp o 2 in
      let is_system := grp o 1 =s u"<" in
      let duplicate_line := IncludeState.FindHeader include st in
      if (0 <=? duplicate_line)%Z then
        error filename linenum (u"build/include") 4%Z
          (dq ++ include ++ dq ++ u" already included at " ++ filename ++ u":"
           ++ show_Z duplicate_line) ≫= fun _ =>
        mret st
      else
        other_package ←
          (if ends (u".cc") include then
             repo ← lift (FileInfo.RepositoryName fs filename);
             mret (negb (dirname repo =s dirname include))
           else mret false);
        if other_package : bool then
          error filename linenum (u"build/include") 4%Z
            (u"Do not include .cc files from other packages") ≫= fun _ =>
          mret st
        else if negb (Matches _THIRD_PARTY_HEADERS_PATTERN include) then
          check_include_order fs filename elided linenum include is_system st error
        else mret st
  end.

(** ** The order of sections *)

Definition header_types : list Z :=
  [_C_SYS_HEADER; _CPP_SYS_HEADER; _LIKELY_MY_HEADER; _POSSIBLE_MY_HEADER; _OTHER_HEADER].
Definition valid_section (n : Z) : Prop := (0 <= n <= 4)%Z.

Definition is_my (t : Z) : bool :=
  (t =? _LIKELY_MY_HEADER)%Z || (t =? _POSSIBLE_MY_HEADER)%Z.

(** The section a header of type [t] leads to from section [n], or [None]
    when that would be a step back. *)
Definition next_section (n t : Z) : option Z :=
  if (t =? _C_SYS_HEADER)%Z then if (n <=? 2)%Z then Some 2%Z else None
  else if (t =? _CPP_SYS_HEADER)%Z then if (n <=? 3)%Z then Some 3%Z else None
  else if is_my t then if (n <=? 1)%Z then Some 1%Z else Some 4%Z
  else Some 4%Z.

(** One step of the automaton: it reports exactly the steps back. *)
Lemma CheckNextIncludeOrder_step t s :
  t ∈ header_types -> valid_section (section s) ->
  match next_section (section s) t with
  | Some n =>
      exists lh, IncludeState.CheckNextIncludeOrder t s = Ok ([], IncludeState (include_list s) n lh)
        /\ (section s <= n)%Z /\ valid_section n
        /\ lh = (if (section s =? n)%Z then last_header s else [])
  | None =>
      exists msg, msg <> [] /\ IncludeState.CheckNextIncludeOrder t s
        = Ok (msg, IncludeState.SetLastHeader [] s)
  end.
Proof.
  intros Ht Hs. destruct s as [il n lh]. unfold valid_section in *.
  cbn [section include_list last_header] in *.
  assert (n = 0 \/ n = 1 \/ n = 2 \/ n = 3 \/ n = 4)%Z as D by lia. clear Hs.
  repeat (apply elem_of_cons in Ht as [->|Ht]); [..|by apply elem_of_nil in Ht];
    destruct D as [->|[->|[->|[->| ->]]]]; cbn;
    first [eexists; split; [reflexivity|]; split; [lia|]; split; [lia|]; reflexivity
          |eexists; split; [|reflexivity]; discriminate].
Qed.

(** A whole sequence of headers: the messages and the state at the end. *)
Fixpoint check_headers (ts : list Z) (s : include_state)
    : res (list (list N) * include_state) :=
  match ts with
  | [] => Ok ([], s)
  | t :: ts' =>
      '(msg, s1) ← IncludeState.CheckNextIncludeOrder t s;
      '(msgs, s2) ← check_headers ts' s1;
      Ok (msg :: msgs, s2)
  end.

Fixpoint accepts (n : Z) (ts : list Z) : bool :=
  match ts with
  | [] => true
  | t :: ts' => match next_section n t with Some n' => accepts n' ts' | None => false end
  end.

(** The order of sections: the file's own headers, C system headers, C++ system
    headers, and then others and the file's own in any order.  (The comment of
    [CheckIncludeLine] puts an own header in its deprecated location before the
    others and says that a lower type after a higher one is complained about;
    the code accepts an own header also behind others.) *)
Definition is_late (t : Z) : bool := is_my t || (t =? _OTHER_HEADER)%Z.
Definition section_order (ts : list Z) : Prop :=
  exists a b c d, ts = a ++ b ++ c ++ d
    /\ Forall (fun t => is_my t = true) a /\ Forall (eq _C_SYS_HEADER) b
    /\ Forall (eq _CPP_SYS_HEADER) c /\ Forall (fun t => is_late t = true) d.

Ltac header_cases H :=
  repeat (apply elem_of_cons in H as [->|H]); [..|by apply elem_of_nil in H].

Lemma accepts_4 ts :
  Forall (.∈ header_types) ts ->
  accepts 4 ts = true <-> Forall (fun t => is_late t = true) ts.
Proof.
  induction 1 as [|t ts Ht _ IH]; [done|]. rewrite Forall_cons.
  header_cases Ht; simpl; rewrite ?IH; split; (done || tauto || by intros [[=] _]).
Qed.
Lemma accepts_3 ts :
  Forall (.∈ header_types) ts ->
  accepts 3 ts = true <->
  exists c d, ts = c ++ d /\ Forall (eq _CPP_SYS_HEADER) c /\ Forall (fun t => is_late t = true) d.
Proof.
  induction 1 as [|t ts Ht Hts IH]; [split; [by exists [], [] | done]|].
  assert (forall d, Forall (fun t => is_late t = true) d -> d = t :: ts ->
    is_late t = true /\ accepts 4 ts = true) as Hd.
  { intros d Hd ->. apply Forall_cons in Hd as [? Hd]. by rewrite accepts_4. }
  header_cases Ht; simpl.
  1: { split; [done|]. intros ([|x c] & d & E & Hc & Hd'); simpl in E;
       [by destruct (Hd d Hd' (eq_sym E))|].
       injection E as <- _. apply Forall_cons in Hc as [? _]. done. }
  1: { rewrite IH. split.
       - intros (c & d & -> & ? & ?). exists (_CPP_SYS_HEADER :: c), d. by repeat constructor.
       - intros ([|x c] & d & E & Hc & Hd'); simpl in E;
           [by destruct (Hd d Hd' (eq_sym E))|].
         injection E as <- ->. apply Forall_cons in Hc as [_ ?]. by exists c, d. }
  all: split;
    [intros H; rewrite accepts_4 in H by done; eexists [], _; repeat split; [by constructor|];
     constructor; done
    |intros ([|x c] & d & E & Hc & Hd'); simpl in E;
     [by destruct (Hd d Hd' (eq_sym E))
     |injection E as <- _; by apply Forall_cons in Hc as [? _]]].
Qed.
Lemma accepts_2 ts :
  Forall (.∈ header_types) ts ->
  accepts 2 ts = true <->
  exists b r, ts = b ++ r /\ Forall (eq _C_SYS_HEADER) b /\ accepts 3 r = true.
Proof.
  induction 1 as [|t ts Ht Hts IH]; [split; [by exists [], [] | done]|].
  header_cases Ht; simpl.
  1: { rewrite IH. split.
       - intros (c & d & -> & ? & ?). exists (_C_SYS_HEADER :: c), d. by repeat constructor.
       - intros ([|x c] & d & E & Hc & Hd'); simpl in E; [by rewrite <- E in Hd'|].
         injection E as <- ->. apply Forall_cons in Hc as [_ ?]. by exists c, d. }
  all: split;
    [intros H; eexists [], _; by repeat split
    |intros ([|x c] & d & E & Hc & Hd'); simpl in E;
     [by rewrite <- E in Hd'
     |injection E as <- _; by apply Forall_cons in Hc as [? _]]].
Qed.
Lemma accepts_01 n ts :
  (n = 0 \/ n = 1)%Z -> Forall (.∈ header_types) ts ->
  accepts n ts = true <->
  exists a r, ts = a ++ r /\ Forall (fun t => is_my t = true) a /\ accepts 2 r = true.
Proof.
  intros Hn H. revert n Hn. induction H as [|t ts Ht Hts IH]; intros n Hn;
    [split; [by exists [], [] | done]|].
  header_cases Ht; destruct Hn as [-> | ->]; simpl; rewrite ?(IH 1%Z) by auto.
  all: try (split;
    [intros H; eexists [], _; by repeat split
    |intros ([|x c] & d & E & Hc & Hd'); simpl in E;
     [by rewrite <- E in Hd'
     |injection E as <- _; by apply Forall_cons in Hc as [? _]]]; fail).
  all: split;
    [intros (c & d & -> & ? & ?); eexists (_ :: c), d; by repeat constructor
    |intros ([|x c] & d & E & Hc & Hd'); simpl in E;
     [rewrite <- E in Hd'; simpl in Hd'; exists [], ts; repeat split; [by constructor|]
     |injection E as <- ->; apply Forall_cons in Hc as [_ ?]; by exists c, d]].
  all: apply accepts_2; [done|]; exists [], ts; repeat split; [by constructor|].
  all: apply accepts_3; [done|]; exists [], ts; repeat split; [by constructor|].
  all: by apply accepts_4.
Qed.

Lemma accepts_section_order ts :
  Forall (.∈ header_types) ts -> accepts 0 ts = true <-> section_order ts.
Proof.
  intros H. rewrite accepts_01 by auto. unfold section_order. split.
  - intros (a & r & -> & Ha & Hr). apply Forall_app in H as [_ H].
    apply accepts_2 in Hr as (b & r' & -> & Hb & Hr); [|done].
    apply Forall_app in H as [_ H].
    apply accepts_3 in Hr as (c & d & -> & Hc & Hd); [|done].
    by exists a, b, c, d.
  - intros (a & b & c & d & -> & Ha & Hb & Hc & Hd).
    rewrite !Forall_app in H. destruct H as (_ & ? & ? & ?).
    exists a, (b ++ c ++ d). repeat split; [done|].
    apply accepts_2; [by rewrite !Forall_app|]. exists b, (c ++ d). repeat split; [done|].
    apply accepts_3; [by rewrite !Forall_app|]. by exists c, d.
Qed.

Lemma check_headers_accepts ts s :
  Forall (.∈ header_types) ts -> valid_section (section s) ->
  exists msgs s', check_headers ts s = Ok (msgs, s')
    /\ length msgs = length ts /\ (section s <= section s')%Z
    /\ valid_section (section s')
    /\ (Forall (eq []) msgs <-> accepts (section s) ts = true).
Proof.
  intros H. revert s. induction H as [|t ts Ht _ IH]; intros s Hs; simpl.
  - exists [], s. split; [done|]. split; [done|]. split; [lia|]. done.
  - pose proof (CheckNextIncludeOrder_step t s Ht Hs) as Hstep.
    destruct (next_section (section s) t) as [n|].
    + destruct Hstep as (lh & -> & Hn & Hv & _). cbn.
      destruct (IH (IncludeState (include_list s) n lh) Hv)
        as (msgs & s' & -> & Hl & Hle & Hv' & Hiff). cbn in *.
      eexists _, s'. split; [done|]. simpl. rewrite Hl. split; [done|]. split; [lia|].
      split; [done|]. rewrite Forall_cons, Hiff. tauto.
    + destruct Hstep as (msg & Hmsg & ->). cbn.
      destruct (IH (IncludeState.SetLastHeader [] s) Hs)
        as (msgs & s' & -> & Hl & Hle & Hv' & _). cbn in *.
      eexists _, s'. split; [done|]. simpl. rewrite Hl. split; [done|]. split; [lia|].
      split; [done|]. rewrite Forall_cons. split; [|done]. intros [E _]. congruence.
Qed.

(** C12: from the initial state, [CheckNextIncludeOrder] reports no error on a
    sequence of headers exactly when the sequence consists of headers of the
    file's own, then C system headers, then C++ system headers, then others with
    the file's own anywhere among them; it never raises, answers every header,
    and the section stays one of the five. *)
Theorem CheckNextIncludeOrder_accepts ts :
  Forall (.∈ header_types) ts ->
  exists msgs s', check_headers ts IncludeState.init = Ok (msgs, s')
    /\ length msgs = length ts /\ (0 <= section s' <= 4)%Z
    /\ (Forall (eq []) msgs <-> section_order ts).
Proof.
  intros H.
  destruct (check_headers_accepts ts IncludeState.init H) as (msgs & s' & E & Hl & _ & Hv & Hiff);
    [split; vm_compute; discriminate|].
  exists msgs, s'. rewrite <- accepts_section_order by done. auto.
Qed.

Lemma CheckNextIncludeOrder_accepts_witness :
  section_order [3; 1; 1; 2; 5; 4]%Z /\ ~ section_order [2; 1]%Z
  /\ exists msgs s', check_headers [2; 1]%Z IncludeState.init = Ok (msgs, s')
       /\ length msgs = 2 /\ (0 <= section s' <= 4)%Z
       /\ (Forall (eq []) msgs <-> section_order [2; 1]%Z).
Proof.
  assert (Forall (.∈ header_types) [2; 1]%Z) as H.
  { repeat constructor; apply (bool_decide_unpack _); vm_compute; exact I. }
  split; [|split].
  - exists [3]%Z, [1; 1]%Z, [2]%Z, [5; 4]%Z. repeat constructor.
  - rewrite <- accepts_section_order by exact H. discriminate.
  - apply (CheckNextIncludeOrder_accepts [2; 1]%Z H).
Defined.

(** ** The headers seen so far *)

Definition all_includes (s : include_state) : list (list N * Z) := concat (include_list s).

(** The list of lists is never empty, no header is recorded twice, the lines
    recorded are not negative, and the section is one of the five. *)
Record inc_ok (s : include_state) : Prop := {
  ok_nonempty : include_list s <> [];
  ok_nodup : NoDup (all_includes s).*1;
  ok_lines : Forall (fun x => 0 <= x.2)%Z (all_includes s);
  ok_section : valid_section (section s)
}.

Lemma find_in_section_spec h l :
  match IncludeState.find_in_section h l with
  | Some n => exists l1 l2, l = l1 ++ (h, n) :: l2 /\ h ∉ l1.*1
  | None => h ∉ l.*1
  end.
Proof.
  induction l as [|[f n] l IH]; simpl; [set_solver|].
  destruct (f =s h) eqn:E; bool_simpl; subst; [exists [], l; set_solver|].
  destruct (IncludeState.find_in_section h l) as [k|].
  - destruct IH as (l1 & l2 & -> & Hn). exists ((f, n) :: l1), l2.
    simpl. set_solver.
  - set_solver.
Qed.

(** [FindHeader] returns the line of the first occurrence of a header,
    in the order of the sections, or -1 when the header was not included. *)
Lemma FindHeader_spec header s :
  Forall (fun x => 0 <= x.2)%Z (all_includes s) ->
  if decide (IncludeState.FindHeader header s < 0)%Z
  then IncludeState.FindHeader header s = (-1)%Z /\ header ∉ (all_includes s).*1
  else exists l1 l2, all_includes s = l1 ++ (header, IncludeState.FindHeader header s) :: l2
         /\ header ∉ l1.*1.
Proof.
  unfold all_includes, IncludeState.FindHeader. induction (include_list s) as [|l ls IH];
    cbn [concat IncludeState.find_header_go]; intros Hl;
    [rewrite decide_True by lia; split; [done | set_solver]|].
  apply Forall_app in Hl as [Hl Hls]. specialize (IH Hls).
  pose proof (find_in_section_spec header l) as Hf.
  destruct (IncludeState.find_in_section header l) as [n|].
  - destruct Hf as (l1 & l2 & -> & Hn).
    rewrite decide_False by (rewrite Forall_app, Forall_cons in Hl; simpl in Hl; lia).
    exists l1, (l2 ++ concat ls). by rewrite <- app_assoc.
  - case_decide.
    + destruct IH as [? ?]. split; [done|]. rewrite fmap_app. set_solver.
    + destruct IH as (l1 & l2 & E & ?). exists (l ++ l1), l2. rewrite E at 1.
      rewrite <- app_assoc, fmap_app. set_solver.
Qed.

Lemma init_ok : inc_ok IncludeState.init.
Proof. split; [done | constructor | constructor | split; vm_compute; discriminate]. Qed.

Lemma reverse_cons_inv {A} (l l' : list A) x : reverse l = x :: l' -> l = reverse l' ++ [x].
Proof. intros H. by rewrite <- (reverse_involutive l), H, reverse_cons. Qed.

(** [ResetSection] keeps the invariant, whatever the directive. *)
Lemma ResetSection_ok d s s' :
  inc_ok s -> IncludeState.ResetSection d s = Ok s' -> inc_ok s'.
Proof.
  intros [Hne Hnd Hl Hs]. unfold IncludeState.ResetSection, all_includes in *.
  assert (valid_section IncludeState._INITIAL_SECTION) by (split; vm_compute; discriminate).
  case_bool; [|case_bool].
  - intros [= <-]. split; unfold all_includes; simpl; [by destruct (include_list s)| | |done].
    + by rewrite concat_app, app_nil_r.
    + by rewrite concat_app, app_nil_r.
  - unfold IncludeState.set_last. destruct (reverse _) as [|x l'] eqn:E; [done|].
    apply reverse_cons_inv in E. cbn in E. rewrite E in *. intros [= <-].
    rewrite concat_app in Hnd, Hl. rewrite fmap_app in Hnd.
    apply NoDup_app in Hnd as (Hnd & _ & _). apply Forall_app in Hl as [Hl _].
    split; unfold all_includes; simpl; rewrite ?reverse_cons, ?concat_app; simpl;
      rewrite ?app_nil_r; [by destruct (reverse l') | done..].
  - intros [= <-]. by split.
Qed.

Lemma ClassifyInclude_type fs filename include sys t :
  _ClassifyInclude fs filename include sys = Ok t -> t ∈ header_types.
Proof.
  unfold _ClassifyInclude. intros H.
  assert (t = 1 \/ t = 2 \/ t = 3 \/ t = 4 \/ t = 5)%Z as D.
  { destruct sys; [injection H as <-; case_bool; auto|].
    res_inv. destruct (os_split _). res_inv. destruct (os_split _).
    repeat (case_bool || case_match); simplify_eq; auto. }
  unfold header_types. rewrite !elem_of_cons. tauto.
Qed.

Lemma append_last_concat ls x ls' :
  append_last ls x = Ok ls' -> ls' <> [] /\ concat ls' = concat ls ++ [x].
Proof.
  unfold append_last. destruct (reverse ls) as [|h l] eqn:E; [done|]. intros [= <-].
  apply reverse_cons_inv in E as ->. rewrite reverse_cons. split.
  - by destruct (reverse l).
  - rewrite !concat_app. simpl. by rewrite !app_nil_r, <- app_assoc.
Qed.

Lemma check_include_order_inv `{UnicodeDB} fs filename elided linenum include sys st error w st' w' :
  inc_ok st -> (0 <= linenum)%Z -> include ∉ (all_includes st).*1 ->
  check_include_order fs filename elided linenum include sys st error w = (Ok st', w') ->
  inc_ok st' /\ all_includes st' = all_includes st ++ [(include, linenum)].
Proof.
  intros Hok Hln Hnew HR. unfold check_include_order in HR.
  apply M_bind_Ok in HR as (l & w1 & Hl & HR). apply lift_Ok in Hl as [Hl ->].
  apply M_bind_Ok in HR as (ty & w2 & Hty & HR). apply lift_Ok in Hty as [Hty ->].
  apply M_bind_Ok in HR as ([msg st2] & w3 & Hst & HR). apply lift_Ok in Hst as [Hst ->].
  apply ClassifyInclude_type in Hty. apply append_last_concat in Hl as [Hne Hc].
  pose proof (CheckNextIncludeOrder_step _ (IncludeState l (section st) (last_header st))
    Hty (ok_section _ Hok)) as Hstep. cbn [section include_list last_header] in Hstep.
  assert (include_list st2 = l /\ valid_section (section st2)) as [Hil Hsec].
  { destruct (next_section _ _).
    - destruct Hstep as (lh & E & _ & ? & _). rewrite E in Hst. by simplify_eq.
    - destruct Hstep as (m' & _ & E). rewrite E in Hst. simplify_eq. split; [done|].
      apply Hok. }
  M_inv. unfold all_includes in *. cbn. rewrite Hil, Hc. split; [|done].
  split; unfold all_includes; cbn; rewrite ?Hil, ?Hc; [done| | |done].
  - rewrite fmap_app. apply NoDup_app. repeat split; [apply Hok| |repeat constructor; set_solver].
    cbn. set_solver.
  - apply Forall_app. split; [apply Hok | by repeat constructor].
Qed.

(** C13: checking an #include line keeps the include state well formed (no
    header is ever recorded twice) and records at most one header: the one
    on the line, with its line number, and only if it was not there. *)
Theorem CheckIncludeLine_inv `{UnicodeDB} fs filename lines elided linenum st error w st' w' :
  inc_ok st -> (0 <= linenum)%Z ->
  CheckIncludeLine fs filename lines elided linenum st error w = (Ok st', w') ->
  inc_ok st'
  /\ (all_includes st' = all_includes st
      \/ exists include, include ∉ (all_includes st).*1
           /\ all_includes st' = all_includes st ++ [(include, linenum)]).
Proof.
  intros Hok Hln HR. unfold CheckIncludeLine in HR.
  apply M_bind_Ok in HR as (line & w1 & _ & HR). apply M_bind_Ok in HR as (? & w2 & _ & HR).
  assert (forall w, (mret st : M include_state) w = (Ok st', w') -> inc_ok st' /\
    (all_includes st' = all_includes st \/ exists include, include ∉ (all_includes st).*1
      /\ all_includes st' = all_includes st ++ [(include, linenum)])) as Hsame.
  { intros w0 E. M_inv. auto. }
  destruct (Search _RE_PATTERN_INCLUDE line) as [o|]; [|by eapply Hsame].
  destruct (Z.leb_spec 0 (IncludeState.FindHeader (grp o 2) st)).
  { apply M_bind_Ok in HR as (? & ? & _ & HR). by eapply Hsame. }
  pose proof (FindHeader_spec (grp o 2) st (ok_lines _ Hok)) as Hf.
  rewrite decide_True in Hf by lia. destruct Hf as [_ Hnew].
  apply M_bind_Ok in HR as ([] & ? & _ & HR).
  { apply M_bind_Ok in HR as (? & ? & _ & HR). by eapply Hsame. }
  destruct (negb _); [|by eapply Hsame].
  apply check_include_order_inv in HR as [? ?]; [|done..]. eauto.
Qed.

(** The project of the witness has no SVN. *)
Lemma CheckIncludeLine_inv_witness :
  let lines := [u""; u"#include <map>"] in
  exists st' w',
    CheckIncludeLine (H := ascii_db) git_fs (u"src/net/a.h") lines lines 1
      IncludeState.init (fun _ _ _ _ _ => mret tt) init_world = (Ok st', w')
    /\ include_list st' = [[(u"map", 1%Z)]]
    /\ inc_ok st'
    /\ (all_includes st' = all_includes IncludeState.init
        \/ exists include, include ∉ (all_includes IncludeState.init).*1
             /\ all_includes st' = all_includes IncludeState.init ++ [(include, 1%Z)]).
Proof.
  intros lines.
  destruct (CheckIncludeLine (H := ascii_db) git_fs (u"src/net/a.h") lines lines 1
    IncludeState.init (fun _ _ _ _ _ => mret tt) init_world) as [[st'|e] w'] eqn:E.
  - exists st', w'. split; [reflexivity|]. split.
    + vm_compute in E. injection E as <- _. reflexivity.
    + apply (CheckIncludeLine_inv git_fs (u"src/net/a.h") lines lines 1 IncludeState.init
        (fun _ _ _ _ _ => mret tt) init_world st' w' init_ok ltac:(lia) E).
  - vm_compute in E. discriminate E.
Defined.
