(* ===== verification/Cleanse.v ===== *)
(** * Removing comments and strings: CleansedLines

    Models lines 1126-1382 of cpplint.py.  A file is cleansed line by line:
    C++11 raw strings are cut out ([CleanseRawStrings]), multi-line comments
    are blanked ([RemoveMultiLineComments]), strings are collapsed to empty
    ones ([_CollapseStrings]) and comments removed ([CleanseComments]);
    [CleansedLines] holds the four versions of the lines. *)

From S2P Require Import Prelude PyStr Regex RePattern Lint IncludeState.
From Stdlib Require Import Ascii.

(** [''] and [""], and a backslash *)
Definition dqdq : list N := dq ++ dq.
Definition sq : list N := u"'".

Definition _RE_PATTERN_CLEANSE_LINE_ESCAPES : regex :=
  rxp (u"\\([abfnrtv?" ++ dq ++ u"\\\']|\d+|x[0-9a-fA-F]+)").
Definition _RE_PATTERN_C_COMMENTS : list N := u"/\*(?:[^*]|\*(?!/))*\*/".
Definition _RE_PATTERN_CLEANSE_LINE_C_COMMENTS : regex :=
  rxp (u"(\s*" ++ _RE_PATTERN_C_COMMENTS ++ u"\s*$|" ++
       _RE_PATTERN_C_COMMENTS ++ u"\s+|" ++
       u"\s+" ++ _RE_PATTERN_C_COMMENTS ++ u"(?=\W)|" ++
       _RE_PATTERN_C_COMMENTS ++ u")").

Definition IsCppString (line : list N) : bool :=
  let line := replace line (u"\\") (u"XX") in
  Z.odd (count line dq - count line (u"\" ++ dq) - count line (sq ++ dq ++ sq)).

(** ** Raw strings *)

Definition raw_string_pattern : regex :=
  rxp (u"^(.*)\b(?:R|u8R|uR|UR|LR)" ++ dq ++ u"([^\s\\()]*)\((.*)$").

(** The inner loop: replace the raw strings that begin on the line.  The
    result is the line and the delimiter that is still open, if any. *)
Fixpoint raw_begin (fuel : nat) (line : list N) : res (list N * option (list N)) :=
  match fuel with
  | 0 => Exc OutOfFuel
  | S f =>
      match Match raw_string_pattern line with
      | Some matched =>
          let delimiter := u")" ++ grp matched 2 ++ dq in
          let end_ := find (grp matched 3) delimiter in
          if (0 <=? end_)%Z then
            raw_begin f (grp matched 1 ++ dqdq
                         ++ slice_from (grp matched 3) (end_ + len delimiter))
          else Ok (grp matched 1 ++ dqdq, Some delimiter)
      | None => Ok (line, None)
      end
  end.

(** One turn of the loop over the lines. *)
Definition raw_line (delimiter : option (list N)) (line : list N)
    : res (list N * option (list N)) :=
  match delimiter with
  | Some d =>
      let end_ := find line d in
      if (0 <=? end_)%Z then
        leading_space ← of_option AttributeError (Match (rx "^(\s*)\S") line);
        let line := grp leading_space 1 ++ dqdq ++ slice_from line (end_ + len d) in
        raw_begin (S (length line)) line
      else Ok (dqdq, Some d)
  | None => raw_begin (S (length line)) line
  end.

Fixpoint cleanse_raw_go (delimiter : option (list N)) (raw_lines : list (list N))
    : res (list (list N)) :=
  match raw_lines with
  | [] => Ok []
  | line :: rest =>
      '(line, delimiter) ← raw_line delimiter line;
      lines_without_raw_strings ← cleanse_raw_go delimiter rest;
      Ok (line :: lines_without_raw_strings)
  end.
Definition CleanseRawStrings (raw_lines : list (list N)) : res (list (list N)) :=
  cleanse_raw_go None raw_lines.

(** ** Multi-line comments *)

(** The comment starts on this line and goes beyond it. *)
Definition comment_starts (line : list N) : bool :=
  starts (u"/*") (strip line) && (find_from (strip line) (u"*/") 2 <? 0)%Z.
Definition comment_ends (line : list N) : bool := ends (u"*/") (strip line).

Fixpoint find_line (p : list N -> bool) (rest : list (list N)) (lineix : nat) : nat :=
  match rest with
  | [] => lineix
  | line :: rest' => if p line then lineix else find_line p rest' (S lineix)
  end.
Definition FindNextMultiLineCommentStart (lines : list (list N)) (lineix : nat) : nat :=
  find_line comment_starts (drop lineix lines) lineix.
Definition FindNextMultiLineCommentEnd (lines : list (list N)) (lineix : nat) : nat :=
  find_line comment_ends (drop lineix lines) lineix.

(** [for i in range(begin, end): lines[i] = '/**/'] *)
Definition RemoveMultiLineCommentsFromRange (lines : list (list N)) (begin end_ : nat)
    : list (list N) :=
  foldl (fun l i => <[i := u"/**/"]> l) lines (seq begin (end_ - begin)).

(** The list is changed in place: the result is its new contents. *)
Fixpoint remove_comments_go (fuel : nat) (filename : list N) (error : ErrorFn)
    (lines : list (list N)) (lineix : nat) : M (list (list N)) :=
  match fuel with
  | 0 => raise OutOfFuel
  | S f =>
      if lineix <? length lines then
        let lineix_begin := FindNextMultiLineCommentStart lines lineix in
        if length lines <=? lineix_begin then mret lines
        else
          let lineix_end := FindNextMultiLineCommentEnd lines lineix_begin in
          if length lines <=? lineix_end then
            error filename (Z.of_nat lineix_begin + 1)%Z (u"readability/multiline_comment") 5%Z
              (u"Could not find end of multi-line comment") ≫= fun _ =>
            mret lines
          else
            remove_comments_go f filename error
              (RemoveMultiLineCommentsFromRange lines lineix_begin (lineix_end + 1))
              (lineix_end + 1)
      else mret lines
  end.
Definition RemoveMultiLineComments (filename : list N) (lines : list (list N))
    (error : ErrorFn) : M (list (list N)) :=
  remove_comments_go (S (length lines)) filename error lines 0.

(** ** Comments and strings on one line *)

Definition CleanseComments (line : list N) : list N :=
  let commentpos := find line (u"//") in
  let line :=
    if negb (commentpos =? -1)%Z && negb (IsCppString (slice_to line commentpos))
    then rstrip (slice_to line commentpos) else line in
  re_sub _RE_PATTERN_CLEANSE_LINE_C_COMMENTS (fun _ => []) line.

Definition first_quote_pattern : regex :=
  rxp (u"^([^\'" ++ dq ++ u"]*)([\'" ++ dq ++ u"])(.*)$").
Definition digits_pattern : regex := rx "^((?:\'?[0-9a-zA-Z_])*)(.*)$".

(** The loop of [_CollapseStrings]: [collapsed] is the output so far. *)
Fixpoint collapse_go (fuel : nat) (collapsed elided : list N) : res (list N) :=
  match fuel with
  | 0 => Exc OutOfFuel
  | S f =>
      match Match first_quote_pattern elided with
      | None => Ok (collapsed ++ elided)
      | Some o =>
          let head := grp o 1 in
          let quote := grp o 2 in
          let tail := grp o 3 in
          if quote =s dq then
            let second_quote := find tail dq in
            if (0 <=? second_quote)%Z then
              collapse_go f (collapsed ++ head ++ dqdq) (slice_from tail (second_quote + 1))
            else Ok (collapsed ++ elided)
          else if Searches (rx "\b(?:0[bBxX]?|[1-9])[0-9a-fA-F]*$") head then
            match_literal ← of_option AttributeError
              (Match digits_pattern (sq ++ tail));
            collapse_go f (collapsed ++ head ++ replace (grp match_literal 1) sq [])
              (grp match_literal 2)
          else
            let second_quote := find tail sq in
            if (0 <=? second_quote)%Z then
              collapse_go f (collapsed ++ head ++ sq ++ sq) (slice_from tail (second_quote + 1))
            else Ok (collapsed ++ elided)
      end
  end.
Definition _CollapseStrings (elided : list N) : res (list N) :=
  if Matches _RE_PATTERN_INCLUDE elided then Ok elided
  else
    let elided := re_sub _RE_PATTERN_CLEANSE_LINE_ESCAPES (fun _ => []) elided in
    collapse_go (S (length elided)) [] elided.

(** ** CleansedLines *)

Record cleansed_lines := CleansedLines {
  elided : list (list N);
  lines : list (list N);
  raw_lines : list (list N);
  num_lines : Z;
  lines_without_raw_strings : list (list N)
}.

Fixpoint elide_lines (ls : list (list N)) : res (list (list N)) :=
  match ls with
  | [] => Ok []
  | l :: ls' =>
      e ← _CollapseStrings l;
      es ← elide_lines ls';
      Ok (CleanseComments e :: es)
  end.
(** [CleansedLines(lines)] *)
Definition new_CleansedLines (ls : list (list N)) : res cleansed_lines :=
  without ← CleanseRawStrings ls;
  es ← elide_lines without;
  Ok (CleansedLines es (CleanseComments <$> without) ls (len ls) without).
Definition NumLines (c : cleansed_lines) : Z := num_lines c.

Example raw_ex :
  CleanseRawStrings [u"  a = R" ++ dq ++ u"xx(one"; u"two)"; u"  )xx" ++ dq ++ u" + R" ++ dq ++ u"(3)" ++ dq ++ u";"]
  = Ok [u"  a = " ++ dqdq; dqdq; u"  " ++ dqdq ++ u" + " ++ dqdq ++ u";"].
Proof. vm_compute. reflexivity. Qed.
Example collapse_ex :
  _CollapseStrings (u"f(" ++ dq ++ u"a\" ++ dq ++ u"b" ++ dq ++ u", 'c', 1'000)")
  = Ok (u"f(" ++ dqdq ++ u", '', 1000)").
Proof. vm_compute. reflexivity. Qed.
Example comments_ex : CleanseComments (u"int a; /* b */ int c;  // d") = u"int a; int c;".
Proof. vm_compute. reflexivity. Qed.

(** ** Raw strings: termination and line count *)

(** What the pattern of a raw string matches: a prefix, the opening, the
    delimiter, an opening parenthesis, and the rest of the line. *)
Lemma raw_match_inv line o :
  Match raw_string_pattern line = Some o ->
  exists r rest, line = grp o 1 ++ r ++ dq ++ grp o 2 ++ u"(" ++ grp o 3 ++ rest
    /\ u"R" `suffix_of` r.
Proof.
  intros H. apply Match_den in H as (z' & g' & Hd & ->); [|regex_wf].
  rx_norm_in raw_string_pattern Hd.
  den_inv.
  all: match goal with
    |- context [?x1 ++ ?l = _] =>
      match l with
      | context C [34%N :: ?x2 ++ 40%N :: ?x3 ++ ?rest] =>
          let r := context C [@nil N] in
          exists r, rest;
          grp_is 1 (@nil N) x1 (r ++ dq ++ x2 ++ u"(" ++ x3 ++ rest);
          grp_is 2 (x1 ++ r ++ [34%N]) x2 (u"(" ++ x3 ++ rest);
          grp_is 3 (x1 ++ r ++ [34%N] ++ x2 ++ [40%N]) x3 rest;
          split; [reflexivity|]
      end end.
  - by exists [].
  - by exists (u"u8").
  - by exists (u"u").
  - by exists (u"U").
  - by exists (u"L").
Qed.

(** A delimiter the scan can be left with. *)
Definition is_delimiter (d : list N) : Prop := exists x, d = u")" ++ x ++ dq.

Lemma raw_begin_total fuel line :
  length line < fuel ->
  exists l d, raw_begin fuel line = Ok (l, d) /\ from_option is_delimiter True d.
Proof.
  revert line. induction fuel as [|f IH]; intros line Hf; [lia|]. simpl.
  destruct (Match raw_string_pattern line) as [o|] eqn:E; [|by exists line, None].
  apply raw_match_inv in E as (r & rest & Hl & [k ->]).
  case_bool; [|eexists _, (Some _); split; [done|]; by eexists].
  apply IH. bool_simpl. rewrite slice_from_pos by (apply Z.add_nonneg_nonneg; [done | apply len_nonneg]).
  assert (length line = length (grp o 1) + length k + 2 + length (grp o 2) + 1
    + length (grp o 3) + length rest) as Hlen.
  { rewrite Hl at 1. repeat (rewrite length_app; simpl). lia. }
  rewrite length_app. cbn [length]. rewrite length_drop. unfold len.
  cbn [length]. rewrite length_app. cbn [length dq]. lia.
Qed.

Lemma leading_space_match line c :
  c ∈ line -> is_ascii_space c = false -> is_Some (Match (rx "^(\s*)\S") line).
Proof.
  intros Hc Hs. apply Match_is_Some; [regex_wf|]. rx_norm (rx "^(\s*)\S").
  destruct (drop_while_spec is_ascii_space line) as (w & Hw & Hall).
  destruct (drop_while is_ascii_space line) as [|d t] eqn:E.
  - rewrite app_nil_r in Hw. subst w. rewrite Forall_forall in Hall.
    rewrite Hall in Hs; done.
  - apply drop_while_head in E.
    exists (Zs (d :: reverse w ++ []) t), [None], [Some (0, length w)].
    exists (Zs (reverse w ++ []) (d :: t)), [Some (0, length w)]. split.
    + exists (start_zs line), [None]. split; [by repeat split|].
      exists [None]. split.
      * den_run. exists w. simpl. rewrite Hw. repeat split; [lia|].
        eapply Forall_impl; [exact Hall|]. intros x Hx. unfold set_ok. simpl. by rewrite Hx.
      * unfold pos. simpl. by rewrite app_nil_r, length_reverse.
    + exists d, t. repeat split. unfold set_ok. simpl. by rewrite E.
Qed.

Lemma find_occurs s sub :
  (0 <= find s sub)%Z -> exists a b, s = a ++ sub ++ b.
Proof. intros H. by apply find_nonneg, contains_spec in H. Qed.

Lemma raw_line_total d line :
  from_option is_delimiter True d ->
  exists l d', raw_line d line = Ok (l, d') /\ from_option is_delimiter True d'.
Proof.
  intros Hd. destruct d as [d|]; unfold raw_line; [|apply raw_begin_total; lia].
  case_bool; [|by exists dqdq, (Some d)].
  bool_simpl. destruct (leading_space_match line (ch ")")) as [o ->].
  - apply find_occurs in Heqb as (a & b & ->). destruct Hd as [x ->]. set_solver.
  - reflexivity.
  - apply raw_begin_total. lia.
Qed.

Lemma no_raw_opening line :
  contains (u"R" ++ dq) line = false -> Match raw_string_pattern line = None.
Proof.
  intros Hc. destruct (Match raw_string_pattern line) as [o|] eqn:E; [|done].
  apply raw_match_inv in E as (r & rest & Hl & [k ->]).
  rewrite <- not_true_iff_false, contains_spec in Hc. destruct Hc.
  exists (grp o 1 ++ k), (grp o 2 ++ u"(" ++ grp o 3 ++ rest).
  rewrite Hl at 1. by rewrite <- !app_assoc.
Qed.

Lemma cleanse_raw_go_total d ls :
  from_option is_delimiter True d ->
  exists out, cleanse_raw_go d ls = Ok out /\ length out = length ls.
Proof.
  revert d. induction ls as [|line ls IH]; intros d Hd; simpl; [by exists []|].
  destruct (raw_line_total d line Hd) as (l & d' & -> & Hd'). cbn.
  destruct (IH d' Hd') as (out & -> & Hl). cbn.
  exists (l :: out). split; [done|]. simpl. by rewrite Hl.
Qed.

(** C18: [CleanseRawStrings] always returns (the scan of a line ends, and the
    line that closes a raw string has a non-blank character), it returns as
    many lines as it was given, and it changes nothing when no line has the
    opening of a raw string. *)
Theorem CleanseRawStrings_lines ls :
  exists out, CleanseRawStrings ls = Ok out /\ length out = length ls
    /\ (Forall (fun line => contains (u"R" ++ dq) line = false) ls -> out = ls).
Proof.
  destruct (cleanse_raw_go_total None ls I) as (out & E & Hl).
  exists out. split; [done|]. split; [done|]. intros Hno.
  assert (cleanse_raw_go None ls = Ok ls) as E'; [|congruence]. clear E out Hl.
  induction Hno as [|line ls Hc _ IH]; [done|]. simpl.
  rewrite (no_raw_opening _ Hc). cbn. by rewrite IH.
Qed.

(** ** Multi-line comments: the specification *)

Definition blank (w : list N) : Prop := Forall (fun c => is_uspace c = true) w.
(** A line that opens a comment and leaves it open: its first characters that
    are not blank are the opening, and no closing comes after them. *)
Definition opens_comment (line : list N) : Prop :=
  exists w t, line = w ++ u"/*" ++ t /\ blank w /\ forall a b, t <> a ++ u"*/" ++ b.
(** A line whose last characters that are not blank close a comment. *)
Definition closes_comment (line : list N) : Prop :=
  exists a w, line = a ++ u"*/" ++ w /\ blank w.

Lemma closing_before_blank t w a b :
  blank w -> t ++ w = a ++ u"*/" ++ b -> exists b', t = a ++ u"*/" ++ b'.
Proof.
  revert b. induction w as [|x w IH] using rev_ind; intros b Hw E.
  - exists b. by rewrite app_nil_r in E.
  - apply Forall_app in Hw as [Hw Hx]. rewrite Forall_singleton in Hx.
    destruct b as [|y b _] using rev_ind.
    + rewrite app_nil_r, app_assoc in E. change (u"*/") with ([ch "*"] ++ [ch "/"]) in E.
      rewrite app_assoc in E. apply app_inj_tail in E as [_ ->]. by vm_compute in Hx.
    + rewrite !app_assoc in E. apply app_inj_tail in E as [E _].
      rewrite <- app_assoc in E. by apply (IH b).
Qed.
Lemma comment_starts_spec line : comment_starts line = true <-> opens_comment line.
Proof.
  unfold comment_starts. rewrite andb_true_iff, starts_spec, Z.ltb_lt.
  assert (forall t, strip line = u"/*" ++ t ->
    (find_from (strip line) (u"*/") 2 < 0)%Z <-> forall a b, t <> a ++ u"*/" ++ b) as Hfind.
  { intros t ->. unfold find_from. rewrite len_app. change (len (u"/*")) with 2%Z.
    destruct (Z.ltb_spec (2 + len t) 2) as [H|_]; [pose proof (len_nonneg t); lia|].
    replace (clamp (2 + len t) 2) with 2 by (unfold clamp, len; simpl; lia).
    change (drop 2 (u"/*" ++ t)) with t.
    pose proof (contains_spec (u"*/") t) as Hc. unfold contains in Hc.
    destruct (find_nat (u"*/") t) as [i|].
    - split; [lia|]. destruct (proj1 Hc eq_refl) as (a & b & E). intros H. by destruct (H a b).
    - split; [|lia]. intros _ a b E. assert (false = true) by (apply Hc; eauto). done. }
  split.
  - intros [[t Ht] Hf]. destruct (strip_p_parts is_uspace line) as (w & w' & E & Hw & Hw').
    fold (strip line) in E. rewrite Ht in E. rewrite <- app_assoc in E.
    exists w, (t ++ w'). split; [done|]. split; [done|]. intros a b Eab.
    apply (closing_before_blank t w' a b Hw') in Eab as [b' ->].
    by apply (proj1 (Hfind _ Ht) Hf a b').
  - intros (w & t & -> & Hw & Ht).
    assert (strip (w ++ u"/*" ++ t) = u"/*" ++ rstrip t) as E.
    { unfold strip, strip_p, lstrip_p. change (u"/*" ++ t) with (ch "/" :: ch "*" :: t).
      rewrite drop_while_stop, (drop_while_all _ w Hw) by done.
      cbn [app]. by apply (rstrip_p_stop is_uspace [ch "/"]). }
    split; [by eexists|]. apply (Hfind (rstrip t) E). intros a b Eab.
    destruct (rstrip_p_spec is_uspace t) as (k & Hk & _). fold (rstrip t) in Hk.
    apply (Ht a (b ++ k)). rewrite Hk, Eab. by rewrite <- !app_assoc.
Qed.
Lemma comment_ends_spec line : comment_ends line = true <-> closes_comment line.
Proof.
  unfold comment_ends. rewrite ends_spec. split.
  - intros [t Ht]. destruct (strip_p_parts is_uspace line) as (w & w' & E & _ & Hw').
    fold (strip line) in E. exists (w ++ t), w'. split; [|done]. by rewrite E at 1; rewrite Ht, <- !app_assoc.
  - intros (a & w & -> & Hw). exists (drop_while is_uspace a). unfold strip, strip_p, lstrip_p.
    change (u"*/" ++ w) with (ch "*" :: ch "/" :: w). rewrite drop_while_stop by done.
    rewrite (app_assoc _ [ch "*"] (ch "/" :: w)), (rstrip_p_stop is_uspace) by done.
    by rewrite (rstrip_p_all _ w Hw), <- app_assoc.
Qed.
Lemma not_opens l : comment_starts l = false -> ~ opens_comment l.
Proof. rewrite <- comment_starts_spec. congruence. Qed.
Lemma not_closes l : comment_ends l = false -> ~ closes_comment l.
Proof. rewrite <- comment_ends_spec. congruence. Qed.

(** [stripped ls out o]: [out] is [ls] with its multi-line comments blanked.
    A comment is a block whose first line opens one, and whose last line is
    the first that closes it; each of its lines becomes [/**/], all other
    lines stay.  [o] is the index of a line that opens a comment no line
    closes: from there all lines stay. *)
Inductive stripped : list (list N) -> list (list N) -> option nat -> Prop :=
  | stripped_plain a :
      Forall (fun l => ~ opens_comment l) a -> stripped a a None
  | stripped_comment a x c y d r out o :
      Forall (fun l => ~ opens_comment l) a ->
      opens_comment x -> head (c ++ [y]) = Some x ->
      Forall (fun l => ~ closes_comment l) c -> closes_comment y ->
      d = c ++ [y] ->
      stripped r out o ->
      stripped (a ++ d ++ r) (a ++ replicate (length d) (u"/**/") ++ out)
        (Nat.add (length a + length d) <$> o)
  | stripped_open a x c :
      Forall (fun l => ~ opens_comment l) a ->
      opens_comment x ->
      Forall (fun l => ~ closes_comment l) (x :: c) ->
      stripped (a ++ x :: c) (a ++ x :: c) (Some (length a)).

Lemma find_line_split p rest i :
  exists a c, rest = a ++ c /\ Forall (fun l => p l = false) a
    /\ find_line p rest i = i + length a
    /\ (c = [] \/ exists x c', c = x :: c' /\ p x = true).
Proof.
  revert i. induction rest as [|l rest IH]; intros i; simpl.
  - exists [], []. split; [done|]. split; [done|]. split; [simpl; lia | by left].
  - destruct (p l) eqn:E.
    + exists [], (l :: rest). split; [done|]. split; [done|]. split; [simpl; lia|].
      right. by exists l, rest.
    + destruct (IH (S i)) as (a & c & -> & Ha & -> & Hc).
      exists (l :: a), c. split; [done|]. split; [by constructor|]. split; [simpl; lia | done].
Qed.

Lemma remove_range_app p c r :
  RemoveMultiLineCommentsFromRange (p ++ c ++ r) (length p) (length p + length c)
  = p ++ replicate (length c) (u"/**/") ++ r.
Proof.
  unfold RemoveMultiLineCommentsFromRange.
  replace (length p + length c - length p) with (length c) by lia.
  revert p. induction c as [|x c IH]; intros p; [done|]. simpl.
  rewrite insert_app_r_alt by lia. rewrite Nat.sub_diag. simpl.
  specialize (IH (p ++ [u"/**/"])). rewrite length_app, Nat.add_1_r in IH.
  rewrite <- !app_assoc in IH. exact IH.
Qed.

Lemma remove_comments_go_spec fuel filename error done rest w :
  length rest < fuel ->
  exists out o, stripped rest out o /\
    remove_comments_go fuel filename error (done ++ rest) (length done) w =
    match o with
    | None => (Ok (done ++ out), w)
    | Some b =>
        (error filename (Z.of_nat (length done + b) + 1)%Z (u"readability/multiline_comment") 5%Z
           (u"Could not find end of multi-line comment") ≫= fun _ => mret (done ++ out)) w
    end.
Proof.
  revert done rest. induction fuel as [|f IH]; intros pre rest Hf; [lia|].
  cbn [remove_comments_go]. cbv zeta. rewrite length_app.
  destruct (Nat.ltb_spec (length pre) (length pre + length rest)) as [Hlt|Hge].
  2: { assert (rest = []) as -> by (apply nil_length_inv; lia).
       exists [], None. split; [by constructor | done]. }
  unfold FindNextMultiLineCommentStart. rewrite (drop_app_length pre rest).
  destruct (find_line_split comment_starts rest (length pre)) as (a & c & -> & Ha & -> & Hc).
  rewrite length_app in *.
  assert (Forall (fun l => ~ opens_comment l) a) as Ha' by (eapply Forall_impl; [exact Ha|apply not_opens]).
  destruct Hc as [-> | (x & c' & -> & Hx)].
  { exists (a ++ []), None. rewrite app_nil_r. split; [by constructor|].
    destruct (Nat.leb_spec (length pre + (length a + length (@nil (list N)))) (length pre + length a));
      [done|simpl in *; lia]. }
  destruct (Nat.leb_spec (length pre + (length a + length (x :: c'))) (length pre + length a));
    [simpl in *; lia|].
  unfold FindNextMultiLineCommentEnd.
  rewrite (app_assoc pre a), <- (length_app pre a), (drop_app_length (pre ++ a) (x :: c')).
  destruct (find_line_split comment_ends (x :: c') (length (pre ++ a)))
    as (d & e & Hde & Hd & -> & He).
  apply comment_starts_spec in Hx.
  assert (Forall (fun l => ~ closes_comment l) d) as Hd' by (eapply Forall_impl; [exact Hd|apply not_closes]).
  destruct He as [-> | (y & r & -> & Hy)].
  - rewrite app_nil_r in Hde. subst d. exists (a ++ x :: c'), (Some (length a)).
    split; [by constructor|].
    destruct (Nat.leb_spec (length pre + (length a + length (x :: c')))
      (length (pre ++ a) + length (x :: c'))); [|rewrite length_app in *; lia].
    rewrite <- app_assoc, length_app. done.
  - assert (x :: c' = (d ++ [y]) ++ r) as Hsplit by (by rewrite <- app_assoc).
    assert (length (x :: c') = length d + 1 + length r) as Hl
      by (rewrite Hsplit; by rewrite !length_app).
    assert (length r < f) as Hr by lia.
    pose proof (length_app pre a) as Hpa.
    destruct (Nat.leb_spec (length pre + (length a + length (x :: c')))
      (length (pre ++ a) + length d)) as [Hle|_]; [lia|].
    replace (length (pre ++ a) + length d + 1) with (length (pre ++ a) + length (d ++ [y]))
      by (rewrite (length_app d); simpl; lia).
    rewrite Hsplit, remove_range_app.
    set (blank := replicate (length (d ++ [y])) (u"/**/")).
    assert (length ((pre ++ a) ++ blank) = length (pre ++ a) + length (d ++ [y])) as Hb
      by (unfold blank; by rewrite length_app, length_replicate).
    destruct (IH ((pre ++ a) ++ blank) r) as (out & o & Hst & Hgo); [exact Hr|].
    apply comment_ends_spec in Hy. eexists _, _. split.
    { eapply (stripped_comment a x d y (d ++ [y]) r out o); try done.
      destruct d; simpl in *; by simplify_eq. }
    rewrite Hb, <- (app_assoc (pre ++ a) blank r) in Hgo. rewrite Hgo. clear Hgo.
    rewrite <- !app_assoc.
    destruct o as [b|]; [|done]. cbn [fmap option_fmap option_map].
    rewrite Hpa. replace (length pre + length a + length (d ++ [y]) + b)
      with (length pre + (length a + length (d ++ [y]) + b)) by lia. done.
Qed.

(** C17: [RemoveMultiLineComments] blanks exactly the blocks of lines from one
    that opens a comment, as its first text, and leaves it open, to the first
    that closes one, as its last text: the list it leaves behind stands in the
    relation [stripped] to the one it was given, and when a comment never ends
    it reports that once, at the line the comment starts on, and leaves the
    file alone from there. *)
Theorem RemoveMultiLineComments_spec filename ls error w :
  exists out o, stripped ls out o /\
    RemoveMultiLineComments filename ls error w =
    match o with
    | None => (Ok out, w)
    | Some b =>
        (error filename (Z.of_nat b + 1)%Z (u"readability/multiline_comment") 5%Z
           (u"Could not find end of multi-line comment") ≫= fun _ => mret out) w
    end.
Proof.
  apply (remove_comments_go_spec (S (length ls)) filename error [] ls w). lia.
Qed.

Lemma stripped_length ls out o : stripped ls out o -> length out = length ls.
Proof.
  induction 1; [done| |done]. rewrite !length_app, length_replicate. congruence.
Qed.

(** ** Collapsing strings terminates *)

Lemma first_quote_inv s o :
  Match first_quote_pattern s = Some o ->
  exists q rest, s = grp o 1 ++ [q] ++ grp o 3 ++ rest /\ grp o 2 = [q]
    /\ Forall (fun c => any_ok c = true) (grp o 3).
Proof.
  intros H. apply Match_den in H as (z' & g' & Hd & ->); [|regex_wf].
  rx_norm_in first_quote_pattern Hd.
  den_inv.
  match goal with |- context [?x1 ++ ?q :: ?x3 ++ ?rest = _] =>
    exists q, rest;
    grp_is 1 (@nil N) x1 ([q] ++ x3 ++ rest);
    grp_is 2 x1 [q] (x3 ++ rest);
    grp_is 3 (x1 ++ [q]) x3 rest
  end.
  done.
Qed.

(** The digits after a digit separator: there is always a match, since the
    rest of the line has no line break. *)
Lemma digits_match s :
  Forall (fun c => any_ok c = true) s -> is_Some (Match digits_pattern s).
Proof.
  intros Hs. apply Match_is_Some; [regex_wf|]. rx_norm digits_pattern.
  set (zf := Zs (reverse s ++ []) []).
  set (gf := set_cap 1 0 (length s) [Some (0, 0); None]).
  exists zf, [None; None], gf, zf, gf. split; [|by repeat split].
  exists (start_zs s), [Some (0, 0); None]. split.
  - exists (start_zs s), [None; None]. split; [by repeat split|].
    exists [None; None]. split; [|done].
    exists 0. split; [lia|]. split; [done|]. constructor.
  - exists [Some (0, 0); None]. split.
    + den_run. exists s. simpl. rewrite app_nil_r. repeat split; try done. lia.
    + unfold gf, pos. simpl. by rewrite app_nil_r, length_reverse.
Qed.

Lemma collapse_go_total fuel collapsed s :
  length s < fuel -> exists out, collapse_go fuel collapsed s = Ok out.
Proof.
  revert collapsed s. induction fuel as [|f IH]; intros collapsed s Hf; [lia|].
  cbn [collapse_go]. destruct (Match first_quote_pattern s) as [o|] eqn:E; [|by eexists].
  apply first_quote_inv in E as (q & rest & Hs & -> & Htail). cbv zeta.
  assert (length s = length (grp o 1) + 1 + length (grp o 3) + length rest) as Hl.
  { rewrite Hs at 1. rewrite !length_app. simpl. lia. }
  assert (forall i, length (slice_from (grp o 3) i) < f) as Hcut.
  { intros i. unfold slice_from. rewrite length_drop. lia. }
  case_bool; [case_bool; [apply IH, Hcut | by eexists]|].
  case_bool; [|case_bool; [apply IH, Hcut | by eexists]].
  destruct (digits_match (sq ++ grp o 3)) as [o2 Ho2].
  { apply Forall_app. split; [by repeat constructor | done]. }
  rewrite Ho2. cbn. apply IH.
  apply (grp_length _ (start_zs _) _ 2) in Ho2; [|regex_wf].
  change (zs_str (start_zs (sq ++ grp o 3))) with (sq ++ grp o 3) in Ho2.
  rewrite length_app in Ho2. change (length sq) with 1 in Ho2.
  destruct (grp o 1) as [|c h] eqn:Eh; [|simpl in Hl; lia].
  by vm_compute in Heqb0.
Qed.
Lemma CollapseStrings_total s : exists out, _CollapseStrings s = Ok out.
Proof.
  unfold _CollapseStrings. case_bool; [by eexists|]. apply collapse_go_total. lia.
Qed.

Lemma elide_lines_total ls :
  exists out, elide_lines ls = Ok out /\ length out = length ls.
Proof.
  induction ls as [|l ls (out & IH & Hl)]; [by exists []|]. simpl.
  destruct (CollapseStrings_total l) as [e ->]. cbn. rewrite IH. cbn.
  eexists. split; [done|]. simpl. by rewrite Hl.
Qed.

Lemma new_CleansedLines_ok ls :
  exists c, new_CleansedLines ls = Ok c /\ raw_lines c = ls
    /\ num_lines c = len ls /\ len (elided c) = len ls /\ len (lines c) = len ls
    /\ len (lines_without_raw_strings c) = len ls.
Proof.
  unfold new_CleansedLines, CleanseRawStrings.
  destruct (cleanse_raw_go_total None ls I) as (out & -> & Hl). cbn.
  destruct (elide_lines_total out) as (es & -> & He). cbn.
  eexists. split; [done|]. cbn. unfold len. rewrite length_fmap, He, Hl. done.
Qed.

(** C19: cleansing a file never fails, and the four versions of the file have
    the same lines: a line number of one is a line number of the others, and
    of the file. *)
Theorem new_CleansedLines_lengths ls :
  exists c, new_CleansedLines ls = Ok c /\ raw_lines c = ls
    /\ num_lines c = len ls /\ len (elided c) = len ls /\ len (lines c) = len ls
    /\ len (lines_without_raw_strings c) = len ls.
Proof. apply new_CleansedLines_ok. Qed.
