(* ===== verification/Collapse.v ===== *)
(** * What collapsing the strings of a line computes

    [_CollapseStrings] of [Cleanse] goes over a line from quote to quote.
    [collapsed] says, without the loop and without its patterns, what becomes
    of the line: the literals lose their contents, the digit separators are
    dropped, and a quote without a partner ends the work. *)

From S2P Require Import Prelude PyStr Regex RePattern Lint IncludeState Cleanse.
From Stdlib Require Import Ascii.

(** The single and the double quote. *)
Definition squote : N := 39%N.
Definition dquote : N := 34%N.
Definition is_quote (c : N) : bool := (c =c squote) || (c =c dquote).
Definition no_quote (s : list N) : Prop := Forall (fun c => is_quote c = false) s.
Definition one_line (s : list N) : Prop := Forall (fun c => any_ok c = true) s.

(** The text ends in a number, so that a single quote behind it separates
    digits. *)
Definition ends_number (s : list N) : bool :=
  Searches (rx "\b(?:0[bBxX]?|[1-9])[0-9a-fA-F]*$") s.
(** The length of the run of digits and letters at the start of the text, each
    with a single quote before it or not. *)
Fixpoint digits_run (s : list N) : nat :=
  match s with
  | [] => 0
  | c :: t =>
      if is_word c then S (digits_run t)
      else if c =c squote then
        match t with
        | d :: t' => if is_word d then S (S (digits_run t')) else 0
        | [] => 0
        end
      else 0
  end.

Inductive collapsed : list N -> list N -> Prop :=
  | collapsed_plain s : no_quote s -> collapsed s s
  | collapsed_open h q t :
      no_quote h -> is_quote q = true -> (q = squote -> ends_number h = false) ->
      q ∉ t -> collapsed (h ++ q :: t) (h ++ q :: t)
  | collapsed_literal h q body s out :
      no_quote h -> is_quote q = true -> (q = squote -> ends_number h = false) ->
      q ∉ body -> collapsed s out ->
      collapsed (h ++ q :: body ++ q :: s) (h ++ q :: q :: out)
  | collapsed_digits h t out :
      no_quote h -> ends_number h = true ->
      collapsed (drop (digits_run (squote :: t)) (squote :: t)) out ->
      collapsed (h ++ squote :: t)
        (h ++ List.filter (fun c => negb (c =c squote))
                (take (digits_run (squote :: t)) (squote :: t)) ++ out).

(** ** The first quote of a line *)

Lemma is_quote_set c : set_ok no_flags false [CRange 39 39; CRange 34 34] c = is_quote c.
Proof.
  unfold set_ok, is_quote, squote, dquote. cbn. unfold between.
  destruct (N.leb_spec 39 c), (N.leb_spec c 39), (N.leb_spec 34 c), (N.leb_spec c 34),
    (N.eqb_spec c 39), (N.eqb_spec c 34); cbn; first [reflexivity | exfalso; lia].
Qed.
Lemma is_quote_cases q : is_quote q = true -> q = squote \/ q = dquote.
Proof. unfold is_quote. intros [H|H]%orb_true_iff; apply N.eqb_eq in H; auto. Qed.

(** A text splits at its first quote in one way. *)
Lemma first_quote_unique h q t h' q' t' :
  no_quote h -> is_quote q = true -> no_quote h' -> is_quote q' = true ->
  h ++ q :: t = h' ++ q' :: t' -> h = h' /\ q = q' /\ t = t'.
Proof.
  intros Hh Hq. revert h'. induction Hh as [|c h Hc _ IH]; intros h' Hh' Hq' E.
  - destruct Hh' as [|c h' Hc _]; [by injection E|]. injection E as -> _. congruence.
  - destruct Hh' as [|c' h' Hc' Hh']; [injection E as -> _; congruence|].
    injection E as -> E. by destruct (IH h' Hh' Hq' E) as (-> & -> & ->).
Qed.
Lemma no_quote_split h q t : no_quote (h ++ q :: t) -> is_quote q = true -> False.
Proof.
  unfold no_quote. rewrite Forall_app, Forall_cons. intros (_ & H & _) Hq. congruence.
Qed.
Lemma quote_split s : no_quote s \/ exists h q t, s = h ++ q :: t /\ no_quote h /\ is_quote q = true.
Proof.
  induction s as [|c s [IH|(h & q & t & -> & Hh & Hq)]]; [by left; constructor| |].
  - destruct (is_quote c) eqn:E; [right; exists [], c, s; by split_and!; [|constructor|]|left; by constructor].
  - destruct (is_quote c) eqn:E; [right; exists [], c, (h ++ q :: t); by split_and!; [|constructor|]|].
    right. exists (c :: h), q, t. split; [done|]. split; [by constructor|done].
Qed.

(** On one line, the end of the line is the end of the text. *)
Lemma at_eol_one_line pre rest :
  at_eol no_flags (Zs pre rest) = true -> one_line rest -> rest = [].
Proof.
  intros H Hr. destruct Hr as [|c t Hc _]; [done|]. unfold at_eol in H. cbn [zpost] in H.
  apply andb_true_iff in H as [H _]. unfold any_ok in Hc. by rewrite H in Hc.
Qed.

(** What the pattern of the first quote matches: the text before the quote,
    the quote, and all that follows. *)
Lemma first_quote_parts s o :
  one_line s -> Match first_quote_pattern s = Some o ->
  exists q, s = grp o 1 ++ q :: grp o 3 /\ grp o 2 = [q]
    /\ no_quote (grp o 1) /\ is_quote q = true.
Proof.
  intros Hs H. apply Match_den in H as (z' & g' & Hd & ->); [|regex_wf].
  rx_norm_in first_quote_pattern Hd.
  den_inv.
  lazymatch goal with Hq : set_ok _ false _ ?q = true, Ht : one_line (?x1 ++ ?q :: ?x3 ++ ?rest) |- _ =>
    change (set_ok no_flags false [CRange 39 39; CRange 34 34] q = true) in Hq;
    rewrite is_quote_set in Hq; exists q;
    grp_is 1 (@nil N) x1 ([q] ++ x3 ++ rest); grp_is 2 x1 [q] (x3 ++ rest);
    grp_is 3 (x1 ++ [q]) x3 rest;
    assert (rest = []) as ->
      by (eapply at_eol_one_line; [eassumption|]; unfold one_line in Hs;
          rewrite Forall_app, Forall_cons, Forall_app in Hs; apply Hs)
  end.
  rewrite app_nil_r. split_and!; try done. eapply Forall_impl; [eassumption|]. intros c Hc.
  change (negb (set_ok no_flags false [CRange 39 39; CRange 34 34] c) = true) in Hc.
  rewrite is_quote_set in Hc. by apply negb_true_iff.
Qed.
Lemma first_quote_found h q t :
  no_quote h -> is_quote q = true -> one_line t ->
  is_Some (Match first_quote_pattern (h ++ q :: t)).
Proof.
  intros Hh Hq Ht. apply Match_is_Some; [regex_wf|]. rx_norm first_quote_pattern.
  set (g1 := [Some (0, length h); None; None] : caps).
  set (g2 := set_cap 1 (length h) (S (length h)) g1).
  set (zq := Zs (reverse h ++ []) (q :: t)).
  set (z1 := Zs (q :: reverse h ++ []) t).
  set (z2 := Zs (reverse t ++ q :: reverse h ++ []) []).
  exists z2, [None; None; None], (set_cap 2 (pos z1) (pos z2) g2),
    z2, (set_cap 2 (pos z1) (pos z2) g2).
  split; [|by repeat split].
  exists z1, g2. split.
  - exists zq, g1. split.
    + exists (start_zs (h ++ q :: t)), [None; None; None]. split; [by repeat split|].
      exists [None; None; None]. split.
      * den_run. exists h. repeat split; [simpl; lia|].
        eapply Forall_impl; [exact Hh|]. intros c Hc.
        change (negb (set_ok no_flags false [CRange 39 39; CRange 34 34] c) = true).
        by rewrite is_quote_set, Hc.
      * unfold g1, pos, zq. simpl. by rewrite app_nil_r, length_reverse.
    + exists g1. split.
      * exists q, t. repeat split. by rewrite <- is_quote_set in Hq.
      * unfold g2, pos. simpl. by rewrite app_nil_r, length_reverse.
  - exists g2. split; [|done]. den_run. exists t. simpl. rewrite app_nil_r.
    repeat split; [lia|exact Ht].
Qed.
(** The pattern of the first quote. *)
Lemma first_quote_spec s :
  one_line s ->
  match Match first_quote_pattern s with
  | Some o => exists q, s = grp o 1 ++ q :: grp o 3 /\ grp o 2 = [q]
      /\ no_quote (grp o 1) /\ is_quote q = true
  | None => no_quote s
  end.
Proof.
  intros Hs. destruct (Match first_quote_pattern s) as [o|] eqn:E; [by apply first_quote_parts|].
  destruct (quote_split s) as [|(h & q & t & -> & Hh & Hq)]; [done|].
  destruct (first_quote_found h q t Hh Hq) as [o Ho]; [|congruence].
  unfold one_line in Hs. rewrite Forall_app, Forall_cons in Hs. apply Hs.
Qed.

(** ** Digit separators

    The pattern of the digits is greedy: it takes the longest run. *)

Definition digit_items : list citem := [CRange 48 57; CRange 97 122; CRange 65 90; CRange 95 95].
Definition digit_body : re := RSeq (RRep true 0 (Some 1) (RChr 39)) (RSet false digit_items).

Lemma digit_set c : set_ok no_flags false digit_items c = is_word c.
Proof.
  unfold set_ok, digit_items, is_word, is_alnum, is_digit, is_alpha, is_upper, is_lower. cbn.
  assert (between 95 95 c = (c =c 95)) as ->.
  { unfold between. destruct (N.leb_spec 95 c), (N.leb_spec c 95), (N.eqb_spec c 95); cbn; first [reflexivity|exfalso; lia]. }
  rewrite !orb_false_r.
  by destruct (between 48 57 c), (between 65 90 c), (between 97 122 c), (c =c 95).
Qed.
Lemma digits_run_le s : digits_run s <= length s.
Proof.
  induction s as [s IH] using (induction_ltof1 _ length). unfold ltof in IH.
  destruct s as [|c t]; [done|]. cbn [digits_run length]. destruct (is_word c).
  - specialize (IH t). cbn in IH. lia.
  - destruct (c =c squote); [|lia]. destruct t as [|d t]; [lia|].
    destruct (is_word d); [|lia]. specialize (IH t). cbn in *. lia.
Qed.

(** An optional character is taken if the rest then matches. *)
Lemma m_optional fl a z g k :
  m fl (RRep true 0 (Some 1) (RChr a)) z g k
  = orelse (step_char (chr_ok fl a) z g k) (fun _ => k z g).
Proof.
  destruct z as [pre [|c t]]; cbn [m zpost length Nat.add rep]; [done|].
  rewrite bool_decide_eq_false_2 by done. cbn [max_left negb andb]. unfold step_char. cbn [zpost].
  destruct (chr_ok fl a c); [|done]. by rewrite Nat.add_1_r.
Qed.
(** One turn takes a digit, with a quote before it or not, if there is one. *)
Lemma m_digit_body z g k :
  m no_flags digit_body z g k
  = orelse (step_char (chr_ok no_flags 39) z g (fun z g => step_char is_word z g k))
           (fun _ => step_char is_word z g k).
Proof.
  transitivity (m no_flags (RRep true 0 (Some 1) (RChr 39)) z g
    (fun z g => m no_flags (RSet false digit_items) z g k)); [done|].
  rewrite m_optional.
  assert (forall z g, m no_flags (RSet false digit_items) z g k = step_char is_word z g k) as E.
  { intros [pre [|c t]] g'; [done|]. cbn [m]. unfold step_char. cbn [zpost]. by rewrite digit_set. }
  rewrite E. unfold orelse, step_char at 1 3.
  destruct z as [pre [|c t]]; cbn [zpost]; [done|]. by rewrite E.
Qed.
Lemma m_digit_body_run s pre g k :
  m no_flags digit_body (Zs pre s) g k =
  match s with
  | c :: t =>
      if is_word c then k (Zs (c :: pre) t) g
      else if c =c squote then
        match t with
        | d :: t' => if is_word d then k (Zs (d :: c :: pre) t') g else None
        | [] => None
        end
      else None
  | [] => None
  end.
Proof.
  rewrite m_digit_body. destruct s as [|c t]; [done|]. unfold step_char. cbn [zpost zpre].
  assert (chr_ok no_flags 39 c = (c =c squote)) as ->
    by (unfold chr_ok, squote; rewrite (N.eqb_sym 39 c); cbn; by rewrite orb_false_r).
  destruct (N.eqb_spec c squote) as [->|Hc].
  - change (is_word squote) with false. destruct t as [|d t]; cbn [zpost zpre]; [done|].
    destruct (is_word d); [|done]. by destruct (k _ _).
  - done.
Qed.

(** The repetition takes the longest run, if what follows then matches. *)
Lemma rep_digits k fuel last s pre g :
  length s < fuel -> last <> Some (length s) ->
  let z := Zs (reverse (take (digits_run s) s) ++ pre) (drop (digits_run s) s) in
  is_Some (k z g) ->
  rep (m no_flags digit_body) true k fuel 0 None last (Zs pre s) g = k z g.
Proof.
  revert fuel last pre.
  induction s as [s IH] using (induction_ltof1 _ length). unfold ltof in IH.
  intros [|f] last pre Hf Hlast z [x Hx]; [lia|]. subst z. rewrite Hx. cbn [rep max_left andb].
  rewrite (bool_decide_eq_false_2 _ Hlast), m_digit_body_run.
  destruct s as [|c t]; [done|]. cbn [digits_run] in Hx. cbn [length zpost negb] in *.
  destruct (is_word c).
  - cbn [take drop] in Hx. rewrite reverse_cons, <- app_assoc in Hx. cbn [app] in Hx.
    rewrite (IH t), Hx; [done|lia|lia|congruence || (intros [=]; lia)|by eexists].
  - destruct (c =c squote); [|done]. destruct t as [|d t]; [done|].
    destruct (is_word d); [|done]. cbn [take drop] in Hx.
    rewrite !reverse_cons, <- !app_assoc in Hx. cbn [app] in Hx. cbn [length] in *.
    rewrite (IH t), Hx; [done|lia|lia|intros [=]; lia|by eexists].
Qed.

Definition rest_pattern : re := RSeq (RGrp 1 (RRep true 0 None RAny)) REol.
Definition found : cont := fun z g => Some (z, g).
(** The rest of the pattern takes the rest of the line. *)
Lemma m_rest t pre g :
  one_line t ->
  m no_flags rest_pattern (Zs pre t) g found
  = Some (Zs (reverse t ++ pre) [], set_cap 1 (length pre) (length t + length pre) g).
Proof.
  intros Ht. destruct (m_sound_complete no_flags rest_pattern) as [Hs Hc]; [by repeat split|].
  destruct (Hc (Zs pre t) (Zs (reverse t ++ pre) []) g found) as [[z g'] E]; [|by eexists|].
  - exists g. eexists. exists (Zs (reverse t ++ pre) []). eexists. split; [|by repeat split].
    exists g. split; [|reflexivity]. den_run. exists t. cbn. rewrite app_nil_r.
    repeat split; [lia|exact Ht].
  - rewrite E. apply Hs in E as (z' & g2 & Hd & [= -> ->]). unfold rest_pattern in Hd. den_inv.
    assert (zpost = []) as ->
      by (eapply at_eol_one_line; [eassumption|]; by apply Forall_app in Ht as [_ Ht]).
    rewrite app_nil_r. unfold pos. cbn. by rewrite length_app, length_reverse.
Qed.

(** What the pattern of the digits matches: the longest run, and the rest. *)
Lemma digits_spec s :
  one_line s ->
  exists o, Match digits_pattern s = Some o
    /\ grp o 1 = take (digits_run s) s /\ grp o 2 = drop (digits_run s) s.
Proof.
  intros Hs. set (n := digits_run s). pose proof (digits_run_le s) as Hn. fold n in Hn.
  pose (k := fun z g => m no_flags rest_pattern z (set_cap 0 0 (pos z) g) found).
  assert (k (Zs (reverse (take n s) ++ []) (drop n s)) [None; None]
    = Some (Zs (reverse (drop n s) ++ reverse (take n s) ++ []) [],
            [Some (0, n); Some (n, length s)])) as Hk.
  { unfold k. rewrite m_rest by (by apply Forall_drop). unfold pos. cbn [zpre].
    rewrite length_app, length_reverse, length_take_le, length_drop, Nat.add_0_r by done.
    replace (length s - n + n) with (length s) by lia. done. }
  assert (m no_flags (rx_re digits_pattern) (start_zs s) [None; None] found
    = k (Zs (reverse (take n s) ++ []) (drop n s)) [None; None]) as E.
  { transitivity (rep (m no_flags digit_body) true k (length s + 1) 0 None None (Zs [] s) [None; None]).
    - rx_norm digits_pattern. reflexivity.
    - apply rep_digits; [lia|done|]. fold n. by rewrite Hk. }
  rewrite Hk in E. eexists. split.
  - unfold Match, re_match, run.
    change (rx_flags digits_pattern) with no_flags.
    change (replicate (rx_groups digits_pattern) None) with [None; None : option (nat * nat)].
    unfold found in E. rewrite E. reflexivity.
  - split.
    + apply (group_is _ 1 [] _ (drop n s)); cbn; [by rewrite take_drop|].
      by rewrite length_take_le.
    + apply (group_is _ 2 (take n s) _ []); cbn; [by rewrite app_nil_r, take_drop|].
      rewrite length_take_le, length_drop by done. by replace (n + (length s - n)) with (length s) by lia.
Qed.

(** ** The loop *)

Lemma slice_behind a c (b : list N) : slice_from (a ++ c :: b) (Z.of_nat (length a) + 1) = b.
Proof.
  rewrite slice_from_pos by lia. replace (Z.to_nat (Z.of_nat (length a) + 1)) with (S (length a)) by lia.
  by rewrite drop_app_ge, Nat.sub_succ_l, Nat.sub_diag by lia.
Qed.
Lemma one_line_app a b : one_line (a ++ b) <-> one_line a /\ one_line b.
Proof. apply Forall_app. Qed.
Lemma one_line_cons c s : one_line (c :: s) <-> any_ok c = true /\ one_line s.
Proof. unfold one_line. by rewrite Forall_cons. Qed.

(** A literal, closed or not: the two branches of the loop that look for a
    second quote. *)
Lemma collapse_literal f q h t acc :
  (forall acc s, one_line s -> length s < f ->
     exists out, collapse_go f acc s = Ok (acc ++ out) /\ collapsed s out) ->
  no_quote h -> is_quote q = true -> (q = squote -> ends_number h = false) ->
  one_line t -> length t < f ->
  exists out,
    (let second_quote := find t [q] in
     if (0 <=? second_quote)%Z
     then collapse_go f (acc ++ h ++ [q; q]) (slice_from t (second_quote + 1))
     else Ok (acc ++ h ++ q :: t)) = Ok (acc ++ out)
    /\ collapsed (h ++ q :: t) out.
Proof.
  intros IH Hh Hq Hn Ht Hf. cbv zeta.
  destruct (find_char_split q t) as [[-> Hno]|(body & s & -> & Hno & ->)].
  - exists (h ++ q :: t). split; [done|]. by constructor.
  - destruct (Z.leb_spec 0 (Z.of_nat (length body))); [|lia]. rewrite slice_behind.
    apply one_line_app in Ht as [_ [_ Hs]%one_line_cons].
    rewrite length_app in Hf. cbn [length] in Hf.
    destruct (IH (acc ++ h ++ [q; q]) s Hs ltac:(lia)) as (out & -> & Hc).
    exists (h ++ q :: q :: out). split; [by rewrite <- !app_assoc|]. by constructor.
Qed.
Lemma collapse_go_spec fuel acc s :
  one_line s -> length s < fuel ->
  exists out, collapse_go fuel acc s = Ok (acc ++ out) /\ collapsed s out.
Proof.
  revert acc s. induction fuel as [|f IH]; intros acc s Hs Hf; [lia|]. cbn [collapse_go].
  pose proof (first_quote_spec s Hs) as H.
  destruct (Match first_quote_pattern s) as [o|]; [|exists s; split; [done|by constructor]].
  destruct H as (q & -> & -> & Hh & Hq). cbv zeta.
  apply one_line_app in Hs as [_ [_ Ht]%one_line_cons].
  rewrite length_app in Hf. cbn [length] in Hf.
  destruct (is_quote_cases q Hq) as [-> | ->]; cycle 1.
  - apply (collapse_literal f dquote (grp o 1) (grp o 3) acc IH Hh Hq); [done|done|lia].
  - change ([squote] =s dq) with false. cbn iota.
    fold (ends_number (grp o 1)). destruct (ends_number (grp o 1)) eqn:Hn.
    + destruct (digits_spec (squote :: grp o 3)) as (o2 & Ho2 & Hg1 & Hg2).
      { by apply one_line_cons. }
      change (sq ++ grp o 3) with (squote :: grp o 3). rewrite Ho2.
      cbn [of_option mbind res_bind]. rewrite Hg1, Hg2. change sq with [squote].
      rewrite replace_char.
      assert (grp o 1 <> []) as Hne by (intros E; rewrite E in Hn; by vm_compute in Hn).
      destruct (IH (acc ++ grp o 1 ++ List.filter (fun c => negb (c =c squote))
        (take (digits_run (squote :: grp o 3)) (squote :: grp o 3)))
        (drop (digits_run (squote :: grp o 3)) (squote :: grp o 3))) as (out & -> & Hc).
      * apply Forall_drop. by apply one_line_cons.
      * rewrite length_drop. cbn [length]. destruct (grp o 1); [done|]. cbn [length] in Hf. lia.
      * eexists. split; [by rewrite <- !app_assoc|]. by constructor.
    + apply (collapse_literal f squote (grp o 1) (grp o 3) acc IH Hh Hq); [done|done|lia].
Qed.

(** Deleting matches deletes characters. *)
Lemma sub_go_elem s last fst ms c : c ∈ sub_go (fun _ => []) s last fst ms -> c ∈ s.
Proof.
  revert last fst. induction ms as [|o ms IH]; intros last fst; cbn [sub_go].
  - apply subseteq_drop.
  - case_bool; [apply IH|]. cbn [app]. rewrite elem_of_app. intros [H|H]; [|by eapply IH].
    apply subseteq_drop, elem_of_take in H as (i & H & _).
    by eapply list_elem_of_lookup_2.
Qed.
Lemma re_sub_one_line r s : one_line s -> one_line (re_sub r (fun _ => []) s).
Proof.
  unfold one_line. rewrite !Forall_forall. intros H c Hc. apply H.
  by eapply sub_go_elem.
Qed.

(** ** The specification determines the result *)

Lemma quote_unique (q : N) a b a' b' :
  q ∉ a -> q ∉ a' -> a ++ q :: b = a' ++ q :: b' -> a = a' /\ b = b'.
Proof.
  revert a'. induction a as [|c a IH]; intros [|c' a']; rewrite ?not_elem_of_cons;
    cbn [app]; intros Ha Ha' E; simplify_eq; try naive_solver.
Qed.
Lemma collapsed_fun s out out' : collapsed s out -> collapsed s out' -> out = out'.
Proof.
  intros H. revert out'.
  induction H as [s Hs|h q t Hh Hq Hn Ht|h q body s out Hh Hq Hn Hb _ IH|h t out Hh Hn _ IH];
    inversion 1; subst; try done;
    try (exfalso; by eapply no_quote_split);
    match goal with
    | E : ?a ++ ?x :: ?b = ?c ++ ?y :: ?d |- _ =>
        destruct (first_quote_unique a x b c y d) as (? & ? & ?); try done; simplify_eq
    end.
  all: try match goal with H : ?c ∉ _ ++ ?c :: _ |- _ => destruct H; set_solver end.
  all: try match goal with
    H : ?c = ?c -> ends_number _ = _ |- _ => specialize (H eq_refl); congruence end.
  - match goal with
    | E : ?a ++ ?c :: ?b = body ++ _ |- _ => destruct (quote_unique c a b body s) as [-> ->]; try done
    end.
    do 3 f_equal. by apply IH.
  - do 2 f_equal. by apply IH.
Qed.

(** C20: outside an include line, [_CollapseStrings] deletes the escapes of
    the line and then returns exactly the text that [collapsed] relates to
    what is left, going from the first quote on: a literal closed on the line
    keeps its quotes and loses what is between them; after a number a single
    quote is a digit separator, and the run of digits it continues loses its
    quotes; and from a quote that is never closed on the line stays as it is.
    An include line stays as it is. *)
Theorem CollapseStrings_spec line out :
  10%N ∉ line ->
  _CollapseStrings line = Ok out <->
  if Matches _RE_PATTERN_INCLUDE line then out = line
  else collapsed (re_sub _RE_PATTERN_CLEANSE_LINE_ESCAPES (fun _ => []) line) out.
Proof.
  intros Hnl. unfold _CollapseStrings.
  destruct (Matches _RE_PATTERN_INCLUDE line); [split; congruence|].
  set (s := re_sub _ _ line).
  assert (one_line s) as Hs.
  { apply re_sub_one_line, Forall_forall. intros c Hc. unfold any_ok.
    destruct (N.eqb_spec c 10); [congruence|done]. }
  destruct (collapse_go_spec (S (length s)) [] s Hs ltac:(lia)) as (out' & -> & Hc).
  cbn [app]. split; [by intros [= <-]|]. intros Hc'. f_equal. by eapply collapsed_fun.
Qed.
Lemma CollapseStrings_spec_witness :
  let line := u"x = f(" ++ dq ++ u"a'b" ++ dq ++ u", ';', 1'000);" in
  10%N ∉ line /\ collapsed line (u"x = f(" ++ dqdq ++ u", '', 1000);").
Proof.
  cbv zeta. set (line := u"x = f(" ++ dq ++ u"a'b" ++ dq ++ u", ';', 1'000);").
  assert (10%N ∉ line) as H by (apply in_chars_false; vm_compute; reflexivity).
  split; [exact H|].
  pose proof (proj1 (CollapseStrings_spec line (u"x = f(" ++ dqdq ++ u", '', 1000);") H)) as T.
  assert (Matches _RE_PATTERN_INCLUDE line = false) as E by (vm_compute; reflexivity).
  rewrite E in T.
  assert (re_sub _RE_PATTERN_CLEANSE_LINE_ESCAPES (fun _ => []) line = line) as E'
    by (vm_compute; reflexivity).
  rewrite E' in T. apply T. vm_compute. reflexivity.
Defined.
