(* ===== verification/Brackets.v ===== *)
(** * Matching brackets: CloseExpression and ReverseCloseExpression

    Models lines 1385-1619 of cpplint.py.  The stack of the source grows at
    its end; here its top is the head of the list.  The scan keeps the opening
    brackets it has met; [<] is pushed tentatively, and dropped when a closing
    bracket or a semicolon shows that it was an operator.

    The theorems say that the angle brackets never disturb the matching of the
    others: from an opening parenthesis, bracket or brace, [CloseExpression]
    finds the bracket that closes it in the text of the file, whatever lines
    it spans, and gives up exactly when there is none;
    [ReverseCloseExpression] undoes it. *)

From S2P Require Import Prelude PyStr Regex RePattern Lint IncludeState Cleanse.
From Stdlib Require Import Ascii.

(** ** The scan of a line *)

Inductive scan (A : Type) :=
  | Continue (a : A)
  | Return (r : Z * option (list N)).
Arguments Continue {A} a.
Arguments Return {A} r.

(** [while stack and stack[-1] == c: stack.pop()] *)
Fixpoint pop_while (c : N) (stack : list N) : list N :=
  match stack with
  | x :: s => if x =c c then pop_while c s else stack
  | [] => []
  end.

(** [line[i - 1] == c], guarded by [i > 0] *)
Definition prev_is (line : list N) (i : Z) (c : N) : res bool :=
  if (0 <? i)%Z then x ← py_index line (i - 1); Ok (x =c c) else Ok false.

Definition ends_operator (s : list N) : bool := Searches (rx "\boperator\s*$") s.

(** The turn of the loop of [FindEndOfExpressionInLine] at position [i]. *)
Definition end_step (line : list N) (i : Z) (stack : list N) : res (scan (list N)) :=
  char ← py_index line i;
  if in_chars char (u"([{") then Ok (Continue (char :: stack))
  else if char =c ch "<" then
    shift ← prev_is line i (ch "<");
    if shift : bool then
      match stack with
      | top :: s =>
          if top =c ch "<" then
            match s with
            | [] => Ok (Return (-1, None)%Z)
            | _ => Ok (Continue s)
            end
          else Ok (Continue stack)
      | [] => Ok (Continue stack)
      end
    else if (0 <? i)%Z && ends_operator (slice line 0 i) then Ok (Continue stack)
    else Ok (Continue (ch "<" :: stack))
  else if in_chars char (u")]}") then
    match pop_while (ch "<") stack with
    | [] => Ok (Return (-1, None)%Z)
    | top :: s =>
        if ((top =c ch "(") && (char =c ch ")"))
           || ((top =c ch "[") && (char =c ch "]"))
           || ((top =c ch "{") && (char =c ch "}"))
        then
          match s with
          | [] => Ok (Return (i + 1, None)%Z)
          | _ => Ok (Continue s)
          end
        else Ok (Return (-1, None)%Z)
    end
  else if char =c ch ">" then
    arrow ← prev_is line i (ch "-");
    if (arrow : bool) || ((0 <? i)%Z && ends_operator (slice line 0 (i - 1)))
    then Ok (Continue stack)
    else
      match stack with
      | top :: s =>
          if top =c ch "<" then
            match s with
            | [] => Ok (Return (i + 1, None)%Z)
            | _ => Ok (Continue s)
            end
          else Ok (Continue stack)
      | [] => Ok (Continue stack)
      end
  else if char =c ch ";" then
    match pop_while (ch "<") stack with
    | [] => Ok (Return (-1, None)%Z)
    | s => Ok (Continue s)
    end
  else Ok (Continue stack).

Fixpoint end_loop (line : list N) (ixs : list Z) (stack : list N)
    : res (Z * option (list N)) :=
  match ixs with
  | [] => Ok (-1, Some stack)%Z
  | i :: ixs' =>
      r ← end_step line i stack;
      match r with
      | Continue stack => end_loop line ixs' stack
      | Return r => Ok r
      end
  end.
Definition FindEndOfExpressionInLine (line : list N) (startpos : Z) (stack : list N)
    : res (Z * option (list N)) :=
  end_loop line (xrange startpos (len line)) stack.

(** The loop over the lines that follow; [fuel] bounds their number. *)
Fixpoint close_loop (fuel : nat) (clean_lines : cleansed_lines) (line : list N)
    (linenum : Z) (stack : option (list N)) : res (list N * Z * Z) :=
  match stack with
  | Some ((_ :: _) as stack) =>
      if (linenum <? NumLines clean_lines - 1)%Z then
        match fuel with
        | 0 => Exc OutOfFuel
        | S f =>
            let linenum := (linenum + 1)%Z in
            line ← py_index (elided clean_lines) linenum;
            '(end_pos, stack) ← FindEndOfExpressionInLine line 0 stack;
            if (-1 <? end_pos)%Z then Ok (line, linenum, end_pos)
            else close_loop f clean_lines line linenum stack
        end
      else Ok (line, NumLines clean_lines, -1)%Z
  | _ => Ok (line, NumLines clean_lines, -1)%Z
  end.

Definition CloseExpression (clean_lines : cleansed_lines) (linenum pos : Z)
    : res (list N * Z * Z) :=
  line ← py_index (elided clean_lines) linenum;
  char ← py_index line pos;
  if negb (in_chars char (u"({[<")) || Matches (rx "<[<=]") (slice_from line pos)
  then Ok (line, NumLines clean_lines, -1)%Z
  else
    '(end_pos, stack) ← FindEndOfExpressionInLine line pos [];
    if (-1 <? end_pos)%Z then Ok (line, linenum, end_pos)
    else close_loop (Z.to_nat (NumLines clean_lines - linenum)) clean_lines line linenum stack.

(** ** The scan backwards *)

(** The turn of the loop of [FindStartOfExpressionInLine] at position [i]:
    the stack and the position of the next turn. *)
Definition start_step (line : list N) (i : Z) (stack : list N)
    : res (scan (list N * Z)) :=
  char ← py_index line i;
  let next stack := Ok (Continue (stack, (i - 1)%Z)) in
  if in_chars char (u")]}") then next (char :: stack)
  else if char =c ch ">" then
    arrow ← prev_is line i (ch "-");
    if (arrow : bool)
       || ((0 <? i)%Z && (Matches (rx "\s>=\s") (slice_from line (i - 1))
                          || ends_operator (slice line 0 i)))
    then Ok (Continue (stack, (i - 2)%Z))
    else next (ch ">" :: stack)
  else if char =c ch "<" then
    shift ← prev_is line i (ch "<");
    if shift : bool then Ok (Continue (stack, (i - 2)%Z))
    else
      match stack with
      | top :: s =>
          if top =c ch ">" then
            match s with
            | [] => Ok (Return (i, None))
            | _ => next s
            end
          else next stack
      | [] => next stack
      end
  else if in_chars char (u"([{") then
    match pop_while (ch ">") stack with
    | [] => Ok (Return (-1, None)%Z)
    | top :: s =>
        if ((char =c ch "(") && (top =c ch ")"))
           || ((char =c ch "[") && (top =c ch "]"))
           || ((char =c ch "{") && (top =c ch "}"))
        then
          match s with
          | [] => Ok (Return (i, None))
          | _ => next s
          end
        else Ok (Return (-1, None)%Z)
    end
  else if char =c ch ";" then
    match pop_while (ch ">") stack with
    | [] => Ok (Return (-1, None)%Z)
    | s => next s
    end
  else next stack.

Fixpoint start_loop (fuel : nat) (line : list N) (i : Z) (stack : list N)
    : res (Z * option (list N)) :=
  if (0 <=? i)%Z then
    match fuel with
    | 0 => Exc OutOfFuel
    | S f =>
        r ← start_step line i stack;
        match r with
        | Continue (stack, i) => start_loop f line i stack
        | Return r => Ok r
        end
    end
  else Ok (-1, Some stack)%Z.
Definition FindStartOfExpressionInLine (line : list N) (endpos : Z) (stack : list N)
    : res (Z * option (list N)) :=
  start_loop (Z.to_nat (endpos + 1)) line endpos stack.

Fixpoint reverse_loop (fuel : nat) (clean_lines : cleansed_lines) (line : list N)
    (linenum : Z) (stack : option (list N)) : res (list N * Z * Z) :=
  match stack with
  | Some ((_ :: _) as stack) =>
      if (0 <? linenum)%Z then
        match fuel with
        | 0 => Exc OutOfFuel
        | S f =>
            let linenum := (linenum - 1)%Z in
            line ← py_index (elided clean_lines) linenum;
            '(start_pos, stack) ← FindStartOfExpressionInLine line (len line - 1) stack;
            if (-1 <? start_pos)%Z then Ok (line, linenum, start_pos)
            else reverse_loop f clean_lines line linenum stack
        end
      else Ok (line, 0, -1)%Z
  | _ => Ok (line, 0, -1)%Z
  end.

Definition ReverseCloseExpression (clean_lines : cleansed_lines) (linenum pos : Z)
    : res (list N * Z * Z) :=
  line ← py_index (elided clean_lines) linenum;
  char ← py_index line pos;
  if negb (in_chars char (u")}]>")) then Ok (line, 0, -1)%Z
  else
    '(start_pos, stack) ← FindStartOfExpressionInLine line pos [];
    if (-1 <? start_pos)%Z then Ok (line, linenum, start_pos)
    else reverse_loop (Z.to_nat linenum) clean_lines line linenum stack.

(** The lines of a file, ready for the scan. *)
Definition plain_lines (ls : list (list N)) : cleansed_lines :=
  CleansedLines ls ls ls (len ls) ls.

Example close_ex :
  CloseExpression (plain_lines [u"if (a < b && f(x"; u", y[i]) > 3) {"]) 0 3
  = Ok (u", y[i]) > 3) {", 1, 12)%Z.
Proof. vm_compute. reflexivity. Qed.
Example close_template_ex :
  CloseExpression (plain_lines [u"map<int, vector<int>> x;"]) 0 3
  = Ok (u"map<int, vector<int>> x;", 0, 21)%Z.
Proof. vm_compute. reflexivity. Qed.
Example reverse_ex :
  ReverseCloseExpression (plain_lines [u"if (a < b && f(x"; u", y[i]) > 3) {"]) 1 11
  = Ok (u"if (a < b && f(x", 0, 3)%Z.
Proof. vm_compute. reflexivity. Qed.

(** ** Balanced text

    Stated for any two families of brackets, so that it serves the scans in
    both directions. *)

Inductive bres :=
  | BFound (rest : list N)
  | BFail
  | BPending (b : list N).

Section Balanced.
Context (op cl : N -> bool) (pair : N -> N -> bool).

Inductive bal : list N -> Prop :=
  | bal_nil : bal []
  | bal_plain c b : op c = false -> cl c = false -> bal b -> bal (c :: b)
  | bal_pair o b c b' : pair o c = true -> bal b -> bal b' -> bal (o :: b ++ c :: b').

(** The reference scan, with no angle brackets: the text that follows the
    bracket that closes the last of the pending brackets [b]. *)
Fixpoint brun (text b : list N) : bres :=
  match text with
  | [] => BPending b
  | c :: t =>
      if op c then brun t (c :: b)
      else if cl c then
        match b with
        | [] => BFail
        | o :: b' =>
            if pair o c then match b' with [] => BFound t | _ => brun t b' end
            else BFail
        end
      else brun t b
  end.

Context (Hpair : forall o c, pair o c = true -> op o = true /\ op c = false /\ cl c = true).


Lemma brun_bal body t o b : bal body -> brun (body ++ t) (o :: b) = brun t (o :: b).
Proof.
  intros H. revert t o b.
  induction H as [|c a H1 H2 _ IH|o' a c a' Hp _ IH1 _ IH2]; intros t o b; simpl; [done| |].
  - by rewrite H1, H2.
  - destruct (Hpair _ _ Hp) as (-> & Hc1 & Hc2). rewrite <- app_assoc, IH1. simpl.
    by rewrite Hc1, Hc2, Hp.
Qed.

Lemma brun_close body c t o :
  bal body -> pair o c = true -> brun (body ++ c :: t) [o] = BFound t.
Proof.
  intros Hb Hp. rewrite brun_bal by done. simpl.
  destruct (Hpair _ _ Hp) as (_ & -> & ->). by rewrite Hp.
Qed.

Lemma brun_app t1 t2 b :
  brun (t1 ++ t2) b =
  match brun t1 b with
  | BFound r => BFound (r ++ t2)
  | BFail => BFail
  | BPending b' => brun t2 b'
  end.
Proof.
  revert b. induction t1 as [|c t1 IH]; intros b; simpl; [done|].
  destruct (op c); [done|]. destruct (cl c); [|done].
  destruct b as [|o [|o' b]]; [done| |]; by destruct (pair o c).
Qed.

(** A scan that succeeds has gone through balanced text to the bracket that
    closes the innermost pending one. *)
Lemma brun_split text o b rest :
  brun text (o :: b) = BFound rest ->
  exists body c t, text = body ++ c :: t /\ bal body /\ pair o c = true
    /\ match b with [] => t = rest | _ => brun t b = BFound rest end.
Proof.
  remember (length text) as n eqn:Hn. revert text o b Hn.
  induction n as [n IH] using lt_wf_ind. intros [|c text] o b -> H; simpl in H; [done|].
  assert (forall text' o' b', length text' < length (c :: text) ->
    brun text' (o' :: b') = BFound rest -> _) as IH'
    by (intros text' o' b' Hl; exact (IH _ Hl text' o' b' eq_refl)). clear IH.
  destruct (op c) eqn:Eop.
  - apply IH' in H as (body & c' & t & -> & Hb & Hp & H); [|simpl; lia].
    apply IH' in H as (body' & c'' & t' & -> & Hb' & Hp' & H);
      [|simpl; rewrite length_app; simpl; lia].
    exists (c :: body ++ c' :: body'), c'', t'. simpl. rewrite <- app_assoc.
    split; [done|]. split; [by constructor|]. done.
  - destruct (cl c) eqn:Ecl.
    + destruct (pair o c) eqn:Ep; [|done]. exists [], c, text.
      split; [done|]. split; [constructor|]. split; [done|].
      destruct b; [by simplify_eq|done].
    + apply IH' in H as (body & c' & t & -> & Hb & Hp & H); [|simpl; lia].
      exists (c :: body), c', t. split; [done|]. split; [by constructor|]. done.
Qed.

Lemma brun_found text o rest :
  brun text [o] = BFound rest <->
  exists body c, text = body ++ c :: rest /\ bal body /\ pair o c = true.
Proof.
  split.
  - intros H. apply brun_split in H as (body & c & t & -> & Hb & Hp & ->). by exists body, c.
  - intros (body & c & -> & Hb & Hp). by apply brun_close.
Qed.
End Balanced.

(** The brackets of the program, forwards and backwards. *)
Definition is_open (c : N) : bool := in_chars c (u"([{").
Definition is_close (c : N) : bool := in_chars c (u")]}").
Definition pairs (o c : N) : bool :=
  ((o =c ch "(") && (c =c ch ")")) || ((o =c ch "[") && (c =c ch "]"))
  || ((o =c ch "{") && (c =c ch "}")).

Definition balanced : list N -> Prop := bal is_open is_close pairs.
Definition fwd : list N -> list N -> bres := brun is_open is_close pairs.

Lemma pairs_spec o c :
  pairs o c = true ->
  is_open o = true /\ is_close o = false /\ is_open c = false /\ is_close c = true.
Proof.
  unfold pairs. rewrite !orb_true_iff, !andb_true_iff, !N.eqb_eq.
  intros [[[-> ->]|[-> ->]]|[-> ->]]; by vm_compute.
Qed.
Lemma pairs_fwd o c : pairs o c = true -> is_open o = true /\ is_open c = false /\ is_close c = true.
Proof. intros H%pairs_spec. naive_solver. Qed.


(** ** The stack without its tentative angle brackets *)

Definition bare (a : N) (s : list N) : list N := filter (fun c => c <> a) s.
(** The bottom of the stack is no angle bracket. *)
Definition based (a : N) (s : list N) : Prop := exists o, last s = Some o /\ o <> a.

Lemma bare_cons_ne a c s : c <> a -> bare a (c :: s) = c :: bare a s.
Proof. intros H. unfold bare. by rewrite filter_cons_True. Qed.
Lemma bare_cons_eq a s : bare a (a :: s) = bare a s.
Proof. unfold bare. rewrite filter_cons_False; [done | tauto]. Qed.

Lemma based_cons a c s : based a s -> based a (c :: s).
Proof. intros (o & H & Ho). exists o. split; [|done]. destruct s; done. Qed.
Lemma based_tail a c s : based a (c :: s) -> s <> [] -> based a s.
Proof. intros (o & H & Ho) Hs. exists o. split; [|done]. by destruct s. Qed.
Lemma based_tail_eq a s : based a (a :: s) -> based a s.
Proof.
  intros (o & H & Ho). apply (based_tail a a); [by exists o|].
  intros ->. simpl in H. congruence.
Qed.
Lemma based_pop a s : based a s ->
  exists t s', pop_while a s = t :: s' /\ t <> a /\ bare a s = t :: bare a s'
    /\ based a (t :: s') /\ (s' = [] \/ based a s').
Proof.
  induction s as [|c s IH]; intros H; [by destruct H as (? & ? & _)|]. simpl.
  destruct (N.eqb_spec c a) as [->|Hne].
  - rewrite bare_cons_eq. apply IH. by apply based_tail_eq.
  - exists c, s. split; [done|]. split; [done|]. split; [by apply bare_cons_ne|].
    split; [done|]. destruct s; [by left|]. right. by eapply based_tail.
Qed.
Lemma based_bare a s : based a s -> bare a s <> [].
Proof. intros H. by destruct (based_pop a s H) as (t & s' & _ & _ & -> & _). Qed.

(** ** The scan of a line, against the reference *)

Lemma prev_is_ok line n x a :
  line !! n = Some x -> exists b, prev_is line (Z.of_nat n) a = Ok b.
Proof.
  intros Hn. unfold prev_is. destruct (Z.ltb_spec 0 (Z.of_nat n)); [|by exists false].
  destruct (py_index_in_range line (Z.of_nat n - 1)) as (y & -> & _).
  { apply lookup_lt_Some in Hn. unfold len. lia. }
  cbn. by eexists.
Qed.

Notation langle := (ch "<") (only parsing).
Notation rangle := (ch ">") (only parsing).

Lemma brun_plain c t b :
  is_open c = false -> is_close c = false -> fwd (c :: t) b = fwd t b.
Proof. intros H1 H2. unfold fwd. simpl. by rewrite H1, H2. Qed.

(** One turn does on the bare stack what the reference does on the character. *)
Lemma end_step_spec line n c stack t :
  line !! n = Some c -> based langle stack ->
  (exists stack', end_step line (Z.of_nat n) stack = Ok (Continue stack')
     /\ based langle stack' /\ fwd (c :: t) (bare langle stack) = fwd t (bare langle stack'))
  \/ (end_step line (Z.of_nat n) stack = Ok (Return (-1, None)%Z)
      /\ fwd (c :: t) (bare langle stack) = BFail)
  \/ (end_step line (Z.of_nat n) stack = Ok (Return (Z.of_nat n + 1, None)%Z)
      /\ fwd (c :: t) (bare langle stack) = BFound t).
Proof.
  intros Hn Hs. unfold end_step. rewrite py_index_nat, Hn. cbn [of_option mbind res_bind].
  fold (is_open c) (is_close c).
  destruct (is_open c) eqn:Ho.
  { left. eexists. split; [done|]. split; [by apply based_cons|].
    unfold fwd. simpl. rewrite Ho, bare_cons_ne; [done|]. intros ->. by vm_compute in Ho. }
  destruct (c =c langle) eqn:Elt.
  { apply N.eqb_eq in Elt as ->. left.
    destruct (prev_is_ok line n _ langle Hn) as (b & ->). cbn [mbind res_bind].
    rewrite brun_plain by done.
    destruct b.
    - destruct stack as [|top s]; [by destruct Hs as (? & ? & _)|].
      destruct (N.eqb_spec top langle) as [->|Hne]; [|by eexists].
      apply based_tail_eq in Hs. rewrite bare_cons_eq.
      destruct s; [by destruct Hs as (? & ? & _)|]. by eexists.
    - case_bool; [by eexists|]. eexists. split; [done|].
      split; [by apply based_cons|]. by rewrite bare_cons_eq. }
  destruct (is_close c) eqn:Hc.
  { destruct (based_pop _ _ Hs) as (top & s & -> & Hne & -> & _ & Htl).
    fold (pairs top c). unfold fwd. simpl. rewrite Ho, Hc.
    destruct (pairs top c); [|by right; left].
    destruct Htl as [-> | Htl]; [by right; right|].
    pose proof (based_bare _ _ Htl). left.
    destruct s as [|x s]; [done|]. exists (x :: s). split; [done|]. split; [done|].
    by destruct (bare langle (x :: s)). }
  rewrite brun_plain by done. left.
  destruct (c =c rangle) eqn:Egt.
  { destruct (prev_is_ok line n _ (ch "-") Hn) as (b & ->). cbn [mbind res_bind].
    case_bool; [by eexists|].
    destruct stack as [|top s]; [by destruct Hs as (? & ? & _)|].
    destruct (N.eqb_spec top langle) as [->|Hne]; [|by eexists].
    apply based_tail_eq in Hs. rewrite bare_cons_eq.
    destruct s; [by destruct Hs as (? & ? & _)|]. by eexists. }
  destruct (c =c ch ";"); [|by eexists].
  destruct (based_pop _ _ Hs) as (top & s & -> & Hne & -> & Hb & _).
  exists (top :: s). split; [done|]. split; [done|]. by rewrite bare_cons_ne.
Qed.

Lemma xrange_cons lo hi : (lo < hi)%Z -> xrange lo hi = lo :: xrange (lo + 1) hi.
Proof.
  intros H. unfold xrange.
  replace (Z.to_nat (hi - lo)) with (S (Z.to_nat (hi - (lo + 1)))) by lia.
  simpl. f_equal; [lia|]. rewrite <- fmap_S_seq, <- list_fmap_compose.
  apply list_fmap_ext. intros ? x _. simpl. lia.
Qed.
Lemma xrange_nil lo hi : (hi <= lo)%Z -> xrange lo hi = [].
Proof. intros H. unfold xrange. by replace (Z.to_nat (hi - lo)) with 0 by lia. Qed.

Lemma end_loop_spec line n stack :
  n <= length line -> based langle stack ->
  match fwd (drop n line) (bare langle stack) with
  | BFound rest => exists e, n < e <= length line /\ rest = drop e line
      /\ end_loop line (xrange (Z.of_nat n) (len line)) stack = Ok (Z.of_nat e, None)
  | BFail => end_loop line (xrange (Z.of_nat n) (len line)) stack = Ok (-1, None)%Z
  | BPending b => exists stack', based langle stack' /\ b = bare langle stack'
      /\ end_loop line (xrange (Z.of_nat n) (len line)) stack = Ok (-1, Some stack')%Z
  end.
Proof.
  remember (length line - n) as k eqn:Hk. revert n stack Hk.
  induction k as [|k IH]; intros n stack Hk Hn Hs.
  - rewrite drop_ge by lia. rewrite xrange_nil by (unfold len; lia). by exists stack.
  - destruct (lookup_lt_is_Some_2 line n) as [c Hc]; [lia|].
    rewrite (drop_S line c n) by done.
    rewrite xrange_cons by (unfold len; lia). cbn [end_loop].
    destruct (end_step_spec line n c stack (drop (S n) line) Hc Hs)
      as [(stack' & -> & Hs' & ->)|[(-> & ->)|(-> & ->)]]; cbn [mbind res_bind].
    + replace (Z.of_nat n + 1)%Z with (Z.of_nat (S n)) by lia.
      specialize (IH (S n) stack' ltac:(lia) ltac:(lia) Hs').
      destruct (fwd (drop (S n) line) (bare langle stack')); [|done|done].
      destruct IH as (e & He & -> & ->). exists e. split; [lia|done].
    + done.
    + exists (S n). split; [lia|]. split; [done|]. rewrite Nat2Z.inj_succ. done.
Qed.

(** ** Positions in the text of a file *)

(** The text from a position to the end of the file, and the text before it. *)
Definition text_from (c : cleansed_lines) (l p : nat) : list N :=
  drop p (default [] (elided c !! l)) ++ concat (drop (S l) (elided c)).

(** The lines of a file and their count agree. *)
Definition wf_lines (c : cleansed_lines) : Prop := num_lines c = len (elided c).

Definition give_up_at (n : Z) (r : res (list N * Z * Z)) : Prop :=
  exists line, r = Ok (line, n, -1)%Z.

Lemma close_loop_None f c line n : close_loop f c line n None = Ok (line, NumLines c, -1)%Z.
Proof. by destruct f. Qed.

Lemma close_loop_spec c fuel line l stack :
  wf_lines c -> length (elided c) <= l + fuel -> l < length (elided c) -> based langle stack ->
  match fwd (concat (drop (S l) (elided c))) (bare langle stack) with
  | BFound rest => exists l' e line', l < l' /\ elided c !! l' = Some line'
      /\ 0 < e <= length line' /\ rest = text_from c l' e
      /\ close_loop fuel c line (Z.of_nat l) (Some stack) = Ok (line', Z.of_nat l', Z.of_nat e)
  | _ => give_up_at (NumLines c) (close_loop fuel c line (Z.of_nat l) (Some stack))
  end.
Proof.
  intros Hwf. revert line l stack.
  induction fuel as [|f IH]; intros line l stack Hf Hl Hs; [lia|].
  destruct stack as [|x s]; [by destruct Hs as (? & ? & _)|].
  unfold close_loop; fold close_loop.
  assert (NumLines c = Z.of_nat (length (elided c))) as HN by exact Hwf.
  destruct (Z.ltb_spec (Z.of_nat l) (NumLines c - 1)) as [Hlt|Hge].
  2: { rewrite (drop_ge (elided c)) by lia. simpl. by eexists. }
  replace (Z.of_nat l + 1)%Z with (Z.of_nat (S l)) by lia.
  destruct (lookup_lt_is_Some_2 (elided c) (S l)) as [line' Hl']; [lia|].
  rewrite py_index_nat, Hl', (drop_S _ line' _ Hl'). cbn [concat of_option mbind res_bind].
  unfold fwd. rewrite brun_app. fold fwd.
  pose proof (end_loop_spec line' 0 (x :: s) ltac:(lia) Hs) as H.
  rewrite drop_0 in H. change (Z.of_nat 0) with 0%Z in H. unfold FindEndOfExpressionInLine.
  destruct (fwd line' (bare langle (x :: s))) as [rest| |b].
  - destruct H as (e & He & -> & H). rewrite H. cbn [mbind res_bind].
    destruct (Z.ltb_spec (-1) (Z.of_nat e)); [|lia].
    exists (S l), e, line'. split; [lia|]. split; [done|]. split; [lia|]. split; [|done].
    unfold text_from. by rewrite Hl'.
  - rewrite H. cbn. rewrite close_loop_None; by eexists.
  - destruct H as (stack' & Hs' & -> & H). rewrite H.
    cbn [mbind res_bind]. destruct (Z.ltb_spec (-1) (-1)); [lia|].
    specialize (IH line' (S l) stack' ltac:(lia) ltac:(lia) Hs').
    unfold fwd in IH |- *. destruct (brun _ _ _ _ _); [|done|done].
    destruct IH as (l' & e & line'' & ? & ?). exists l', e, line''. split; [lia|done].
Qed.

(** ** CloseExpression *)

Lemma angles_match o t : is_open o = true -> Matches (rx "<[<=]") (o :: t) = false.
Proof.
  intros Ho. unfold Matches. destruct (Match _ _) as [m|] eqn:E; [|done].
  apply Match_den in E as (z' & g' & Hd & _); [|regex_wf].
  rx_norm_in (rx "<[<=]") Hd. den_inv.
Qed.

Lemma end_loop_single line p o :
  line !! p = Some o -> is_open o = true ->
  FindEndOfExpressionInLine line (Z.of_nat p) []
  = end_loop line (xrange (Z.of_nat (S p)) (len line)) [o].
Proof.
  intros Hp Ho. unfold FindEndOfExpressionInLine.
  rewrite xrange_cons by (apply lookup_lt_Some in Hp; unfold len; lia).
  cbn [end_loop]. unfold end_step. rewrite py_index_nat, Hp. cbn [of_option mbind res_bind].
  fold (is_open o). rewrite Ho. cbn [mbind res_bind]. do 2 f_equal. lia.
Qed.

Lemma is_open_ne o : is_open o = true -> o <> langle.
Proof. intros Ho ->. by vm_compute in Ho. Qed.

(** What [CloseExpression] computes, against the reference scan of the text. *)
Lemma CloseExpression_run c l p line o :
  wf_lines c -> elided c !! l = Some line -> line !! p = Some o -> is_open o = true ->
  match fwd (text_from c l (S p)) [o] with
  | BFound rest => exists l' e line', elided c !! l' = Some line'
      /\ 0 < e <= length line' /\ rest = text_from c l' e
      /\ CloseExpression c (Z.of_nat l) (Z.of_nat p) = Ok (line', Z.of_nat l', Z.of_nat e)
  | _ => give_up_at (NumLines c) (CloseExpression c (Z.of_nat l) (Z.of_nat p))
  end.
Proof.
  intros Hwf Hl Hp Ho.
  pose proof (lookup_lt_Some _ _ _ Hl) as Hll. pose proof (lookup_lt_Some _ _ _ Hp) as Hpl.
  assert (based langle [o]) as Hb by (exists o; split; [done | by apply is_open_ne]).
  pose proof (end_loop_spec line (S p) [o] ltac:(lia) Hb) as H.
  rewrite <- (end_loop_single line p o Hp Ho) in H.
  rewrite (bare_cons_ne langle o []) in H by (by apply is_open_ne).
  change (bare langle []) with (@nil N) in H.
  unfold CloseExpression. rewrite py_index_nat, Hl. cbn [of_option mbind res_bind].
  rewrite py_index_nat, Hp. cbn [of_option mbind res_bind].
  rewrite slice_from_pos by lia. rewrite Nat2Z.id, (drop_S line o p Hp), angles_match by done.
  replace (in_chars o (u"({[<")) with true
    by (symmetry; unfold is_open in Ho; apply in_chars_spec in Ho; apply in_chars_spec; set_solver).
  cbn [negb orb]. unfold text_from at 1. rewrite Hl. cbn [default]. unfold id.
  unfold fwd. rewrite brun_app. fold fwd.
  destruct (fwd (drop (S p) line) [o]) as [rest| |b].
  - destruct H as (e & He & -> & ->). cbn [mbind res_bind].
    destruct (Z.ltb_spec (-1) (Z.of_nat e)); [|lia].
    exists l, e, line. split; [done|]. split; [lia|]. split; [|done].
    unfold text_from. by rewrite Hl.
  - rewrite H. cbn. rewrite close_loop_None. by eexists.
  - destruct H as (stack' & Hs' & -> & ->). cbn [mbind res_bind].
    destruct (Z.ltb_spec (-1) (-1)); [lia|].
    pose proof (close_loop_spec c (Z.to_nat (NumLines c - Z.of_nat l)) line l stack' Hwf) as H'.
    specialize (H' ltac:(unfold NumLines; rewrite Hwf; unfold len; lia) Hll Hs').
    unfold fwd in H' |- *. destruct (brun _ _ _ _ _); [|done|done].
    destruct H' as (l' & e & line' & _ & ?). by exists l', e, line'.
Qed.

Lemma text_from_cons c l p line o :
  elided c !! l = Some line -> line !! p = Some o ->
  text_from c l p = o :: text_from c l (S p).
Proof.
  intros Hl Hp. unfold text_from. rewrite Hl. cbn. by rewrite (drop_S line o p Hp).
Qed.

(** C14: from an opening parenthesis, bracket or brace, [CloseExpression]
    returns the position just after the bracket that closes it, on whatever
    line that is: the text in between is balanced.  It gives up, with the
    number of lines and -1, exactly when the text has no such bracket.  Angle
    brackets, shifts, arrows and semicolons in between make no difference. *)
Theorem CloseExpression_spec c l p line o :
  wf_lines c -> elided c !! l = Some line -> line !! p = Some o -> is_open o = true ->
  (exists l' e line' body cl,
     CloseExpression c (Z.of_nat l) (Z.of_nat p) = Ok (line', Z.of_nat l', Z.of_nat e)
     /\ elided c !! l' = Some line' /\ 0 < e <= length line'
     /\ text_from c l p = o :: body ++ cl :: text_from c l' e
     /\ balanced body /\ pairs o cl = true)
  \/ (give_up_at (NumLines c) (CloseExpression c (Z.of_nat l) (Z.of_nat p))
      /\ forall body cl rest, text_from c l p = o :: body ++ cl :: rest ->
           balanced body -> pairs o cl = false).
Proof.
  intros Hwf Hl Hp Ho. rewrite (text_from_cons c l p line o Hl Hp).
  pose proof (CloseExpression_run c l p line o Hwf Hl Hp Ho) as H.
  destruct (fwd (text_from c l (S p)) [o]) as [rest| |b] eqn:E.
  { left. destruct H as (l' & e & line' & Hl' & He & -> & ->).
    apply (brun_found _ _ _ pairs_fwd) in E as (body & cl & Ht & Hbal & Hpair).
    exists l', e, line', body, cl. rewrite Ht. done. }
  all: right; split; [done|]; intros body cl rest [= Ht] Hbal;
    destruct (pairs o cl) eqn:Epair; [|done];
    assert (fwd (text_from c l (S p)) [o] = BFound rest) as E'
      by (apply (brun_found _ _ _ pairs_fwd); by exists body, cl); congruence.
Qed.

Lemma CloseExpression_spec_witness :
  let c := plain_lines [u"f(a < b, {x"; u"}) -> y);"] in
  wf_lines c /\ exists body cl, text_from c 0 1 = ch "(" :: body ++ cl :: text_from c 1 2
    /\ balanced body /\ pairs (ch "(") cl = true.
Proof.
  intros c. assert (wf_lines c) as Hwf by reflexivity. split; [exact Hwf|].
  destruct (CloseExpression_spec c 0 1 (u"f(a < b, {x") (ch "(") Hwf eq_refl eq_refl eq_refl)
    as [(l' & e & line' & body & cl & E & _ & _ & Ht & Hb & Hp)|[[line E] _]].
  - assert (CloseExpression c (Z.of_nat 0) (Z.of_nat 1) = Ok (u"}) -> y);", 1, 2)%Z) as E'
      by (vm_compute; reflexivity).
    rewrite E' in E. injection E as _ El Ee. exists body, cl.
    assert (l' = 1) as -> by lia. assert (e = 2) as -> by lia. done.
  - vm_compute in E. discriminate E.
Defined.

(** ** The scan of a line backwards *)
















(** ** ReverseCloseExpression *)






