(* ===== verification/Nesting.v ===== *)
(** * Nesting of blocks: NestingState

    Models lines 475-483, 1635-1647 and 1996-2569 of cpplint.py.  The stack of
    a [NestingState] holds references to block objects that are changed in
    place, that the conditional-compilation checkpoints must not share, and
    that are compared by identity ([previous_stack_top]): the state has a heap
    of blocks, and [copy.deepcopy] allocates.

    [Update] reaches the stack only through a few operations.  They are the
    interface [NestingOps], which [Update] is written against.  The program is
    the instance on the heap; a second instance holds the blocks by value and
    is the specification.  The refinement theorem says that the two agree:
    no change to a live block reaches a checkpoint.  The stack's top is the
    head of the list. *)

From S2P Require Import Prelude PyStr Regex RePattern Lint IncludeState Cleanse Brackets.
From Stdlib Require Import Ascii.

(** ** Blocks *)

Definition _NO_ASM : Z := 0.
Definition _INSIDE_ASM : Z := 1.
Definition _END_ASM : Z := 2.
Definition _BLOCK_ASM : Z := 3.
Definition _MATCH_ASM : regex :=
  rx "^\s*(?:asm|_asm|__asm|__asm__)(?:\s+(volatile|__volatile__))?\s*[{(]".

Record class_info := ClassInfo {
  ci_name : list N;
  ci_starting_linenum : Z;
  ci_is_derived : bool;
  ci_access : list N;
  ci_is_struct : bool;
  ci_class_indent : Z;
  ci_last_line : Z
}.

(** The class of a block object, with the fields of the subclasses. *)
Inductive block_kind :=
  | BlockInfo
  | ExternCInfo
  | KClassInfo (c : class_info)
  | NamespaceInfo (name : list N) (starting_linenum : Z).

Record block := Block {
  seen_open_brace : bool;
  open_parentheses : Z;
  inline_asm : Z;
  check_namespace_indentation : bool;
  kind : block_kind
}.

Definition set_seen_open_brace b blk :=
  Block b (open_parentheses blk) (inline_asm blk) (check_namespace_indentation blk) (kind blk).
Definition set_open_parentheses n blk :=
  Block (seen_open_brace blk) n (inline_asm blk) (check_namespace_indentation blk) (kind blk).
Definition set_inline_asm a blk :=
  Block (seen_open_brace blk) (open_parentheses blk) a (check_namespace_indentation blk) (kind blk).
Definition set_kind k blk :=
  Block (seen_open_brace blk) (open_parentheses blk) (inline_asm blk)
    (check_namespace_indentation blk) k.

(** The constructors of the source. *)
Definition new_BlockInfo (seen : bool) : block := Block seen 0 _NO_ASM false BlockInfo.
Definition new_ExternCInfo : block := set_kind ExternCInfo (new_BlockInfo true).
Definition new_NamespaceInfo (name : option (list N)) (linenum : Z) : block :=
  Block false 0 _NO_ASM true (NamespaceInfo (default [] name) linenum).

Definition GetIndentLevel (line : list N) : Z :=
  match Match (rx "^( *)\S") line with
  | Some indent => len (grp indent 1)
  | None => 0
  end.

(** The search for the end of a class. *)
Fixpoint last_line_go (clean_lines : cleansed_lines) (ixs : list Z) (depth : Z) : res Z :=
  match ixs with
  | [] => Ok 0%Z
  | i :: ixs' =>
      line ← py_index (elided clean_lines) i;
      let depth := (depth + (count line (u"{") - count line (u"}")))%Z in
      if (depth =? 0)%Z then Ok i else last_line_go clean_lines ixs' depth
  end.
Definition new_ClassInfo (name class_or_struct : list N) (clean_lines : cleansed_lines)
    (linenum : Z) : res block :=
  let is_struct := class_or_struct =s u"struct" in
  raw ← py_index (raw_lines clean_lines) linenum;
  last_line ← last_line_go clean_lines (xrange linenum (NumLines clean_lines)) 0;
  Ok (Block false 0 _NO_ASM true
        (KClassInfo (ClassInfo name linenum false
           (if is_struct then u"public" else u"private") is_struct
           (GetIndentLevel raw) last_line))).

Definition is_class (b : block) : option class_info :=
  match kind b with KClassInfo c => Some c | _ => None end.
Definition is_namespace (b : block) : bool :=
  match kind b with NamespaceInfo _ _ => true | _ => false end.
Definition is_extern_c (b : block) : bool :=
  match kind b with ExternCInfo => true | _ => false end.
Definition IsBlockInfo (b : block) : bool :=
  match kind b with BlockInfo => true | _ => false end.

(** [CheckBegin], a method of the block: it can set [is_derived]. *)
Definition CheckBegin (clean_lines : cleansed_lines) (linenum : Z) (b : block) : res block :=
  match kind b with
  | KClassInfo c =>
      line ← py_index (elided clean_lines) linenum;
      Ok (if Searches (rx "(^|[^:]):($|[^:])") line then
            set_kind (KClassInfo (ClassInfo (ci_name c) (ci_starting_linenum c) true
              (ci_access c) (ci_is_struct c) (ci_class_indent c) (ci_last_line c))) b
          else b)
  | _ => Ok b
  end.

Definition class_name (c : class_info) : list N :=
  (if ci_is_struct c then u"struct " else u"class ") ++ ci_name c.

(** The search for a misplaced DISALLOW macro. *)
Fixpoint disallow_go (filename : list N) (clean_lines : cleansed_lines) (name : list N)
    (error : ErrorFn) (ixs : list Z) (seen_last_thing_in_class : bool) : M unit :=
  match ixs with
  | [] => mret tt
  | i :: ixs' =>
      pattern ← lift (compile_res
        (u"\b(DISALLOW_COPY_AND_ASSIGN|DISALLOW_IMPLICIT_CONSTRUCTORS)\(" ++ name ++ u"\)"));
      line ← lift (py_index (elided clean_lines) i);
      match Search pattern line with
      | Some m =>
          when seen_last_thing_in_class
            (error filename i (u"readability/constructors") 3%Z
               (grp m 1 ++ u" should be the last thing in the class"))
      | None =>
          disallow_go filename clean_lines name error ixs'
            (negb (Matches (rx "^\s*$") line) || seen_last_thing_in_class)
      end
  end.

Definition ClassInfo_CheckEnd (filename : list N) (clean_lines : cleansed_lines) (linenum : Z)
    (error : ErrorFn) (c : class_info) : M unit :=
  disallow_go filename clean_lines (ci_name c) error
    (xrange_down (linenum - 1) (ci_starting_linenum c)) false ≫= fun _ =>
  line ← lift (py_index (elided clean_lines) linenum);
  match Match (rx "^( *)\}") line with
  | Some indent =>
      when (negb (len (grp indent 1) =? ci_class_indent c)%Z)
        (error filename linenum (u"whitespace/indent") 3%Z
           (u"Closing brace should be aligned with beginning of " ++ class_name c))
  | None => mret tt
  end.

Definition NamespaceInfo_CheckEnd (filename : list N) (clean_lines : cleansed_lines)
    (linenum : Z) (error : ErrorFn) (name : list N) (starting_linenum : Z) : M unit :=
  line ← lift (py_index (raw_lines clean_lines) linenum);
  if (linenum - starting_linenum <? 10)%Z
     && negb (Matches (rx "};*\s*(//|/\*).*\bnamespace\b") line) then mret tt
  else
    match name with
    | _ :: _ =>
        pattern ← lift (compile_res (u"};*\s*(//|/\*).*\bnamespace\s+" ++ re_escape name
                                     ++ u"[\*/\.\\\s]*$"));
        when (negb (Matches pattern line))
          (error filename linenum (u"readability/namespace") 5%Z
             (u"Namespace should be terminated with " ++ dq ++ u"// namespace " ++ name ++ dq))
    | [] =>
        when (negb (Matches (rx "};*\s*(//|/\*).*\bnamespace[\*/\.\\\s]*$") line))
          (if Matches (rx "}.*\b(namespace anonymous|anonymous namespace)\b") line then
             error filename linenum (u"readability/namespace") 5%Z
               (u"Anonymous namespace should be terminated with " ++ dq ++ u"// namespace" ++ dq
                ++ u" or " ++ dq ++ u"// anonymous namespace" ++ dq)
           else
             error filename linenum (u"readability/namespace") 5%Z
               (u"Anonymous namespace should be terminated with " ++ dq ++ u"// namespace" ++ dq))
    end.

(** [CheckEnd], a method of the block. *)
Definition CheckEnd (filename : list N) (clean_lines : cleansed_lines) (linenum : Z)
    (error : ErrorFn) (b : block) : M unit :=
  match kind b with
  | KClassInfo c => ClassInfo_CheckEnd filename clean_lines linenum error c
  | NamespaceInfo name start =>
      NamespaceInfo_CheckEnd filename clean_lines linenum error name start
  | _ => mret tt
  end.

(** ** Template argument lists *)

Fixpoint in_template_go (fuel : nat) (clean_lines : cleansed_lines) (linenum pos : Z)
    : res bool :=
  if (linenum <? NumLines clean_lines)%Z then
    match fuel with
    | 0 => Exc OutOfFuel
    | S f =>
        line ← py_index (elided clean_lines) linenum;
        match Match (rx "^[^{};=\[\]\.<>]*(.)") (slice_from line pos) with
        | None => in_template_go f clean_lines (linenum + 1) 0
        | Some m =>
            let token := grp m 1 in
            let pos := (pos + len (group0 m))%Z in
            if in_strs token [u"{"; u"}"; u";"] then Ok false
            else if in_strs token [u">"; u"="; u"["; u"]"; u"."] then Ok true
            else if negb (token =s u"<") then
              let pos := (pos + 1)%Z in
              if (len line <=? pos)%Z then in_template_go f clean_lines (linenum + 1) 0
              else in_template_go f clean_lines linenum pos
            else
              '(_, end_line, end_pos) ← CloseExpression clean_lines linenum (pos - 1);
              if (end_pos <? 0)%Z then Ok false
              else in_template_go f clean_lines end_line end_pos
        end
    end
  else Ok false.
Definition text_size (clean_lines : cleansed_lines) : nat :=
  length (concat (elided clean_lines)) + length (elided clean_lines).
Definition InTemplateArgumentList (clean_lines : cleansed_lines) (linenum pos : Z) : res bool :=
  in_template_go (S (text_size clean_lines)) clean_lines linenum pos.

(** ** What Update asks of the state *)

(** The operations on the stack: [stack[-1]], [append], [pop], a change of the
    object [stack[-1]] in place, remembering [stack[-1]], and the handling of
    conditional compilation. *)
Class NestingOps (S : Type) := {
  top_block : S -> option block;
  push_block : block -> S -> S;
  pop_block : S -> S;
  modify_top : (block -> block) -> S -> S;
  save_top : S -> S;
  UpdatePreprocessor : list N -> S -> S
}.

(** Conditional compilation directives. *)
Inductive directive := DIf | DElse | DEndif | DNone.
Definition directive_of (line : list N) : directive :=
  if Matches (rx "^\s*#\s*(if|ifdef|ifndef)\b") line then DIf
  else if Matches (rx "^\s*#\s*(else|elif)\b") line then DElse
  else if Matches (rx "^\s*#\s*endif\b") line then DEndif
  else DNone.

Section Update.
Context {S : Type} `{NestingOps S}.

Definition SeenOpenBrace (s : S) : bool :=
  match top_block s with None => true | Some b => seen_open_brace b end.
Definition InNamespaceBody (s : S) : bool :=
  match top_block s with None => false | Some b => is_namespace b end.
Definition InExternC (s : S) : bool :=
  match top_block s with None => false | Some b => is_extern_c b end.
Definition InClassDeclaration (s : S) : bool :=
  match top_block s with None => false | Some b => match is_class b with Some _ => true | None => false end end.
Definition InAsmBlock (s : S) : bool :=
  match top_block s with None => false | Some b => negb (inline_asm b =? _NO_ASM)%Z end.

(** Count parentheses, and follow inline assembly, in the innermost block. *)
Definition count_parentheses (line : list N) (b : block) : block :=
  let depth_change := (count line (u"(") - count line (u")"))%Z in
  let b := set_open_parentheses (open_parentheses b + depth_change) b in
  if (inline_asm b =? _NO_ASM)%Z || (inline_asm b =? _END_ASM)%Z then
    if negb (depth_change =? 0)%Z && (open_parentheses b =? 1)%Z && Matches _MATCH_ASM line
    then set_inline_asm _INSIDE_ASM b
    else set_inline_asm _NO_ASM b
  else if (inline_asm b =? _INSIDE_ASM)%Z && (open_parentheses b =? 0)%Z
  then set_inline_asm _END_ASM b
  else b.

(** Consume the namespace declarations at the beginning of the line. *)
Definition namespace_pattern : regex := rx "^\s*namespace\b\s*([:\w]+)?(.*)$".
Fixpoint namespaces_go (fuel : nat) (linenum : Z) (line : list N) (s : S) : res (list N * S) :=
  match Match namespace_pattern line with
  | None => Ok (line, s)
  | Some m =>
      match fuel with
      | 0 => Exc OutOfFuel
      | Datatypes.S f =>
          let s := push_block (new_NamespaceInfo (group m 1) linenum) s in
          let line := grp m 2 in
          if negb (find line (u"{") =? -1)%Z
          then namespaces_go f linenum (slice_from line (find line (u"{") + 1))
                 (modify_top (set_seen_open_brace true) s)
          else namespaces_go f linenum line s
      end
  end.

Definition class_decl_pattern : regex :=
  rx "^(\s*(?:template\s*<[\w\s<>,:]*>\s*)?(class|struct)\s+(?:[A-Z_]+\s+)*(\w+(?:::\w+)*))(.*)$".
(** Look for a class declaration in what is left of the line. *)
Definition update_class (clean_lines : cleansed_lines) (linenum : Z) (line : list N) (s : S)
    : res (list N * S) :=
  match Match class_decl_pattern line with
  | Some m =>
      if match top_block s with None => true | Some b => (open_parentheses b =? 0)%Z end then
        in_template ← InTemplateArgumentList clean_lines linenum (len (grp m 1));
        if in_template : bool then Ok (line, s)
        else
          b ← new_ClassInfo (grp m 3) (grp m 2) clean_lines linenum;
          Ok (grp m 4, push_block b s)
      else Ok (line, s)
  | None => Ok (line, s)
  end.

(** Run the checks of a block whose head is not complete. *)
Definition update_begin (clean_lines : cleansed_lines) (linenum : Z) (s : S) : res S :=
  match top_block s with
  | Some b =>
      if seen_open_brace b then Ok s
      else b' ← CheckBegin clean_lines linenum b; Ok (modify_top (fun _ => b') s)
  | None => Ok s
  end.

Definition access_pattern : regex :=
  rx "^(.*)\b(public|private|protected|signals)(\s+(?:slots\s*)?)?:(?:[^:]|$)".
Definition set_access (access : list N) (b : block) : block :=
  match kind b with
  | KClassInfo c =>
      set_kind (KClassInfo (ClassInfo (ci_name c) (ci_starting_linenum c) (ci_is_derived c)
        access (ci_is_struct c) (ci_class_indent c) (ci_last_line c))) b
  | _ => b
  end.
(** Update access control inside a class. *)
Definition update_access (filename : list N) (linenum : Z) (error : ErrorFn) (line : list N)
    (s : S) : M S :=
  match top_block s ≫= is_class with
  | None => mret s
  | Some classinfo =>
      match Match access_pattern line with
      | None => mret s
      | Some access_match =>
          let s := modify_top (set_access (grp access_match 2)) s in
          let indent := grp access_match 1 in
          let slots := default [] (group access_match 3) in
          when (negb (len indent =? ci_class_indent classinfo + 1)%Z
                && Matches (rx "^\s*$") indent)
            (error filename linenum (u"whitespace/indent") 3%Z
               (grp access_match 2 ++ slots ++ u": should be indented +1 space inside "
                ++ class_name classinfo)) ≫= fun _ =>
          mret s
      end
  end.

Definition brace_pattern : regex := rx "^[^{;)}]*([{;)}])(.*)$".
Definition extern_pattern : regex :=
  rxp (u"^extern\s*" ++ dq ++ u"[^" ++ dq ++ u"]*" ++ dq ++ u"\s*\{").
Definition asm_block (line : list N) (b : block) : block :=
  if Matches _MATCH_ASM line then set_inline_asm _BLOCK_ASM b else b.

(** One turn of the loop that consumes braces and semicolons. *)
Definition token_step (filename : list N) (clean_lines : cleansed_lines) (linenum : Z)
    (error : ErrorFn) (token line : list N) (s : S) : M S :=
  if token =s u"{" then
    mret (if negb (SeenOpenBrace s) then modify_top (set_seen_open_brace true) s
          else if Matches extern_pattern line then push_block new_ExternCInfo s
          else push_block (asm_block line (new_BlockInfo true)) s)
  else if (token =s u";") || (token =s u")") then
    mret (if negb (SeenOpenBrace s) then pop_block s else s)
  else
    match top_block s with
    | Some b =>
        CheckEnd filename clean_lines linenum error b ≫= fun _ => mret (pop_block s)
    | None => mret s
    end.
Fixpoint tokens_go (fuel : nat) (filename : list N) (clean_lines : cleansed_lines)
    (linenum : Z) (error : ErrorFn) (line : list N) (s : S) : M S :=
  match Match brace_pattern line with
  | None => mret s
  | Some matched =>
      match fuel with
      | 0 => raise OutOfFuel
      | Datatypes.S f =>
          s ← token_step filename clean_lines linenum error (grp matched 1) line s;
          tokens_go f filename clean_lines linenum error (grp matched 2) s
      end
  end.

(** [NestingState.Update] *)
Definition Update (filename : list N) (clean_lines : cleansed_lines) (linenum : Z)
    (error : ErrorFn) (s : S) : M S :=
  line ← lift (py_index (elided clean_lines) linenum);
  let s := save_top s in
  let s := UpdatePreprocessor line s in
  let s := modify_top (count_parentheses line) s in
  '(line, s) ← lift (namespaces_go (length line) linenum line s);
  '(line, s) ← lift (update_class clean_lines linenum line s);
  s ← lift (update_begin clean_lines linenum s);
  s ← update_access filename linenum error line s;
  tokens_go (length line) filename clean_lines linenum error line s.

End Update.

(** ** The state of the program: blocks on a heap *)

Record pp_info := PpInfo {
  stack_before_if : list N;
  stack_before_else : list N;
  seen_else : bool
}.
Record nesting_state := NestingState {
  stack : list N;
  previous_stack_top : option N;
  pp_stack : list pp_info;
  heap : gmap N block;
  next : N
}.

(** [NestingState()]: [previous_stack_top] starts as the empty list, which
    every use treats as it treats [None]. *)
Definition new_NestingState : nesting_state := NestingState [] None [] ∅ 0.

(** The object behind a reference of the stack; every reference has one. *)
Definition deref (h : gmap N block) (a : N) : block := default (new_BlockInfo false) (h !! a).

(** [copy.deepcopy(stack)]: the copy of an object is the same however often
    it occurs; its address is that of the object, shifted past all others. *)
Definition copy_heap (n : N) (h : gmap N block) (l : list N) : gmap N block :=
  foldr (fun a h' => <[(n + a)%N := deref h a]> h') h l.
Definition deepcopy (l : list N) (s : nesting_state) : list N * nesting_state :=
  (N.add (next s) <$> l,
   NestingState (stack s) (previous_stack_top s) (pp_stack s)
     (copy_heap (next s) (heap s) l) (next s + next s)).

Definition set_stack l s :=
  NestingState l (previous_stack_top s) (pp_stack s) (heap s) (next s).
Definition set_pp_stack p s :=
  NestingState (stack s) (previous_stack_top s) p (heap s) (next s).

Definition heap_push (b : block) (s : nesting_state) : nesting_state :=
  NestingState (next s :: stack s) (previous_stack_top s) (pp_stack s)
    (<[next s := b]> (heap s)) (next s + 1).
Definition heap_modify_top (f : block -> block) (s : nesting_state) : nesting_state :=
  match stack s with
  | [] => s
  | a :: _ => NestingState (stack s) (previous_stack_top s) (pp_stack s)
                (<[a := f (deref (heap s) a)]> (heap s)) (next s)
  end.

(** [NestingState.UpdatePreprocessor] *)
Definition heap_UpdatePreprocessor (line : list N) (s : nesting_state) : nesting_state :=
  match directive_of line with
  | DIf =>
      let '(copy, s) := deepcopy (stack s) s in
      set_pp_stack (PpInfo copy [] false :: pp_stack s) s
  | DElse =>
      match pp_stack s with
      | [] => s
      | pp :: pps =>
          let '(pp, s) :=
            if negb (seen_else pp) then
              let '(copy, s) := deepcopy (stack s) s in
              (PpInfo (stack_before_if pp) copy true, s)
            else (pp, s) in
          let s := set_pp_stack (pp :: pps) s in
          let '(copy, s) := deepcopy (stack_before_if pp) s in
          set_stack copy s
      end
  | DEndif =>
      match pp_stack s with
      | [] => s
      | pp :: pps =>
          let s := if seen_else pp then set_stack (stack_before_else pp) s else s in
          set_pp_stack pps s
      end
  | DNone => s
  end.

#[export] Instance heap_ops : NestingOps nesting_state := {
  top_block s := deref (heap s) <$> head (stack s);
  push_block := heap_push;
  pop_block s := set_stack (tail (stack s)) s;
  modify_top := heap_modify_top;
  save_top s := NestingState (stack s) (head (stack s)) (pp_stack s) (heap s) (next s);
  UpdatePreprocessor := heap_UpdatePreprocessor
}.

Definition stack_blocks (s : nesting_state) : list block := deref (heap s) <$> stack s.

(** The innermost class, as the block and its fields as a class. *)
Definition InnermostClass (s : nesting_state) : option (block * class_info) :=
  head (omap (fun b => pair b <$> is_class b) (stack_blocks s)).

Definition CheckCompletedBlocks (filename : list N) (error : ErrorFn) (s : nesting_state)
    : M unit :=
  for_ (reverse (stack_blocks s)) (fun obj =>
    match kind obj with
    | KClassInfo c =>
        error filename (ci_starting_linenum c) (u"build/class") 5%Z
          (u"Failed to find complete declaration of class " ++ ci_name c)
    | NamespaceInfo name start =>
        error filename start (u"build/namespaces") 5%Z
          (u"Failed to find complete declaration of namespace " ++ name)
    | _ => mret tt
    end).

(** ** The specification: blocks by value *)

Record pure_pp := PurePp {
  blocks_before_if : list block;
  blocks_before_else : list block;
  else_seen : bool
}.
Record pure_state := Pure { blocks : list block; pps : list pure_pp }.

Definition set_blocks b (p : pure_state) := Pure b (pps p).

(** [#if] saves the blocks; the first [#else] or [#elif] saves them again, for
    the end of the conditional; each of them goes back to the blocks before
    the [#if]. *)
Definition pure_UpdatePreprocessor (line : list N) (p : pure_state) : pure_state :=
  match directive_of line, pps p with
  | DIf, ps => Pure (blocks p) (PurePp (blocks p) [] false :: ps)
  | DElse, PurePp b e seen :: ps =>
      Pure b (PurePp b (if seen then e else blocks p) true :: ps)
  | DEndif, PurePp b e seen :: ps => Pure (if seen then e else blocks p) ps
  | _, _ => p
  end.

#[export] Instance pure_ops : NestingOps pure_state := {
  top_block p := head (blocks p);
  push_block b p := set_blocks (b :: blocks p) p;
  pop_block p := set_blocks (tail (blocks p)) p;
  modify_top f p :=
    match blocks p with [] => p | b :: bs => set_blocks (f b :: bs) p end;
  save_top p := p;
  UpdatePreprocessor := pure_UpdatePreprocessor
}.

(** ** Two states that agree on every operation

    [Update] sees a state only through the interface: states related by a
    relation that the operations respect give the same result, the same
    messages, and related states. *)

Class OpsRelated {S T : Type} `{NestingOps S, NestingOps T} (R : S -> T -> Prop) : Prop := {
  rel_top s t : R s t -> top_block s = top_block t;
  rel_push b s t : R s t -> R (push_block b s) (push_block b t);
  rel_pop s t : R s t -> R (pop_block s) (pop_block t);
  rel_modify f s t : R s t -> R (modify_top f s) (modify_top f t);
  rel_save s t : R s t -> R (save_top s) (save_top t);
  rel_pp line s t : R s t -> R (UpdatePreprocessor line s) (UpdatePreprocessor line t)
}.

(** Results that agree. *)
Definition res_rel {A B} (R : A -> B -> Prop) (x : res A) (y : res B) : Prop :=
  match x, y with
  | Ok a, Ok b => R a b
  | Exc e, Exc e' => e = e'
  | _, _ => False
  end.
Definition M_rel {A B} (R : A -> B -> Prop) (x : M A) (y : M B) : Prop :=
  forall w, res_rel R (fst (x w)) (fst (y w)) /\ snd (x w) = snd (y w).

Lemma res_rel_bind {A B A' B'} (R : A -> B -> Prop) (R' : A' -> B' -> Prop) x y f g :
  res_rel R x y -> (forall a b, R a b -> res_rel R' (f a) (g b)) -> res_rel R' (x ≫= f) (y ≫= g).
Proof. destruct x, y; simpl; auto; done. Qed.
Lemma M_rel_bind {A B A' B'} (R : A -> B -> Prop) (R' : A' -> B' -> Prop) (x : M A) y
    (f : A -> M A') (g : B -> M B') :
  M_rel R x y -> (forall a b, R a b -> M_rel R' (f a) (g b)) -> M_rel R' (x ≫= f) (y ≫= g).
Proof.
  intros Hx Hf w. specialize (Hx w). unfold mbind, M_bind.
  destruct (x w) as [[a|e] w1], (y w) as [[b|e'] w2]; simpl in *; destruct Hx as [Hx <-]; try done.
  by apply Hf.
Qed.
Lemma M_rel_ret {A B} (R : A -> B -> Prop) a b : R a b -> M_rel R (mret a) (mret b).
Proof. by intros HR w. Qed.
Lemma M_rel_lift {A B} (R : A -> B -> Prop) x y : res_rel R x y -> M_rel R (lift x) (lift y).
Proof. by intros HR w. Qed.
Lemma M_rel_refl {A} (x : M A) : M_rel eq x x.
Proof. intros w. split; [|done]. by destruct (fst (x w)). Qed.
Lemma res_rel_refl {A} (x : res A) : res_rel eq x x.
Proof. by destruct x. Qed.

Section Related.
Context {S T : Type} `{NestingOps S, NestingOps T} (R : S -> T -> Prop) `{!OpsRelated R}.

Definition pair_rel (x : list N * S) (y : list N * T) : Prop :=
  fst x = fst y /\ R (snd x) (snd y).

Lemma rel_seen s t : R s t -> SeenOpenBrace s = SeenOpenBrace t.
Proof. intros HR. unfold SeenOpenBrace. by rewrite (rel_top s t HR). Qed.

Lemma namespaces_rel fuel linenum line s t :
  R s t -> res_rel pair_rel (namespaces_go fuel linenum line s) (namespaces_go fuel linenum line t).
Proof.
  revert line s t. induction fuel as [|f IH]; intros line s t HR; cbn [namespaces_go];
    (destruct (Match namespace_pattern line); [|done]); [done|].
  case_bool; apply IH; [apply rel_modify|]; by apply rel_push.
Qed.

Lemma class_rel c linenum line s t :
  R s t -> res_rel pair_rel (update_class c linenum line s) (update_class c linenum line t).
Proof.
  intros HR. unfold update_class. rewrite (rel_top s t HR).
  destruct (Match class_decl_pattern line); [|done]. case_bool; [|done].
  eapply res_rel_bind; [apply res_rel_refl|]. intros b ? <-. destruct b; [done|].
  eapply res_rel_bind; [apply res_rel_refl|]. intros b ? <-.
  split; [done|]. by apply rel_push.
Qed.

Lemma begin_rel c linenum s t :
  R s t -> res_rel R (update_begin c linenum s) (update_begin c linenum t).
Proof.
  intros HR. unfold update_begin. rewrite (rel_top s t HR).
  destruct (top_block t) as [b|]; [|done]. case_bool; [done|].
  eapply res_rel_bind; [apply res_rel_refl|]. intros b' ? <-. by apply rel_modify.
Qed.

Lemma access_rel filename linenum error line s t :
  R s t -> M_rel R (update_access filename linenum error line s)
                   (update_access filename linenum error line t).
Proof.
  intros HR. unfold update_access. rewrite (rel_top s t HR).
  destruct (top_block t ≫= is_class); [|by apply M_rel_ret].
  destruct (Match access_pattern line); [|by apply M_rel_ret].
  eapply M_rel_bind; [apply M_rel_refl|]. intros ? ? _. by apply M_rel_ret, rel_modify.
Qed.

Lemma token_rel filename c linenum error token line s t :
  R s t -> M_rel R (token_step filename c linenum error token line s)
                   (token_step filename c linenum error token line t).
Proof.
  intros HR. unfold token_step. rewrite (rel_seen s t HR), (rel_top s t HR).
  case_bool; [apply M_rel_ret; repeat case_bool; by (apply rel_modify || apply rel_push)|].
  case_bool; [apply M_rel_ret; case_bool; by try apply rel_pop|].
  destruct (top_block t); [|by apply M_rel_ret].
  eapply M_rel_bind; [apply M_rel_refl|]. intros ? ? _. by apply M_rel_ret, rel_pop.
Qed.

Lemma tokens_rel fuel filename c linenum error line s t :
  R s t -> M_rel R (tokens_go fuel filename c linenum error line s)
                   (tokens_go fuel filename c linenum error line t).
Proof.
  revert line s t. induction fuel as [|f IH]; intros line s t HR; cbn [tokens_go];
    (destruct (Match brace_pattern line); [|by apply M_rel_ret]); [done|].
  eapply M_rel_bind; [by apply token_rel|]. intros s' t'. apply IH.
Qed.

Lemma Update_rel filename c linenum error s t :
  R s t -> M_rel R (Update filename c linenum error s) (Update filename c linenum error t).
Proof.
  intros HR. unfold Update.
  eapply M_rel_bind; [apply M_rel_refl|]. intros line ? <-.
  eapply M_rel_bind.
  { apply M_rel_lift, namespaces_rel, rel_modify, rel_pp, rel_save, HR. }
  intros [l1 s1] [l1' t1] [El1 HR1]. simpl in El1, HR1. subst l1'.
  eapply M_rel_bind; [by apply M_rel_lift, class_rel|].
  intros [l2 s2] [l2' t2] [El2 HR2]. simpl in El2, HR2. subst l2'.
  eapply M_rel_bind; [by apply M_rel_lift, begin_rel|]. intros s3 t3 HR3.
  eapply M_rel_bind; [by apply access_rel|]. intros s4 t4. apply tokens_rel.
Qed.
End Related.

(** ** The heap implements the specification *)

(** All the references of a state: the stack and the checkpoints. *)
Definition pp_refs (pp : pp_info) : list N := stack_before_if pp ++ stack_before_else pp.
Definition refs (s : nesting_state) : list N := stack s ++ concat (pp_refs <$> pp_stack s).

(** References that are allocated, and no two to the same object. *)
Definition wf_refs (n : N) (h : gmap N block) (r : list N) : Prop :=
  Forall (fun a => (a < n)%N /\ is_Some (h !! a)) r /\ NoDup r.

(** The state is well formed: every reference of the stack and of the
    checkpoints is to an object of its own. *)
Definition wf_nesting (s : nesting_state) : Prop :=
  wf_refs (next s) (heap s) (refs s)
  /\ from_option (fun a => (a < next s)%N) True (previous_stack_top s).

Definition view_pp (h : gmap N block) (pp : pp_info) : pure_pp :=
  PurePp (deref h <$> stack_before_if pp) (deref h <$> stack_before_else pp) (seen_else pp).
Definition view (s : nesting_state) : pure_state :=
  Pure (stack_blocks s) (view_pp (heap s) <$> pp_stack s).
Definition implements (s : nesting_state) (p : pure_state) : Prop := wf_nesting s /\ view s = p.

(** A heap that agrees on the references gives the same view. *)
Lemma deref_ext h h' (l : list N) :
  (forall a, a ∈ l -> h' !! a = h !! a) -> deref h' <$> l = deref h <$> l.
Proof. intros He. apply list_fmap_ext. intros i a Ha. unfold deref. rewrite He; [done|]. by apply list_elem_of_lookup_2 in Ha. Qed.
Lemma view_pps_ext h h' (l : list pp_info) :
  (forall a, a ∈ concat (pp_refs <$> l) -> h' !! a = h !! a) ->
  view_pp h' <$> l = view_pp h <$> l.
Proof.
  intros He. induction l as [|pp l IH]; [done|]. simpl in *. unfold view_pp at 1 3. unfold pp_refs in He at 1.
  f_equal; [f_equal|]; [apply deref_ext| apply deref_ext| apply IH]; intros a Ha;
    apply He; set_solver.
Qed.

Lemma copy_heap_old n h l a : (a < n)%N -> copy_heap n h l !! a = h !! a.
Proof.
  intros Ha. induction l as [|x l' IH]; [done|]. simpl. by rewrite lookup_insert_ne by lia.
Qed.
Lemma copy_heap_new n h l a : a ∈ l -> copy_heap n h l !! (n + a)%N = Some (deref h a).
Proof.
  induction l as [|x l' IH]; [by intros ?%not_elem_of_nil|]. intros Ha. simpl.
  destruct (decide (x = a)) as [->|Hne]; [by rewrite lookup_insert_eq|].
  rewrite lookup_insert_ne by lia. apply IH. set_solver.
Qed.
Lemma copy_heap_deref n h l : deref (copy_heap n h l) <$> (N.add n <$> l) = deref h <$> l.
Proof.
  rewrite <- list_fmap_compose. apply list_fmap_ext. intros i a Ha. simpl.
  unfold deref at 1. rewrite copy_heap_new; [done|]. by apply list_elem_of_lookup_2 in Ha.
Qed.

Arguments copy_heap : simpl never.

Lemma wf_refs_sub n h r r' : r' ⊆+ r -> wf_refs n h r -> wf_refs n h r'.
Proof.
  intros Hsub [Ha Hn]. split.
  - rewrite Forall_forall in *. intros a Hin. apply Ha. by eapply elem_of_submseteq.
  - apply submseteq_Permutation in Hsub as [k Hk]. rewrite Hk in Hn. apply NoDup_app in Hn. tauto.
Qed.
Lemma wf_refs_copy n h r l :
  wf_refs n h r -> l ⊆+ r -> wf_refs (n + n) (copy_heap n h l) ((N.add n <$> l) ++ r).
Proof.
  intros Hr Hsub. destruct (wf_refs_sub _ _ _ _ Hsub Hr) as [Hla Hln]. destruct Hr as [Ha Hn].
  rewrite Forall_forall in *. split.
  - apply Forall_app. rewrite Forall_fmap, !Forall_forall. split; intros a Hin.
    + specialize (Hla a Hin). unfold compose. rewrite copy_heap_new by done.
      split; [lia|by eexists].
    + destruct (Ha a Hin). split; [lia|]. by rewrite copy_heap_old.
  - apply NoDup_app. split; [apply NoDup_fmap_2; [intros x y; lia|done]|]. split; [|done].
    intros a (x & -> & Hx)%list_elem_of_fmap Hin. destruct (Ha _ Hin). lia.
Qed.
Lemma wf_refs_push n h r b : wf_refs n h r -> wf_refs (n + 1) (<[n := b]> h) (n :: r).
Proof.
  intros [Ha Hn]. rewrite Forall_forall in Ha. split.
  - apply Forall_forall. intros a Hin. destruct (decide (n = a)) as [->|Hne].
    + rewrite lookup_insert_eq. split; [lia|by eexists].
    + rewrite lookup_insert_ne by done.
      apply elem_of_cons in Hin as [->|Hin]; [done|]. destruct (Ha a Hin). split; [lia|done].
  - constructor; [|done]. intros Hin. destruct (Ha _ Hin). lia.
Qed.
Lemma wf_refs_set n h r a b : wf_refs n h r -> wf_refs n (<[a := b]> h) r.
Proof.
  intros [Ha Hn]. split; [|done]. eapply Forall_impl; [exact Ha|]. intros x [? Hx].
  split; [done|]. destruct (decide (a = x)) as [->|Hne].
  - rewrite lookup_insert_eq. by eexists.
  - by rewrite lookup_insert_ne.
Qed.

(** What a copy leaves unchanged. *)
Lemma copy_view n h r l l' :
  wf_refs n h r -> l' ⊆+ r -> deref (copy_heap n h l) <$> l' = deref h <$> l'.
Proof.
  intros Hr Hsub. destruct (wf_refs_sub _ _ _ _ Hsub Hr) as [Ha _]. rewrite Forall_forall in Ha.
  apply deref_ext. intros a Hin. apply copy_heap_old. by apply Ha.
Qed.
Lemma copy_view_pps n h r l ps :
  wf_refs n h r -> concat (pp_refs <$> ps) ⊆+ r ->
  view_pp (copy_heap n h l) <$> ps = view_pp h <$> ps.
Proof.
  intros Hr Hsub. destruct (wf_refs_sub _ _ _ _ Hsub Hr) as [Ha _]. rewrite Forall_forall in Ha.
  apply view_pps_ext. intros a Hin. apply copy_heap_old. by apply Ha.
Qed.

Lemma UpdatePreprocessor_refs line s :
  wf_nesting s -> wf_nesting (heap_UpdatePreprocessor line s)
    /\ view (heap_UpdatePreprocessor line s) = pure_UpdatePreprocessor line (view s).
Proof.
  destruct s as [st top ps h n]. intros [Hr Ht]. unfold refs in Hr. cbn in Hr, Ht.
  assert (from_option (fun a => (a < n + n)%N) True top) as Ht' by (destruct top; simpl in *; lia).
  unfold heap_UpdatePreprocessor, pure_UpdatePreprocessor, view, stack_blocks.
  destruct (directive_of line); cbn [pps pp_stack stack heap].
  - (* #if *)
    assert (st ⊆+ st ++ concat (pp_refs <$> ps)) as Hst by solve_submseteq.
    cbn. split; [split; [|done]|].
    + unfold refs. cbn. unfold pp_refs at 1. cbn.
      eapply wf_refs_sub; [|apply (wf_refs_copy _ _ _ _ Hr Hst)]. solve_submseteq.
    + f_equal; [by eapply copy_view|]. f_equal; [|eapply copy_view_pps; [done|solve_submseteq]].
      unfold view_pp. cbn. by rewrite copy_heap_deref.
  - (* #else *)
    destruct ps as [|[b e seen] ps]; [done|]. unfold pp_refs in Hr. cbn in Hr.
    destruct seen; cbn.
    + assert (b ⊆+ st ++ (b ++ e) ++ concat (pp_refs <$> ps)) as Hb by solve_submseteq.
      split; [split; [|done]|].
      * unfold refs. cbn. unfold pp_refs at 1. cbn.
        eapply wf_refs_sub; [|apply (wf_refs_copy _ _ _ _ Hr Hb)]. solve_submseteq.
      * rewrite copy_heap_deref. f_equal. f_equal.
        -- unfold view_pp. cbn. f_equal; (eapply copy_view; [done|solve_submseteq]).
        -- eapply copy_view_pps; [done|solve_submseteq].
    + set (r := st ++ (b ++ e) ++ concat (pp_refs <$> ps)) in *.
      assert (st ⊆+ r) as Hst by (unfold r; solve_submseteq).
      pose proof (wf_refs_copy _ _ _ _ Hr Hst) as Hr1. set (h1 := copy_heap n h st) in *.
      assert (b ⊆+ (N.add n <$> st) ++ r) as Hb by (unfold r; solve_submseteq).
      pose proof (wf_refs_copy _ _ _ _ Hr1 Hb) as Hr2. set (h2 := copy_heap (n + n) h1 b) in *.
      split; [split|].
      * unfold refs. cbn. unfold pp_refs at 1. cbn.
        eapply wf_refs_sub; [|exact Hr2]. unfold r. solve_submseteq.
      * cbn. destruct top; simpl in *; lia.
      * assert (forall l, l ⊆+ r -> deref h2 <$> l = deref h <$> l) as Hold.
        { intros l Hsub. unfold h2. rewrite (copy_view _ _ _ _ _ Hr1) by (etrans; [exact Hsub|solve_submseteq]).
          by apply (copy_view _ _ _ _ _ Hr). }
        f_equal; [unfold h2; rewrite copy_heap_deref; by apply (copy_view _ _ _ _ _ Hr); unfold r; solve_submseteq|].
        f_equal.
        -- unfold view_pp. cbn. f_equal; [apply Hold; unfold r; solve_submseteq|].
           unfold h2. rewrite (copy_view _ _ _ _ _ Hr1) by solve_submseteq.
           apply copy_heap_deref.
        -- unfold h2. rewrite (copy_view_pps _ _ _ _ _ Hr1) by (unfold r; solve_submseteq).
           apply (copy_view_pps _ _ _ _ _ Hr). unfold r. solve_submseteq.
  - (* #endif *)
    destruct ps as [|[b e seen] ps]; [done|]. unfold pp_refs in Hr. cbn in Hr.
    destruct seen; cbn; (split; [split; [|done]|done]); unfold refs; cbn;
      (eapply wf_refs_sub; [|exact Hr]); solve_submseteq.
  - done.
Qed.

#[export] Instance heap_refines : OpsRelated implements.
Proof.
  split; intros; match goal with H : implements _ _ |- _ => destruct H as [Hwf <-] end.
  - cbn. unfold stack_blocks. by destruct (stack s).
  - destruct s as [st top ps h n], Hwf as [Hr Ht]. unfold refs in Hr. cbn in *.
    pose proof (wf_refs_push _ _ _ b Hr) as Hr'.
    assert (forall a, a ∈ st ++ concat (pp_refs <$> ps) -> <[n:=b]> h !! a = h !! a) as Hold.
    { intros a Ha. destruct Hr as [Hr _]. rewrite Forall_forall in Hr. destruct (Hr a Ha).
      rewrite lookup_insert_ne by lia. done. }
    split; [split; [exact Hr'|]; destruct top; simpl in *; lia|].
    unfold view, stack_blocks. cbn. unfold set_blocks. cbn.
    f_equal; [|apply view_pps_ext; set_solver].
    f_equal; [unfold deref; by rewrite lookup_insert_eq | apply deref_ext; set_solver].
  - destruct s as [[|a st] top ps h n], Hwf as [Hr Ht]; [done|]. unfold refs in Hr. cbn in *.
    split; [split; [|done] | done]. unfold refs. cbn. eapply wf_refs_sub; [|exact Hr].
    solve_submseteq.
  - destruct s as [[|a st] top ps h n], Hwf as [Hr Ht]; [done|]. unfold refs in Hr. cbn in *.
    split; [split; [by apply wf_refs_set | done]|].
    assert (forall x, x ∈ st ++ concat (pp_refs <$> ps) ->
      <[a:=f (deref h a)]> h !! x = h !! x) as Hold.
    { intros x Hx. destruct Hr as [_ Hr]. apply NoDup_cons in Hr as [Hr _].
      rewrite lookup_insert_ne; [done|]. by intros ->. }
    unfold view, stack_blocks. cbn. unfold set_blocks. cbn.
    f_equal; [|apply view_pps_ext; set_solver].
    f_equal; [unfold deref at 1; by rewrite lookup_insert_eq | apply deref_ext; set_solver].
  - destruct s as [st top ps h n], Hwf as [Hr Ht]. split; [split; [exact Hr|]|done].
    destruct st; [done|]. cbn. destruct Hr as [Hr _]. by inversion Hr as [|? ? [? _]].
  - by apply UpdatePreprocessor_refs.
Qed.

Lemma new_implements : implements new_NestingState (Pure [] []).
Proof. split; [|done]. split; [|done]. split; constructor. Qed.

(** C2: [Update] on the heap implements [Update] on blocks by value: from a
    well-formed state it returns, raises and reports the same, and leaves a
    well-formed state whose stack and checkpoints hold the same blocks.  So a
    change to a block of the stack never reaches a checkpoint of an [#if]. *)
Theorem Update_refines filename clean_lines linenum error s w :
  wf_nesting s ->
  match Update filename clean_lines linenum error s w,
        Update filename clean_lines linenum error (view s) w with
  | (Ok s', w1), (Ok p', w2) => w1 = w2 /\ wf_nesting s' /\ view s' = p'
  | (Exc e1, w1), (Exc e2, w2) => w1 = w2 /\ e1 = e2
  | _, _ => False
  end.
Proof.
  intros Hwf.
  destruct (Update_rel implements filename clean_lines linenum error s (view s)
    (conj Hwf eq_refl) w) as [Hr Hw].
  destruct (Update filename clean_lines linenum error s w) as [[s'|e] w1];
    destruct (Update filename clean_lines linenum error (view s) w) as [[p'|e'] w2];
    cbn in Hr, Hw; try done; subst; by split.
Qed.

Definition sample_update : res nesting_state * world :=
  Update [] (plain_lines [u"namespace a { class B {"]) 0 Error new_NestingState init_world.
Lemma Update_refines_witness :
  wf_nesting new_NestingState /\
  exists s' w', sample_update = (Ok s', w') /\ length (stack s') = 2 /\ wf_nesting s'.
Proof.
  assert (wf_nesting new_NestingState) as Hwf by apply new_implements.
  split; [exact Hwf|].
  pose proof (Update_refines [] (plain_lines [u"namespace a { class B {"]) 0 Error
    new_NestingState init_world Hwf) as H.
  change (Update [] (plain_lines [u"namespace a { class B {"]) 0 Error new_NestingState init_world)
    with sample_update in H.
  assert (match fst sample_update with Ok s' => length (stack s') = 2 | Exc _ => False end) as E
    by (vm_compute; reflexivity).
  destruct sample_update as [[s'|e] w1]; [|destruct E].
  exists s', w1. split; [done|]. split; [exact E|].
  destruct (Update [] (plain_lines [u"namespace a { class B {"]) 0 Error
    (view new_NestingState) init_world) as [[p'|e] w2]; [|destruct H]. apply H.
Defined.

(** ** Conditional compilation *)

(** [Update] on several lines. *)
Fixpoint UpdateLines {S} `{NestingOps S} (filename : list N) (clean_lines : cleansed_lines)
    (error : ErrorFn) (ixs : list Z) (s : S) : M S :=
  match ixs with
  | [] => mret s
  | i :: ixs' =>
      Update filename clean_lines i error s ≫= UpdateLines filename clean_lines error ixs'
  end.
Lemma UpdateLines_rel {S T} `{NestingOps S, NestingOps T} (R : S -> T -> Prop) `{!OpsRelated R}
    filename c error ixs s t :
  R s t -> M_rel R (UpdateLines filename c error ixs s) (UpdateLines filename c error ixs t).
Proof.
  revert s t. induction ixs as [|i ixs IH]; intros s t HR; [by apply M_rel_ret|].
  cbn. eapply M_rel_bind; [by apply Update_rel|]. apply IH.
Qed.

(** A property of a state that pushing, popping and changing blocks keep is
    kept by all of [Update] that follows the preprocessor. *)
Section Stable.
Context {S : Type} `{NestingOps S} (P : S -> Prop).
Context (Hpush : forall b s, P s -> P (push_block b s)).
Context (Hpop : forall s, P s -> P (pop_block s)).
Context (Hmodify : forall f s, P s -> P (modify_top f s)).

Lemma namespaces_stable fuel linenum line s l s' :
  P s -> namespaces_go fuel linenum line s = Ok (l, s') -> P s'.
Proof.
  revert line s. induction fuel as [|f IH]; intros line s HP; cbn [namespaces_go];
    (destruct (Match namespace_pattern line); [|by intros [= <- <-]]); [done|].
  case_bool; apply IH; [apply Hmodify|]; by apply Hpush.
Qed.
Lemma class_stable c linenum line s l s' :
  P s -> update_class c linenum line s = Ok (l, s') -> P s'.
Proof.
  intros HP. unfold update_class. destruct (Match class_decl_pattern line); [|by intros [= <- <-]].
  case_bool; [|by intros [= <- <-]]. intros E. res_inv. destruct x; res_inv; simplify_eq; auto.
Qed.
Lemma begin_stable c linenum s s' : P s -> update_begin c linenum s = Ok s' -> P s'.
Proof.
  intros HP. unfold update_begin. destruct (top_block s); [|by intros [= <-]].
  case_bool; [by intros [= <-]|]. intros E. res_inv. simplify_eq. auto.
Qed.
Lemma access_stable filename linenum error line s w s' w' :
  P s -> update_access filename linenum error line s w = (Ok s', w') -> P s'.
Proof.
  intros HP. unfold update_access.
  destruct (top_block s ≫= is_class); [|by intros [= <- _]].
  destruct (Match access_pattern line); [|by intros [= <- _]].
  intros E. apply M_bind_Ok in E as (? & w1 & _ & E). injection E as <- _. auto.
Qed.
Lemma token_stable filename c linenum error token line s w s' w' :
  P s -> token_step filename c linenum error token line s w = (Ok s', w') -> P s'.
Proof.
  intros HP. unfold token_step.
  case_bool; [intros [= <- _]; repeat case_bool; auto|].
  case_bool; [intros [= <- _]; repeat case_bool; auto|].
  destruct (top_block s); [|by intros [= <- _]].
  intros E. apply M_bind_Ok in E as (? & w1 & _ & E). injection E as <- _. auto.
Qed.
Lemma tokens_stable fuel filename c linenum error line s w s' w' :
  P s -> tokens_go fuel filename c linenum error line s w = (Ok s', w') -> P s'.
Proof.
  revert line s w. induction fuel as [|f IH]; intros line s w HP; cbn [tokens_go];
    (destruct (Match brace_pattern line); [|by intros [= <- _]]); [done|].
  intros E. apply M_bind_Ok in E as (s1 & w1 & E1 & E). eapply IH; [|exact E].
  by eapply token_stable.
Qed.
Lemma Update_stable filename c linenum error s w s' w' :
  Update filename c linenum error s w = (Ok s', w') ->
  exists line, py_index (elided c) linenum = Ok line
    /\ (P (UpdatePreprocessor line (save_top s)) -> P s').
Proof.
  intros E. unfold Update in E.
  apply M_bind_Ok in E as (line & w1 & El & E). apply lift_Ok in El as [El ->].
  apply M_bind_Ok in E as ([l1 s1] & w1 & E1 & E). apply lift_Ok in E1 as [E1 ->].
  apply M_bind_Ok in E as ([l2 s2] & w2 & E2 & E). apply lift_Ok in E2 as [E2 ->].
  apply M_bind_Ok in E as (s3 & w3 & E3 & E). apply lift_Ok in E3 as [E3 ->].
  apply M_bind_Ok in E as (s4 & w4 & E4 & E).
  exists line. split; [done|]. intros HP.
  eapply tokens_stable; [|exact E]. eapply access_stable; [|exact E4].
  eapply begin_stable; [|exact E3]. eapply class_stable; [|exact E2].
  eapply namespaces_stable; [|exact E1]. by apply Hmodify.
Qed.
End Stable.

Definition directive_at (c : cleansed_lines) (i : Z) : directive :=
  match py_index (elided c) i with Ok line => directive_of line | Exc _ => DNone end.

(** The directives of a part of a file: the conditionals in it are complete,
    [d] more of them end than begin, and there is no [#else] of an outer
    conditional unless [else_ok]. *)
Fixpoint within (else_ok : bool) (d : nat) (ds : list directive) : bool :=
  match ds with
  | [] => d =? 0
  | DIf :: ds => within else_ok (S d) ds
  | DElse :: ds => (else_ok || negb (d =? 0)) && within else_ok d ds
  | DEndif :: ds => match d with 0 => false | S d => within else_ok d ds end
  | DNone :: ds => within else_ok d ds
  end.

Lemma Update_pps filename c i error p w p1 w1 line :
  Update filename c i error p w = (Ok p1, w1) -> py_index (elided c) i = Ok line ->
  pps p1 = pps (pure_UpdatePreprocessor line p).
Proof.
  intros E El.
  destruct (Update_stable (fun q => pps q = pps (pure_UpdatePreprocessor line p))
    ltac:(intros b q Hq; exact Hq) ltac:(intros q Hq; exact Hq)
    ltac:(intros f [[|b bs] qs] Hq; exact Hq) _ _ _ _ _ _ _ _ E) as (line' & El' & H1).
  rewrite El in El'. injection El' as <-. by apply H1.
Qed.

(** Such a part leaves the checkpoints of the conditionals around it alone. *)
Lemma within_pps filename c error ixs else_ok d p w p' w' inner pp ps :
  within else_ok d (directive_at c <$> ixs) = true ->
  UpdateLines filename c error ixs p w = (Ok p', w') ->
  pps p = inner ++ pp :: ps -> length inner = d -> (else_ok = true -> else_seen pp = true) ->
  pps p' = pp :: ps.
Proof.
  revert d p w inner. induction ixs as [|i ixs IH]; intros d p w inner Hw E Hp Hd Helse; cbn in *.
  { apply Nat.eqb_eq in Hw. assert (inner = []) as -> by (apply nil_length_inv; lia).
    injection E as <- _. done. }
  apply M_bind_Ok in E as (p1 & w1 & E1 & E).
  assert (exists line, py_index (elided c) i = Ok line) as [line El].
  { unfold Update in E1. apply M_bind_Ok in E1 as (line & ? & El & _).
    apply lift_Ok in El as [El _]. by exists line. }
  pose proof (Update_pps _ _ _ _ _ _ _ _ _ E1 El) as H1.
  unfold directive_at at 1 in Hw. rewrite El in *.
  unfold pure_UpdatePreprocessor in H1. rewrite Hp in H1.
  destruct (directive_of line).
  - apply (IH (S d) p1 w1 (PurePp (blocks p) [] false :: inner) Hw E H1); [|done].
    simpl. by rewrite Hd.
  - apply andb_true_iff in Hw as [Hok Hw].
    destruct inner as [|[b e seen] inner].
    + destruct pp as [b e seen]. simpl in Hd. subst d. rewrite orb_false_r in Hok.
      specialize (Helse Hok). simpl in Helse. subst seen.
      by apply (IH 0 p1 w1 [] Hw E H1).
    + by apply (IH d p1 w1 (PurePp b (if seen then e else blocks p) true :: inner) Hw E H1).
  - destruct d as [|d]; [done|]. destruct inner as [|[b e seen] inner]; [done|].
    simpl in Hd. apply (IH d p1 w1 inner Hw E H1); [lia|done].
  - by apply (IH d p1 w1 inner Hw E (eq_trans H1 Hp)).
Qed.

Lemma directive_at_inv c i d : directive_at c i = d -> d <> DNone ->
  exists line, py_index (elided c) i = Ok line /\ directive_of line = d.
Proof. unfold directive_at. destruct (py_index (elided c) i); [by eexists|]. by intros <-. Qed.

(** A conditional, on blocks by value: what its checkpoint holds. *)
Lemma conditional_pure filename c error i0 body1 i1 body2 p w p2 w2 p4 w4 :
  directive_at c i0 = DIf -> within false 0 (directive_at c <$> body1) = true ->
  directive_at c i1 = DElse -> within true 0 (directive_at c <$> body2) = true ->
  UpdateLines filename c error (i0 :: body1) p w = (Ok p2, w2) ->
  UpdateLines filename c error (i1 :: body2) p2 w2 = (Ok p4, w4) ->
  pps p2 = PurePp (blocks p) [] false :: pps p
  /\ pps p4 = PurePp (blocks p) (blocks p2) true :: pps p.
Proof.
  intros D0 W1 D1 W2 E1 E2. cbn in E1, E2.
  apply M_bind_Ok in E1 as (p1 & w1 & U1 & E1). apply M_bind_Ok in E2 as (p3 & w3 & U3 & E2).
  apply directive_at_inv in D0 as (l0 & El0 & D0); [|done].
  apply directive_at_inv in D1 as (l1 & El1 & D1); [|done].
  apply (Update_pps _ _ _ _ _ _ _ _ l0) in U1; [|done].
  apply (Update_pps _ _ _ _ _ _ _ _ l1) in U3; [|done].
  unfold pure_UpdatePreprocessor in U1, U3. rewrite D0 in U1. rewrite D1 in U3. cbn in U1.
  assert (pps p2 = PurePp (blocks p) [] false :: pps p) as H2
    by (by eapply (within_pps _ _ _ _ _ _ _ _ _ _ [] _ _ W1 E1)).
  split; [exact H2|]. rewrite H2 in U3. cbn in U3.
  by eapply (within_pps _ _ _ _ _ _ _ _ _ _ [] _ _ W2 E2).
Qed.

Lemma UpdateLines_view filename c error ixs s w s' w' :
  wf_nesting s -> UpdateLines filename c error ixs s w = (Ok s', w') ->
  wf_nesting s' /\ UpdateLines filename c error ixs (view s) w = (Ok (view s'), w').
Proof.
  intros Hwf E.
  destruct (UpdateLines_rel implements filename c error ixs s (view s) (conj Hwf eq_refl) w)
    as [Hr Hw].
  rewrite E in Hr, Hw. destruct (UpdateLines filename c error ixs (view s) w) as [[p'|e] w2];
    cbn in Hr, Hw; [|done].
  destruct Hr as [? <-]. by subst w2.
Qed.

(** C4: conditional compilation.  Let [s] be the state before an [#if], [s2]
    the state before its first [#else] or [#elif], and [s4] the state before
    its [#endif], the conditionals nested in between being complete.  Then the
    [#else] puts the blocks back to those of [s], the [#endif] to those of
    [s2] whatever the other branches did, and the checkpoints are those of
    [s] again. *)
Theorem conditional_restores filename c error i0 body1 i1 body2 line1 line2 s w s2 w2 s4 w4 :
  wf_nesting s ->
  directive_at c i0 = DIf -> within false 0 (directive_at c <$> body1) = true ->
  directive_at c i1 = DElse -> within true 0 (directive_at c <$> body2) = true ->
  directive_of line1 = DElse -> directive_of line2 = DEndif ->
  UpdateLines filename c error (i0 :: body1) s w = (Ok s2, w2) ->
  UpdateLines filename c error (i1 :: body2) s2 w2 = (Ok s4, w4) ->
  stack_blocks (UpdatePreprocessor line1 (save_top s2)) = stack_blocks s
  /\ stack_blocks (UpdatePreprocessor line2 (save_top s4)) = stack_blocks s2
  /\ pps (view (UpdatePreprocessor line2 (save_top s4))) = pps (view s).
Proof.
  intros Hwf D0 W1 D1 W2 L1 L2 E1 E2.
  destruct (UpdateLines_view _ _ _ _ _ _ _ _ Hwf E1) as [Hwf2 V1].
  destruct (UpdateLines_view _ _ _ _ _ _ _ _ Hwf2 E2) as [Hwf4 V2].
  destruct (conditional_pure filename c error i0 body1 i1 body2 (view s) w (view s2) w2 (view s4) w4
    D0 W1 D1 W2 V1 V2) as [Hp2 Hp4].
  destruct (rel_pp line1 _ _ (rel_save _ _ (conj Hwf2 eq_refl : implements s2 _))) as [_ R1].
  destruct (rel_pp line2 _ _ (rel_save _ _ (conj Hwf4 eq_refl : implements s4 _))) as [_ R2].
  cbn [save_top pure_ops] in R1, R2.
  change (UpdatePreprocessor line1 (view s2)) with (pure_UpdatePreprocessor line1 (view s2)) in R1.
  change (UpdatePreprocessor line2 (view s4)) with (pure_UpdatePreprocessor line2 (view s4)) in R2.
  unfold pure_UpdatePreprocessor in R1, R2. rewrite L1, Hp2 in R1. rewrite L2, Hp4 in R2.
  split; [exact (f_equal blocks R1)|].
  split; [exact (f_equal blocks R2) | exact (f_equal pps R2)].
Qed.

Definition sample_file : cleansed_lines :=
  plain_lines [u"#if A"; u"class B {"; u"#else"; u"struct B : C {"; u"#endif"].
(** The state and the world a computation ends in. *)
Definition end_of (r : res nesting_state * world) : nesting_state * world :=
  match r with (Ok s, w) => (s, w) | (Exc _, w) => (new_NestingState, w) end.
Definition sample2 := end_of
  (UpdateLines [] sample_file Error [0; 1]%Z new_NestingState init_world).
Definition sample4 := end_of
  (UpdateLines [] sample_file Error [2; 3]%Z (fst sample2) (snd sample2)).
Lemma conditional_restores_witness :
  length (stack (fst sample2)) = 1
  /\ stack_blocks (UpdatePreprocessor (u"#endif") (save_top (fst sample4)))
     = stack_blocks (fst sample2).
Proof.
  split; [vm_compute; reflexivity|].
  refine (proj1 (proj2 (conditional_restores [] sample_file Error 0 [1%Z] 2 [3%Z] (u"#else")
    (u"#endif") new_NestingState init_world (fst sample2) (snd sample2) (fst sample4)
    (snd sample4) (proj1 new_implements) _ _ _ _ _ _ _ _)));
    vm_compute; reflexivity.
Defined.

(** ** Braces *)

(** The depth after a line of text, from a depth before it: a closing brace
    with no open block is ignored. *)
Fixpoint brace_depth (line : list N) (d : nat) : nat :=
  match line with
  | [] => d
  | c :: line' =>
      brace_depth line' (if c =c ch "{" then S d else if c =c ch "}" then pred d else d)
  end.
Definition is_token (c : N) : bool := in_chars c (u"{;)}").

Lemma brace_depth_plain pre rest d :
  Forall (fun c => is_token c = false) pre -> brace_depth (pre ++ rest) d = brace_depth rest d.
Proof.
  intros H. induction H as [|c pre Hc _ IH]; [done|]. simpl.
  destruct (N.eqb_spec c (ch "{")) as [->|_]; [by vm_compute in Hc|].
  destruct (N.eqb_spec c (ch "}")) as [->|_]; [by vm_compute in Hc|]. done.
Qed.

Lemma brace_set c :
  set_ok (Flags false false) true [CRange 123 123; CRange 59 59; CRange 41 41; CRange 125 125] c
  = negb (is_token c)
  /\ set_ok (Flags false false) false [CRange 123 123; CRange 59 59; CRange 41 41; CRange 125 125] c
  = is_token c.
Proof.
  assert (forall a, between a a c = (c =c a)) as Hb.
  { intros a. unfold between. destruct (N.leb_spec a c), (N.leb_spec c a), (N.eqb_spec c a);
      simpl; try done; lia. }
  unfold set_ok, is_token, in_chars. cbn [existsb item_ok f_icase]. rewrite !Hb.
  cbn [existsb]. unfold u at 1 2. fold u.
  change (u"{;)}") with [123%N; 59%N; 41%N; 125%N]. cbn [existsb andb orb xorb].
  rewrite !orb_false_r. split; [|done]. done.
Qed.

Lemma brace_match_inv line m :
  Match brace_pattern line = Some m ->
  exists pre t q, line = pre ++ t :: grp m 2 ++ q /\ grp m 1 = [t]
    /\ Forall (fun c => is_token c = false) pre /\ is_token t = true /\ (q = [] \/ q = [10%N]).
Proof.
  intros H. apply Match_den in H as (z' & g' & Hd & ->); [|regex_wf].
  rx_norm_in brace_pattern Hd. den_inv.
  lazymatch goal with
  | Hp : Forall _ ?pre, Ht : set_ok _ false _ ?t = true, He : at_eol _ (Zs _ ?q) = true
    |- context [?pre ++ ?t :: ?rest ++ ?q = _] =>
      exists pre, t, q; grp_is 1 pre [t] (rest ++ q); grp_is 2 (pre ++ [t]) rest q;
      split; [done|]; split; [done|];
      split; [eapply Forall_impl; [exact Hp|]; intros c Hc;
              cbv beta in Hc; rewrite (proj1 (brace_set c)) in Hc; by apply negb_true_iff in Hc|];
      split; [by rewrite (proj2 (brace_set t)) in Ht|];
      unfold at_eol in He; cbn in He; destruct q as [|x [|? ?]]; [by left| |];
      rewrite ?andb_false_r, ?andb_true_r in He; [|done];
      apply N.eqb_eq in He as ->; by right
  end.
Qed.

Lemma brace_match_none line :
  10%N ∉ line -> Match brace_pattern line = None -> Forall (fun c => is_token c = false) line.
Proof.
  intros Hnl Hm.
  destruct (drop_while_spec (fun c => negb (is_token c)) line) as (pre & Hline & Hpre).
  destruct (drop_while (fun c => negb (is_token c)) line) as [|t rest] eqn:E.
  { rewrite app_nil_r in Hline. subst line. eapply Forall_impl; [exact Hpre|].
    intros c Hc. by apply negb_true_iff in Hc. }
  apply drop_while_head in E. apply negb_false_iff in E. exfalso.
  assert (is_Some (Match brace_pattern line)) as [o Ho]; [|congruence].
  apply Match_is_Some; [regex_wf|]. rx_norm brace_pattern.
  subst line. set (zf := Zs (reverse rest ++ t :: reverse pre ++ []) []).
  exists zf, [None; None]. eexists. exists zf. eexists. split; [|by repeat split].
  exists (Zs (t :: reverse pre ++ []) rest). eexists. split.
  - exists (Zs (reverse pre ++ []) (t :: rest)), [None; None]. split.
    + exists (start_zs (pre ++ t :: rest)), [None; None]. split; [by repeat split|].
      den_run. exists pre. repeat split; [simpl; lia|].
      eapply Forall_impl; [exact Hpre|]. intros c Hc.
      change (set_ok (Flags false false) true [CRange 123 123; CRange 59 59; CRange 41 41; CRange 125 125] c = true).
      by rewrite (proj1 (brace_set c)).
    + exists [None; None]. split; [|reflexivity]. exists t, rest. repeat split.
      change (set_ok (Flags false false) false [CRange 123 123; CRange 59 59; CRange 41 41; CRange 125 125] t = true).
      by rewrite (proj2 (brace_set t)).
  - eexists. split; [|reflexivity]. den_run. exists rest.
    split; [lia|]. split; [done|].
    split; [|split; [simpl; by rewrite app_nil_r | by repeat split]].
    apply Forall_forall. intros c Hc. unfold any_ok. apply negb_true_iff, N.eqb_neq.
    intros ->. apply Hnl. set_solver.
Qed.

Definition all_seen (bs : list block) : Prop := Forall (fun b => seen_open_brace b = true) bs.

Lemma all_seen_SeenOpenBrace (p : pure_state) : all_seen (blocks p) -> SeenOpenBrace p = true.
Proof. unfold SeenOpenBrace. cbn. destruct (blocks p); [done|]. by intros [? _]%Forall_cons. Qed.
Lemma all_seen_modify f (p : pure_state) :
  (forall b, seen_open_brace (f b) = seen_open_brace b) ->
  all_seen (blocks p) ->
  all_seen (blocks (modify_top f p)) /\ length (blocks (modify_top f p)) = length (blocks p).
Proof.
  intros Hf Hp. cbn. destruct p as [[|b bs] ps]; [done|]. cbn. split; [|done].
  apply Forall_cons in Hp as [Hb Hp]. constructor; [by rewrite Hf | done].
Qed.

Lemma tokens_braces fuel filename c linenum error line p w p' w' :
  10%N ∉ line -> all_seen (blocks p) ->
  tokens_go fuel filename c linenum error line p w = (Ok p', w') ->
  all_seen (blocks p') /\ length (blocks p') = brace_depth line (length (blocks p)).
Proof.
  revert line p w. induction fuel as [|f IH]; intros line p w Hnl Hp; cbn [tokens_go];
    (destruct (Match brace_pattern line) as [m|] eqn:Em;
     [|intros [= <- _]; split; [done|];
       rewrite <- (app_nil_r line), brace_depth_plain by (by apply brace_match_none); done]); [done|].
  intros E. apply M_bind_Ok in E as (p1 & w1 & E1 & E).
  apply brace_match_inv in Em as (pre & t & q & -> & Ht & Hpre & Htok & Hq).
  assert (10%N ∉ grp m 2) as Hnl2 by set_solver.
  destruct Hq as [-> | ->]; [|set_solver]. rewrite app_nil_r. clear Hnl.
  rewrite brace_depth_plain by done. rewrite Ht in E1. unfold token_step in E1.
  rewrite (all_seen_SeenOpenBrace p Hp) in E1. cbn [negb] in E1. cbn [brace_depth].
  unfold is_token in Htok. apply in_chars_spec in Htok.
  repeat (apply elem_of_cons in Htok as [->|Htok]); [..|by apply not_elem_of_nil in Htok].
  - change ([123%N] =s u"{") with true in E1. cbn beta iota in E1.
    assert (all_seen (blocks p1) /\ length (blocks p1) = S (length (blocks p))) as [Hp1 Hl1].
    { destruct (Matches _ _); injection E1 as <- _; cbn; (split; [|done]);
        (constructor; [|done]); [done|]. unfold asm_block. by destruct (Matches _ _). }
    destruct (IH _ _ _ Hnl2 Hp1 E) as [? ->]. split; [done|]. by rewrite Hl1.
  - injection E1 as <- _. by apply (IH _ _ _ Hnl2 Hp E).
  - injection E1 as <- _. by apply (IH _ _ _ Hnl2 Hp E).
  - change (([125%N] =s u"{")) with false in E1.
    change (([125%N] =s u";") || ([125%N] =s u")")) with false in E1. cbn beta iota in E1.
    assert (all_seen (blocks p1) /\ length (blocks p1) = pred (length (blocks p))) as [Hp1 Hl1].
    { destruct p as [[|b bs] ps]; cbn in E1; [by injection E1 as <- _|].
      apply M_bind_Ok in E1 as (? & ? & _ & E1). injection E1 as <- _. cbn.
      apply Forall_cons in Hp as [_ Hp]. done. }
    destruct (IH _ _ _ Hnl2 Hp1 E) as [? ->]. split; [done|]. by rewrite Hl1.
Qed.

Lemma Update_braces_pure filename c i error line p w p' w' :
  all_seen (blocks p) -> py_index (elided c) i = Ok line -> 10%N ∉ line ->
  directive_of line = DNone -> Match namespace_pattern line = None ->
  Match class_decl_pattern line = None ->
  Update filename c i error p w = (Ok p', w') ->
  all_seen (blocks p') /\ length (blocks p') = brace_depth line (length (blocks p)).
Proof.
  intros Hp El Hnl Hd Hn Hc E. unfold Update in E. rewrite El in E.
  apply M_bind_Ok in E as (? & ? & E1 & E). apply lift_Ok in E1 as [[= <-] ->].
  cbn [save_top pure_ops UpdatePreprocessor] in E. unfold pure_UpdatePreprocessor in E.
  rewrite Hd in E. set (p1 := modify_top _ p) in E.
  destruct (all_seen_modify (count_parentheses line) p) as [Hp1 Hl1]; [|done|].
  { intros b. unfold count_parentheses. by repeat case_bool. }
  fold p1 in Hp1, Hl1.
  assert (namespaces_go (length line) i line p1 = Ok (line, p1)) as En
    by (destruct (length line); cbn; by rewrite Hn).
  rewrite En in E. apply M_bind_Ok in E as (? & ? & E1 & E). apply lift_Ok in E1 as [[= <-] ->].
  unfold update_class in E. rewrite Hc in E.
  apply M_bind_Ok in E as (? & ? & E1 & E). apply lift_Ok in E1 as [[= <-] ->].
  assert (update_begin c i p1 = Ok p1) as Eb.
  { pose proof (all_seen_SeenOpenBrace p1 Hp1) as Hs. unfold update_begin, SeenOpenBrace in *.
    destruct (top_block p1); [by rewrite Hs | done]. }
  rewrite Eb in E. apply M_bind_Ok in E as (? & ? & E1 & E). apply lift_Ok in E1 as [[= <-] ->].
  apply M_bind_Ok in E as (p2 & w2 & E1 & E).
  assert (all_seen (blocks p2) /\ length (blocks p2) = length (blocks p1)) as [Hp2 Hl2].
  { unfold update_access in E1. destruct (top_block p1 ≫= is_class); [|by injection E1 as <- _].
    destruct (Match access_pattern line); [|by injection E1 as <- _].
    apply M_bind_Ok in E1 as (? & ? & _ & E1). injection E1 as <- _.
    apply all_seen_modify; [|done]. intros b. unfold set_access. by destruct (kind b). }
  destruct (tokens_braces _ _ _ _ _ _ _ _ _ _ Hnl Hp2 E) as [? Hl].
  split; [done|]. by rewrite Hl, Hl2, Hl1.
Qed.

(** C5: braces.  On a line that declares no namespace or class and is no
    directive, when every open block has its brace, [Update] opens a block
    for each opening brace and closes one for each closing brace, ignoring
    those that close nothing: the depth of the stack is the nesting depth of
    the text. *)
Theorem Update_braces filename c i error line s w s' w' :
  wf_nesting s -> all_seen (stack_blocks s) ->
  py_index (elided c) i = Ok line -> 10%N ∉ line ->
  directive_of line = DNone -> Match namespace_pattern line = None ->
  Match class_decl_pattern line = None ->
  Update filename c i error s w = (Ok s', w') ->
  all_seen (stack_blocks s') /\ length (stack s') = brace_depth line (length (stack s)).
Proof.
  intros Hwf Hs El Hnl Hd Hn Hc E.
  destruct (UpdateLines_view filename c error [i] s w s' w' Hwf) as [_ V].
  { cbn. unfold mbind, M_bind. by rewrite E. }
  cbn in V. apply M_bind_Ok in V as (p1 & w1 & V & V1). injection V1 as -> ->.
  destruct (Update_braces_pure filename c i error line (view s) w (view s') w'
    Hs El Hnl Hd Hn Hc V) as [Ha Hl].
  split; [exact Ha|]. cbn in Hl. unfold stack_blocks in Hl. by rewrite !length_fmap in Hl.
Qed.

Definition sample_braces : cleansed_lines := plain_lines [u"if (x) { f({1, 2}); {"].
Definition sample_braces_end := end_of (Update [] sample_braces 0 Error new_NestingState init_world).
Lemma Update_braces_witness : length (stack (fst sample_braces_end)) = 2.
Proof.
  refine (proj2 (Update_braces [] sample_braces 0 Error (u"if (x) { f({1, 2}); {")
    new_NestingState init_world (fst sample_braces_end) (snd sample_braces_end)
    (proj1 new_implements) (Forall_nil_2 _) _ _ _ _ _ _)); try (vm_compute; reflexivity).
  apply in_chars_false. vm_compute. reflexivity.
Defined.
