(* ===== verification/FunctionState.v ===== *)
(** * Function lengths: _FunctionState and CheckForFunctionLengths

    Models lines 913-966 and 2841-2905 of cpplint.py.  The trigger
    [base_trigger * 2**verbosity] is a float when the verbosity is negative:
    the comparison is written on integers.  [int(math.log(x, 2))] is the
    integer logarithm for the values that matter, those whose logarithm is
    below the cap of 5. *)

From S2P Require Import Prelude PyStr Regex RePattern Lint IncludeState Cleanse.
From Stdlib Require Import Ascii.

Record function_state := FunctionState {
  in_a_function : bool;
  lines_in_function : Z;
  current_function : list N
}.

Module FunctionState.

Definition _NORMAL_TRIGGER : Z := 250.
Definition _TEST_TRIGGER : Z := 400.

Definition init : function_state := FunctionState false 0 [].
Definition Begin (function_name : list N) (s : function_state) : function_state :=
  FunctionState true 0 function_name.
Definition Count (s : function_state) : function_state :=
  if in_a_function s
  then FunctionState true (lines_in_function s + 1) (current_function s) else s.

(** [lines > base * 2**v], for a power that can be a fraction. *)
Definition over_trigger (lines base v : Z) : bool :=
  if (0 <=? v)%Z then (base * 2 ^ v <? lines)%Z else (base <? lines * 2 ^ (- v))%Z.
(** ['%d' % trigger] *)
Definition show_trigger (base v : Z) : list N :=
  show_Z (if (0 <=? v)%Z then base * 2 ^ v else base / 2 ^ (- v))%Z.
(** [int(math.log(x, 2))], at most 5; the logarithm of 0 raises. *)
Definition error_level_of (x : Z) : res Z :=
  if (x =? 0)%Z then Exc (ValueError (u"math domain error"))
  else Ok (Z.min 5 (Z.log2 x)).

Definition base_trigger (s : function_state) : Z :=
  if Matches (rx "T(EST|est)") (current_function s) then _TEST_TRIGGER else _NORMAL_TRIGGER.

Definition Check (error : ErrorFn) (filename : list N) (linenum : Z) (s : function_state)
    : M unit :=
  v ← gets (fun w => verbose_level (lint w));
  let base := base_trigger s in
  if over_trigger (lines_in_function s) base v then
    error_level ← lift (error_level_of (lines_in_function s / base)%Z);
    error filename linenum (u"readability/fn_size") error_level
      (u"Small and focused functions are preferred: " ++ current_function s ++ u" has "
       ++ show_Z (lines_in_function s) ++ u" non-comment lines (error triggered by exceeding "
       ++ show_trigger base v ++ u" lines).")
  else mret tt.

Definition End (s : function_state) : function_state :=
  FunctionState false (lines_in_function s) (current_function s).

End FunctionState.

(** The search for the body of a function: [Some s] when something ends it. *)
Fixpoint find_body (lines : list (list N)) (line : list N) (ixs : list Z) (joined_line : list N)
    (s : function_state) : res (option function_state) :=
  match ixs with
  | [] => Ok None
  | start_linenum :: ixs' =>
      start_line ← py_index lines start_linenum;
      let joined_line := joined_line ++ u" " ++ lstrip start_line in
      if Searches (rx "(;|})") start_line then Ok (Some s)
      else if Searches (rx "{") start_line then
        m ← of_option AttributeError (Search (rx "((\w|:)*)\(") line);
        let function := grp m 1 in
        let function :=
          if Matches (rx "TEST") function then
            match Search (rx "(\(.*\))") joined_line with
            | Some parameter_regexp => function ++ grp parameter_regexp 1
            | None => function
            end
          else function ++ u"()" in
        Ok (Some (FunctionState.Begin function s))
      else find_body lines line ixs' joined_line s
  end.

(** Whether a line starts a function. *)
Definition function_start (line : list N) : res bool :=
  match Match (rx "(\w(\w|::|\*|\&|\s)*)\(") line with
  | None => Ok false
  | Some match_result =>
      function_name ← py_index (split_ws (grp match_result 1)) (-1);
      Ok ((function_name =s u"TEST") || (function_name =s u"TEST_F")
          || negb (Matches (rx "[A-Z_]+$") function_name))
  end.

Definition CheckForFunctionLengths (filename : list N) (clean_lines : cleansed_lines)
    (linenum : Z) (fstate : function_state) (error : ErrorFn) : M function_state :=
  line ← lift (py_index (lines clean_lines) linenum);
  starting_func ← lift (function_start line);
  if starting_func : bool then
    body ← lift (find_body (lines clean_lines) line
                   (xrange linenum (NumLines clean_lines)) [] fstate);
    match body with
    | Some s => mret s
    | None =>
        error filename linenum (u"readability/fn_size") 5%Z
          (u"Lint failed to find start of function body.") ≫= fun _ =>
        mret fstate
    end
  else if Matches (rx "^\}\s*$") line then
    FunctionState.Check error filename linenum fstate ≫= fun _ =>
    mret (FunctionState.End fstate)
  else if negb (Matches (rx "^\s*$") line) then mret (FunctionState.Count fstate)
  else mret fstate.

(** ** The report *)

(** C21: [Check] at a verbosity [v] that is not negative never raises; it
    reports exactly when the body has more than [base * 2^v] lines, once, with
    a confidence that counts how often the body is twice over its base, at
    most 5, and that is never below the verbosity unless that exceeds 5: the
    report is not filtered by the verbosity that triggered it. *)
Theorem FunctionState_Check_spec error filename linenum s w :
  let v := verbose_level (lint w) in
  let base := FunctionState.base_trigger s in
  (0 <= v)%Z ->
  ((lines_in_function s <= base * 2 ^ v)%Z /\
     FunctionState.Check error filename linenum s w = (Ok tt, w))
  \/ ((base * 2 ^ v < lines_in_function s)%Z /\ exists level msg,
       FunctionState.Check error filename linenum s w
       = error filename linenum (u"readability/fn_size") level msg w
       /\ (0 <= level <= 5)%Z /\ (Z.min 5 v <= level)%Z
       /\ (level < 5 -> base * 2 ^ level <= lines_in_function s < base * 2 ^ (level + 1))%Z).
Proof.
  intros v base Hv. unfold FunctionState.Check, mbind, M_bind, gets, lift.
  fold v base. unfold FunctionState.over_trigger.
  destruct (Z.leb_spec 0 v) as [_|]; [|lia].
  assert (0 < base)%Z as Hbase
    by (unfold base, FunctionState.base_trigger; destruct (Matches _ _); reflexivity).
  destruct (Z.ltb_spec (base * 2 ^ v) (lines_in_function s)) as [Hgt|Hle]; [right|by left].
  split; [done|]. set (n := lines_in_function s) in *. set (x := (n / base)%Z).
  assert (2 ^ v <= x)%Z as Hx by (apply Z.div_le_lower_bound; lia).
  assert (0 < 2 ^ v)%Z as Hpow by (apply Z.pow_pos_nonneg; lia).
  unfold FunctionState.error_level_of. destruct (Z.eqb_spec x 0) as [|_]; [lia|].
  eexists _, _. split; [done|].
  pose proof (Z.log2_nonneg x). pose proof (Z.log2_le_pow2 x v ltac:(lia)) as Hlog.
  split; [lia|]. split; [lia|]. intros Hl. rewrite Z.min_r by lia.
  pose proof (Z.log2_spec x ltac:(lia)) as [Hlo Hhi].
  rewrite <- Z.add_1_r in Hhi.
  pose proof (Z.div_mod n base ltac:(lia)). pose proof (Z.mod_pos_bound n base Hbase).
  fold x in H0. split; nia.
Qed.

Lemma FunctionState_Check_spec_witness :
  let w := init_world in
  let s := FunctionState true 1100 (u"f()") in
  (0 <= verbose_level (lint w))%Z /\
  exists level msg, FunctionState.Check Error [] 7 s w
    = Error [] 7 (u"readability/fn_size") level msg w /\ (1 <= level)%Z.
Proof.
  intros w s. assert (0 <= verbose_level (lint w))%Z as Hv by (vm_compute; discriminate).
  split; [exact Hv|].
  destruct (FunctionState_Check_spec Error [] 7 s w Hv) as [[H _]|(_ & level & msg & E & _ & Hl & _)].
  - vm_compute in H. by destruct H.
  - exists level, msg. split; [exact E|]. exact Hl.
Defined.

(** At a negative verbosity, a short function can make the logarithm of 0. *)
Lemma negative_verbosity_raises :
  let w := set_lint (snd (CppLintState.SetVerboseLevel (-9) init_state)) init_world in
  fst (FunctionState.Check Error [] 7 (FunctionState true 1 (u"f()")) w)
  = Exc (ValueError (u"math domain error")).
Proof. vm_compute. reflexivity. Qed.
