(* ===== verification/FileChecks.v ===== *)
(** * Checks of a whole file

    Models lines 1622-1632 and 1676-1839 (copyright, header guard, header of a
    source file, characters, end of file) and 5462-5519 and 5576-5694 (include
    what you use) of cpplint.py.

    [disk] adds the contents of files to the file system.  Python iterates
    over a dictionary in an order that the program does not choose:
    [DictOrder] is that order. *)

From S2P Require Import Prelude PyStr Regex RePattern Lint FileInfo IncludeState Cleanse.
From Stdlib Require Import Ascii.

(** [for i, x in enumerate(l)] *)
Fixpoint for_enum_from {A} (i : Z) (l : list A) (f : Z -> A -> M unit) : M unit :=
  match l with
  | [] => mret tt
  | a :: l' => f i a ≫= fun _ => for_enum_from (i + 1) l' f
  end.
Definition for_enum {A} (l : list A) (f : Z -> A -> M unit) : M unit := for_enum_from 0 l f.

(** ** Copyright *)

Fixpoint has_copyright (lines : list (list N)) (ixs : list Z) : res bool :=
  match ixs with
  | [] => Ok false
  | i :: ixs' =>
      line ← py_index lines i;
      if Searches (rx_fl (Flags true false) "Copyright") line then Ok true
      else has_copyright lines ixs'
  end.
Definition CheckForCopyright (filename : list N) (lines : list (list N)) (error : ErrorFn)
    : M unit :=
  found ← lift (has_copyright lines (xrange 1 (Z.min (len lines) 11)));
  when (negb found)
    (error filename 0%Z (u"legal/copyright") 5%Z
       (u"No copyright message found.  You should have a line: " ++ dq
        ++ u"Copyright [year] <Copyright Owner>" ++ dq)).

(** ** Header guards *)

(** What the scan of the lines finds. *)
Record guard := Guard {
  g_ifndef : list N;
  g_ifndef_linenum : Z;
  g_define : list N;
  g_endif : list N;
  g_endif_linenum : Z
}.
Definition scan_guard_line (linenum : Z) (line : list N) (g : guard) : guard :=
  let g :=
    match split_ws line with
    | w0 :: w1 :: _ =>
        let g :=
          if (g_ifndef g =s []) && (w0 =s u"#ifndef")
          then Guard w1 linenum (g_define g) (g_endif g) (g_endif_linenum g) else g in
        if (g_define g =s []) && (w0 =s u"#define")
        then Guard (g_ifndef g) (g_ifndef_linenum g) w1 (g_endif g) (g_endif_linenum g) else g
    | _ => g
    end in
  if starts (u"#endif") line
  then Guard (g_ifndef g) (g_ifndef_linenum g) (g_define g) line linenum else g.
Fixpoint scan_guard (linenum : Z) (lines : list (list N)) (g : guard) : guard :=
  match lines with
  | [] => g
  | l :: ls => scan_guard (linenum + 1) ls (scan_guard_line linenum l g)
  end.

Definition single_line_comment : regex :=
  rxp (u"^(?:(?:\'(?:\.|[^\'])*\')|(?:" ++ dq ++ u"(?:\.|[^" ++ dq ++ u"])*" ++ dq
       ++ u")|[^\'" ++ dq ++ u"])*//").
Fixpoint no_single_line_comments (raw_lines : list (list N)) (ixs : list Z) : res bool :=
  match ixs with
  | [] => Ok true
  | i :: ixs' =>
      line ← py_index raw_lines i;
      if Matches single_line_comment line then Ok false
      else no_single_line_comments raw_lines ixs'
  end.

Definition CheckForHeaderGuard (fs : filesystem) (filename : list N)
    (clean_lines : cleansed_lines) (error : ErrorFn) : M unit :=
  let raw_lines := lines_without_raw_strings clean_lines in
  if existsb (Searches (rx "//\s*NOLINT\(build/header_guard\)")) raw_lines then mret tt
  else
    root ← gets root;
    cppvar ← lift (GetHeaderGuardCPPVariable fs root filename);
    let g := scan_guard 0 raw_lines (Guard [] 0 [] [] 0) in
    if (g_ifndef g =s []) || (g_define g =s []) || negb (g_ifndef g =s g_define g) then
      error filename 0%Z (u"build/header_guard") 5%Z
        (u"No #ifndef header guard found, suggested CPP variable is: " ++ cppvar)
    else
      _ ← (if negb (g_ifndef g =s cppvar) then
             let error_level := if negb (g_ifndef g =s cppvar ++ u"_") then 5%Z else 0%Z in
             raw ← lift (py_index raw_lines (g_ifndef_linenum g));
             ParseNolintSuppressions filename raw (g_ifndef_linenum g) error ≫= fun _ =>
             error filename (g_ifndef_linenum g) (u"build/header_guard") error_level
               (u"#ifndef header guard has wrong style, please use: " ++ cppvar)
           else mret tt);
      raw ← lift (py_index raw_lines (g_endif_linenum g));
      _ ← ParseNolintSuppressions filename raw (g_endif_linenum g) error;
      pattern ← lift (compile_res (u"#endif\s*//\s*" ++ cppvar ++ u"(_)?\b"));
      let wrong_endif level l r :=
        error filename (g_endif_linenum g) (u"build/header_guard") level
          (u"#endif line should be " ++ dq ++ u"#endif  " ++ l ++ cppvar ++ r ++ dq) in
      match Match pattern (g_endif g) with
      | Some m => when (default [] (group m 1) =s u"_") (wrong_endif 0%Z (u"// ") [])
      | None =>
          no_comments ← lift (no_single_line_comments raw_lines (xrange 1 (len raw_lines - 1)));
          pattern ← (if no_comments : bool then
                       p ← lift (compile_res (u"#endif\s*/\*\s*" ++ cppvar ++ u"(_)?\s*\*/"));
                       mret (Some p)
                     else mret None);
          match pattern ≫= (fun p => Match p (g_endif g)) with
          | Some m => when (default [] (group m 1) =s u"_") (wrong_endif 0%Z (u"/* ") (u" */"))
          | None => wrong_endif 5%Z (u"// ") []
          end
      end.

(** ** The header of a source file *)

(** Search the includes for the header; the line of the first include. *)
Fixpoint find_own_header (headername : list N) (includes : list (list N * Z)) (first_include : Z)
    : option Z :=
  match includes with
  | [] => Some first_include
  | (f0, f1) :: fs =>
      if contains headername f0 || contains f0 headername then None
      else find_own_header headername fs (if (first_include =? 0)%Z then f1 else first_include)
  end.
Definition CheckHeaderFileIncluded (fs : filesystem) (filename : list N) (st : include_state)
    (error : ErrorFn) : M unit :=
  if ends (u"_test.cc") filename || ends (u"_unittest.cc") filename then mret tt
  else
    let headerfile := slice filename 0 (len filename - 2) ++ u"h" in
    if negb (fs_exists fs headerfile) then mret tt
    else
      headername ← lift (FileInfo.RepositoryName fs headerfile);
      match find_own_header headername (concat (include_list st)) 0 with
      | None => mret tt
      | Some first_include =>
          name ← lift (FileInfo.RepositoryName fs filename);
          error filename first_include (u"build/include") 5%Z
            (name ++ u" should include its header file " ++ headername)
      end.

(** ** Characters and the end of the file *)

Definition CheckForBadCharacters (filename : list N) (lines : list (list N)) (error : ErrorFn)
    : M unit :=
  for_enum lines (fun linenum line =>
    when (in_chars 65533 line)
      (error filename linenum (u"readability/utf8") 5%Z
         (u"Line contains invalid UTF-8 (or Unicode replacement character).")) ≫= fun _ =>
    when (in_chars 0 line)
      (error filename linenum (u"readability/nul") 5%Z (u"Line contains NUL byte."))).

Definition CheckForNewlineAtEOF (filename : list N) (lines : list (list N)) (error : ErrorFn)
    : M unit :=
  bad ← lift (if (len lines <? 3)%Z then Ok true
              else l ← py_index lines (-2); Ok (negb (l =s [])));
  when bad
    (error filename (len lines - 2)%Z (u"whitespace/ending_newline") 5%Z
       (u"Could not find a newline character at the end of the file.")).

(** ** Include what you use *)

Definition _HEADERS_CONTAINING_TEMPLATES : list (list N * list (list N)) :=
  [ (u"<deque>", [u"deque"]);
    (u"<functional>", [u"unary_function"; u"binary_function";
       u"plus"; u"minus"; u"multiplies"; u"divides"; u"modulus"; u"negate";
       u"equal_to"; u"not_equal_to"; u"greater"; u"less"; u"greater_equal"; u"less_equal";
       u"logical_and"; u"logical_or"; u"logical_not";
       u"unary_negate"; u"not1"; u"binary_negate"; u"not2"; u"bind1st"; u"bind2nd";
       u"pointer_to_unary_function"; u"pointer_to_binary_function"; u"ptr_fun";
       u"mem_fun_t"; u"mem_fun"; u"mem_fun1_t"; u"mem_fun1_ref_t"; u"mem_fun_ref_t";
       u"const_mem_fun_t"; u"const_mem_fun1_t"; u"const_mem_fun_ref_t";
       u"const_mem_fun1_ref_t"; u"mem_fun_ref"]);
    (u"<limits>", [u"numeric_limits"]);
    (u"<list>", [u"list"]);
    (u"<map>", [u"map"; u"multimap"]);
    (u"<memory>", [u"allocator"]);
    (u"<queue>", [u"queue"; u"priority_queue"]);
    (u"<set>", [u"set"; u"multiset"]);
    (u"<stack>", [u"stack"]);
    (u"<string>", [u"char_traits"; u"basic_string"]);
    (u"<tuple>", [u"tuple"]);
    (u"<utility>", [u"pair"]);
    (u"<vector>", [u"vector"]);
    (u"<hash_map>", [u"hash_map"; u"hash_multimap"]);
    (u"<hash_set>", [u"hash_set"; u"hash_multiset"]);
    (u"<slist>", [u"slist"]) ].
Definition _RE_PATTERN_STRING : regex := rx "\bstring\b".

(** A pattern, what to blame, and the header that provides it. *)
Definition requirement : Type := regex * list N * list N.
Definition _re_pattern_algorithm_header : list requirement :=
  from_some (mapM (fun t : list N =>
    r ← compile (u"[^>.]\b" ++ t ++ u"(<.*?>)?\([^\)]"); Some (r, t, u"<algorithm>"))
    [u"copy"; u"max"; u"min"; u"min_element"; u"sort"; u"swap"; u"transform"]).
Definition _re_pattern_templates : list requirement :=
  from_some (mapM (fun '(h, t) =>
    r ← compile (u"(\<|\b)" ++ t ++ u"\s*\<"); Some (r, t ++ u"<>", h))
    ('(h, ts) ← _HEADERS_CONTAINING_TEMPLATES; pair h <$> ts)).

(** [required]: a header, and the last line and entity that need it. *)
Definition required_map : Type := gmap (list N) (Z * list N).
Definition require_all (ps : list requirement) (linenum : Z) (line : list N) (m : required_map)
    : required_map :=
  foldl (fun m '(pattern, template, header) =>
    if Searches pattern line then <[header := (linenum, template)]> m else m) m ps.
Definition require_line (linenum : Z) (line : list N) (m : required_map) : required_map :=
  match line with
  | [] => m
  | c :: _ =>
      if c =c ch "#" then m
      else
        let m :=
          match Search _RE_PATTERN_STRING line with
          | Some matched =>
              let prefix := slice_to line (m_start matched) in
              if ends (u"std::") prefix || negb (ends (u"::") prefix)
              then <[u"<string>" := (linenum, u"string")]> m else m
          | None => m
          end in
        let m := require_all _re_pattern_algorithm_header linenum line m in
        if negb (in_chars (ch "<") line) then m
        else require_all _re_pattern_templates linenum line m
  end.
Fixpoint required_go (elided : list (list N)) (ixs : list Z) (m : required_map)
    : res required_map :=
  match ixs with
  | [] => Ok m
  | i :: ixs' => line ← py_index elided i; required_go elided ixs' (require_line i line m)
  end.

(** The contents of files: [None] for a file that cannot be opened. *)
Record disk := Disk {
  disk_fs : filesystem;
  disk_isfile : list N -> bool;
  disk_read : list N -> option (list N)
}.

(** The order of iteration over a dictionary, as a function of its keys. *)
Class DictOrder := dict_order : list (list N) -> list (list N).
Class DictOrderOk (D : DictOrder) := dict_order_perm : forall l, dict_order l ≡ₚ l.

(** Iterating over a file yields its lines with their ends, which are those of
    [unicode.splitlines]. *)
Definition line_end (c : N) : bool :=
  between 10 13 c || between 28 30 c || (c =c 133%N) || (c =c 8232%N) || (c =c 8233%N).
Fixpoint file_lines_go (cur s : list N) : list (list N) :=
  match s with
  | [] => match cur with [] => [] | _ => [reverse cur] end
  | c :: s' =>
      if (c =c 13%N) && match s' with d :: _ => d =c 10%N | [] => false end
      then file_lines_go (c :: cur) s'
      else if line_end c then reverse (c :: cur) :: file_lines_go [] s'
      else file_lines_go (c :: cur) s'
  end.
Definition file_lines (s : list N) : list (list N) := file_lines_go [] s.

Definition include_map : Type := gmap (list N) Z.
(** A line of the file: the dictionary and the number of lines read. *)
Definition include_step (r : include_map * Z) (line : list N) : include_map * Z :=
  let '(m, linenum) := r in
  let linenum := (linenum + 1)%Z in
  match Search _RE_PATTERN_INCLUDE (CleanseComments line) with
  | Some o =>
      (match m !! grp o 2 with Some _ => m | None => <[grp o 2 := linenum]> m end, linenum)
  | None => (m, linenum)
  end.
(** The dictionary and whether the file could be read. *)
Definition UpdateIncludeState (d : disk) (filename : list N) (include_dict : include_map)
    : include_map * bool :=
  match disk_read d filename with
  | None => (include_dict, false)
  | Some text => (fst (foldl include_step (include_dict, 0%Z) (file_lines text)), true)
  end.

(** A turn of the loop over the headers: read the headers of the file's own
    module. *)
Definition own_header_step (d : disk) (abs_filename : list N) (r : include_map * bool)
    (header : list N) : include_map * bool :=
  let '(m, found) := r in
  let '(same_module, common_path) := FilesBelongToSameModule abs_filename header in
  let fullpath := common_path ++ header in
  if same_module then
    let '(m, ok) := UpdateIncludeState d fullpath m in (m, ok || found)
  else (m, found).
Definition CheckForIncludeWhatYouUse `{DictOrder} (d : disk) (filename : list N)
    (clean_lines : cleansed_lines) (st : include_state) (error : ErrorFn) : M unit :=
  required ← lift (required_go (elided clean_lines) (xrange 0 (NumLines clean_lines)) ∅);
  let include_dict : include_map :=
    foldl (fun m '(k, v) => <[k := v]> m) ∅ (concat (include_list st)) in
  let abs_filename := FileInfo.FullName (disk_fs d) filename in
  let abs_filename := re_sub (rx "_flymake\.cc$") (fun _ => u".cc") abs_filename in
  let header_keys := dict_order (fst <$> map_to_list include_dict) in
  let '(include_dict, header_found) :=
    foldl (own_header_step d abs_filename) (include_dict, false) header_keys in
  if ends (u".cc") filename && negb header_found then mret tt
  else
    for_ (dict_order (fst <$> map_to_list required)) (fun required_header_unstripped =>
      let '(linenum, template) := default (0%Z, []) (required !! required_header_unstripped) in
      when (bool_decide (include_dict !! strip_chars (u"<>" ++ dq) required_header_unstripped
                         = None))
        (error filename linenum (u"build/include_what_you_use") 4%Z
           (u"Add #include " ++ required_header_unstripped ++ u" for " ++ template))).

(** ** What the scan for a header guard finds *)

(** [P] gives [a] on line [i], and nothing on the lines before (after). *)
Definition first_at {A} (P : list N -> option A) (ls : list (list N)) (i : nat) (a : A) : Prop :=
  P <$> ls !! i = Some (Some a) /\ forall j l, j < i -> ls !! j = Some l -> P l = None.
Definition last_at {A} (P : list N -> option A) (ls : list (list N)) (i : nat) (a : A) : Prop :=
  P <$> ls !! i = Some (Some a) /\ forall j l, i < j -> ls !! j = Some l -> P l = None.
Definition nowhere {A} (P : list N -> option A) (ls : list (list N)) : Prop :=
  Forall (fun l => P l = None) ls.

Lemma first_at_snoc {A} (P : list N -> option A) ls l i a :
  first_at P ls i a -> first_at P (ls ++ [l]) i a.
Proof.
  intros [Hi Hlt]. destruct (ls !! i) as [x|] eqn:E; [|done].
  pose proof (lookup_lt_Some _ _ _ E). split.
  - by rewrite lookup_app_l, E.
  - intros j y Hj. rewrite lookup_app_l by lia. by apply Hlt.
Qed.
Lemma first_at_end {A} (P : list N -> option A) ls l a :
  nowhere P ls -> P l = Some a -> first_at P (ls ++ [l]) (length ls) a.
Proof.
  intros Hn Hl. split.
  - rewrite lookup_app_r, Nat.sub_diag by lia. simpl. by rewrite Hl.
  - intros j y Hj. rewrite lookup_app_l by lia. intros Hy. by eapply Forall_lookup_1 in Hn.
Qed.
Lemma last_at_snoc {A} (P : list N -> option A) ls l i a :
  last_at P ls i a -> P l = None -> last_at P (ls ++ [l]) i a.
Proof.
  intros [Hi Hlt] Hl. destruct (ls !! i) as [x|] eqn:E; [|done].
  pose proof (lookup_lt_Some _ _ _ E). split.
  - by rewrite lookup_app_l, E.
  - intros j y Hj. intros [Hy|[_ Hy]]%lookup_app_Some; [by eapply Hlt|].
    destruct (j - length ls); [by injection Hy as <-|done].
Qed.
Lemma last_at_end {A} (P : list N -> option A) ls l a :
  P l = Some a -> last_at P (ls ++ [l]) (length ls) a.
Proof.
  intros Hl. split.
  - rewrite lookup_app_r, Nat.sub_diag by lia. simpl. by rewrite Hl.
  - intros j y Hj Hy. apply lookup_lt_Some in Hy. rewrite length_app in Hy. simpl in Hy. lia.
Qed.


Lemma first_at_unique {A} (P : list N -> option A) ls i a j b :
  first_at P ls i a -> first_at P ls j b -> i = j.
Proof.
  intros [Hi Hil] [Hj Hjl]. destruct (ls !! i) as [x|] eqn:Ex; [|done].
  destruct (ls !! j) as [y|] eqn:Ey; [|done]. injection Hi as Hi. injection Hj as Hj.
  destruct (Nat.lt_trichotomy i j) as [H|[H|H]]; [|done|].
  - rewrite (Hjl i x H Ex) in Hi. done.
  - rewrite (Hil j y H Ey) in Hj. done.
Qed.
Lemma first_at_or_nowhere_None {A} (P : list N -> option A) ls :
  (forall i a, ~ first_at P ls i a) -> nowhere P ls.
Proof.
  induction ls as [|l ls IH] using rev_ind; intros H; [constructor|].
  assert (nowhere P ls) as Hn.
  { apply IH. intros i a Hi. by apply (H i a), first_at_snoc. }
  apply Forall_app. split; [done|]. constructor; [|constructor].
  destruct (P l) as [a|] eqn:E; [|done]. by destruct (H (length ls) a (first_at_end P ls l a Hn E)).
Qed.

(** The word behind a directive. *)
Definition directive_word (directive line : list N) : option (list N) :=
  match split_ws line with
  | w0 :: w1 :: _ => if w0 =s directive then Some w1 else None
  | _ => None
  end.
Definition endif_line (line : list N) : option (list N) :=
  if starts (u"#endif") line then Some line else None.

Lemma words_go_nonempty s cur : Forall (fun w => w <> []) (words_go cur s).
Proof.
  revert cur. induction s as [|c s IH]; intros [|x cur]; cbn [words_go]; try case_bool; auto.
  - constructor; [|done]. intros E%(f_equal length). rewrite length_reverse in E. done.
  - constructor; [|apply IH]. intros E%(f_equal length). rewrite length_reverse in E. done.
Qed.
Lemma directive_word_nonempty d l w : directive_word d l = Some w -> w <> [].
Proof.
  unfold directive_word, split_ws. pose proof (words_go_nonempty l []) as H.
  destruct (words_go [] l) as [|w0 [|w1 ws]]; try done. case_bool; [|done]. intros [= <-].
  inversion H as [|? ? _ H2]. by inversion H2.
Qed.

(** What a scan that finds the first word, and its line, has found. *)
Definition found_first (P : list N -> option (list N)) ls (w : list N) (i : Z) : Prop :=
  (w = [] /\ i = 0%Z /\ nowhere P ls) \/ exists k, first_at P ls k w /\ i = Z.of_nat k /\ w <> [].
Definition found_last (P : list N -> option (list N)) ls (w : list N) (i : Z) : Prop :=
  (w = [] /\ i = 0%Z /\ nowhere P ls) \/ exists k, last_at P ls k w /\ i = Z.of_nat k.

Lemma found_first_snoc d ls l w i :
  found_first (directive_word d) ls w i ->
  found_first (directive_word d) (ls ++ [l])
    (if w =s [] then default [] (directive_word d l) else w)
    (if w =s [] then match directive_word d l with Some _ => len ls | None => i end else i).
Proof.
  intros [(-> & -> & Hn)|(k & Hk & -> & Hw)].
  - cbn. destruct (directive_word d l) as [w|] eqn:E; simpl.
    + right. exists (length ls). split; [by apply first_at_end|]. split; [done|].
      by eapply directive_word_nonempty.
    + left. repeat split. apply Forall_app. split; [done|]. by constructor.
  - rewrite (proj2 (eqs_false w []) Hw). right. exists k. split; [|done]. by apply first_at_snoc.
Qed.
Lemma scan_guard_app n a b g :
  scan_guard n (a ++ b) g = scan_guard (n + len a) b (scan_guard n a g).
Proof.
  revert n g. induction a as [|x a IH]; intros n g; cbn [scan_guard app].
  - unfold len. simpl. by rewrite Z.add_0_r.
  - rewrite IH. f_equal. unfold len. simpl. lia.
Qed.

Lemma scan_guard_line_eq n l g :
  scan_guard_line n l g =
  Guard (if g_ifndef g =s [] then default [] (directive_word (u"#ifndef") l) else g_ifndef g)
        (if g_ifndef g =s [] then match directive_word (u"#ifndef") l with
                                  | Some _ => n | None => g_ifndef_linenum g end
         else g_ifndef_linenum g)
        (if g_define g =s [] then default [] (directive_word (u"#define") l) else g_define g)
        (default (g_endif g) (endif_line l))
        (match endif_line l with Some _ => n | None => g_endif_linenum g end).
Proof.
  unfold scan_guard_line, directive_word, endif_line. destruct g as [i il d e el].
  cbn [g_ifndef g_ifndef_linenum g_define g_endif g_endif_linenum].
  destruct (split_ws l) as [|w0 [|w1 ws]].
  3: destruct (w0 =s u"#ifndef"), (w0 =s u"#define").
  all: destruct (eqs i []) eqn:Ei; cbn; destruct (eqs d []) eqn:Ed; cbn;
    try apply eqs_true in Ei as ->; try apply eqs_true in Ed as ->; by case_bool.
Qed.
Lemma found_last_snoc P ls l w i :
  found_last P ls w i ->
  found_last P (ls ++ [l]) (default w (P l)) (match P l with Some _ => len ls | None => i end).
Proof.
  intros Hf. destruct (P l) as [v|] eqn:E; simpl.
  { right. exists (length ls). split; [by apply last_at_end|done]. }
  destruct Hf as [(-> & -> & Hn)|(k & Hk & ->)].
  - left. repeat split. apply Forall_app. split; [done|by constructor].
  - right. exists k. split; [by apply last_at_snoc|done].
Qed.

(** C26: the scan of a header file for its guard finds the name after the first
    [#ifndef] and its line, the name after the first [#define], and the text
    and line of the last [#endif]: of each nothing when there is no such
    line. *)
Theorem scan_guard_spec ls :
  let g := scan_guard 0 ls (Guard [] 0 [] [] 0) in
  found_first (directive_word (u"#ifndef")) ls (g_ifndef g) (g_ifndef_linenum g)
  /\ (exists i, found_first (directive_word (u"#define")) ls (g_define g) i)
  /\ found_last endif_line ls (g_endif g) (g_endif_linenum g).
Proof.
  induction ls as [|l ls (Hi & (j & Hd) & He)] using rev_ind; cbv zeta in *.
  - split; [|split; [exists 0%Z|]]; left; (split; [done|]); (split; [done|constructor]).
  - rewrite scan_guard_app. cbn [scan_guard]. rewrite Z.add_0_l, scan_guard_line_eq. cbn.
    split; [by apply found_first_snoc|].
    split; [eexists; by apply found_first_snoc|by apply found_last_snoc].
Qed.

(** ** What the last need of a header is *)





(** ** The includes of another file *)

Definition include_of (header line : list N) : option unit :=
  match Search _RE_PATTERN_INCLUDE (CleanseComments line) with
  | Some o => if grp o 2 =s header then Some tt else None
  | None => None
  end.

Lemma include_step_spec m n l h :
  (include_step (m, n) l).1 !! h =
  match m !! h with Some v => Some v | None => const (n + 1)%Z <$> include_of h l end.
Proof.
  unfold include_step, include_of. destruct (Search _ _) as [o|]; cbn [fst];
    [|cbn; by destruct (m !! h)].
  destruct (eqs (grp o 2) h) eqn:E.
  - apply eqs_true in E as ->. destruct (m !! h) eqn:Eh; cbn [fst]; [exact Eh|]. exact (lookup_insert_eq _ _ _).
  - apply eqs_false in E. destruct (m !! grp o 2); cbn [fst]; [by destruct (m !! h)|].
    destruct (m !! h) eqn:Eh; (etrans; [exact (lookup_insert_ne _ _ _ _ E)|exact Eh]).
Qed.
Lemma include_step_count r l : (include_step r l).2 = (r.2 + 1)%Z.
Proof. destruct r as [m n]. unfold include_step. by destruct (Search _ _). Qed.
Lemma include_fold_count ls r : (foldl include_step r ls).2 = (r.2 + len ls)%Z.
Proof.
  revert r. induction ls as [|l ls IH]; intros r; cbn [foldl]; [unfold len; simpl; lia|].
  rewrite IH, include_step_count. unfold len. simpl. lia.
Qed.
Lemma include_fold_spec ls m h v :
  (foldl include_step (m, 0%Z) ls).1 !! h = Some v <->
  m !! h = Some v \/ (m !! h = None /\
    exists k, v = (Z.of_nat k + 1)%Z /\ first_at (include_of h) ls k tt).
Proof.
  revert v. induction ls as [|l ls IH] using rev_ind; intros v.
  - split; [by left|]. intros [H|(_ & k & _ & Hk & _)]; done.
  - rewrite foldl_snoc. pose proof (include_fold_count ls (m, 0%Z)) as Hc.
    destruct (foldl include_step (m, 0%Z) ls) as [m1 n1]. cbn [fst snd] in *. subst n1.
    rewrite include_step_spec. destruct (m1 !! h) as [v1|] eqn:E1.
    + pose proof (proj1 (IH v1) eq_refl) as H1. split.
      * intros [= <-]. destruct H1 as [H1|(H0 & k & -> & Hk)]; [by left|].
        right. split; [done|]. exists k. split; [done|]. by apply first_at_snoc.
      * intros [H2|(H2 & k & -> & Hk)].
        -- apply IH. by left.
        -- destruct H1 as [H1|(_ & k1 & -> & Hk1)]; [congruence|].
           apply (first_at_snoc _ _ l) in Hk1. by rewrite (first_at_unique _ _ _ _ _ _ Hk Hk1).
    + assert (m !! h = None) as Hm.
      { destruct (m !! h) as [x|] eqn:E; [|done]. pose proof (proj2 (IH x) (or_introl eq_refl)). done. }
      assert (nowhere (include_of h) ls) as Hn.
      { apply first_at_or_nowhere_None. intros k [] Hk.
        pose proof (proj2 (IH (Z.of_nat k + 1)%Z)) as H. discriminate H. right. eauto. }
      destruct (include_of h l) as [[]|] eqn:El; simpl.
      * split.
        -- intros [= <-]. right. split; [done|]. exists (length ls).
           split; [by rewrite Z.add_0_l|]. by apply first_at_end.
        -- intros [H|(_ & k & -> & Hk)]; [congruence|].
           pose proof (first_at_end _ ls l tt Hn El) as He.
           by rewrite (first_at_unique _ _ _ _ _ _ Hk He), Z.add_0_l.
      * split; [done|]. intros [H|(_ & k & -> & Hk & _)]; [congruence|].
        destruct ((ls ++ [l]) !! k) as [x|] eqn:Ex; [|done]. simpl in Hk. injection Hk as Hk.
        assert (include_of h x = None); [|congruence].
        apply list_elem_of_lookup_2, elem_of_app in Ex as [Ex|Ex%list_elem_of_singleton];
          [|by subst]. unfold nowhere in Hn. rewrite Forall_forall in Hn. by apply Hn.
Qed.

(** C29: [UpdateIncludeState] answers whether the file can be read, changes no
    entry of the dictionary, and adds for every other header the file includes
    the number of the first line that includes it, counted from one. *)
Theorem UpdateIncludeState_spec d filename m :
  match disk_read d filename with
  | None => UpdateIncludeState d filename m = (m, false)
  | Some text => exists m', UpdateIncludeState d filename m = (m', true) /\
      forall h v, m' !! h = Some v <->
        m !! h = Some v \/
        (m !! h = None /\ exists k, v = (Z.of_nat k + 1)%Z
                         /\ first_at (include_of h) (file_lines text) k tt)
  end.
Proof.
  unfold UpdateIncludeState. destruct (disk_read d filename) as [text|]; [|done].
  eexists. split; [reflexivity|]. apply include_fold_spec.
Qed.
