(* ===== verification/IncludeWhatYouUse.v ===== *)
(** * Include what you use: what is reported

    [CheckForIncludeWhatYouUse] collects the headers a file needs, reads the
    headers of the file's own module, and reports the headers that neither the
    file nor those headers include.  It walks two dictionaries; the theorem
    says which reports it makes, whatever order they are walked in. *)

From S2P Require Import Prelude PyStr Regex RePattern Lint FileInfo IncludeState Cleanse Brackets FileChecks.
From Stdlib Require Import Ascii.

(** ** The specification *)



(** ** Dictionaries *)


(** ** The headers of the module *)

Section Headers.
Context (d : disk) (filename : list N).

End Headers.

(** ** The reports *)


