(* ===== verification/LineChecks.v ===== *)
(** * Checks of one line

    Models lines 1842-1990, 2572-2837, 5697-5978 of cpplint.py: the checks of
    a line that need little more than the line. *)

From S2P Require Import Prelude PyStr Regex RePattern Lint IncludeState Cleanse Brackets Nesting.
From Stdlib Require Import Ascii.

(** The cleansed line, and the line without comments. *)
Definition elided_at (clean_lines : cleansed_lines) (linenum : Z) : M (list N) :=
  lift (py_index (elided clean_lines) linenum).
Definition line_at (clean_lines : cleansed_lines) (linenum : Z) : M (list N) :=
  lift (py_index (lines clean_lines) linenum).

Definition IsBlankLine (line : list N) : bool := (line =s []) || isspace line.

(** ** Multi-line constructs, threading, logging, increments *)

Definition CheckForMultilineCommentsAndStrings (filename : list N)
    (clean_lines : cleansed_lines) (linenum : Z) (error : ErrorFn) : M unit :=
  line ← elided_at clean_lines linenum;
  let line := replace line (u"\\") [] in
  when (count line (u"*/") <? count line (u"/*"))%Z
    (error filename linenum (u"readability/multiline_comment") 5%Z
       (u"Complex multi-line /*...*/-style comment found. Lint may give bogus warnings.  Consider replacing these with //-style comments, with #if 0...#endif, or with more clearly structured multi-line comments.")) ≫= fun _ =>
  when (Z.odd (count line dq - count line (u"\" ++ dq)))
    (error filename linenum (u"readability/multiline_string") 5%Z
       (u"Multi-line string (" ++ dq ++ u"..." ++ dq ++ u") found.  This lint script doesn't do well with such strings, and may give bogus warnings.  Use C++11 raw strings or concatenation instead.")).

Definition _UNSAFE_FUNC_PREFIX : list N := u"(?:[-+*/=%^&|(<]\s*|>\s+)".
Definition _THREADING_LIST : list (list N * list N * regex) :=
  from_some (mapM (fun '(single, multi, p) =>
    r ← compile (_UNSAFE_FUNC_PREFIX ++ p); Some (single, multi, r))
    [ (u"asctime(", u"asctime_r(", u"asctime\([^)]+\)");
      (u"ctime(", u"ctime_r(", u"ctime\([^)]+\)");
      (u"getgrgid(", u"getgrgid_r(", u"getgrgid\([^)]+\)");
      (u"getgrnam(", u"getgrnam_r(", u"getgrnam\([^)]+\)");
      (u"getlogin(", u"getlogin_r(", u"getlogin\(\)");
      (u"getpwnam(", u"getpwnam_r(", u"getpwnam\([^)]+\)");
      (u"getpwuid(", u"getpwuid_r(", u"getpwuid\([^)]+\)");
      (u"gmtime(", u"gmtime_r(", u"gmtime\([^)]+\)");
      (u"localtime(", u"localtime_r(", u"localtime\([^)]+\)");
      (u"rand(", u"rand_r(", u"rand\(\)");
      (u"strtok(", u"strtok_r(", u"strtok\([^)]+\)");
      (u"ttyname(", u"ttyname_r(", u"ttyname\([^)]+\)") ]).

Definition CheckPosixThreading (filename : list N) (clean_lines : cleansed_lines) (linenum : Z)
    (error : ErrorFn) : M unit :=
  line ← elided_at clean_lines linenum;
  for_ _THREADING_LIST (fun '(single_thread_func, multithread_safe_func, pattern) =>
    when (Searches pattern line)
      (error filename linenum (u"runtime/threadsafe_fn") 2%Z
         (u"Consider using " ++ multithread_safe_func ++ u"...) instead of "
          ++ single_thread_func ++ u"...) for improved thread safety."))).

Definition CheckVlogArguments (filename : list N) (clean_lines : cleansed_lines) (linenum : Z)
    (error : ErrorFn) : M unit :=
  line ← elided_at clean_lines linenum;
  when (Searches (rx "\bVLOG\((INFO|ERROR|WARNING|DFATAL|FATAL)\)") line)
    (error filename linenum (u"runtime/vlog") 5%Z
       (u"VLOG() should be used with numeric verbosity level.  Use LOG() if you want symbolic severity levels.")).

Definition _RE_PATTERN_INVALID_INCREMENT : regex := rx "^\s*\*\w+(\+\+|--);".
Definition CheckInvalidIncrement (filename : list N) (clean_lines : cleansed_lines)
    (linenum : Z) (error : ErrorFn) : M unit :=
  line ← elided_at clean_lines linenum;
  when (Matches _RE_PATTERN_INVALID_INCREMENT line)
    (error filename linenum (u"runtime/invalid_increment") 5%Z
       (u"Changing pointer instead of value (or unused value of operator*).")).

(** ** Namespace indentation *)

(** [raw] is the list of lines the functions of the source are given. *)
Definition IsMacroDefinition (raw : list (list N)) (linenum : Z) : res bool :=
  line ← py_index raw linenum;
  if Searches (rx "^#define") line then Ok true
  else if (0 <? linenum)%Z then
    prev ← py_index raw (linenum - 1); Ok (Searches (rx "\\$") prev)
  else Ok false.
Definition IsForwardClassDeclaration (raw : list (list N)) (linenum : Z) : res bool :=
  line ← py_index raw linenum;
  Ok (Matches (rx "^\s*(\btemplate\b)*.*class\s+\w+;\s*$") line).

Definition IsBlockInNameSpace (s : nesting_state) (is_forward_declaration : bool) : bool :=
  if is_forward_declaration then
    match stack_blocks s with b :: _ => is_namespace b | [] => false end
  else
    match stack_blocks s with
    | b :: b2 :: _ => check_namespace_indentation b && is_namespace b2
    | _ => false
    end.
Definition ShouldCheckNamespaceIndentation (s : nesting_state) (is_namespace_indent_item : bool)
    (raw_lines_no_comments : list (list N)) (linenum : Z) : res bool :=
  is_forward_declaration ← IsForwardClassDeclaration raw_lines_no_comments linenum;
  if negb (is_namespace_indent_item || is_forward_declaration) then Ok false
  else
    macro ← IsMacroDefinition raw_lines_no_comments linenum;
    if macro : bool then Ok false else Ok (IsBlockInNameSpace s is_forward_declaration).
Definition CheckItemIndentationInNamespace (filename : list N)
    (raw_lines_no_comments : list (list N)) (linenum : Z) (error : ErrorFn) : M unit :=
  line ← lift (py_index raw_lines_no_comments linenum);
  when (Matches (rx "^\s+") line)
    (error filename linenum (u"runtime/indentation_namespace") 4%Z
       (u"Do not indent within a namespace")).

(** The objects are compared by identity: [previous_stack_top == stack[-2]]. *)
Definition is_namespace_indent_item (s : nesting_state) : bool :=
  match stack s, previous_stack_top s with
  | a :: a2 :: _, Some p =>
      check_namespace_indentation (deref (heap s) a) && is_namespace (deref (heap s) p)
      && N.eqb p a2
  | _, _ => false
  end.
Definition CheckForNamespaceIndentation (filename : list N) (nesting : nesting_state)
    (clean_lines : cleansed_lines) (line : Z) (error : ErrorFn) : M unit :=
  should ← lift (ShouldCheckNamespaceIndentation nesting (is_namespace_indent_item nesting)
                   (elided clean_lines) line);
  if should : bool
  then CheckItemIndentationInNamespace filename (elided clean_lines) line error
  else mret tt.

(** ** Constructs that are not standard *)

(** Join the arguments that a comma inside brackets has split: [cur] is the
    argument at hand.  An argument that stays open at the end of the list
    raises. *)
Definition open_arg (a : list N) : bool :=
  (count a (u">") <? count a (u"<"))%Z || (count a (u")") <? count a (u"("))%Z.
Fixpoint collapse_args (cur : list N) (rest : list (list N)) : res (list (list N)) :=
  match rest with
  | [] => if open_arg cur then Exc IndexError else Ok [cur]
  | r :: rest' =>
      if open_arg cur then collapse_args (cur ++ u"," ++ r) rest'
      else args ← collapse_args r rest'; Ok (cur :: args)
  end.

(** The arguments of a constructor, from the text between its parentheses. *)
Definition constructor_args (text : list N) : res (list (list N)) :=
  if text =s [] then Ok []
  else match split_on text (u",") with
       | a :: args => collapse_args a args
       | [] => Ok []
       end.

(** The part on constructors. *)
Definition check_constructor (filename : list N) (linenum : Z) (error : ErrorFn)
    (base_classname : list N) (m : match_obj) : M unit :=
  let is_marked_explicit := match group m 1 with Some (_ :: _) => true | _ => false end in
  args ← lift (constructor_args (grp m 2));
  let n := len args in
  let first := hd_str args in
  let defaulted_args := List.filter (in_chars (ch "=")) args in
  let noarg_constructor :=
    (n =? 0)%Z || ((n =? 1)%Z && (strip first =s u"void")) in
  let onearg_constructor :=
    ((n =? 1)%Z && negb noarg_constructor)
    || ((1 <=? n)%Z && negb noarg_constructor && (n - 1 <=? len defaulted_args)%Z) in
  let initializer_list_constructor :=
    onearg_constructor && Searches (rx "\bstd\s*::\s*initializer_list\b") first in
  copy ← lift (if onearg_constructor then
                 p ← compile_res (u"(const\s+)?" ++ re_escape base_classname
                       ++ u"(\s*<[^>]*>)?(\s+const)?\s*(?:<\w+>\s*)?&");
                 Ok (Matches p (strip first))
               else Ok false);
  if negb is_marked_explicit && onearg_constructor && negb initializer_list_constructor
     && negb copy then
    error filename linenum (u"runtime/explicit") 5%Z
      (match defaulted_args with
       | _ :: _ => u"Constructors callable with one argument should be marked explicit."
       | [] => u"Single-parameter constructors should be marked explicit."
       end)
  else if is_marked_explicit && negb onearg_constructor then
    if noarg_constructor then
      error filename linenum (u"runtime/explicit") 5%Z
        (u"Zero-parameter constructors should not be marked explicit.")
    else
      error filename linenum (u"runtime/explicit") 0%Z
        (u"Constructors that require multiple arguments should not be marked explicit.")
  else mret tt.

Definition constructor_pattern (base_classname : list N) : list N :=
  u"\s+(?:inline\s+)?(explicit\s+)?(?:inline\s+)?" ++ re_escape base_classname
  ++ u"\s*\(((?:[^()]|\([^()]*\))*)\)".

Definition CheckForNonStandardConstructs (filename : list N) (clean_lines : cleansed_lines)
    (linenum : Z) (nesting : nesting_state) (error : ErrorFn) : M unit :=
  line ← line_at clean_lines linenum;
  when (Searches (rxp (u"printf\s*\(.*" ++ dq ++ u".*%[-+ ]?\d*q")) line)
    (error filename linenum (u"runtime/printf_format") 3%Z
       (u"%q in format strings is deprecated.  Use %ll instead.")) ≫= fun _ =>
  when (Searches (rxp (u"printf\s*\(.*" ++ dq ++ u".*%\d+\$")) line)
    (error filename linenum (u"runtime/printf_format") 2%Z
       (u"%N$ formats are unconventional.  Try rewriting to avoid them.")) ≫= fun _ =>
  let line := replace line (u"\\") [] in
  when (Searches (rxp (u"(" ++ dq ++ u"|\').*\\(%|\[|\(|{)")) line)
    (error filename linenum (u"build/printf_format") 3%Z
       (u"%, [, (, and { are undefined character escapes.  Unescape them.")) ≫= fun _ =>
  line ← elided_at clean_lines linenum;
  when (Searches (rx "\b(const|volatile|void|char|short|int|long|float|double|signed|unsigned|schar|u?int8|u?int16|u?int32|u?int64)\s+(register|static|extern|typedef)\b") line)
    (error filename linenum (u"build/storage_class") 5%Z
       (u"Storage class (static, extern, typedef, etc) should be first.")) ≫= fun _ =>
  when (Matches (rx "\s*#\s*endif\s*[^/\s]+") line)
    (error filename linenum (u"build/endif_comment") 5%Z
       (u"Uncommented text after #endif is non-standard.  Use a comment.")) ≫= fun _ =>
  when (Matches (rx "\s*class\s+(\w+\s*::\s*)+\w+\s*;") line)
    (error filename linenum (u"build/forward_decl") 5%Z
       (u"Inner-style forward declarations are invalid.  Remove this line.")) ≫= fun _ =>
  when (Searches (rx "(\w+|[+-]?\d+(\.\d*)?)\s*(<|>)\?=?\s*(\w+|[+-]?\d+)(\.\d*)?") line)
    (error filename linenum (u"build/deprecated") 3%Z
       (u">? and <? (max and min) operators are non-standard and deprecated.")) ≫= fun _ =>
  when (Searches (rx "^\s*const\s*string\s*&\s*\w+\s*;") line)
    (error filename linenum (u"runtime/member_string_references") 2%Z
       (u"const string& members are dangerous. It is much better to use alternatives, such as pointers or simple constants.")) ≫= fun _ =>
  match InnermostClass nesting with
  | None => mret tt
  | Some (blk, classinfo) =>
      if negb (seen_open_brace blk) then mret tt
      else
        let base_classname := last_str (split_on (ci_name classinfo) (u"::")) in
        pattern ← lift (compile_res (constructor_pattern base_classname));
        match Match pattern line with
        | Some m => check_constructor filename linenum error base_classname m
        | None => mret tt
        end
  end.

(** ** Spacing of function calls *)

(** The text inside the parentheses of the first control structure, or all. *)
Definition function_call_part (line : list N) : list N :=
  match omap (fun p => Search p line)
          [rx "\bif\s*\((.*)\)\s*{"; rx "\bfor\s*\((.*)\)\s*{";
           rx "\bwhile\s*\((.*)\)\s*[{;]"; rx "\bswitch\s*\((.*)\)\s*{"] with
  | m :: _ => grp m 1
  | [] => line
  end.
Definition CheckSpacingForFunctionCall (filename : list N) (clean_lines : cleansed_lines)
    (linenum : Z) (error : ErrorFn) : M unit :=
  line ← elided_at clean_lines linenum;
  let fncall := function_call_part line in
  let err := error filename linenum (u"whitespace/parens") in
  if negb (Searches (rx "\b(if|for|while|switch|return|new|delete|catch|sizeof)\b") fncall)
     && negb (Searches (rx " \([^)]+\)\([^)]*(\)|,$)") fncall)
     && negb (Searches (rx " \([^)]+\)\[[^\]]+\]") fncall) then
    _ ← (if Searches (rx "\w\s*\(\s(?!\s*\\$)") fncall
         then err 4%Z (u"Extra space after ( in function call")
         else when (Searches (rx "\(\s+(?!(\s*\\)|\()") fncall)
                (err 2%Z (u"Extra space after (")));
    _ ← when (Searches (rx "\w\s+\(") fncall
              && negb (Searches (rx "#\s*define|typedef|using\s+\w+\s*=") fncall)
              && negb (Searches (rx "\w\s+\((\w+::)*\*\w+\)\(") fncall)
              && negb (Searches (rx "\bcase\s+\(") fncall))
          (if Searches (rx "\boperator_*\b") line
           then err 0%Z (u"Extra space before ( in function call")
           else err 4%Z (u"Extra space before ( in function call"));
    when (Searches (rx "[^)]\s+\)\s*[^{\s]") fncall)
      (if Searches (rx "^\s+\)") fncall
       then err 2%Z (u"Closing ) should be moved to the previous line")
       else err 2%Z (u"Extra space before )"))
  else mret tt.

(** ** Pairs, lambdas, virtual functions *)

Definition _RE_PATTERN_EXPLICIT_MAKEPAIR : regex := rx "\bmake_pair\s*<".
Definition CheckMakePairUsesDeduction (filename : list N) (clean_lines : cleansed_lines)
    (linenum : Z) (error : ErrorFn) : M unit :=
  line ← elided_at clean_lines linenum;
  when (Searches _RE_PATTERN_EXPLICIT_MAKEPAIR line)
    (error filename linenum (u"build/explicit_make_pair") 4%Z
       (u"For C++11-compatibility, omit template arguments from make_pair OR use pair directly OR if appropriate, construct a pair directly")).

Definition CheckDefaultLambdaCaptures (filename : list N) (clean_lines : cleansed_lines)
    (linenum : Z) (error : ErrorFn) : M unit :=
  line ← elided_at clean_lines linenum;
  match Match (rx "^(.*)\[\s*(?:=|&[^\w])") line with
  | None => mret tt
  | Some m =>
      '(line, _, pos) ← lift (CloseExpression clean_lines linenum (len (grp m 1)));
      when ((0 <=? pos)%Z && Matches (rx "^\s*[{(]") (slice_from line pos))
        (error filename linenum (u"build/c++11") 4%Z
           (u"Default lambda captures are an unapproved C++ feature."))
  end.

(** The end of the parameter list, searched on three lines. *)
Fixpoint parameter_list_end (clean_lines : cleansed_lines) (ixs : list Z) (start_col : Z)
    : res (Z * Z) :=
  match ixs with
  | [] => Ok (-1, -1)%Z
  | start_line :: ixs' =>
      line ← py_index (elided clean_lines) start_line;
      match Match (rx "^([^(]*)\(") (slice_from line start_col) with
      | Some parameter_list =>
          '(_, end_line, end_col) ←
            CloseExpression clean_lines start_line (start_col + len (grp parameter_list 1));
          Ok (end_line, end_col)
      | None => parameter_list_end clean_lines ixs' 0
      end
  end.
(** The virt-specifiers that follow it, on three lines. *)
Fixpoint check_specifiers (filename : list N) (clean_lines : cleansed_lines) (linenum : Z)
    (error : ErrorFn) (ixs : list Z) (end_col : Z) : M unit :=
  match ixs with
  | [] => mret tt
  | i :: ixs' =>
      line ← elided_at clean_lines i;
      let line := slice_from line end_col in
      _ ← match Search (rx "\b(override|final)\b") line with
          | Some m =>
              error filename linenum (u"readability/inheritance") 4%Z
                (dq ++ u"virtual" ++ dq ++ u" is redundant since function is already declared as "
                 ++ dq ++ grp m 1 ++ dq)
          | None => mret tt
          end;
      if Searches (rx "[^\w]\s*$") line then mret tt
      else check_specifiers filename clean_lines linenum error ixs' 0
  end.
Definition CheckRedundantVirtual (filename : list N) (clean_lines : cleansed_lines)
    (linenum : Z) (error : ErrorFn) : M unit :=
  line ← elided_at clean_lines linenum;
  match Match (rx "^(.*)(\bvirtual\b)(.*)$") line with
  | None => mret tt
  | Some virtual =>
      if Searches (rx "\b(public|protected|private)\s+$") (grp virtual 1)
         || Matches (rx "^\s+(public|protected|private)\b") (grp virtual 3)
      then mret tt
      else if Matches (rx "^.*[^:]:[^:].*$") line then mret tt
      else
        '(end_line, end_col) ← lift (parameter_list_end clean_lines
           (xrange linenum (Z.min (linenum + 3) (NumLines clean_lines))) (len (grp virtual 2)));
        if (end_col <? 0)%Z then mret tt
        else check_specifiers filename clean_lines linenum error
               (xrange end_line (Z.min (end_line + 3) (NumLines clean_lines))) end_col
  end.

Definition CheckRedundantOverrideOrFinal (filename : list N) (clean_lines : cleansed_lines)
    (linenum : Z) (error : ErrorFn) : M unit :=
  line ← elided_at clean_lines linenum;
  let declarator_end := rfind line (u")") in
  fragment ← (if (0 <=? declarator_end)%Z then mret (Some (slice_from line declarator_end))
              else if (1 <? linenum)%Z then
                prev ← elided_at clean_lines (linenum - 1);
                mret (if (0 <=? rfind prev (u")"))%Z then Some line else None)
              else mret None);
  match fragment with
  | None => mret tt
  | Some fragment =>
      when (Searches (rx "\boverride\b") fragment && Searches (rx "\bfinal\b") fragment)
        (error filename linenum (u"readability/inheritance") 4%Z
           (dq ++ u"override" ++ dq ++ u" is redundant since function is already declared as "
            ++ dq ++ u"final" ++ dq))
  end.

(** ** C++11 features *)

Definition unapproved_headers : list (list N) :=
  [u"cfenv"; u"condition_variable"; u"fenv.h"; u"future"; u"mutex"; u"thread"; u"chrono";
   u"ratio"; u"regex"; u"system_error"].
Definition unapproved_names : list (list N * regex) :=
  from_some (mapM (fun n : list N => r ← compile (u"\bstd::" ++ n ++ u"\b"); Some (n, r))
    [u"alignment_of"; u"aligned_union"]).
Definition FlagCxx11Features (filename : list N) (clean_lines : cleansed_lines) (linenum : Z)
    (error : ErrorFn) : M unit :=
  line ← elided_at clean_lines linenum;
  _ ← match Match (rxp (u"\s*#\s*include\s+[<" ++ dq ++ u"]([^<" ++ dq ++ u"]+)[" ++ dq
                        ++ u">]")) line with
      | Some include =>
          when (in_strs (grp include 1) unapproved_headers)
            (error filename linenum (u"build/c++11") 5%Z
               (u"<" ++ grp include 1 ++ u"> is an unapproved C++11 header."))
      | None => mret tt
      end;
  if Matches (rx "\s*#") line && negb (Matches (rx "\s*#\s*define\b") line) then mret tt
  else
    for_ unapproved_names (fun '(top_name, pattern) =>
      when (Searches pattern line)
        (error filename linenum (u"build/c++11") 5%Z
           (u"std::" ++ top_name ++ u" is an unapproved C++11 class or function.  Send c-style an example of where it would make your code more readable, and they may let you use it."))).

(** ** Constructor arguments *)

(** A text that opens more angle brackets, or more parentheses, than it
    closes. *)
Definition unbalanced (a : list N) : Prop :=
  count_char (ch ">") a < count_char (ch "<") a \/ count_char (ch ")") a < count_char (ch "(") a.
(** The commas of a text are inside brackets: what comes before each of them is
    unbalanced. *)
Definition commas_inside (a : list N) : Prop :=
  forall x y, a = x ++ u"," ++ y -> unbalanced x.
Definition whole_arg (a : list N) : Prop := ~ unbalanced a /\ commas_inside a.

Lemma open_arg_spec a : open_arg a = true <-> unbalanced a.
Proof.
  unfold open_arg, unbalanced. change (u">") with [ch ">"]. change (u"<") with [ch "<"].
  change (u")") with [ch ")"]. change (u"(") with [ch "("].
  rewrite !count_singleton, orb_true_iff, !Z.ltb_lt. lia.
Qed.
Lemma join_glue a b l : join (u",") ((a ++ u"," ++ b) :: l) = join (u",") (a :: b :: l).
Proof. destruct l; cbn [join]; [done|]. by rewrite <- !app_assoc. Qed.
(** Two ways to cut one text at a comma. *)
Lemma cut_twice (sep a s b t : list N) :
  length sep = 1 -> a ++ sep ++ s = b ++ sep ++ t ->
  (a = b /\ s = t) \/ (exists y, b = a ++ sep ++ y) \/ (exists y, a = b ++ sep ++ y).
Proof.
  intros Hs. destruct sep as [|c [|]]; try done. clear Hs. revert b. cbn [app].
  induction a as [|x a IH]; intros [|z b] E; cbn in E; simplify_eq; auto.
  - right. left. by exists b.
  - right. right. by exists a.
  - match goal with H : a ++ _ = b ++ _ |- _ =>
      destruct (IH b H) as [[-> ->]|[[y ->]|[y ->]]]; eauto end.
Qed.

(** A whole argument at the start of [args] when a text at hand, the commas of
    which are inside, comes first: neither is cut inside the other. *)
Lemma whole_first cur a s t :
  whole_arg a -> commas_inside cur -> ~ unbalanced cur ->
  a ++ u"," ++ s = cur ++ u"," ++ t -> a = cur /\ s = t.
Proof.
  intros [Hb Ha] Hc Hn E.
  destruct (cut_twice (u",") a s cur t eq_refl E) as [?|[[y ->]|[y ->]]]; [done|..].
  - destruct Hb. by apply (Hc a y).
  - destruct Hn. by apply (Ha cur y).
Qed.
Lemma whole_last cur args :
  commas_inside cur -> args <> [] -> Forall whole_arg args -> join (u",") args = cur -> args = [cur].
Proof.
  intros Hc Hne Hw E. destruct Hw as [|a args Ha Hw]; [done|].
  destruct args as [|b args]; [by rewrite <- E|]. rewrite join_cons in E by done.
  destruct Ha as [Hb _]. destruct Hb. by apply (Hc _ _ (eq_sym E)).
Qed.
Lemma commas_inside_snoc cur r :
  commas_inside cur -> unbalanced cur -> ch "," ∉ r -> commas_inside (cur ++ u"," ++ r).
Proof.
  intros Hc Hn Hr x y E.
  destruct (cut_twice (u",") cur r x y eq_refl E) as [[<- _]|[[z ->]|[z ->]]]; [done|..].
  - rewrite <- !app_assoc in E. apply app_inv_head, app_inv_head in E as ->. destruct Hr.
    rewrite !elem_of_app. right. left. left.
  - by apply (Hc x z).
Qed.
Lemma collapse_args_whole cur rest args :
  commas_inside cur -> Forall (fun r => ch "," ∉ r) rest ->
  collapse_args cur rest = Ok args <->
  args <> [] /\ join (u",") args = join (u",") (cur :: rest) /\ Forall whole_arg args.
Proof.
  intros Hc Hr. revert cur args Hc.
  induction Hr as [|r rest Hr _ IH]; intros cur args Hc; cbn [collapse_args];
    pose proof (open_arg_spec cur) as Ho; destruct (open_arg cur).
  - split; [done|]. intros (Hne & E & Hw).
    apply (whole_last cur args Hc Hne Hw) in E as ->. apply Forall_singleton in Hw as [Hb _].
    by destruct Hb; apply Ho.
  - assert (~ unbalanced cur) as Hn by (rewrite <- Ho; done). split.
    + intros [= <-]. split; [done|]. split; [done|]. by apply Forall_singleton.
    + intros (Hne & E & Hw). by rewrite (whole_last cur args Hc Hne Hw E).
  - rewrite IH, join_glue; [done|]. apply commas_inside_snoc; [done|by apply Ho|done].
  - assert (~ unbalanced cur) as Hn by (rewrite <- Ho; done).
    assert (commas_inside r) as Hcr.
    { intros x y ->. destruct Hr. rewrite !elem_of_app. right. left. left. }
    split.
    + intros E. apply res_bind_Ok in E as (args0 & E & [= <-]).
      apply (IH r args0 Hcr) in E as (Hne & E & Hw). split; [done|].
      rewrite !join_cons by done. rewrite E. split; [done|]. by constructor.
    + intros (Hne & E & Hw). rewrite (join_cons _ cur) in E by done.
      destruct Hw as [|a args Ha Hw]; [done|]. destruct args as [|b args].
      { destruct Ha as [_ Ha]. destruct Hn. by apply (Ha _ _ E). }
      rewrite (join_cons _ a) in E by done.
      destruct (whole_first cur a _ _ Ha Hc Hn E) as [-> E'].
      rewrite (proj2 (IH r (b :: args) Hcr)); [done|]. by split_and!.
Qed.
Lemma collapse_args_IndexError cur rest e : collapse_args cur rest = Exc e -> e = IndexError.
Proof.
  revert cur. induction rest as [|r rest IH]; intros cur; cbn [collapse_args];
    destruct (open_arg cur); try congruence; [apply IH|].
  specialize (IH r). destruct (collapse_args r rest) as [l|e'] eqn:El; cbn; [done|].
  intros [= <-]. by apply IH.
Qed.

(** C30: the arguments of a constructor are what lies between the commas that
    are not inside brackets: the result is the one list of texts, at least one
    of them, that joined by commas give the text, in which each text has no
    more opening than closing angle brackets and parentheses, and each comma of
    a text comes when some bracket of it is open.  Empty parentheses have no arguments.  When
    the text has no such arguments, as one whose last bracket is never closed,
    the code raises [IndexError], and nothing else. *)
Theorem constructor_args_spec text args :
  (constructor_args text = Ok args <->
     if text =s [] then args = []
     else args <> [] /\ join (u",") args = text /\ Forall whole_arg args)
  /\ forall e, constructor_args text = Exc e -> e = IndexError.
Proof.
  unfold constructor_args. destruct (text =s []); [split; [split; congruence|done]|].
  pose proof (split_on_join (ch ",") text) as Ej. pose proof (split_on_pieces (ch ",") text) as Hp.
  change [ch ","] with (u",") in Ej, Hp.
  destruct (split_on text (u",")) as [|a rest] eqn:Es; [by apply split_go_not_nil in Es|].
  apply Forall_cons in Hp as [Ha Hr]. split; [|intros e; apply collapse_args_IndexError].
  rewrite collapse_args_whole, Ej; [done| |done].
  intros x y ->. destruct Ha. rewrite !elem_of_app. right. left. left.
Qed.
(** A function type for an argument, and a comparison in a default. *)
Example constructor_args_ex :
  constructor_args (u"F<int(A, B)> f, int b") = Ok [u"F<int(A, B)> f"; u" int b"]
  /\ constructor_args (u"int a = b < c") = Exc IndexError.
Proof. split; vm_compute; reflexivity. Qed.
