(* ===== verification/Spacing.v ===== *)
(** * Spacing checks

    Models lines 2909-3391 of cpplint.py: comments, access macros, blank
    lines, operators, parentheses, commas and braces. *)

From S2P Require Import Prelude PyStr Regex RePattern Lint IncludeState Cleanse Brackets Nesting LineChecks.
From Stdlib Require Import Ascii.

Definition _RE_PATTERN_TODO : regex := rx "^//(\s*)TODO(\(.+?\))?:?(\s|$)?".

(** [line[i] not in string.whitespace] *)
Definition not_space_at (line : list N) (i : Z) : res bool :=
  c ← py_index line i; Ok (negb (is_ascii_space c)).

Definition check_todo (filename : list N) (linenum : Z) (error : ErrorFn) (comment : list N)
    : M unit :=
  match Match _RE_PATTERN_TODO comment with
  | None => mret tt
  | Some m =>
      when (1 <? len (grp m 1))%Z
        (error filename linenum (u"whitespace/todo") 2%Z (u"Too many spaces before TODO"))
        ≫= fun _ =>
      when (match group m 2 with Some (_ :: _) => false | _ => true end)
        (error filename linenum (u"readability/todo") 2%Z
           (u"Missing username in TODO; it should look like " ++ dq
            ++ u"// TODO(my_username): Stuff." ++ dq)) ≫= fun _ =>
      when (match group m 3 with
            | Some w => negb (w =s u" ") && negb (w =s [])
            | None => true
            end)
        (error filename linenum (u"whitespace/todo") 2%Z
           (u"TODO(my_username) should be followed by a space"))
  end.

Definition CheckComment (line filename : list N) (linenum next_line_start : Z) (error : ErrorFn)
    : M unit :=
  let commentpos := find line (u"//") in
  if (commentpos =? -1)%Z then mret tt
  else
    let before := slice line 0 commentpos in
    if Z.even (count before dq - count before (u"\" ++ dq)) then
      bad ← lift (if Matches (rx "^.*{ *//") line && (next_line_start =? commentpos)%Z then Ok false
                  else
                    near ← (if (1 <=? commentpos)%Z then not_space_at line (commentpos - 1)
                            else Ok false);
                    if near : bool then Ok true
                    else if (2 <=? commentpos)%Z then not_space_at line (commentpos - 2)
                    else Ok false);
      when bad
        (error filename linenum (u"whitespace/comments") 2%Z
           (u"At least two spaces is best between code and comments")) ≫= fun _ =>
      let comment := slice_from line commentpos in
      check_todo filename linenum error comment ≫= fun _ =>
      when (Matches (rx "//[^ ]*\w") comment && negb (Matches (rx "(///|//\!)(\s+|$)") comment))
        (error filename linenum (u"whitespace/comments") 4%Z
           (u"Should have a space between // and comment"))
    else mret tt.

Definition CheckAccess (filename : list N) (clean_lines : cleansed_lines) (linenum : Z)
    (nesting : nesting_state) (error : ErrorFn) : M unit :=
  line ← elided_at clean_lines linenum;
  match Match (rx "\s*(DISALLOW_COPY_AND_ASSIGN|DISALLOW_IMPLICIT_CONSTRUCTORS)") line with
  | None => mret tt
  | Some matched =>
      match top_block nesting ≫= is_class with
      | Some c =>
          when (negb (ci_access c =s u"private"))
            (error filename linenum (u"readability/constructors") 3%Z
               (grp matched 1 ++ u" must be in the private: section"))
      | None => mret tt
      end
  end.

(** ** Blank lines, comments, brackets *)

(** Climb over the lines of an initializer list; [fuel] bounds the climb. *)
Fixpoint initializer_start (fuel : nat) (elided : list (list N)) (search_position : Z) : res Z :=
  if (0 <=? search_position)%Z then
    match fuel with
    | 0 => Exc OutOfFuel
    | S f =>
        line ← py_index elided search_position;
        if Matches (rx " {6}\w") line
        then initializer_start f elided (search_position - 1) else Ok search_position
    end
  else Ok search_position.
(** Whether a blank line may follow the brace of [prev_line]. *)
Definition blank_exception (elided : list (list N)) (linenum : Z) (prev_line : list N) : res bool :=
  if Matches (rx " {6}\w") prev_line then
    search_position ← initializer_start (Z.to_nat linenum) elided (linenum - 2);
    if (0 <=? search_position)%Z then
      line ← py_index elided search_position;
      Ok (slice_to line 5 =s u"    :")
    else Ok false
  else Ok (Matches (rx " {4}\w[^\(]*\)\s*(const\s*)?(\{\s*$|:)") prev_line
           || Matches (rx " {4}:") prev_line).

Definition check_blank_line (filename : list N) (clean_lines : cleansed_lines) (linenum : Z)
    (error : ErrorFn) : M unit :=
  prev_line ← elided_at clean_lines (linenum - 1);
  let prevbrace := rfind prev_line (u"{") in
  _ ← (if negb (prevbrace =? -1)%Z && (find (slice_from prev_line prevbrace) (u"}") =? -1)%Z then
         exception ← lift (blank_exception (elided clean_lines) linenum prev_line);
         when (negb exception)
           (error filename linenum (u"whitespace/blank_line") 2%Z
              (u"Redundant blank line at the start of a code block should be deleted."))
       else mret tt);
  _ ← (if (linenum + 1 <? NumLines clean_lines)%Z then
         next_line ← lift (py_index (lines_without_raw_strings clean_lines) (linenum + 1));
         when (negb (next_line =s []) && Matches (rx "\s*}") next_line
               && (find next_line (u"} else ") =? -1)%Z)
           (error filename linenum (u"whitespace/blank_line") 3%Z
              (u"Redundant blank line at the end of a code block should be deleted."))
       else mret tt);
  match Match (rx "\s*(public|protected|private):") prev_line with
  | Some matched =>
      error filename linenum (u"whitespace/blank_line") 3%Z
        (u"Do not leave a blank line after " ++ dq ++ grp matched 1 ++ u":" ++ dq)
  | None => mret tt
  end.

Definition CheckSpacing (filename : list N) (clean_lines : cleansed_lines) (linenum : Z)
    (nesting : nesting_state) (error : ErrorFn) : M unit :=
  let raw := lines_without_raw_strings clean_lines in
  line ← lift (py_index raw linenum);
  _ ← (if IsBlankLine line && negb (InNamespaceBody nesting) && negb (InExternC nesting)
       then check_blank_line filename clean_lines linenum error else mret tt);
  next_line_start ← (if (linenum + 1 <? NumLines clean_lines)%Z then
                       next_line ← lift (py_index raw (linenum + 1));
                       mret (len next_line - len (lstrip next_line))%Z
                     else mret 0%Z);
  _ ← CheckComment line filename linenum next_line_start error;
  line ← elided_at clean_lines linenum;
  when (Searches (rx "\w\s+\[") line && negb (Searches (rx "(?:delete|return)\s+\[") line))
    (error filename linenum (u"whitespace/braces") 5%Z (u"Extra space before [")) ≫= fun _ =>
  when (Searches (rx "for *\(.*[^:]:[^: ]") line || Searches (rx "for *\(.*[^: ]:[^:]") line)
    (error filename linenum (u"whitespace/forcolon") 2%Z
       (u"Missing space around colon in range-based for loop")).

(** ** Operators *)

(** Blank the name of the operator methods. *)
Fixpoint hide_operators (fuel : nat) (line : list N) : res (list N) :=
  match Match (rx "^(.*\boperator\b)(\S+)(\s*\(.*)$") line with
  | None => Ok line
  | Some m =>
      match fuel with
      | 0 => Exc OutOfFuel
      | S f => hide_operators f (grp m 1 ++ replicate (length (grp m 2)) (ch "_") ++ grp m 3)
      end
  end.

(** The checks of [<] and [>]; [line] has its operator methods hidden. *)
Definition check_angles (filename : list N) (clean_lines : cleansed_lines) (linenum : Z)
    (error : ErrorFn) (line : list N) : M unit :=
  _ ← match Match (rx "^(.*[^\s<])<[^\s=<,]") line with
      | Some m =>
          '(_, _, end_pos) ← lift (CloseExpression clean_lines linenum (len (grp m 1)));
          when (end_pos <=? -1)%Z
            (error filename linenum (u"whitespace/operators") 3%Z (u"Missing spaces around <"))
      | None => mret tt
      end;
  match Match (rx "^(.*[^-\s>])>[^\s=>,]") line with
  | Some m =>
      '(_, _, start_pos) ← lift (ReverseCloseExpression clean_lines linenum (len (grp m 1)));
      when (start_pos <=? -1)%Z
        (error filename linenum (u"whitespace/operators") 3%Z (u"Missing spaces around >"))
  | None => mret tt
  end.

Definition CheckOperatorSpacing `{UnicodeDB} (filename : list N) (clean_lines : cleansed_lines)
    (linenum : Z) (error : ErrorFn) : M unit :=
  line ← elided_at clean_lines linenum;
  line ← lift (hide_operators (S (length line)) line);
  when ((Searches (rx "[\w.]=") line || Searches (rx "=[\w.]") line)
        && negb (Searches (rx "\b(if|while|for) ") line)
        && negb (Searches (rx "(>=|<=|==|!=|&=|\^=|\|=|\+=|\*=|\/=|\%=)") line)
        && negb (Searches (rx "operator=") line))
    (error filename linenum (u"whitespace/operators") 4%Z (u"Missing spaces around =")) ≫= fun _ =>
  _ ← match Search (rx "[^<>=!\s](==|!=|<=|>=|\|\|)[^<>=!\s,;\)]") line with
      | Some m =>
          error filename linenum (u"whitespace/operators") 3%Z
            (u"Missing spaces around " ++ grp m 1)
      | None =>
          if negb (Matches (rx "#.*include") line)
          then check_angles filename clean_lines linenum error line else mret tt
      end;
  _ ← match Search (rx "(operator|[^\s(<])(?:L|UL|ULL|l|ul|ull)?<<([^\s,=<])") line with
      | Some m =>
          when (negb (isdigit (grp m 1) && isdigit (grp m 2))
                && negb ((grp m 1 =s u"operator") && (grp m 2 =s u";")))
            (error filename linenum (u"whitespace/operators") 3%Z (u"Missing spaces around <<"))
      | None => mret tt
      end;
  when (Searches (rx ">>[a-zA-Z_]") line)
    (error filename linenum (u"whitespace/operators") 3%Z (u"Missing spaces around >>")) ≫= fun _ =>
  match Search (rx "(!\s|~\s|[\s]--[\s;]|[\s]\+\+[\s;])") line with
  | Some m =>
      error filename linenum (u"whitespace/operators") 4%Z
        (u"Extra space for operator " ++ grp m 1)
  | None => mret tt
  end.

(** ** Parentheses, commas, braces *)

Definition CheckParenthesisSpacing (filename : list N) (clean_lines : cleansed_lines)
    (linenum : Z) (error : ErrorFn) : M unit :=
  line ← elided_at clean_lines linenum;
  let err := error filename linenum (u"whitespace/parens") 5%Z in
  _ ← match Search (rx " (if\(|for\(|while\(|switch\()") line with
      | Some m => err (u"Missing space before ( in " ++ grp m 1)
      | None => mret tt
      end;
  match Search (rx "\b(if|for|while|switch)\s*\(([ ]*)(.).*[^ ]+([ ]*)\)\s*{\s*$") line with
  | None => mret tt
  | Some m =>
      let n2 := len (grp m 2) in
      let n4 := len (grp m 4) in
      when (negb (n2 =? n4)%Z
            && negb (((grp m 3 =s u";") && (n2 =? 1 + n4)%Z)
                     || ((n2 =? 0)%Z && Searches (rx "\bfor\s*\(.*; \)") line)))
        (err (u"Mismatching spaces inside () in " ++ grp m 1)) ≫= fun _ =>
      when (negb ((n2 =? 0)%Z || (n2 =? 1)%Z))
        (err (u"Should have zero or one spaces inside ( and ) in " ++ grp m 1))
  end.

Definition CheckCommaSpacing (filename : list N) (clean_lines : cleansed_lines) (linenum : Z)
    (error : ErrorFn) : M unit :=
  line ← elided_at clean_lines linenum;
  comma ← lift (if Searches (rx ",[^,\s]") (ReplaceAll (rx "\boperator\s*,\s*\(") (u"F(") line)
                then raw ← py_index (lines_without_raw_strings clean_lines) linenum;
                     Ok (Searches (rx ",[^,\s]") raw)
                else Ok false);
  when comma (error filename linenum (u"whitespace/comma") 3%Z (u"Missing space after ,"))
    ≫= fun _ =>
  when (Searches (rx ";[^\s};\\)/]") line)
    (error filename linenum (u"whitespace/semicolon") 3%Z (u"Missing space after ;")).

(** The cleansed lines at some indices, one after the other. *)
Fixpoint concat_elided (clean_lines : cleansed_lines) (ixs : list Z) : res (list N) :=
  match ixs with
  | [] => Ok []
  | i :: ixs' =>
      line ← py_index (elided clean_lines) i;
      rest ← concat_elided clean_lines ixs';
      Ok (line ++ rest)
  end.

Definition CheckBracesSpacing (filename : list N) (clean_lines : cleansed_lines) (linenum : Z)
    (error : ErrorFn) : M unit :=
  line ← elided_at clean_lines linenum;
  _ ← match Match (rx "^(.*[^ ({>]){") line with
      | None => mret tt
      | Some m =>
          '(endline, endlinenum, endpos) ←
            lift (CloseExpression clean_lines linenum (len (grp m 1)));
          let trailing_text := if (-1 <? endpos)%Z then slice_from endline endpos else [] in
          more ← lift (concat_elided clean_lines
                   (xrange (endlinenum + 1) (Z.min (endlinenum + 3) (NumLines clean_lines - 1))));
          when (negb (Matches (rx "^[\s}]*[{.;,)<>\]:]") (trailing_text ++ more)))
            (error filename linenum (u"whitespace/braces") 5%Z (u"Missing space before {"))
      end;
  when (Searches (rx "}else") line)
    (error filename linenum (u"whitespace/braces") 5%Z (u"Missing space before else")) ≫= fun _ =>
  if Searches (rx ":\s*;\s*$") line then
    error filename linenum (u"whitespace/semicolon") 5%Z
      (u"Semicolon defining empty statement. Use {} instead.")
  else if Searches (rx "^\s*;\s*$") line then
    error filename linenum (u"whitespace/semicolon") 5%Z
      (u"Line contains only semicolon. If this should be an empty statement, use {} instead.")
  else
    when (Searches (rx "\s+;\s*$") line && negb (Searches (rx "\bfor\b") line))
      (error filename linenum (u"whitespace/semicolon") 5%Z
         (u"Extra space before last semicolon. If this should be an empty statement, use {} instead.")).
