(* ===== verification/RValue.v ===== *)
(** * Rvalue references

    Models lines 3394-3809 of cpplint.py.  [IsRValueType] calls itself; the
    recursion depth Python allows is the argument [fuel], and running out of
    it raises [RuntimeError].  The recursion need not end:
    [IsRValueType_diverges]. *)

From S2P Require Import Prelude PyStr Regex RePattern Lint IncludeState Cleanse Brackets Nesting LineChecks.
From Stdlib Require Import Ascii.

Definition IsDecltype (clean_lines : cleansed_lines) (linenum column : Z) : res bool :=
  '(text, _, start_col) ← ReverseCloseExpression clean_lines linenum column;
  if (start_col <? 0)%Z then Ok false
  else Ok (Searches (rx "\bdecltype\s*$") (slice text 0 start_col)).

Definition IsTemplateParameterList (clean_lines : cleansed_lines) (linenum column : Z) : res bool :=
  '(_, startline, startpos) ← ReverseCloseExpression clean_lines linenum column;
  if (-1 <? startpos)%Z then
    line ← py_index (elided clean_lines) startline;
    Ok (Searches (rx "\btemplate\s*$") (slice line 0 startpos))
  else Ok false.

Definition basic_types : list (list N) :=
  [u"char"; u"char16_t"; u"char32_t"; u"wchar_t"; u"bool"; u"short"; u"int"; u"long"; u"signed";
   u"unsigned"; u"float"; u"double"; u"void"; u"auto"; u">"; u"*"; u"&"].

(** The search backwards for a symbol: the line it is on, and the match. *)
Fixpoint find_symbol (fuel : nat) (clean_lines : cleansed_lines) (start : Z) (line : list N)
    : res (Z * option match_obj) :=
  if (0 <=? start)%Z then
    match Match (rx "^(.*)([^\w\s,])[\w\s,]*$") line with
    | Some m => Ok (start, Some m)
    | None =>
        match fuel with
        | 0 => Exc OutOfFuel
        | S f =>
            let start := (start - 1)%Z in
            line ← py_index (elided clean_lines) start;
            find_symbol f clean_lines start line
        end
    end
  else Ok (start, None).

(** The text of the lines [ixs], each put before what follows it. *)
Fixpoint prepend_elided (clean_lines : cleansed_lines) (ixs : list Z) (text : list N)
    : res (list N) :=
  match ixs with
  | [] => Ok text
  | i :: ixs' =>
      line ← py_index (elided clean_lines) i;
      prepend_elided clean_lines ixs' (line ++ text)
  end.

(** The scan of a block for a semicolon: [Some b] when it answers. *)
Fixpoint block_scan_line (line : list N) (depth : Z) : option bool * Z :=
  match line with
  | [] => (None, depth)
  | c :: line' =>
      if c =c ch ";" then (Some true, depth)
      else if c =c ch "{" then block_scan_line line' (depth + 1)
      else if c =c ch "}" then
        if (depth - 1 =? 0)%Z then (Some false, 0%Z) else block_scan_line line' (depth - 1)
      else block_scan_line line' depth
  end.
Fixpoint block_scan (fuel : nat) (clean_lines : cleansed_lines) (line : list N) (end_ depth : Z)
    : res bool :=
  match block_scan_line line depth with
  | (Some b, _) => Ok b
  | (None, depth) =>
      let end_ := (end_ + 1)%Z in
      if (NumLines clean_lines <=? end_)%Z then Ok false
      else
        match fuel with
        | 0 => Exc OutOfFuel
        | S f =>
            line ← py_index (elided clean_lines) end_;
            block_scan f clean_lines line end_ depth
        end
  end.

Fixpoint IsRValueType (fuel : nat) (typenames : gset (list N)) (clean_lines : cleansed_lines)
    (nesting : nesting_state) (linenum column : Z) : res bool :=
  match fuel with
  | 0 => Exc (RuntimeError (u"maximum recursion depth exceeded"))
  | S f =>
      full ← py_index (elided clean_lines) linenum;
      let prefix := slice full 0 column in
      match Match (rx "^(.*)(\b\w+|[>*)&])\s*$") prefix with
      | None => Ok false
      | Some m =>
          let suffix := slice_from full column in
          if Matches (rx "&&\s*(?:[>,]|\.\.\.)") suffix then Ok true
          else if bool_decide (grp m 2 ∈ typenames) || in_strs (grp m 2) basic_types then Ok true
          else if grp m 2 =s u")" then
            IsDecltype clean_lines linenum (len (grp m 1) + len (grp m 2) - 1)
          else if Searches (rx "\b(?:const_cast\s*<|static_cast\s*<|dynamic_cast\s*<|reinterpret_cast\s*<|\w+\s)\s*$") (grp m 1)
          then Ok true
          else
            '(start, match_symbol) ←
              find_symbol (S (Z.to_nat linenum)) clean_lines linenum (grp m 1);
            match match_symbol with
            | None => Ok true
            | Some ms =>
                let symbol := grp ms 2 in
                if symbol =s u"}" then Ok true
                else if symbol =s u";" then
                  before_text ← prepend_elided clean_lines
                    (xrange_down (start - 1) (Z.max (start - 6) 0)) (grp ms 1);
                  Ok (negb (Searches (rx "for\s*\([^{};]*$") before_text))
                else if symbol =s u"{" then
                  line ← py_index (elided clean_lines) start;
                  block_scan (Z.to_nat (NumLines clean_lines)) clean_lines
                    (slice line 0 (len (grp ms 1) + 1)) start 1
                else if symbol =s u"(" then
                  let before_text := grp ms 1 in
                  if Searches (rx "(?:\]|\bfor|\bsizeof|\boperator\s*\S+\s*)\s*$") before_text
                  then Ok true
                  else if Searches (rx "(?:\bif|\bwhile|[-+=%^(<!?:,&*]\s*)$") before_text
                  then Ok false
                  else
                    match Match (rx "^(.*\S.*)\s+\w(?:\w|::)*(?:<[^<>]*>)?\s*$") (grp ms 1) with
                    | Some match_func =>
                        if Searches (rx "\b(?:explicit|inline)$") (grp match_func 1) then Ok true
                        else
                          let implicit_constructor :=
                            match Match (rx "\s*(\w+)\((?:const\s+)?(\w+)") prefix with
                            | Some ic => grp ic 1 =s grp ic 2
                            | None => false
                            end in
                          if implicit_constructor then Ok true
                          else IsRValueType f typenames clean_lines nesting linenum
                                 (len (grp match_func 1))
                    | None =>
                        Ok (match previous_stack_top nesting with
                            | Some a => negb (IsBlockInfo (deref (heap nesting) a))
                            | None => true
                            end)
                    end
                else if symbol =s u">" then
                  IsTemplateParameterList clean_lines start (len (grp ms 1))
                else Ok false
            end
      end
  end.

Definition IsDeletedOrDefault (clean_lines : cleansed_lines) (linenum : Z) : res bool :=
  line ← py_index (elided clean_lines) linenum;
  let open_paren := find line (u"(") in
  if (open_paren <? 0)%Z then Ok false
  else
    '(close_line, _, close_paren) ← CloseExpression clean_lines linenum open_paren;
    if (close_paren <? 0)%Z then Ok false
    else Ok (Matches (rx "\s*=\s*(?:delete|default)\b") (slice_from close_line close_paren)).

Definition rvalue_region : regex := rx "GOOGLE_ALLOW_RVALUE_REFERENCES_(?:PUSH|POP)".
(** The next region macro from [linenum] on, if there is one. *)
Fixpoint region_end (clean_lines : cleansed_lines) (ixs : list Z) : res (option bool) :=
  match ixs with
  | [] => Ok None
  | j :: ixs' =>
      line ← py_index (elided clean_lines) j;
      if Matches rvalue_region line then Ok (Some (ends (u"POP") line))
      else region_end clean_lines ixs'
  end.
(** The search for a region around the line: the answer, if it gives one.  A
    region that is not closed lets the search go on. *)
Fixpoint in_region (clean_lines : cleansed_lines) (linenum : Z) (ixs : list Z)
    : res (option bool) :=
  match ixs with
  | [] => Ok None
  | i :: ixs' =>
      line ← py_index (elided clean_lines) i;
      if Matches rvalue_region line then
        if negb (ends (u"PUSH") line) then Ok (Some false)
        else
          closed ← region_end clean_lines (xrange linenum (NumLines clean_lines));
          match closed with
          | Some b => Ok (Some b)
          | None => in_region clean_lines linenum ixs'
          end
      else in_region clean_lines linenum ixs'
  end.

(** Remove the rvalue references to template arguments: [None] when another
    one is found. *)
Fixpoint strip_forwarded (fuel : nat) (typenames : gset (list N)) (line : list N)
    : res (option (list N)) :=
  match line with
  | [] => Ok (Some [])
  | _ =>
      match Match (rx "^.*?(\w+)\s*&&(.*)$") line with
      | None => Ok (Some line)
      | Some m =>
          if bool_decide (grp m 1 ∈ typenames) then
            match fuel with
            | 0 => Exc OutOfFuel
            | S f => strip_forwarded f typenames (grp m 2)
            end
          else Ok None
      end
  end.

Definition IsRValueAllowed (clean_lines : cleansed_lines) (linenum : Z)
    (typenames : gset (list N)) : res bool :=
  region ← in_region clean_lines linenum (xrange_down linenum 0);
  match region with
  | Some b => Ok b
  | None =>
      line ← py_index (elided clean_lines) linenum;
      if Searches (rx "\boperator\s*=\s*\(") line then IsDeletedOrDefault clean_lines linenum
      else if match Match (rx "\s*(?:[\w<>]+::)*([\w<>]+)\s*::\s*([\w<>]+)\s*\(") line with
              | Some m => grp m 1 =s grp m 2
              | None => false
              end
      then IsDeletedOrDefault clean_lines linenum
      else if Searches (rx "\b(?:explicit|inline)\s+[\w<>]+\s*\(") line
      then IsDeletedOrDefault clean_lines linenum
      else
        special ← (if Matches (rx "\s*[\w<>]+\s*\(") line then
                     previous_line ← (if (0 <? linenum)%Z
                                      then py_index (elided clean_lines) (linenum - 1)
                                      else Ok (u"ReturnType"));
                     Ok (Matches (rx "^\s*$") previous_line
                         || Searches (rx "[{}:;]\s*$") previous_line)
                   else Ok false);
        if special : bool then IsDeletedOrDefault clean_lines linenum
        else
          rest ← strip_forwarded (length line) typenames line;
          match rest with
          | None => Ok false
          | Some rest => Ok (find rest (u"&&") <? 0)%Z
          end
  end.

(** The start of the function: its line, or [None] for no arguments. *)
Fixpoint find_func_line (fuel : nat) (clean_lines : cleansed_lines) (func_line : Z)
    : res (option Z) :=
  if (0 <? func_line)%Z then
    line ← py_index (elided clean_lines) func_line;
    if Matches (rx "^\s*$") line then Ok None
    else if (0 <=? find line (u"("))%Z then Ok (Some func_line)
    else
      match fuel with
      | 0 => Exc OutOfFuel
      | S f => find_func_line f clean_lines (func_line - 1)
      end
  else Ok (if (func_line =? 0)%Z then None else Some func_line).

(** The lines from [start_col] of the first on, without the last one. *)
Fixpoint join_arguments (clean_lines : cleansed_lines) (ixs : list Z) (start_col : Z)
    (argument_list : list N) : res (list N * Z) :=
  match ixs with
  | [] => Ok (argument_list, start_col)
  | i :: ixs' =>
      line ← py_index (elided clean_lines) i;
      join_arguments clean_lines ixs' 0 (argument_list ++ slice_from line start_col)
  end.

Fixpoint extract_typenames (fuel : nat) (argument_list : list N) (acc : gset (list N))
    : res (gset (list N)) :=
  match Match (rx "^[,\s]*(?:typename|class)(?:\.\.\.)?\s+(\w+)(.*)$") argument_list with
  | None => Ok acc
  | Some m =>
      match fuel with
      | 0 => Exc OutOfFuel
      | S f => extract_typenames f (grp m 2) ({[grp m 1]} ∪ acc)
      end
  end.

Definition GetTemplateArgs (clean_lines : cleansed_lines) (linenum : Z) : res (gset (list N)) :=
  func ← find_func_line (Z.to_nat linenum) clean_lines linenum;
  match func with
  | None => Ok ∅
  | Some func_line =>
      line ← py_index (elided clean_lines) func_line;
      argument_list ←
        match Match (rx "^(\s*template\s*)<") line with
        | Some m =>
            let start_col := len (grp m 1) in
            '(_, end_line, end_col) ← CloseExpression clean_lines func_line start_col;
            if (-1 <? end_col)%Z && (end_line =? func_line)%Z
            then Ok (slice line (start_col + 1) end_col) else Ok []
        | None =>
            if (1 <? func_line)%Z then
              prev ← py_index (elided clean_lines) (func_line - 1);
              match Match (rx "^(.*)>\s*$") prev with
              | None => Ok []
              | Some m =>
                  let end_col := len (grp m 1) in
                  '(_, start_line, start_col) ←
                    ReverseCloseExpression clean_lines (func_line - 1) end_col;
                  if (-1 <? start_col)%Z then
                    '(args, start_col) ← join_arguments clean_lines
                      (xrange start_line (func_line - 1)) (start_col + 1) [];
                    Ok (args ++ slice prev start_col end_col)
                  else Ok []
              end
            else Ok []
        end;
      extract_typenames (length argument_list) argument_list ∅
  end.

(** The number of nested calls before Python gives up: the order of
    magnitude is [sys.getrecursionlimit()], and no theorem depends on it. *)
Definition recursion_limit : nat := 1000.

Definition CheckRValueReference (filename : list N) (clean_lines : cleansed_lines)
    (linenum : Z) (nesting : nesting_state) (error : ErrorFn) : M unit :=
  line ← elided_at clean_lines linenum;
  let m :=
    match Match (rx "^(.*\S)&&") line with
    | Some m => Some m
    | None => Match (rx "(.*)&&\S") line
    end in
  match m with
  | None => mret tt
  | Some m =>
      if contains (u"(&&)") line || Searches (rx "\boperator\s*$") (grp m 1) then mret tt
      else
        typenames ← lift (GetTemplateArgs clean_lines linenum);
        is_type ← lift (IsRValueType recursion_limit typenames clean_lines nesting linenum
                          (len (grp m 1)));
        if is_type : bool then
          allowed ← lift (IsRValueAllowed clean_lines linenum typenames);
          when (negb allowed)
            (error filename linenum (u"build/c++11") 3%Z
               (u"RValue references are an unapproved C++ feature."))
        else
          error filename linenum (u"whitespace/operators") 3%Z (u"Missing spaces around &&")
  end.

(** ** The recursion of IsRValueType need not end

    The recursive call gives a column of the line where the function name is,
    but looks it up in the line of the [&&].  When the function name is on
    another line, the column can be the one the call was made for. *)
Definition looping_file : cleansed_lines :=
  plain_lines [u""; u"aaaaaaaaaaaa bbb("; u"         foo&&bar);"].
Lemma looping_step f :
  IsRValueType (S f) ∅ looping_file new_NestingState 2 12
  = IsRValueType f ∅ looping_file new_NestingState 2 12.
Proof. vm_compute. reflexivity. Qed.

(** C37: a file of three lines on which [IsRValueType] calls itself with the
    same arguments for ever: at every recursion depth it ends by exhausting
    it. *)
Theorem IsRValueType_diverges depth :
  IsRValueType depth ∅ looping_file new_NestingState 2 12
  = Exc (RuntimeError (u"maximum recursion depth exceeded")).
Proof. induction depth as [|d IH]; [done|]. by rewrite looping_step. Qed.
