(* ===== verification/Style.v ===== *)
(** * Style checks: sections, braces, macros, lines

    Models lines 409-463, 3811-4347, 4350-4488 of cpplint.py, with
    [CheckStyle], which runs the style checks of a line. *)

From S2P Require Import Prelude PyStr Regex RePattern Lint FileInfo IncludeState Cleanse Brackets Nesting LineChecks Spacing RValue.
From Stdlib Require Import Ascii.

(** ** Sections of a class *)

Fixpoint class_head_end (lines : list (list N)) (ixs : list Z) (default : Z) : res Z :=
  match ixs with
  | [] => Ok default
  | i :: ixs' =>
      line ← py_index lines i;
      if Searches (rx "\{\s*$") line then Ok i else class_head_end lines ixs' default
  end.
Definition CheckSectionSpacing (filename : list N) (clean_lines : cleansed_lines)
    (class_info : class_info) (linenum : Z) (error : ErrorFn) : M unit :=
  if (ci_last_line class_info - ci_starting_linenum class_info <=? 24)%Z
     || (linenum <=? ci_starting_linenum class_info)%Z then mret tt
  else
    line ← line_at clean_lines linenum;
    match Match (rx "\s*(public|protected|private):") line with
    | None => mret tt
    | Some matched =>
        prev_line ← line_at clean_lines (linenum - 1);
        if negb (IsBlankLine prev_line) && negb (Searches (rx "\b(class|struct)\b") prev_line)
           && negb (Searches (rx "\\$") prev_line) then
          end_class_head ← lift (class_head_end (lines clean_lines)
            (xrange (ci_starting_linenum class_info) linenum) (ci_starting_linenum class_info));
          when (end_class_head <? linenum - 1)%Z
            (error filename linenum (u"whitespace/blank_line") 3%Z
               (dq ++ grp matched 1 ++ u":" ++ dq ++ u" should be preceded by a blank line"))
        else mret tt
    end.

(** The loop goes over the indices below [linenum]. *)
Fixpoint previous_non_blank (clean_lines : cleansed_lines) (ixs : list Z) : res (list N * Z) :=
  match ixs with
  | [] => Ok ([], (-1)%Z)
  | prevlinenum :: ixs' =>
      prevline ← py_index (elided clean_lines) prevlinenum;
      if negb (IsBlankLine prevline) then Ok (prevline, prevlinenum)
      else previous_non_blank clean_lines ixs'
  end.
Definition GetPreviousNonBlankLine (clean_lines : cleansed_lines) (linenum : Z)
    : res (list N * Z) :=
  previous_non_blank clean_lines (xrange_down (linenum - 1) (-1)).

(** ** Braces *)

(** The first line from [endlinenum] on with a semicolon, after [endpos] on
    that line: [None] past the end of the file. *)
Fixpoint find_semicolon (fuel : nat) (clean_lines : cleansed_lines) (endlinenum endpos : Z)
    : res (option Z) :=
  if (endlinenum <? len (elided clean_lines))%Z then
    line ← py_index (elided clean_lines) endlinenum;
    if in_chars (ch ";") (slice_from line endpos) then Ok (Some endlinenum)
    else
      match fuel with
      | 0 => Exc OutOfFuel
      | S f => find_semicolon f clean_lines (endlinenum + 1) 0
      end
  else Ok None.

(** The body of an [if] or [else] without braces. *)
Definition check_if_else (filename : list N) (clean_lines : cleansed_lines) (linenum : Z)
    (error : ErrorFn) (line : list N) (if_else_match : match_obj) : M unit :=
  let if_indent := GetIndentLevel line in
  let if_match := Search (rx "\bif\s*\(") line in
  '(endline, endlinenum, endpos) ←
    match if_match with
    | Some m => lift (CloseExpression clean_lines linenum (m_end m - 1))
    | None => mret (line, linenum, m_end if_else_match)
    end;
  let n := len (elided clean_lines) in
  let err := error filename linenum (u"readability/braces") 4%Z in
  braced ← lift (if Matches (rx "\s*{") (slice_from endline endpos) then Ok true
                 else if Matches (rx "\s*$") (slice_from endline endpos)
                         && (endlinenum <? n - 1)%Z then
                   next ← py_index (elided clean_lines) (endlinenum + 1);
                   Ok (Matches (rx "\s*{") next)
                 else Ok false);
  if braced : bool then mret tt
  else
    semi ← lift (find_semicolon (length (elided clean_lines)) clean_lines endlinenum endpos);
    match semi with
    | None => mret tt
    | Some endlinenum =>
        endline ← elided_at clean_lines endlinenum;
        let endpos := find endline (u";") in
        if negb (Matches (rx ";[\s}]*(\\?)$") (slice_from endline endpos)) then
          when (negb (Matches (rx "^[^{};]*\[[^\[\]]*\][^{}]*\{[^{}]*\}\s*\)*[;,]\s*$") endline))
            (err (u"If/else bodies with multiple statements require braces"))
        else if (endlinenum <? n - 1)%Z then
          next_line ← elided_at clean_lines (endlinenum + 1);
          let next_indent := GetIndentLevel next_line in
          if is_match if_match && Matches (rx "\s*else\b") next_line
             && negb (next_indent =? if_indent)%Z then
            err (u"Else clause should be indented at the same level as if. Ambiguous nested if/else chains require braces.")
          else
            when (if_indent <? next_indent)%Z
              (err (u"If/else bodies with multiple statements require braces"))
        else mret tt
    end.

(** The checks of where braces stand around an [else]. *)
Definition check_else (filename : list N) (clean_lines : cleansed_lines) (linenum : Z)
    (error : ErrorFn) (line : list N) : M unit :=
  _ ← (if Matches (rx "\s*else\b\s*(?:if\b|\{|$)") line then
         '(prevline, _) ← lift (GetPreviousNonBlankLine clean_lines linenum);
         when (Matches (rx "\s*}\s*$") prevline)
           (error filename linenum (u"whitespace/newline") 4%Z
              (u"An else should appear on the same line as the preceding }"))
       else mret tt);
  let one_side := error filename linenum (u"readability/braces") 5%Z
    (u"If an else has a brace on one side, it should have it on both") in
  _ ← (if Searches (rx "else if\s*\(") line then
         let brace_on_left := Searches (rx "}\s*else if\s*\(") line in
         let pos := find_from line (u"(") (find line (u"else if")) in
         if (0 <? pos)%Z then
           '(endline, _, endpos) ← lift (CloseExpression clean_lines linenum pos);
           let brace_on_right := negb (find (slice_from endline endpos) (u"{") =? -1)%Z in
           when (negb (Bool.eqb brace_on_left brace_on_right)) one_side
         else mret tt
       else
         when (Searches (rx "}\s*else[^{]*$") line || Matches (rx "[^}]*else\s*{") line) one_side);
  when (Searches (rx "\belse [^\s{]") line && negb (Searches (rx "\belse if\b") line))
    (error filename linenum (u"whitespace/newline") 4%Z
       (u"Else clause should never be on same line as else (use 2 lines)")).

Definition CheckBraces (filename : list N) (clean_lines : cleansed_lines) (linenum : Z)
    (error : ErrorFn) : M unit :=
  line ← elided_at clean_lines linenum;
  _ ← (if Matches (rx "\s*{\s*$") line then
         '(prevline, _) ← lift (GetPreviousNonBlankLine clean_lines linenum);
         when (negb (Searches (rx "[,;:}{(]\s*$") prevline) && negb (Matches (rx "\s*#") prevline))
           (error filename linenum (u"whitespace/braces") 4%Z
              (u"{ should almost always be at the end of the previous line"))
       else mret tt);
  _ ← check_else filename clean_lines linenum error line;
  when (Matches (rx "\s*do [^\s{]") line)
    (error filename linenum (u"whitespace/newline") 4%Z
       (u"do/while clauses should not be on a single line")) ≫= fun _ =>
  match Search (rx "\b(if\s*\(|else\b)") line with
  | Some m =>
      if negb (Matches (rx "\s*#") line)
      then check_if_else filename clean_lines linenum error line m else mret tt
  | None => mret tt
  end.

Definition safe_macros : list (list N) :=
  [u"TEST"; u"TEST_F"; u"MATCHER"; u"MATCHER_P"; u"TYPED_TEST"; u"EXCLUSIVE_LOCKS_REQUIRED";
   u"SHARED_LOCKS_REQUIRED"; u"LOCKS_EXCLUDED"; u"INTERFACE_DEF"].
(** Whether the text before a parenthesis rules the block out. *)
Definition exempt_prefix (line_prefix : list N) : bool :=
  match Search (rx "\b([A-Z_]+)\s*$") line_prefix with
  | Some macro => negb (in_strs (grp macro 1) safe_macros)
  | None => false
  end
  || match Match (rx "^(.*\])\s*$") line_prefix with
     | Some func => negb (Searches (rx "\boperator\s*\[\s*\]") (grp func 1))
     | None => false
     end
  || Searches (rx "\b(?:struct|union)\s+alignas\s*$") line_prefix
  || Searches (rx "\s+=\s*$") line_prefix.
(** The text before the brace of a block that takes no semicolon. *)
Definition semicolon_block (clean_lines : cleansed_lines) (linenum : Z) (line : list N)
    : res (option (list N)) :=
  match Match (rx "^(.*\)\s*)\{") line with
  | Some m =>
      let closing_brace_pos := rfind (grp m 1) (u")") in
      '(oline, olinenum, opos) ← ReverseCloseExpression clean_lines linenum closing_brace_pos;
      if (-1 <? opos)%Z && exempt_prefix (slice oline 0 opos) then Ok None
      else if (1 <? olinenum)%Z then
        prev ← py_index (elided clean_lines) (olinenum - 1);
        Ok (if Searches (rx "\]\s*$") prev then None else Some (grp m 1))
      else Ok (Some (grp m 1))
  | None =>
      match Match (rx "^(.*(?:else|\)\s*const)\s*)\{") line with
      | Some m => Ok (Some (grp m 1))
      | None =>
          '(prevline, _) ← GetPreviousNonBlankLine clean_lines linenum;
          if negb (prevline =s []) && Searches (rx "[;{}]\s*$") prevline
          then Ok ((fun m => grp m 1) <$> Match (rx "^(\s*)\{") line)
          else Ok None
      end
  end.
Definition CheckTrailingSemicolon (filename : list N) (clean_lines : cleansed_lines)
    (linenum : Z) (error : ErrorFn) : M unit :=
  line ← elided_at clean_lines linenum;
  before ← lift (semicolon_block clean_lines linenum line);
  match before with
  | None => mret tt
  | Some g1 =>
      '(endline, endlinenum, endpos) ← lift (CloseExpression clean_lines linenum (len g1));
      when ((-1 <? endpos)%Z && Matches (rx "^\s*;") (slice_from endline endpos))
        (error filename endlinenum (u"readability/braces") 4%Z
           (u"You don't need a ; after a }"))
  end.

Definition CheckEmptyBlockBody (filename : list N) (clean_lines : cleansed_lines) (linenum : Z)
    (error : ErrorFn) : M unit :=
  line ← elided_at clean_lines linenum;
  match Match (rx "\s*(for|while|if)\s*\(") line with
  | None => mret tt
  | Some matched =>
      '(end_line, end_linenum, end_pos) ←
        lift (CloseExpression clean_lines linenum (find line (u"(")));
      when ((0 <=? end_pos)%Z && Matches (rx ";") (slice_from end_line end_pos))
        (if grp matched 1 =s u"if" then
           error filename end_linenum (u"whitespace/empty_conditional_body") 5%Z
             (u"Empty conditional bodies should use {}")
         else
           error filename end_linenum (u"whitespace/empty_loop_body") 5%Z
             (u"Empty loop bodies should use {} or continue"))
  end.

(** ** CHECK macros *)

(** The macros, in the order they are tried; the pattern of each; and the
    macro and the operators it can be replaced with. *)
Definition _CHECK_MACROS : list (list N * regex) :=
  from_some (mapM (fun mc : list N => r ← compile (u"^(.*\b" ++ mc ++ u"\s*)\("); Some (mc, r))
    [u"DCHECK"; u"CHECK"; u"EXPECT_TRUE_M"; u"EXPECT_TRUE"; u"ASSERT_TRUE_M"; u"ASSERT_TRUE";
     u"EXPECT_FALSE_M"; u"EXPECT_FALSE"; u"ASSERT_FALSE_M"; u"ASSERT_FALSE"]).
Definition operator_name (op : list N) (inverse : bool) : option (list N) :=
  snd <$> List.find (fun '(o, _) => o =s op)
    (if inverse
     then [(u"==", u"NE"); (u"!=", u"EQ"); (u">=", u"LT"); (u">", u"LE"); (u"<=", u"GT"); (u"<", u"GE")]
     else [(u"==", u"EQ"); (u"!=", u"NE"); (u">=", u"GE"); (u">", u"GT"); (u"<=", u"LE"); (u"<", u"LT")]).
Definition _CHECK_REPLACEMENT (macro op : list N) : res (list N) :=
  let plain prefix suffix inverse :=
    n ← of_option KeyError (operator_name op inverse); Ok (prefix ++ n ++ suffix) in
  if macro =s u"DCHECK" then plain (u"DCHECK_") [] false
  else if macro =s u"CHECK" then plain (u"CHECK_") [] false
  else if macro =s u"EXPECT_TRUE" then plain (u"EXPECT_") [] false
  else if macro =s u"ASSERT_TRUE" then plain (u"ASSERT_") [] false
  else if macro =s u"EXPECT_TRUE_M" then plain (u"EXPECT_") (u"_M") false
  else if macro =s u"ASSERT_TRUE_M" then plain (u"ASSERT_") (u"_M") false
  else if macro =s u"EXPECT_FALSE" then plain (u"EXPECT_") [] true
  else if macro =s u"ASSERT_FALSE" then plain (u"ASSERT_") [] true
  else if macro =s u"EXPECT_FALSE_M" then plain (u"EXPECT_") (u"_M") true
  else if macro =s u"ASSERT_FALSE_M" then plain (u"ASSERT_") (u"_M") true
  else Exc KeyError.

Fixpoint find_check_macro_go (macros : list (list N * regex)) (line : list N)
    : option (list N * Z) :=
  match macros with
  | [] => None
  | (macro, pattern) :: ms =>
      if (0 <=? find line macro)%Z then
        match Match pattern line with
        | Some matched => Some (macro, len (grp matched 1))
        | None => find_check_macro_go ms line
        end
      else find_check_macro_go ms line
  end.
Definition FindCheckMacro (line : list N) : option (list N * Z) :=
  find_check_macro_go _CHECK_MACROS line.

(** Parse the condition: its two sides and its relational operator, or [None]
    when there is nothing to suggest. *)
Fixpoint parse_check (fuel : nat) (expression lhs : list N)
    : res (option (list N * list N * list N)) :=
  match expression with
  | [] => Ok None
  | _ =>
      match fuel with
      | 0 => Exc OutOfFuel
      | S f =>
          match Match (rx "^\s*(<<|<<=|>>|>>=|->\*|->|&&|\|\||==|!=|>=|>|<=|<|\()(.*)$") expression with
          | Some matched =>
              let token := grp matched 1 in
              if token =s u"(" then
                let expression := grp matched 2 in
                '(end_, _) ← FindEndOfExpressionInLine expression 0 (u"(");
                if (end_ <? 0)%Z then Ok None
                else parse_check f (slice_from expression end_)
                       (lhs ++ u"(" ++ slice expression 0 end_)
              else if in_strs token [u"&&"; u"||"] then Ok None
              else if in_strs token [u"<<"; u"<<="; u">>"; u">>="; u"->*"; u"->"] then
                parse_check f (grp matched 2) (lhs ++ token)
              else Ok (Some (lhs, token, grp matched 2))
          | None =>
              match
                match Match (rx "^([^-=!<>()&|]+)(.*)$") expression with
                | Some m => Some m
                | None => Match (rx "^(\s*\S)(.*)$") expression
                end with
              | None => Ok None
              | Some m => parse_check f (grp m 2) (lhs ++ grp m 1)
              end
          end
      end
  end.

Definition match_constant : regex :=
  rxp (u"^([-+]?(\d+|0[xX][0-9a-fA-F]+)[lLuU]{0,3}|" ++ dq ++ u".*" ++ dq ++ u"|\'.*\')$").
Definition CheckCheck (filename : list N) (clean_lines : cleansed_lines) (linenum : Z)
    (error : ErrorFn) : M unit :=
  line ← elided_at clean_lines linenum;
  match FindCheckMacro line with
  | None => mret tt
  | Some (check_macro, start_pos) =>
      '(last_line, end_line, end_pos) ← lift (CloseExpression clean_lines linenum start_pos);
      if (end_pos <? 0)%Z then mret tt
      else if negb (Matches (rx "\s*;") (slice_from last_line end_pos)) then mret tt
      else
        expression ←
          (if (linenum =? end_line)%Z then mret (slice line (start_pos + 1) (end_pos - 1))
           else
             mid ← lift (concat_elided clean_lines (xrange (linenum + 1) end_line));
             mret (slice_from line (start_pos + 1) ++ mid ++ slice last_line 0 (end_pos - 1)));
        parsed ← lift (parse_check (length expression) expression []);
        match parsed with
        | Some ((_ :: _) as lhs, operator, (_ :: _) as rhs) =>
            if (-1 <? find rhs (u"&&"))%Z || (-1 <? find rhs (u"||"))%Z then mret tt
            else if Matches match_constant (strip lhs) || Matches match_constant (strip rhs) then
              replacement ← lift (_CHECK_REPLACEMENT check_macro operator);
              error filename linenum (u"readability/check") 2%Z
                (u"Consider using " ++ replacement ++ u" instead of " ++ check_macro ++ u"(a "
                 ++ operator ++ u" b)")
            else mret tt
        | _ => mret tt
        end
  end.

(** ** Alternative tokens *)

Definition _ALT_TOKEN_REPLACEMENT : list (list N * list N) :=
  [(u"and", u"&&"); (u"bitor", u"|"); (u"or", u"||"); (u"xor", u"^"); (u"compl", u"~");
   (u"bitand", u"&"); (u"and_eq", u"&="); (u"or_eq", u"|="); (u"xor_eq", u"^="); (u"not", u"!");
   (u"not_eq", u"!=")].
(** The alternatives are listed in the order of a dictionary, which does not
    matter: what follows the token decides. *)
Definition _ALT_TOKEN_REPLACEMENT_PATTERN : regex :=
  rxp (u"[ =()](" ++ join (u"|") (fst <$> _ALT_TOKEN_REPLACEMENT) ++ u")(?=[ (]|$)").
Definition CheckAltTokens (filename : list N) (clean_lines : cleansed_lines) (linenum : Z)
    (error : ErrorFn) : M unit :=
  line ← elided_at clean_lines linenum;
  if Matches (rx "^\s*#") line then mret tt
  else if (0 <=? find line (u"/*"))%Z || (0 <=? find line (u"*/"))%Z then mret tt
  else
    for_ (finditer _ALT_TOKEN_REPLACEMENT_PATTERN line) (fun m =>
      replacement ← lift (of_option KeyError
        (snd <$> List.find (fun '(t, _) => t =s grp m 1) _ALT_TOKEN_REPLACEMENT));
      error filename linenum (u"readability/alt_tokens") 2%Z
        (u"Use operator " ++ replacement ++ u" instead of " ++ grp m 1)).

(** ** CheckStyle *)

(** The width of a line, for a [unicode] string. *)
Definition GetLineWidth `{UnicodeDB} (line : list N) : Z :=
  foldl (fun width uc =>
    if udb_wide uc then (width + 2)%Z
    else if negb (udb_combining uc) then (width + 1)%Z else width) 0%Z (udb_nfc line).

Fixpoint initial_spaces (line : list N) : Z :=
  match line with
  | c :: line' => if c =c ch " " then (1 + initial_spaces line')%Z else 0%Z
  | [] => 0%Z
  end.

(** Whitespace at the two ends of the line. *)
Definition check_line_ends (filename : list N) (clean_lines : cleansed_lines) (linenum : Z)
    (error : ErrorFn) (line cleansed_line : list N) : M unit :=
  let n := initial_spaces line in
  if match last line with Some c => is_uspace c | None => false end then
    error filename linenum (u"whitespace/end_of_line") 4%Z
      (u"Line ends in whitespace.  Consider deleting these extra spaces.")
  else if ((n =? 1)%Z || (n =? 3)%Z) && negb (Matches (rx "\s*\w+\s*:\s*\\?$") cleansed_line) then
    raw ← lift (py_index (raw_lines clean_lines) linenum);
    when (negb (negb (raw =s line) && Matches (rxp (u"^\s*" ++ dqdq)) line))
      (error filename linenum (u"whitespace/indent") 3%Z
         (u"Weird number of spaces at line-start.  Are you using a 2-space indent?"))
  else mret tt.

Definition check_line_length `{UnicodeDB} (fs : filesystem) (filename : list N)
    (file_extension : list N) (linenum : Z) (error : ErrorFn) (line : list N) : M unit :=
  is_header_guard ←
    (if file_extension =s u"h" then
       root ← gets root;
       cppvar ← lift (GetHeaderGuardCPPVariable fs root filename);
       mret (starts (u"#ifndef " ++ cppvar) line || starts (u"#define " ++ cppvar) line
             || starts (u"#endif  // " ++ cppvar) line)
     else mret false);
  if negb (starts (u"#include") line) && negb is_header_guard
     && negb (Matches (rx "^\s*//.*http(s?)://\S*$") line)
     && negb (Matches (rx "^// \$Id:.*#[0-9]+ \$$") line) then
    let line_width := GetLineWidth line in
    _line_length ← gets line_length;
    let extended_length := Z.quot (_line_length * 5) 4 in
    if (extended_length <? line_width)%Z then
      error filename linenum (u"whitespace/line_length") 4%Z
        (u"Lines should very rarely be longer than " ++ show_Z extended_length ++ u" characters")
    else
      when (_line_length <? line_width)%Z
        (error filename linenum (u"whitespace/line_length") 2%Z
           (u"Lines should be <= " ++ show_Z _line_length ++ u" characters long"))
  else mret tt.

(** [s.find(sub) != -1] *)
Definition has (s sub : list N) : bool := negb (find s sub =? -1)%Z.
Definition check_one_command (filename : list N) (clean_lines : cleansed_lines) (linenum : Z)
    (error : ErrorFn) (cleansed_line : list N) : M unit :=
  if (1 <? count cleansed_line (u";"))%Z && negb (has cleansed_line (u"for")) then
    '(prevline, _) ← lift (GetPreviousNonBlankLine clean_lines linenum);
    when ((negb (has prevline (u"for")) || has prevline (u";"))
          && negb ((has cleansed_line (u"case ") || has cleansed_line (u"default:"))
                   && has cleansed_line (u"break;")))
      (error filename linenum (u"whitespace/newline") 0%Z
         (u"More than one command on the same line"))
  else mret tt.

Definition CheckStyle `{UnicodeDB} (fs : filesystem) (filename : list N)
    (clean_lines : cleansed_lines) (linenum : Z) (file_extension : list N)
    (nesting : nesting_state) (error : ErrorFn) : M unit :=
  line ← lift (py_index (lines_without_raw_strings clean_lines) linenum);
  when (has line [9%N])
    (error filename linenum (u"whitespace/tab") 1%Z (u"Tab found; better to use spaces")) ≫= fun _ =>
  cleansed_line ← elided_at clean_lines linenum;
  _ ← check_line_ends filename clean_lines linenum error line cleansed_line;
  _ ← check_line_length fs filename file_extension linenum error line;
  _ ← check_one_command filename clean_lines linenum error cleansed_line;
  _ ← CheckBraces filename clean_lines linenum error;
  _ ← CheckTrailingSemicolon filename clean_lines linenum error;
  _ ← CheckEmptyBlockBody filename clean_lines linenum error;
  _ ← CheckAccess filename clean_lines linenum nesting error;
  _ ← CheckSpacing filename clean_lines linenum nesting error;
  _ ← CheckOperatorSpacing filename clean_lines linenum error;
  _ ← CheckParenthesisSpacing filename clean_lines linenum error;
  _ ← CheckCommaSpacing filename clean_lines linenum error;
  _ ← CheckBracesSpacing filename clean_lines linenum error;
  _ ← CheckSpacingForFunctionCall filename clean_lines linenum error;
  _ ← CheckRValueReference filename clean_lines linenum nesting error;
  _ ← CheckCheck filename clean_lines linenum error;
  _ ← CheckAltTokens filename clean_lines linenum error;
  match InnermostClass nesting with
  | Some (_, classinfo) => CheckSectionSpacing filename clean_lines classinfo linenum error
  | None => mret tt
  end.

(** ** The line above *)

Lemma xrange_down_S n : xrange_down (Z.of_nat (S n) - 1) (-1) = Z.of_nat n :: xrange_down (Z.of_nat n - 1) (-1).
Proof.
  unfold xrange_down.
  replace (Z.to_nat (Z.of_nat (S n) - 1 - -1)) with (S n) by lia.
  replace (Z.to_nat (Z.of_nat n - 1 - -1)) with n by lia.
  cbn [seq fmap list_fmap]. f_equal; [lia|].
  rewrite <- seq_shift, <- list_fmap_compose. apply list_fmap_ext. intros i x _. simpl. lia.
Qed.

(** C31: [GetPreviousNonBlankLine] returns the line that is nearest above the
    given one and not blank, with its number, and the empty line with the
    number -1 when all lines above are blank; it does not fail inside the
    file. *)
Theorem GetPreviousNonBlankLine_spec c n :
  n <= length (elided c) ->
  exists line k, GetPreviousNonBlankLine c (Z.of_nat n) = Ok (line, k) /\
    ((k = (-1)%Z /\ line = [] /\
        forall i x, i < n -> elided c !! i = Some x -> IsBlankLine x = true)
     \/ exists j, k = Z.of_nat j /\ j < n /\ elided c !! j = Some line /\ IsBlankLine line = false /\
          forall i x, j < i < n -> elided c !! i = Some x -> IsBlankLine x = true).
Proof.
  unfold GetPreviousNonBlankLine. induction n as [|n IH]; intros Hn.
  - exists [], (-1)%Z. split; [done|]. left. repeat split. lia.
  - rewrite xrange_down_S. cbn [previous_non_blank]. rewrite py_index_nat.
    destruct (lookup_lt_is_Some_2 (elided c) n ltac:(lia)) as [x Hx]. rewrite Hx.
    cbn [of_option mbind res_bind]. destruct (IsBlankLine x) eqn:Hb; cbn [negb].
    + destruct (IH ltac:(lia)) as (line & k & E & H). exists line, k. split; [exact E|].
      assert (forall i y, i = n -> elided c !! i = Some y -> IsBlankLine y = true) as Hlast
        by (intros i y -> Hy; congruence).
      destruct H as [(-> & -> & H)|(j & -> & Hj & Hl & Hnb & H)]; [left|right].
      * repeat split. intros i y Hi Hy. destruct (decide (i = n)); [by eapply Hlast|].
        apply (H i); [lia|done].
      * exists j. repeat split; try done; [lia|]. intros i y Hi Hy.
        destruct (decide (i = n)); [by eapply Hlast|]. apply (H i); [lia|done].
    + exists x, (Z.of_nat n). split; [done|]. right. exists n. repeat split; try done; lia.
Qed.
Lemma GetPreviousNonBlankLine_spec_witness :
  let c := plain_lines [u"{"; u"x;"; u"  "; []; u"}"] in
  4 <= length (elided c) /\ exists line k, GetPreviousNonBlankLine c 4 = Ok (line, k) /\ k = 1%Z.
Proof.
  intros c. assert (4 <= length (elided c)) as H by (vm_compute; lia). split; [exact H|].
  destruct (GetPreviousNonBlankLine_spec c 4 H) as (line & k & E & _).
  exists line, k. split; [exact E|]. vm_compute in E. congruence.
Defined.
