(* ===== verification/Language.v ===== *)
(** * Language checks

    Models lines 4678-4997, 4999-5459 of cpplint.py: the checks of the C++
    language rules, with [CheckLanguage], which also drives the include
    state, and [CheckForNonConstReference].

    One pattern of the source has a backreference, which the patterns of
    [Regex] do not have: [self_initialized] says what it matches. *)

From S2P Require Import Prelude PyStr Regex RePattern Lint FileInfo IncludeState Cleanse Brackets Nesting LineChecks Spacing RValue.
From Stdlib Require Import Ascii.

(** ** Text inside brackets *)

Definition matching_punctuation (c : N) : option N :=
  if c =c ch "(" then Some (ch ")")
  else if c =c ch "{" then Some (ch "}")
  else if c =c ch "[" then Some (ch "]") else None.
Definition closing_punctuation (c : N) : bool := in_chars c (u")}]").

(** The scan from the opening bracket: the text up to the closing one. *)
Fixpoint text_inside_go (text punctuation_stack acc : list N) : option (list N) :=
  match punctuation_stack with
  | [] => Some (reverse (tail acc))
  | p :: ps =>
      match text with
      | [] => None
      | c :: text' =>
          if c =c p then text_inside_go text' ps (c :: acc)
          else if closing_punctuation c then None
          else
            match matching_punctuation c with
            | Some q => text_inside_go text' (q :: p :: ps) (c :: acc)
            | None => text_inside_go text' (p :: ps) (c :: acc)
            end
      end
  end.
(** [start_pattern] is compiled with [re.M]. *)
Definition _GetTextInside (text : list N) (start_pattern : regex) : res (option (list N)) :=
  match re_search start_pattern text with
  | None => Ok None
  | Some m =>
      let start_position := m_end m in
      if (start_position <=? 0)%Z then Exc AssertionError
      else
        c ← py_index text (start_position - 1);
        match matching_punctuation c with
        | None => Exc AssertionError
        | Some p => Ok (text_inside_go (slice_from text start_position) [p] [])
        end
  end.
(** [\b(string)?printf\s*\(] with the flags I and M *)
Definition printf_pattern : regex := rx_fl (Flags true true) "\b(string)?printf\s*\(".

(** ** Statics and printf *)

(** [\b([A-Za-z0-9_]*_)\(\1\)]: a name that ends in an underscore, then
    itself in parentheses.  [prev] is the character before. *)
Fixpoint self_initialized_go (prev : bool) (line : list N) : bool :=
  match line with
  | [] => false
  | c :: line' =>
      let name := take (length line - length (drop_while is_word line)) line in
      (negb prev && ends (u"_") name
       && starts (name ++ u"(" ++ name ++ u")") line)
      || self_initialized_go (is_word c) line'
  end.
Definition self_initialized (line : list N) : bool := self_initialized_go false line.

Definition CheckGlobalStatic (filename : list N) (clean_lines : cleansed_lines) (linenum : Z)
    (error : ErrorFn) : M unit :=
  line ← elided_at clean_lines linenum;
  line ← (if (linenum + 1 <? NumLines clean_lines)%Z && negb (Searches (rx "[;({]") line) then
            next_line ← elided_at clean_lines (linenum + 1);
            mret (line ++ strip next_line)
          else mret line);
  _ ← match Match (rx "((?:|static +)(?:|const +))string +([a-zA-Z0-9_:]+)\b(.*)") line with
      | None => mret tt
      | Some m =>
          when (negb (Searches (rx "\bstring\b(\s+const)?\s*\*\s*(const\s+)?\w") line)
                && negb (Searches (rx "\boperator\W") line)
                && negb (Matches (rxp (u"\s*(<.*>)?(::[a-zA-Z0-9_]+)*\s*\(([^" ++ dq ++ u"]|$)"))
                           (grp m 3)))
            (error filename linenum (u"runtime/string") 4%Z
               (u"For a static/global string constant, use a C style string instead: " ++ dq
                ++ grp m 1 ++ u"char " ++ grp m 2 ++ u"[]" ++ dq ++ u"."))
      end;
  when (self_initialized line)
    (error filename linenum (u"runtime/init") 4%Z
       (u"You seem to be initializing a member variable with itself.")).

Definition CheckPrintf (filename : list N) (clean_lines : cleansed_lines) (linenum : Z)
    (error : ErrorFn) : M unit :=
  line ← elided_at clean_lines linenum;
  _ ← match Search (rx "snprintf\s*\(([^,]*),\s*([0-9]*)\s*,") line with
      | Some m =>
          when (negb (grp m 2 =s u"0"))
            (error filename linenum (u"runtime/printf") 3%Z
               (u"If you can, use sizeof(" ++ grp m 1 ++ u") instead of " ++ grp m 2
                ++ u" as the 2nd arg to snprintf."))
      | None => mret tt
      end;
  when (Searches (rx "\bsprintf\s*\(") line)
    (error filename linenum (u"runtime/printf") 5%Z
       (u"Never use sprintf. Use snprintf instead.")) ≫= fun _ =>
  match Search (rx "\b(strcpy|strcat)\s*\(") line with
  | Some m =>
      error filename linenum (u"runtime/printf") 4%Z
        (u"Almost always, snprintf is better than " ++ grp m 1)
  | None => mret tt
  end.

(** ** Casts *)

Definition ExpectingFunctionArgs (clean_lines : cleansed_lines) (linenum : Z) : res bool :=
  line ← py_index (elided clean_lines) linenum;
  if Matches (rx "^\s*MOCK_(CONST_)?METHOD\d+(_T)?\(") line then Ok true
  else if (2 <=? linenum)%Z then
    l1 ← py_index (elided clean_lines) (linenum - 1);
    if Matches (rx "^\s*MOCK_(?:CONST_)?METHOD\d+(?:_T)?\((?:\S+,)?\s*$") l1 then Ok true
    else
      l2 ← py_index (elided clean_lines) (linenum - 2);
      Ok (Matches (rx "^\s*MOCK_(?:CONST_)?METHOD\d+(?:_T)?\(\s*$") l2
          || Searches (rx "\bstd::m?function\s*\<\s*$") l1)
  else Ok false.

(** The result says whether an error was emitted. *)
Definition CheckCStyleCast (filename : list N) (clean_lines : cleansed_lines) (linenum : Z)
    (cast_type : list N) (pattern : regex) (error : ErrorFn) : M bool :=
  line ← elided_at clean_lines linenum;
  match Search pattern line with
  | None => mret false
  | Some m =>
      let context := slice line 0 (g_start m 1 - 1) in
      if Matches (rx ".*\b(?:sizeof|alignof|alignas|[_A-Z][_A-Z0-9]*)\s*$") context
      then mret false
      else
        context ← lift (if (0 <? linenum)%Z
                        then prepend_elided clean_lines
                               (xrange_down (linenum - 1) (Z.max 0 (linenum - 5))) context
                        else Ok context);
        if Matches (rx ".*\b[_A-Z][_A-Z0-9]*\s*\((?:\([^()]*\)|[^()])*$") context then mret false
        else if ends (u" operator++") context || ends (u" operator--") context then mret false
        else
          let remainder := slice_from line (m_end m) in
          if Matches (rx "^\s*(?:;|const\b|throw\b|final\b|override\b|[=>{),]|->)") remainder then
            if Matches (rx "^\s*>") remainder then mret false
            else if match Match (rx "^\s=\s*(\S+)\s*;") remainder with
                    | Some z => negb (grp z 1 =s u"0")
                    | None => false
                    end then mret false
            else if Matches (rx ".*\)\s*$") (slice line 0 (m_start m)) then mret false
            else
              raw_line ← lift (py_index (raw_lines clean_lines) linenum);
              if contains (u"/*") raw_line then mret false
              else
                error filename linenum (u"readability/function") 3%Z
                  (u"All parameters should be named in a function") ≫= fun _ =>
                mret true
          else
            error filename linenum (u"readability/casting") 4%Z
              (u"Using C-style cast.  Use " ++ cast_type ++ u"<" ++ grp m 1 ++ u">(...) instead")
              ≫= fun _ =>
            mret true
  end.

(** Casts written as a call of the type: [true] when the check is over. *)
Definition check_function_cast (filename : list N) (linenum : Z) (error : ErrorFn)
    (line : list N) (m : match_obj) : M bool :=
  let matched_type := grp m 2 in
  if Matches (rx "\([^()]+\)\s*\[") (grp m 3) then mret true
  else
    let matched_funcptr := grp m 3 in
    alias ← lift (compile_res (u"\s*using\s+\S+\s*=\s*" ++ matched_type));
    placement ← lift (compile_res (u"new\(\S+\)\s*" ++ matched_type));
    when (match group m 1 with Some _ => false | None => true end
          && negb (Matches (rx "\((?:[^() ]+::\s*\*\s*)?[^() ]+\)\s*\(") matched_funcptr
                   || starts (u"(*)") matched_funcptr)
          && negb (Matches alias line) && negb (Searches placement line))
      (error filename linenum (u"readability/casting") 4%Z
         (u"Using deprecated casting style.  Use static_cast<" ++ matched_type
          ++ u">(...) instead")) ≫= fun _ =>
    mret false.

(** Whether what is cast is dereferenced after the cast. *)
Definition dereferenced_cast (clean_lines : cleansed_lines) (linenum : Z) (line : list N)
    : res bool :=
  match Match (rx "^(.*&(?:static|dynamic|down|reinterpret)_cast\b)<") line with
  | None => Ok false
  | Some m =>
      '(_, y1, x1) ← CloseExpression clean_lines linenum (len (grp m 1));
      if (0 <=? x1)%Z then
        line1 ← py_index (elided clean_lines) y1;
        c ← py_index line1 x1;
        if c =c ch "(" then
          '(_, y2, x2) ← CloseExpression clean_lines y1 x1;
          if (0 <=? x2)%Z then
            line2 ← py_index (elided clean_lines) y2;
            more ← (if (y2 <? NumLines clean_lines - 1)%Z
                    then py_index (elided clean_lines) (y2 + 1) else Ok []);
            Ok (Matches (rx "\s*(?:->|\[)") (slice_from line2 x2 ++ more))
          else Ok false
        else Ok false
      else Ok false
  end.

Definition CheckCasts (filename : list N) (clean_lines : cleansed_lines) (linenum : Z)
    (error : ErrorFn) : M unit :=
  line ← elided_at clean_lines linenum;
  expecting_function ← lift (ExpectingFunctionArgs clean_lines linenum);
  over ← match Search (rx "(\bnew\s+|\S<\s*(?:const\s+)?)?\b(int|float|double|bool|char|int32|uint32|int64|uint64)(\([^)].*)") line with
         | Some m =>
             if negb expecting_function then check_function_cast filename linenum error line m
             else mret false
         | None => mret false
         end;
  if over : bool then mret tt
  else
    _ ← (if negb expecting_function then
           CheckCStyleCast filename clean_lines linenum (u"static_cast")
             (rx "\((int|float|double|bool|char|u?int(16|32|64))\)") error
         else mret false);
    const_cast ← CheckCStyleCast filename clean_lines linenum (u"const_cast")
                   (rxp (u"\((char\s?\*+\s?)\)\s*" ++ dq)) error;
    _ ← (if const_cast : bool then mret true
         else CheckCStyleCast filename clean_lines linenum (u"reinterpret_cast")
                (rx "\((\w+\s?\*+\s?)\)") error);
    if Searches (rx "(?:[^\w]&\(([^)*][^)]*)\)[\w(])|(?:[^\w]&(static|dynamic|down|reinterpret)_cast\b)") line
    then
      parenthesis_error ← lift (dereferenced_cast clean_lines linenum line);
      if parenthesis_error : bool then
        error filename linenum (u"readability/casting") 4%Z
          (u"Are you taking an address of something dereferenced from a cast?  Wrapping the dereferenced expression in parentheses will make the binding more obvious")
      else
        error filename linenum (u"runtime/casting") 4%Z
          (u"Are you taking an address of a cast?  This is dangerous: could be a temp var.  Take the address before doing the cast, rather than after")
    else mret tt.

(** ** Language rules *)

(** Whether a token of the size of an array is constant, and whether the next
    one is skipped. *)
Definition constant_token (tok : list N) : bool * bool :=
  if Searches (rx "sizeof\(.+\)") tok then (true, false)
  else if Searches (rx "arraysize\(\w+\)") tok then (true, false)
  else
    let tok := rstrip_chars (u")") (lstrip_chars (u"(") tok) in
    if (tok =s [])
       || Matches (rx "\d+") tok
       || Matches (rx "0[xX][0-9a-fA-F]+") tok
       || Matches (rx "k[A-Z0-9]\w*") tok
       || Matches (rx "(.+::)?k[A-Z0-9]\w*") tok
       || Matches (rx "(.+::)?[A-Z][A-Z0-9_]*") tok then (true, false)
    else if starts (u"sizeof") tok then (true, true)
    else (false, false).
Fixpoint constant_size (tokens : list (list N)) (skip_next : bool) : bool :=
  match tokens with
  | [] => true
  | tok :: toks =>
      if skip_next then constant_size toks false
      else
        let '(ok, skip) := constant_token tok in
        if ok then constant_size toks skip else false
  end.

Definition check_int_types (filename : list N) (linenum : Z) (error : ErrorFn) (line : list N)
    : M unit :=
  if Searches (rx "\bshort port\b") line then
    when (negb (Searches (rx "\bunsigned short port\b") line))
      (error filename linenum (u"runtime/int") 4%Z
         (u"Use " ++ dq ++ u"unsigned short" ++ dq ++ u" for ports, not " ++ dq ++ u"short" ++ dq))
  else
    match Search (rx "\b(short|long(?! +double)|long long)\b") line with
    | Some m =>
        error filename linenum (u"runtime/int") 4%Z
          (u"Use int16/int64/etc, rather than the C type " ++ grp m 1)
    | None => mret tt
    end.

Definition check_format_string (filename : list N) (linenum : Z) (error : ErrorFn)
    (line : list N) : M unit :=
  printf_args ← lift (_GetTextInside line printf_pattern);
  match printf_args with
  | Some ((_ :: _) as printf_args) =>
      match Match (rx "([\w.\->()]+)$") printf_args with
      | Some m =>
          if negb (grp m 1 =s u"__VA_ARGS__") then
            f ← lift (of_option AttributeError
                  (re_search (rx_fl (Flags true false) "\b((?:string)?printf)\s*\(") line));
            error filename linenum (u"runtime/printf") 4%Z
              (u"Potential format string bug. Do " ++ grp f 1 ++ u"(" ++ dq ++ u"%s" ++ dq
               ++ u", " ++ grp m 1 ++ u") instead.")
          else mret tt
      | None => mret tt
      end
  | _ => mret tt
  end.

Definition check_memset (filename : list N) (linenum : Z) (error : ErrorFn) (line : list N)
    : M unit :=
  match Search (rx "memset\s*\(([^,]*),\s*([^,]*),\s*0\s*\)") line with
  | Some m =>
      when (negb (Matches (rx "^''|-?[0-9]+|0x[0-9A-Fa-f]$") (grp m 2)))
        (error filename linenum (u"runtime/memset") 4%Z
           (u"Did you mean " ++ dq ++ u"memset(" ++ grp m 1 ++ u", 0, " ++ grp m 2 ++ u")" ++ dq
            ++ u"?"))
  | None => mret tt
  end.

Definition check_arrays (filename : list N) (linenum : Z) (error : ErrorFn) (line : list N)
    : M unit :=
  match Match (rx "\s*(.+::)?(\w+) [a-z]\w*\[(.+)];") line with
  | Some m =>
      when (negb (grp m 2 =s u"return") && negb (grp m 2 =s u"delete")
            && (find (grp m 3) (u"]") =? -1)%Z
            && negb (constant_size (re_split (rx "\s|\+|\-|\*|\/|<<|>>]") (grp m 3)) false))
        (error filename linenum (u"runtime/arrays") 1%Z
           (u"Do not use variable-length arrays.  Use an appropriately named ('k' followed by CamelCase) compile-time constant for the size."))
  | None => mret tt
  end.

Definition CheckLanguage `{UnicodeDB} (fs : filesystem) (filename : list N)
    (clean_lines : cleansed_lines) (linenum : Z) (file_extension : list N)
    (st : include_state) (error : ErrorFn) : M include_state :=
  line ← elided_at clean_lines linenum;
  if line =s [] then mret st
  else if Searches _RE_PATTERN_INCLUDE line then
    CheckIncludeLine fs filename (lines clean_lines) (elided clean_lines) linenum st error
  else
    st ← lift (match Match (rx "^\s*#\s*(if|ifdef|ifndef|elif|else|endif)\b") line with
               | Some m => IncludeState.ResetSection (grp m 1) st
               | None => Ok st
               end);
    _ ← CheckCasts filename clean_lines linenum error;
    _ ← CheckGlobalStatic filename clean_lines linenum error;
    _ ← CheckPrintf filename clean_lines linenum error;
    _ ← check_int_types filename linenum error line;
    when (Searches (rx "\boperator\s*&\s*\(\s*\)") line)
      (error filename linenum (u"runtime/operator") 4%Z
         (u"Unary operator& is dangerous.  Do not use it.")) ≫= fun _ =>
    when (Searches (rx "\}\s*if\s*\(") line)
      (error filename linenum (u"readability/braces") 4%Z
         (u"Did you mean " ++ dq ++ u"else if" ++ dq ++ u"? If not, start a new line for "
          ++ dq ++ u"if" ++ dq ++ u".")) ≫= fun _ =>
    _ ← check_format_string filename linenum error line;
    _ ← check_memset filename linenum error line;
    when (Searches (rx "\busing namespace\b") line)
      (error filename linenum (u"build/namespaces") 5%Z
         (u"Do not use namespace using-directives.  Use using-declarations instead."))
      ≫= fun _ =>
    _ ← check_arrays filename linenum error line;
    when ((file_extension =s u"h") && Searches (rx "\bnamespace\s*{") line
          && negb (default 0%N (last line) =c ch "\"))
      (error filename linenum (u"build/namespaces") 4%Z
         (u"Do not use unnamed namespaces in header files.  See http://google-styleguide.googlecode.com/svn/trunk/cppguide.xml#Namespaces for more information."))
      ≫= fun _ =>
    mret st.

(** ** References that are not const *)

Fixpoint derived_go (clean_lines : cleansed_lines) (ixs : list Z) : res bool :=
  match ixs with
  | [] => Ok false
  | i :: ixs' =>
      line ← py_index (elided clean_lines) i;
      match Match (rx "^([^()]*\w+)\(") line with
      | Some m =>
          '(line, _, closing_paren) ← CloseExpression clean_lines i (len (grp m 1));
          Ok ((0 <=? closing_paren)%Z
              && Searches (rx "\boverride\b") (slice_from line closing_paren))
      | None => derived_go clean_lines ixs'
      end
  end.
Definition IsDerivedFunction (clean_lines : cleansed_lines) (linenum : Z) : res bool :=
  derived_go clean_lines (xrange_down linenum (Z.max (-1) (linenum - 10))).

Fixpoint out_of_line_go (clean_lines : cleansed_lines) (ixs : list Z) : res bool :=
  match ixs with
  | [] => Ok false
  | i :: ixs' =>
      line ← py_index (elided clean_lines) i;
      if Matches (rx "^([^()]*\w+)\(") line
      then Ok (Matches (rx "^[^()]*\w+::\w+\(") line)
      else out_of_line_go clean_lines ixs'
  end.
Definition IsOutOfLineMethodDefinition (clean_lines : cleansed_lines) (linenum : Z) : res bool :=
  out_of_line_go clean_lines (xrange_down linenum (Z.max (-1) (linenum - 10))).

Fixpoint initializer_go (clean_lines : cleansed_lines) (linenum : Z) (ixs : list Z) : res bool :=
  match ixs with
  | [] => Ok false
  | i :: ixs' =>
      line ← py_index (elided clean_lines) i;
      let line :=
        if (i =? linenum)%Z then
          match Match (rx "^(.*)\{\s*$") line with Some m => grp m 1 | None => line end
        else line in
      if Searches (rx "\s:\s*\w+[({]") line then Ok true
      else if Searches (rx "\}\s*,\s*$") line then Ok true
      else if Searches (rx "[{};]\s*$") line then Ok false
      else initializer_go clean_lines linenum ixs'
  end.
Definition IsInitializerList (clean_lines : cleansed_lines) (linenum : Z) : res bool :=
  initializer_go clean_lines linenum (xrange_down linenum 1).

(** The lines [ixs], stripped and joined. *)
Fixpoint join_stripped (clean_lines : cleansed_lines) (ixs : list Z) : res (list N) :=
  match ixs with
  | [] => Ok []
  | i :: ixs' =>
      line ← py_index (elided clean_lines) i;
      rest ← join_stripped clean_lines ixs';
      Ok (strip line ++ rest)
  end.
(** The line, joined with the previous lines a type is split across. *)
Definition join_split_type (clean_lines : cleansed_lines) (linenum : Z) (line : list N)
    : res (list N) :=
  if (1 <? linenum)%Z then
    prev ← py_index (elided clean_lines) (linenum - 1);
    let previous :=
      if Matches (rx "\s*::(?:[\w<>]|::)+\s*&\s*\S") line
      then Search (rx "\b((?:const\s*)?(?:[\w<>]|::)+[\w<>])\s*$") prev
      else if Matches (rx "\s*[a-zA-Z_]([\w<>]|::)+\s*&\s*\S") line
      then Search (rx "\b((?:const\s*)?(?:[\w<>]|::)+::)\s*$") prev
      else None in
    match previous with
    | Some m => Ok (grp m 1 ++ lstrip line)
    | None =>
        let endpos := rfind line (u">") in
        if (-1 <? endpos)%Z then
          '(_, startline, startpos) ← ReverseCloseExpression clean_lines linenum endpos;
          if (-1 <? startpos)%Z && (startline <? linenum)%Z
          then join_stripped clean_lines (xrange startline (linenum + 1))
          else Ok line
        else Ok line
    end
  else Ok line.

(** Whether the lines before end an initializer list. *)
Fixpoint after_initializer (clean_lines : cleansed_lines) (ixs : list Z) : res bool :=
  match ixs with
  | [] => Ok false
  | i :: ixs' =>
      previous_line ← py_index (elided clean_lines) i;
      if negb (Searches (rx "[),]\s*$") previous_line) then Ok false
      else if Matches (rx "^\s*:\s+\S") previous_line then Ok true
      else after_initializer clean_lines ixs'
  end.

Definition whitelisted_functions : regex :=
  rx "(?:[sS]wap(?:<\w:+>)?|operator\s*[<>][<>]|static_assert|COMPILE_ASSERT)\s*\(".
Fixpoint whitelisted_above (clean_lines : cleansed_lines) (linenum : Z) (ixs : list Z) : res bool :=
  match ixs with
  | [] => Ok false
  | i :: ixs' =>
      if (i <? linenum)%Z then
        line ← py_index (elided clean_lines) (linenum - i - 1);
        if Searches whitelisted_functions line then Ok true
        else whitelisted_above clean_lines linenum ixs'
      else whitelisted_above clean_lines linenum ixs'
  end.

Definition _RE_PATTERN_IDENT : list N := u"[_a-zA-Z]\w*".
Definition _RE_PATTERN_TYPE : list N :=
  u"(?:const\s+)?(?:typename\s+|class\s+|struct\s+|union\s+|enum\s+)?(?:\w|\s*<(?:<(?:<[^<>]*>|[^<>])*>|[^<>])*>|::)+".
Definition _RE_PATTERN_REF_PARAM : regex :=
  rxp (u"(" ++ _RE_PATTERN_TYPE ++ u"(?:\s*(?:\bconst\b|[*]))*\s*&\s*" ++ _RE_PATTERN_IDENT
       ++ u")\s*(?:=[^,()]+)?[,)]").
Definition _RE_PATTERN_CONST_REF_PARAM : regex :=
  rxp (u"(?:.*\s*\bconst\s*&\s*" ++ _RE_PATTERN_IDENT ++ u"|const\s+" ++ _RE_PATTERN_TYPE
       ++ u"\s*&\s*" ++ _RE_PATTERN_IDENT ++ u")").

(** Whether the checks that come before leave the parameters of [line] to be
    looked at. *)
Definition reference_context (clean_lines : cleansed_lines) (linenum : Z)
    (nesting : nesting_state) (line : list N) : res bool :=
  let in_block :=
    match previous_stack_top nesting with
    | Some a =>
        let b := deref (heap nesting) a in
        negb (match is_class b with Some _ => true | None => false end || is_namespace b)
    | None => false
    end in
  if in_block then Ok false
  else
    after ← (if (0 <? linenum)%Z
             then after_initializer clean_lines (xrange_down (linenum - 1) (Z.max 0 (linenum - 10)))
             else Ok false);
    if after : bool then Ok false
    else if Searches (rx "\\\s*$") line then Ok false
    else
      initializer ← IsInitializerList clean_lines linenum;
      if initializer : bool then Ok false
      else if Searches whitelisted_functions line then Ok false
      else if negb (Searches (rx "\S+\([^)]*$") line) then
        above ← whitelisted_above clean_lines linenum (xrange 0 2); Ok (negb above)
      else Ok true.

Definition CheckForNonConstReference (filename : list N) (clean_lines : cleansed_lines)
    (linenum : Z) (nesting : nesting_state) (error : ErrorFn) : M unit :=
  line ← elided_at clean_lines linenum;
  if negb (in_chars (ch "&") line) then mret tt
  else
    derived ← lift (IsDerivedFunction clean_lines linenum);
    if derived : bool then mret tt
    else
      out_of_line ← lift (IsOutOfLineMethodDefinition clean_lines linenum);
      if out_of_line : bool then mret tt
      else
        line ← lift (join_split_type clean_lines linenum line);
        checked ← lift (reference_context clean_lines linenum nesting line);
        if negb checked then mret tt
        else
          let decls := ReplaceAll (rx "{[^}]*}") (u" ") line in
          for_ (findall1 _RE_PATTERN_REF_PARAM decls) (fun parameter =>
            when (negb (Matches _RE_PATTERN_CONST_REF_PARAM parameter))
              (error filename linenum (u"runtime/references") 2%Z
                 (u"Is this a non-const reference? If so, make const or use a pointer: "
                  ++ ReplaceAll (rx " *<") (u"<") parameter))).

(** ** A crash of CheckCasts

    [CheckCasts] indexes the text right behind the closing bracket of a cast
    that ends its line. *)
Lemma CheckCasts_index_error :
  let c := plain_lines [u""; u"  p = &static_cast<Foo*>"; u"      (y);"] in
  fst (CheckCasts (u"a.cc") c 1 Error init_world) = Exc IndexError.
Proof. vm_compute. reflexivity. Qed.

(** ** What is inside brackets *)

(** Well-nested text: the three kinds of brackets match. *)
Inductive nested : list N -> Prop :=
  | nested_nil : nested []
  | nested_char c t :
      matching_punctuation c = None -> closing_punctuation c = false -> nested t -> nested (c :: t)
  | nested_pair o c a b :
      matching_punctuation o = Some c -> nested a -> nested b -> nested (o :: a ++ c :: b).

Lemma matching_closing o c : matching_punctuation o = Some c ->
  closing_punctuation c = true /\ closing_punctuation o = false /\ matching_punctuation c = None.
Proof.
  unfold matching_punctuation. repeat case_bool; intros [= <-]; bool_simpl; subst; by vm_compute.
Qed.

(** Reading well-nested text leaves the stack as it was. *)
Lemma text_inside_nested a : nested a -> forall t p ps acc,
  closing_punctuation p = true ->
  text_inside_go (a ++ t) (p :: ps) acc = text_inside_go t (p :: ps) (reverse a ++ acc).
Proof.
  induction 1 as [|c a Hm Hc Ha IH|o c a b Hm Ha IHa Hb IHb]; intros t p ps acc Hp; [done|..].
  - cbn [app text_inside_go]. destruct (N.eqb_spec c p) as [->|_]; [congruence|].
    rewrite Hc, Hm, IH, reverse_cons, <- app_assoc by done. done.
  - destruct (matching_closing o c Hm) as (Hcc & Ho & Hcm).
    cbn [app text_inside_go]. destruct (N.eqb_spec o p) as [->|_]; [congruence|].
    rewrite Ho, Hm, <- app_assoc. cbn [app]. rewrite IHa by done.
    cbn [text_inside_go]. rewrite N.eqb_refl, IHb by done. f_equal.
    by rewrite reverse_cons, reverse_app, reverse_cons, <- !app_assoc.
Qed.
(** What is read before the stack is empty: well-nested texts, each followed
    by the bracket the stack expects. *)
Fixpoint closes (stack t : list N) : Prop :=
  match stack with
  | [] => t = []
  | p :: ps => exists a t', t = a ++ p :: t' /\ nested a /\ closes ps t'
  end.
Lemma text_inside_closes text stack acc r :
  Forall (fun p => exists o, matching_punctuation o = Some p) stack ->
  text_inside_go text stack acc = Some r ->
  exists t rest, text = t ++ rest /\ closes stack t /\ r = reverse (tail (reverse t ++ acc)).
Proof.
  revert stack acc. induction text as [|c text IH]; intros [|p ps] acc Hs; cbn [text_inside_go].
  1,3: intros [= <-]; by eexists [], _.
  1: done.
  inversion Hs as [|? ? [o Ho] Hps]; subst. destruct (matching_closing o p Ho) as (Hp & _ & _).
  destruct (N.eqb_spec c p) as [->|Hcp].
  - intros E. apply IH in E as (t & rest & -> & Ht & ->); [|done].
    exists (p :: t), rest. split; [done|]. split; [|by rewrite reverse_cons, <- app_assoc].
    exists [], t. repeat split; [constructor|done].
  - destruct (closing_punctuation c) eqn:Hc; [done|].
    destruct (matching_punctuation c) as [q|] eqn:Hm; intros E;
      apply IH in E as (t & rest & -> & Ht & ->); try done.
    + exists (c :: t), rest. split; [done|]. split; [|by rewrite reverse_cons, <- app_assoc].
      destruct Ht as (a & t1 & -> & Ha & (b & t2 & -> & Hb & Ht2)).
      exists (c :: a ++ q :: b), t2. split; [by simpl; rewrite <- app_assoc|].
      split; [by constructor|done].
    + constructor; [by exists c|done].
    + exists (c :: t), rest. split; [done|]. split; [|by rewrite reverse_cons, <- app_assoc].
      destruct Ht as (a & t1 & -> & Ha & Ht1). exists (c :: a), t1. split; [done|].
      split; [by constructor|done].
Qed.

(** C22: the text inside brackets.  When the pattern is found and its match ends
    in an opening bracket [o], [_GetTextInside] does not raise, and it returns
    the text [t] exactly when [t] is well nested and is followed by the bracket
    that closes [o]; so it returns [None] when no such text follows. *)
Theorem GetTextInside_spec text start_pattern m o c :
  re_search start_pattern text = Some m -> (0 < m_end m)%Z ->
  py_index text (m_end m - 1) = Ok o -> matching_punctuation o = Some c ->
  (forall t, _GetTextInside text start_pattern = Ok (Some t) <->
     nested t /\ exists rest, slice_from text (m_end m) = t ++ c :: rest)
  /\ exists r, _GetTextInside text start_pattern = Ok r.
Proof.
  intros Hm Hp Ho Hc. unfold _GetTextInside. rewrite Hm.
  destruct (Z.leb_spec (m_end m) 0); [lia|]. rewrite Ho. cbn [mbind res_bind]. rewrite Hc.
  split; [|by eexists].
  destruct (matching_closing o c Hc) as (Hcc & _ & _). intros t. split.
  - intros [= E]. apply text_inside_closes in E as (s & rest & Es & Hs & ->); [|by repeat econstructor].
    destruct Hs as (a & t' & -> & Ha & ->).
    rewrite app_nil_r, reverse_snoc. cbn [tail]. rewrite reverse_involutive. split; [done|].
    exists rest. rewrite Es. by rewrite <- app_assoc.
  - intros [Ht [rest ->]]. rewrite text_inside_nested by done.
    cbn [text_inside_go]. rewrite N.eqb_refl. rewrite app_nil_r.
    destruct rest; cbn [text_inside_go tail]; by rewrite reverse_involutive.
Qed.
Lemma GetTextInside_spec_witness :
  let text := u"x = printf(a[0], b(c)) + d(e)" in
  exists m, re_search printf_pattern text = Some m /\ (0 < m_end m)%Z
    /\ py_index text (m_end m - 1) = Ok (ch "(")
    /\ _GetTextInside text printf_pattern = Ok (Some (u"a[0], b(c)")).
Proof.
  intros text.
  assert (exists m, re_search printf_pattern text = Some m /\ m_end m = 11%Z) as (m & E & Em)
    by (eexists; split; vm_compute; reflexivity).
  exists m. split; [exact E|]. rewrite Em. split; [lia|].
  assert (py_index text (11 - 1) = Ok (ch "(")) as Eo by (vm_compute; reflexivity).
  split; [exact Eo|].
  destruct (GetTextInside_spec text printf_pattern m (ch "(") (ch ")") E) as [H _].
  - rewrite Em. lia.
  - rewrite Em. exact Eo.
  - vm_compute. reflexivity.
  - apply H. split.
    + apply (nested_char (ch "a")); [reflexivity..|].
      apply (nested_pair (ch "[") (ch "]") (u"0")); [reflexivity|by repeat constructor|].
      do 3 (apply nested_char; [reflexivity..|]).
      apply (nested_pair (ch "(") (ch ")") (u"c") []); [reflexivity| |constructor].
      by repeat constructor.
    + exists (u" + d(e)"). rewrite Em. vm_compute. reflexivity.
Defined.
