(* ===== verification/Driver.v ===== *)
(** * The driver: lines, files, configuration, command line

    Models lines 56-171 (usage) and 5905-6318 of cpplint.py: [ProcessLine],
    [ProcessFileData], [ProcessConfigOverrides], [ProcessFile], the command
    line and [main].

    [environment] is what the run reads and does not change: the disk and the
    configuration files.  Standard input is in the [world], as reading uses it
    up.  [sys.exit] is an exception. *)

From S2P Require Import Prelude PyStr Regex RePattern Lint FileInfo IncludeState Cleanse Brackets Nesting FunctionState FileChecks LineChecks Spacing RValue Style Language.
From Stdlib Require Import Ascii.

Record environment := Environment {
  env_disk : disk;
  env_config : list N -> option (list N)
}.

(** A check of the caller's own. *)
Abbreviation CheckFn :=
  (list N -> cleansed_lines -> Z -> (list N -> Z -> list N -> Z -> list N -> M unit) -> M unit).

(** The objects [ProcessFileData] creates for a file. *)
Record file_state := FileState {
  fs_include : include_state;
  fs_function : function_state;
  fs_nesting : nesting_state
}.

Definition ProcessLine `{UnicodeDB} (fs : filesystem) (filename file_extension : list N)
    (clean_lines : cleansed_lines) (line : Z) (s : file_state) (error : ErrorFn)
    (extra_check_functions : list CheckFn) : M file_state :=
  raw_line ← lift (py_index (raw_lines clean_lines) line);
  _ ← ParseNolintSuppressions filename raw_line line error;
  nesting ← Update filename clean_lines line error (fs_nesting s);
  _ ← CheckForNamespaceIndentation filename nesting clean_lines line error;
  if InAsmBlock nesting then mret (FileState (fs_include s) (fs_function s) nesting)
  else
    fstate ← CheckForFunctionLengths filename clean_lines line (fs_function s) error;
    _ ← CheckForMultilineCommentsAndStrings filename clean_lines line error;
    _ ← CheckStyle fs filename clean_lines line file_extension nesting error;
    st ← CheckLanguage fs filename clean_lines line file_extension (fs_include s) error;
    _ ← CheckForNonConstReference filename clean_lines line nesting error;
    _ ← CheckForNonStandardConstructs filename clean_lines line nesting error;
    _ ← CheckVlogArguments filename clean_lines line error;
    _ ← CheckPosixThreading filename clean_lines line error;
    _ ← CheckInvalidIncrement filename clean_lines line error;
    _ ← CheckMakePairUsesDeduction filename clean_lines line error;
    _ ← CheckDefaultLambdaCaptures filename clean_lines line error;
    _ ← CheckRedundantVirtual filename clean_lines line error;
    _ ← CheckRedundantOverrideOrFinal filename clean_lines line error;
    _ ← for_ extra_check_functions (fun check_fn => check_fn filename clean_lines line error);
    mret (FileState st fstate nesting).

Fixpoint process_lines `{UnicodeDB} (fs : filesystem) (filename file_extension : list N)
    (clean_lines : cleansed_lines) (ixs : list Z) (s : file_state) (error : ErrorFn)
    (extra_check_functions : list CheckFn) : M file_state :=
  match ixs with
  | [] => mret s
  | line :: ixs' =>
      s ← ProcessLine fs filename file_extension clean_lines line s error extra_check_functions;
      _ ← FlagCxx11Features filename clean_lines line error;
      process_lines fs filename file_extension clean_lines ixs' s error extra_check_functions
  end.

Definition ProcessFileData `{UnicodeDB, DictOrder} (d : disk) (filename file_extension : list N)
    (lines : list (list N)) (error : ErrorFn) (extra_check_functions : list CheckFn) : M unit :=
  let lines := [u"// marker so line numbers and indices both start at 1"] ++ lines
               ++ [u"// marker so line numbers end in a known way"] in
  _ ← ResetNolintSuppressions;
  _ ← CheckForCopyright filename lines error;
  lines ← RemoveMultiLineComments filename lines error;
  clean_lines ← lift (new_CleansedLines lines);
  _ ← (if file_extension =s u"h"
       then CheckForHeaderGuard (disk_fs d) filename clean_lines error else mret tt);
  s ← process_lines (disk_fs d) filename file_extension clean_lines
        (xrange 0 (NumLines clean_lines))
        (FileState IncludeState.init FunctionState.init new_NestingState) error
        extra_check_functions;
  _ ← CheckCompletedBlocks filename error (fs_nesting s);
  _ ← CheckForIncludeWhatYouUse d filename clean_lines (fs_include s) error;
  _ ← (if file_extension =s u"cc"
       then CheckHeaderFileIncluded (disk_fs d) filename (fs_include s) error else mret tt);
  _ ← CheckForBadCharacters filename lines error;
  CheckForNewlineAtEOF filename lines error.

(** ** Methods of the global state *)

Definition on_lint (f : cpplint_state -> cpplint_state) : M unit :=
  modify (fun w => set_lint (f (lint w)) w).
Definition try_lint (f : cpplint_state -> res unit * cpplint_state) : M unit := fun w =>
  let '(r, s) := f (lint w) in (r, set_lint s w).

(** ** Configuration files *)

(** The lines of a byte file, each with its newline. *)
Fixpoint byte_lines_go (cur s : list N) : list (list N) :=
  match s with
  | [] => match cur with [] => [] | _ => [reverse cur] end
  | c :: s' =>
      if c =c 10%N then reverse (c :: cur) :: byte_lines_go [] s' else byte_lines_go (c :: cur) s'
  end.

(** What a file says so far: the filters it adds, and whether to look further
    up. *)
Record config := Config { cfg_filters : list (list N); keep_looking : bool }.

(** A line of a configuration file; [None] when it excludes the file. *)
Definition config_line (filename cfg_file base_name line : list N) (c : config)
    : M (option config) :=
  let line := fst (fst (partition line (u"#"))) in
  if strip_bytes line =s [] then mret (Some c)
  else
    let '(name, _, val) := partition line (u"=") in
    let name := strip_bytes name in
    let val := strip_bytes val in
    if name =s u"set noparent" then mret (Some (Config (cfg_filters c) false))
    else if name =s u"filter" then mret (Some (Config (cfg_filters c ++ [val]) (keep_looking c)))
    else if name =s u"exclude_files" then
      if base_name =s [] then mret (Some c)
      else
        pattern ← lift (compile_res val);
        if Matches pattern base_name then
          print_err (u"Ignoring " ++ dq ++ filename ++ dq ++ u": file excluded by " ++ dq
                     ++ cfg_file ++ dq ++ u". File path component " ++ dq ++ base_name ++ dq
                     ++ u" matches pattern " ++ dq ++ val ++ dq ++ [10%N]) ≫= fun _ =>
          mret None
        else mret (Some c)
    else if name =s u"linelength" then
      (match py_int val with
       | Some n => modify (set_line_length n)
       | None => print_err (u"Line length must be numeric.")
       end) ≫= fun _ =>
      mret (Some c)
    else
      print_err (u"Invalid configuration option (" ++ name ++ u") in file " ++ cfg_file ++ [10%N])
        ≫= fun _ =>
      mret (Some c).
Fixpoint config_lines (filename cfg_file base_name : list N) (lines : list (list N)) (c : config)
    : M (option config) :=
  match lines with
  | [] => mret (Some c)
  | l :: ls =>
      c ← config_line filename cfg_file base_name l c;
      match c with
      | None => mret None
      | Some c => config_lines filename cfg_file base_name ls c
      end
  end.

(** The climb through the directories; [None] when the file is excluded. *)
Fixpoint config_go (fuel : nat) (env : environment) (filename abs_filename : list N) (c : config)
    : M (option config) :=
  if negb (keep_looking c) then mret (Some c)
  else
    match fuel with
    | 0 => raise OutOfFuel
    | S f =>
        let '(abs_path, base_name) := os_split abs_filename in
        if base_name =s [] then mret (Some c)
        else
          let cfg_file := path_join abs_path (u"CPPLINT.cfg") in
          if negb (disk_isfile (env_disk env) cfg_file)
          then config_go f env filename abs_path c
          else
            match env_config env cfg_file with
            | Some text =>
                c ← config_lines filename cfg_file base_name (byte_lines_go [] text) c;
                match c with
                | None => mret None
                | Some c => config_go f env filename abs_path c
                end
            | None =>
                print_err (u"Skipping config file '" ++ cfg_file ++ u"': Can't open for reading"
                           ++ [10%N]) ≫= fun _ =>
                config_go f env filename abs_path (Config (cfg_filters c) false)
            end
    end.
Definition ProcessConfigOverrides (env : environment) (filename : list N) : M bool :=
  let abs_filename := abspath (disk_fs (env_disk env)) filename in
  c ← config_go (S (length abs_filename)) env filename abs_filename (Config [] true);
  match c with
  | None => mret false
  | Some c =>
      for_ (reverse (cfg_filters c)) (fun filt => try_lint (CppLintState.AddFilters filt))
        ≫= fun _ =>
      mret true
  end.

(** ** A file *)

(** Remove the carriage returns that end lines, except on the last one: the
    lines, and the numbers of the lines that end in LF and in CR LF. *)
Fixpoint strip_cr (linenum : Z) (lines : list (list N)) : list (list N) * list Z * list Z :=
  match lines with
  | [] => ([], [], [])
  | [l] => ([l], [], [])
  | l :: ls =>
      let '(ls', lf, crlf) := strip_cr (linenum + 1) ls in
      if ends [13%N] l then (rstrip_chars [13%N] l :: ls', lf, (linenum + 1)%Z :: crlf)
      else (l :: ls', (linenum + 1)%Z :: lf, crlf)
  end.

(** Standard input is read to its end: nothing is left for a second [-]. *)
Definition read_stdin : M (option (list N)) :=
  text ← gets stdin;
  _ ← modify (set_stdin []);
  mret (Some text).

Definition ProcessFile `{UnicodeDB, DictOrder} (env : environment) (filename : list N)
    (vlevel : Z) (extra_check_functions : list CheckFn) : M unit :=
  _ ← on_lint (fun s => snd (CppLintState.SetVerboseLevel vlevel s));
  _ ← on_lint CppLintState.BackupFilters;
  go ← ProcessConfigOverrides env filename;
  if negb go then on_lint CppLintState.RestoreFilters
  else
    input ← (if filename =s u"-" then read_stdin else mret (disk_read (env_disk env) filename));
    match input with
    | None =>
        print_err (u"Skipping input '" ++ filename ++ u"': Can't open for reading" ++ [10%N])
          ≫= fun _ =>
        on_lint CppLintState.RestoreFilters
    | Some text =>
        let '(lines, lf_lines, crlf_lines) := strip_cr 0 (split_on text [10%N]) in
        let file_extension := slice_from filename (rfind filename (u".") + 1) in
        valid ← gets valid_extensions;
        _ ← (if negb (filename =s u"-") && negb (in_strs file_extension valid) then
               print_err (u"Ignoring " ++ filename ++ u"; not a valid file name ("
                          ++ join (u", ") (dict_order valid) ++ u")" ++ [10%N])
             else
               _ ← ProcessFileData (env_disk env) filename file_extension lines Error
                     extra_check_functions;
               match lf_lines, crlf_lines with
               | _ :: _, _ :: _ =>
                   for_ crlf_lines (fun linenum =>
                     Error filename linenum (u"whitespace/newline") 1%Z
                       (u"Unexpected \r (^M) found; better to use only \n"))
               | _, _ => mret tt
               end);
        _ ← print_err (u"Done processing " ++ filename ++ [10%N]);
        on_lint CppLintState.RestoreFilters
    end.

(** ** The command line *)

Definition _USAGE : list N :=
  join [10%N] [
    [];
    u"Syntax: cpplint.py [--verbose=#] [--output=vs7] [--filter=-x,+y,...]";
    u"                   [--counting=total|toplevel|detailed] [--root=subdir]";
    u"                   [--linelength=digits]";
    u"        <file> [file] ...";
    [];
    u"  The style guidelines this tries to follow are those in";
    u"    http://google-styleguide.googlecode.com/svn/trunk/cppguide.xml";
    [];
    u"  Every problem is given a confidence score from 1-5, with 5 meaning we are";
    u"  certain of the problem, and 1 meaning it could be a legitimate construct.";
    u"  This will miss some errors, and is not a substitute for a code review.";
    [];
    u"  To suppress false-positive errors of a certain category, add a";
    u"  'NOLINT(category)' comment to the line.  NOLINT or NOLINT(*)";
    u"  suppresses errors of all categories on that line.";
    [];
    u"  The files passed in will be linted; at least one file must be provided.";
    u"  Default linted extensions are .cc, .cpp, .cu, .cuh and .h.  Change the";
    u"  extensions with the --extensions flag.";
    [];
    u"  Flags:";
    [];
    u"    output=vs7";
    u"      By default, the output is formatted to ease emacs parsing.  Visual Studio";
    u"      compatible output (vs7) may also be used.  Other formats are unsupported.";
    [];
    u"    verbose=#";
    u"      Specify a number 0-5 to restrict errors to certain verbosity levels.";
    [];
    u"    filter=-x,+y,...";
    u"      Specify a comma-separated list of category-filters to apply: only";
    u"      error messages whose category names pass the filters will be printed.";
    u"      (Category names are printed with the message and look like";
    u"      " ++ dq ++ u"[whitespace/indent]" ++ dq ++ u".)  Filters are evaluated left to right.";
    u"      " ++ dq ++ u"-FOO" ++ dq ++ u" and " ++ dq ++ u"FOO" ++ dq ++ u" means " ++ dq ++ u"do not print categories that start with FOO" ++ dq ++ u".";
    u"      " ++ dq ++ u"+FOO" ++ dq ++ u" means " ++ dq ++ u"do print categories that start with FOO" ++ dq ++ u".";
    [];
    u"      Examples: --filter=-whitespace,+whitespace/braces";
    u"                --filter=whitespace,runtime/printf,+runtime/printf_format";
    u"                --filter=-,+build/include_what_you_use";
    [];
    u"      To see a list of all the categories used in cpplint, pass no arg:";
    u"         --filter=";
    [];
    u"    counting=total|toplevel|detailed";
    u"      The total number of errors found is always printed. If";
    u"      'toplevel' is provided, then the count of errors in each of";
    u"      the top-level categories like 'build' and 'whitespace' will";
    u"      also be printed. If 'detailed' is provided, then a count";
    u"      is provided for each category like 'build/class'.";
    [];
    u"    root=subdir";
    u"      The root directory used for deriving header guard CPP variable.";
    u"      By default, the header guard CPP variable is calculated as the relative";
    u"      path to the directory that contains .git, .hg, or .svn.  When this flag";
    u"      is specified, the relative path is calculated from the specified";
    u"      directory. If the specified directory does not exist, this flag is";
    u"      ignored.";
    [];
    u"      Examples:";
    u"        Assuming that src/.git exists, the header guard CPP variables for";
    u"        src/chrome/browser/ui/browser.h are:";
    [];
    u"        No flag => CHROME_BROWSER_UI_BROWSER_H_";
    u"        --root=chrome => BROWSER_UI_BROWSER_H_";
    u"        --root=chrome/browser => UI_BROWSER_H_";
    [];
    u"    linelength=digits";
    u"      This is the allowed line length for the project. The default value is";
    u"      80 characters.";
    [];
    u"      Examples:";
    u"        --linelength=120";
    [];
    u"    extensions=extension,extension,...";
    u"      The allowed file extensions that cpplint will check";
    [];
    u"      Examples:";
    u"        --extensions=hpp,cpp";
    [];
    u"    cpplint.py supports per-directory configurations specified in CPPLINT.cfg";
    u"    files. CPPLINT.cfg file can contain a number of key=value pairs.";
    u"    Currently the following options are supported:";
    [];
    u"      set noparent";
    u"      filter=+filter1,-filter2,...";
    u"      exclude_files=regex";
    u"      linelength=80";
    [];
    u"    " ++ dq ++ u"set noparent" ++ dq ++ u" option prevents cpplint from traversing directory tree";
    u"    upwards looking for more .cfg files in parent directories. This option";
    u"    is usually placed in the top-level project directory.";
    [];
    u"    The " ++ dq ++ u"filter" ++ dq ++ u" option is similar in function to --filter flag. It specifies";
    u"    message filters in addition to the |_DEFAULT_FILTERS| and those specified";
    u"    through --filter command-line flag.";
    [];
    u"    " ++ dq ++ u"exclude_files" ++ dq ++ u" allows to specify a regular expression to be matched against";
    u"    a file name. If the expression matches, the file is skipped and not run";
    u"    through liner.";
    [];
    u"    " ++ dq ++ u"linelength" ++ dq ++ u" allows to specify the allowed line length for the project.";
    [];
    u"    CPPLINT.cfg has an effect on files in the same directory and all";
    u"    sub-directories, unless overridden by a nested configuration file.";
    [];
    u"      Example file:";
    u"        filter=-build/include_order,+build/include_alpha";
    u"        exclude_files=.*\.cc";
    [];
    u"    The above example disables build/include_order warning and enables";
    u"    build/include_alpha as well as excludes all .cc from being";
    u"    processed by linter, in the current directory (where the .cfg";
    u"    file is located) and all sub-directories.";
    []].

Definition PrintUsage {A} (message : list N) : M A :=
  print_err _USAGE ≫= fun _ =>
  if negb (message =s []) then raise (SystemExitMsg ([10%N] ++ u"FATAL ERROR: " ++ message))
  else raise (SystemExit 1).
Definition PrintCategories {A} : M A :=
  print_err (concat ((fun cat => u"  " ++ cat ++ [10%N]) <$> _ERROR_CATEGORIES)) ≫= fun _ =>
  raise (SystemExit 0).

(** [getopt.getopt] with long options only: [None] is [GetoptError].  The
    long options that take a value end in [=]; a unique prefix of an option
    stands for it. *)
Definition long_has_args (opt : list N) (longopts : list (list N)) : option (bool * list N) :=
  let possibilities := List.filter (starts opt) longopts in
  if in_strs opt possibilities then Some (false, opt)
  else if in_strs (opt ++ u"=") possibilities then Some (true, opt)
  else
    match possibilities with
    | [p] => Some (if ends (u"=") p then (true, slice p 0 (-1)) else (false, p))
    | _ => None
    end.
Fixpoint getopt_go (fuel : nat) (args longopts : list (list N)) (opts : list (list N * list N))
    : option (list (list N * list N) * list (list N)) :=
  match fuel with
  | 0 => None
  | S f =>
      match args with
      | arg :: args' =>
          if starts (u"-") arg && negb (arg =s u"-") then
            if arg =s u"--" then Some (opts, args')
            else if starts (u"--") arg then
              let '(opt, eq, v) := partition (slice_from arg 2) (u"=") in
              match long_has_args opt longopts with
              | None => None
              | Some (true, opt) =>
                  match eq, args' with
                  | _ :: _, _ => getopt_go f args' longopts (opts ++ [(u"--" ++ opt, v)])
                  | [], a :: args'' => getopt_go f args'' longopts (opts ++ [(u"--" ++ opt, a)])
                  | [], [] => None
                  end
              | Some (false, opt) =>
                  match eq with
                  | _ :: _ => None
                  | [] => getopt_go f args' longopts (opts ++ [(u"--" ++ opt, [])])
                  end
              end
            else None
          else Some (opts, args)
      | [] => Some (opts, [])
      end
  end.
Definition getopt (args longopts : list (list N)) :=
  getopt_go (S (length args)) args longopts [].

Definition long_options : list (list N) :=
  [u"help"; u"output="; u"verbose="; u"counting="; u"filter="; u"root="; u"linelength=";
   u"extensions="].

(** The local variables of [ParseArguments]. *)
Record options := Options {
  o_verbosity : Z;
  o_output_format : list N;
  o_filters : list N;
  o_counting_style : list N
}.
Definition parse_option (opt val : list N) (o : options) : M options :=
  if opt =s u"--help" then PrintUsage []
  else if opt =s u"--output" then
    if in_strs val [u"emacs"; u"vs7"; u"eclipse"]
    then mret (Options (o_verbosity o) val (o_filters o) (o_counting_style o))
    else PrintUsage (u"The only allowed output formats are emacs, vs7 and eclipse.")
  else if opt =s u"--verbose" then
    match py_int val with
    | Some n => mret (Options n (o_output_format o) (o_filters o) (o_counting_style o))
    | None => raise (ValueError (u"invalid literal for int() with base 10"))
    end
  else if opt =s u"--filter" then
    if val =s [] then PrintCategories
    else mret (Options (o_verbosity o) (o_output_format o) val (o_counting_style o))
  else if opt =s u"--counting" then
    if in_strs val [u"total"; u"toplevel"; u"detailed"]
    then mret (Options (o_verbosity o) (o_output_format o) (o_filters o) val)
    else PrintUsage (u"Valid counting options are total, toplevel, and detailed")
  else if opt =s u"--root" then modify (set_root (Some val)) ≫= fun _ => mret o
  else if opt =s u"--linelength" then
    match py_int val with
    | Some n => modify (set_line_length n) ≫= fun _ => mret o
    | None => PrintUsage (u"Line length must be digits.")
    end
  else if opt =s u"--extensions" then
    modify (set_valid_extensions (remove_dups (split_on val (u",")))) ≫= fun _ => mret o
  else mret o.
Fixpoint parse_options (opts : list (list N * list N)) (o : options) : M options :=
  match opts with
  | [] => mret o
  | (opt, val) :: opts' => o ← parse_option opt val o; parse_options opts' o
  end.
Definition ParseArguments (args : list (list N)) : M (list (list N)) :=
  match getopt args long_options with
  | None => PrintUsage (u"Invalid arguments.")
  | Some (opts, filenames) =>
      verbosity ← gets (fun w => verbose_level (lint w));
      format ← gets (fun w => output_format (lint w));
      o ← parse_options opts (Options verbosity format [] []);
      _ ← (if bool_decide (filenames = [])
           then PrintUsage (u"No files were specified.") else mret tt);
      _ ← on_lint (CppLintState.SetOutputFormat (o_output_format o));
      _ ← on_lint (fun s => snd (CppLintState.SetVerboseLevel (o_verbosity o) s));
      _ ← try_lint (CppLintState.SetFilters (o_filters o));
      _ ← on_lint (CppLintState.SetCountingStyle (o_counting_style o));
      mret filenames
  end.

Definition print_error_counts `{DictOrder} : M unit :=
  s ← gets lint;
  let items := (fun k => (k, default 0%Z (errors_by_category s !! k)))
               <$> dict_order (fst <$> map_to_list (errors_by_category s)) in
  for_ (CppLintState.PrintErrorCounts items s) print_err.

Definition main `{UnicodeDB, DictOrder} (env : environment) (argv : list (list N)) : M unit :=
  filenames ← ParseArguments argv;
  _ ← on_lint CppLintState.ResetErrorCounts;
  _ ← for_ filenames (fun filename =>
        level ← gets (fun w => verbose_level (lint w));
        ProcessFile env filename level []);
  _ ← print_error_counts;
  n ← gets (fun w => error_count (lint w));
  raise (SystemExit (if (0 <? n)%Z then 1 else 0)).

(** ** The ends of lines *)

Definition ends_cr (l : list N) : bool := ends [13%N] l.
(** The numbers, from [n] on, of the elements of a list that satisfy [P]. *)
Fixpoint numbers (P : list N -> bool) (n : Z) (ls : list (list N)) : list Z :=
  match ls with
  | [] => []
  | l :: ls' => if P l then n :: numbers P (n + 1) ls' else numbers P (n + 1) ls'
  end.

Lemma strip_cr_cons n x y ys :
  strip_cr n (x :: y :: ys) =
  let '(ls', lf, crlf) := strip_cr (n + 1) (y :: ys) in
  if ends_cr x then (rstrip_chars [13%N] x :: ls', lf, (n + 1)%Z :: crlf)
  else (x :: ls', (n + 1)%Z :: lf, crlf).
Proof. done. Qed.
Lemma strip_cr_from n ls l :
  strip_cr n (ls ++ [l]) =
  (((fun x => if ends_cr x then rstrip_chars [13%N] x else x) <$> ls) ++ [l],
   numbers (fun x => negb (ends_cr x)) (n + 1) ls, numbers ends_cr (n + 1) ls).
Proof.
  revert n. induction ls as [|x ls IH]; intros n; [done|].
  cbn [app numbers fmap list_fmap].
  destruct (ls ++ [l]) as [|y ys] eqn:E; [by destruct ls|].
  rewrite strip_cr_cons, IH. by destruct (ends_cr x).
Qed.

(** C35: the carriage returns.  Of the text of a file split at its newlines,
    every line but the last (what follows the last newline) loses the carriage
    returns it ends in, and no line changes otherwise; the two lists hold the
    numbers, counted from one, of the lines that ended in LF alone and of those
    that ended in CR LF, each of the lines in one of the two. *)
Theorem strip_cr_spec ls l :
  strip_cr 0 (ls ++ [l]) =
  (((fun x => if ends_cr x then rstrip_chars [13%N] x else x) <$> ls) ++ [l],
   numbers (fun x => negb (ends_cr x)) 1 ls, numbers ends_cr 1 ls).
Proof. apply strip_cr_from. Qed.
