(* ===== verification/Frame.v ===== *)
(** * What linting changes

    Every check sees the global state only through its error handler: it
    leaves the options, the filters and the rest of the configuration alone,
    error counts only grow, and output is only appended.  [framed] says so of
    a computation; the lemmas below say so of every check, so that the driver
    can be reasoned about without looking into the checks. *)

From S2P Require Import Prelude PyStr Regex RePattern Lint FileInfo IncludeState Cleanse Brackets Nesting FunctionState FileChecks LineChecks Spacing RValue Style Language Driver.
From Stdlib Require Import Ascii.

(** The configuration of a run. *)
Definition configuration (w : world) :=
  (root w, line_length w, valid_extensions w,
   (verbose_level (lint w), filters (lint w), filters_backup (lint w), counting (lint w),
    output_format (lint w))).

Record same_config (w w' : world) : Prop := {
  sc_config : configuration w' = configuration w;
  sc_count : (error_count (lint w) <= error_count (lint w'))%Z;
  sc_stderr : stderr w `prefix_of` stderr w'
}.
#[export] Instance same_config_preorder : PreOrder same_config.
Proof.
  split.
  - intros w. by split.
  - intros w1 w2 w3 [E1 C1 P1] [E2 C2 P2]. split; [congruence|lia|by etrans].
Qed.

Definition framed {A} (mm : M A) : Prop := forall w, same_config w (snd (mm w)).

Lemma framed_ret {A} (a : A) : framed (mret a).
Proof. intros w. reflexivity. Qed.
Lemma framed_raise {A} e : framed (raise e : M A).
Proof. intros w. reflexivity. Qed.
Lemma framed_lift {A} (r : res A) : framed (lift r).
Proof. intros w. reflexivity. Qed.
Lemma framed_gets {A} (f : world -> A) : framed (gets f).
Proof. intros w. reflexivity. Qed.
Lemma framed_bind {A B} (mm : M A) (f : A -> M B) :
  framed mm -> (forall a, framed (f a)) -> framed (mm ≫= f).
Proof.
  intros Hm Hf w. specialize (Hm w). unfold mbind, M_bind.
  destruct (mm w) as [[a|e] w1]; [|done]. etrans; [exact Hm | apply Hf].
Qed.
Lemma framed_when b mm : framed mm -> framed (when b mm).
Proof. destruct b; [done | intros _; apply framed_ret]. Qed.
Lemma framed_for {A} (l : list A) f : (forall a, framed (f a)) -> framed (for_ l f).
Proof.
  intros Hf. induction l as [|a l IH]; simpl; [apply framed_ret|]. by apply framed_bind.
Qed.
Lemma framed_for_enum {A} i (l : list A) f :
  (forall i a, framed (f i a)) -> framed (for_enum_from i l f).
Proof.
  intros Hf. revert i. induction l as [|a l IH]; intros i; simpl; [apply framed_ret|].
  by apply framed_bind.
Qed.
Lemma framed_print t : framed (print_err t).
Proof. intros w. split; [done|simpl; lia|]. by eexists. Qed.
Lemma framed_suppressions f :
  framed (modify (fun w => set_suppressions (f w) w)).
Proof. intros w. by split. Qed.

Create HintDb frame.
#[export] Hint Resolve framed_ret framed_raise framed_lift framed_gets framed_print : frame.

(** Split a computation along its binds, tests and matches. *)
Ltac frame_step :=
  match goal with
  | |- framed (_ ≫= _) => apply framed_bind; [|intros ?]
  | |- framed (when _ _) => apply framed_when
  | |- framed (for_ _ _) => apply framed_for; intros ?
  | |- framed (for_enum _ _) => apply framed_for_enum; intros ? ?
  | |- framed (let '(_, _) := ?x in _) => destruct x
  | |- framed (match ?x with _ => _ end) => destruct x
  | |- framed ((match ?x with _ => _ end) _) => destruct x
  end.
Ltac frame := repeat first [solve [eauto with frame nocore] | frame_step].

Lemma framed_count category :
  framed (modify (fun w => set_lint (CppLintState.IncrementErrorCount category (lint w)) w)).
Proof. intros w. split; [done|simpl; lia|done]. Qed.
#[export] Hint Resolve framed_count : frame.

Lemma framed_Error filename linenum category confidence message :
  framed (Error filename linenum category confidence message).
Proof.
  assert (framed (_ShouldPrintError category confidence linenum)) as H.
  { intros w. unfold _ShouldPrintError. by repeat case_bool. }
  unfold Error. frame.
Qed.

Lemma framed_suppression k line : framed (add_suppression k line).
Proof. intros w. by split. Qed.
Lemma framed_reset : framed ResetNolintSuppressions.
Proof. intros w. by split. Qed.
#[export] Hint Resolve framed_suppression framed_reset : frame.

Section Checks.
Context (error : ErrorFn).
Context (Herror : forall f l c k msg, framed (error f l c k msg)).
#[local] Hint Resolve Herror : frame.

Lemma framed_nolint f raw l : framed (ParseNolintSuppressions f raw l error).
Proof. unfold ParseNolintSuppressions. frame. Qed.
#[local] Hint Resolve framed_nolint : frame.

Lemma framed_multiline f ls : framed (RemoveMultiLineComments f ls error).
Proof.
  unfold RemoveMultiLineComments. generalize (S (length ls)) 0. intros fuel. revert ls.
  induction fuel as [|n IH]; intros ls i; cbn [remove_comments_go]; frame.
Qed.

(** Nesting *)
Lemma framed_disallow f c name ixs b : framed (disallow_go f c name error ixs b).
Proof. revert b. induction ixs as [|i ixs IH]; intros b; cbn [disallow_go]; frame. Qed.
#[local] Hint Resolve framed_disallow : frame.
Lemma framed_CheckEnd f c l b : framed (CheckEnd f c l error b).
Proof. unfold CheckEnd, ClassInfo_CheckEnd, NamespaceInfo_CheckEnd. frame. Qed.
#[local] Hint Resolve framed_CheckEnd : frame.
Lemma framed_tokens fuel f c l line (s : nesting_state) :
  framed (tokens_go fuel f c l error line s).
Proof.
  revert line s. induction fuel as [|n IH]; intros line s; cbn [tokens_go]; unfold token_step; frame.
Qed.
#[local] Hint Resolve framed_tokens : frame.
Lemma framed_Update f c l (s : nesting_state) : framed (Update f c l error s).
Proof. unfold Update, update_access. frame. Qed.
Lemma framed_completed f s : framed (CheckCompletedBlocks f error s).
Proof. unfold CheckCompletedBlocks. frame. Qed.

(** Functions and files *)
Lemma framed_functions f c l s : framed (CheckForFunctionLengths f c l s error).
Proof. unfold CheckForFunctionLengths, FunctionState.Check. frame. Qed.
Lemma framed_copyright f ls : framed (CheckForCopyright f ls error).
Proof. unfold CheckForCopyright. frame. Qed.
Lemma framed_guard fs f c : framed (CheckForHeaderGuard fs f c error).
Proof. unfold CheckForHeaderGuard. frame. Qed.
Lemma framed_own_header fs f st : framed (CheckHeaderFileIncluded fs f st error).
Proof. unfold CheckHeaderFileIncluded. frame. Qed.
Lemma framed_characters f ls : framed (CheckForBadCharacters f ls error).
Proof. unfold CheckForBadCharacters. frame. Qed.
Lemma framed_newline f ls : framed (CheckForNewlineAtEOF f ls error).
Proof. unfold CheckForNewlineAtEOF. frame. Qed.
Lemma framed_iwyu `{DictOrder} d f c st : framed (CheckForIncludeWhatYouUse d f c st error).
Proof. unfold CheckForIncludeWhatYouUse. frame. Qed.

(** Lines *)
Lemma framed_simple_checks f c l :
  framed (CheckForMultilineCommentsAndStrings f c l error)
  /\ framed (CheckPosixThreading f c l error) /\ framed (CheckVlogArguments f c l error)
  /\ framed (CheckInvalidIncrement f c l error)
  /\ framed (CheckSpacingForFunctionCall f c l error)
  /\ framed (CheckMakePairUsesDeduction f c l error)
  /\ framed (CheckDefaultLambdaCaptures f c l error)
  /\ framed (CheckRedundantOverrideOrFinal f c l error)
  /\ framed (FlagCxx11Features f c l error).
Proof.
  repeat match goal with |- _ /\ _ => split end;
    unfold CheckForMultilineCommentsAndStrings, CheckPosixThreading,
    CheckVlogArguments, CheckInvalidIncrement, CheckSpacingForFunctionCall,
    CheckMakePairUsesDeduction, CheckDefaultLambdaCaptures, CheckRedundantOverrideOrFinal,
    FlagCxx11Features, elided_at; frame.
Qed.
Lemma framed_namespace f s c l : framed (CheckForNamespaceIndentation f s c l error).
Proof. unfold CheckForNamespaceIndentation, CheckItemIndentationInNamespace. frame. Qed.
Lemma framed_constructs f c l s : framed (CheckForNonStandardConstructs f c l s error).
Proof.
  unfold CheckForNonStandardConstructs, check_constructor, line_at, elided_at. frame.
Qed.
Lemma framed_specifiers f c l ixs e : framed (check_specifiers f c l error ixs e).
Proof.
  revert e. induction ixs as [|i ixs IH]; intros e; cbn [check_specifiers]; unfold elided_at; frame.
Qed.
#[local] Hint Resolve framed_specifiers : frame.
Lemma framed_virtual f c l : framed (CheckRedundantVirtual f c l error).
Proof. unfold CheckRedundantVirtual, elided_at. frame. Qed.

(** Spacing *)
Lemma framed_comment line f l n : framed (CheckComment line f l n error).
Proof. unfold CheckComment, check_todo. frame. Qed.
#[local] Hint Resolve framed_comment : frame.
Lemma framed_spacing f c l s : framed (CheckSpacing f c l s error).
Proof. unfold CheckSpacing, check_blank_line, elided_at. frame. Qed.
Lemma framed_operators `{UnicodeDB} f c l : framed (CheckOperatorSpacing f c l error).
Proof. unfold CheckOperatorSpacing, check_angles, elided_at. frame. Qed.
Lemma framed_spacing_checks f c l s :
  framed (CheckAccess f c l s error) /\ framed (CheckParenthesisSpacing f c l error)
  /\ framed (CheckCommaSpacing f c l error) /\ framed (CheckBracesSpacing f c l error)
  /\ framed (CheckRValueReference f c l s error).
Proof.
  repeat match goal with |- _ /\ _ => split end;
    unfold CheckAccess, CheckParenthesisSpacing, CheckCommaSpacing, CheckBracesSpacing,
      CheckRValueReference, elided_at; frame.
Qed.

(** Style *)
Lemma framed_section f c ci l : framed (CheckSectionSpacing f c ci l error).
Proof. unfold CheckSectionSpacing, line_at. frame. Qed.
Lemma framed_if_else f c l line m : framed (check_if_else f c l error line m).
Proof. unfold check_if_else, elided_at. frame. Qed.
#[local] Hint Resolve framed_if_else : frame.
Lemma framed_braces f c l : framed (CheckBraces f c l error).
Proof. unfold CheckBraces, check_else, elided_at. frame. Qed.
Lemma framed_style_checks f c l :
  framed (CheckTrailingSemicolon f c l error) /\ framed (CheckEmptyBlockBody f c l error)
  /\ framed (CheckCheck f c l error) /\ framed (CheckAltTokens f c l error).
Proof.
  repeat match goal with |- _ /\ _ => split end;
    unfold CheckTrailingSemicolon, CheckEmptyBlockBody, CheckCheck, CheckAltTokens, elided_at;
    frame.
Qed.
Lemma framed_line_ends f c l line cl : framed (check_line_ends f c l error line cl).
Proof. unfold check_line_ends. frame. Qed.
Lemma framed_line_length `{UnicodeDB} fs f e l line :
  framed (check_line_length fs f e l error line).
Proof. unfold check_line_length. frame. Qed.
Lemma framed_one_command f c l cl : framed (check_one_command f c l error cl).
Proof. unfold check_one_command. frame. Qed.
#[local] Hint Resolve framed_section framed_braces framed_line_ends framed_line_length
  framed_one_command framed_spacing framed_operators : frame.
Lemma framed_style `{UnicodeDB} fs f c l e s : framed (CheckStyle fs f c l e s error).
Proof.
  destruct (framed_spacing_checks f c l s) as (? & ? & ? & ? & ?).
  destruct (framed_style_checks f c l) as (? & ? & ? & ?).
  destruct (framed_simple_checks f c l) as (? & ? & ? & ? & ? & _).
  unfold CheckStyle, elided_at. frame.
Qed.

(** Language *)
Lemma framed_static f c l : framed (CheckGlobalStatic f c l error).
Proof. unfold CheckGlobalStatic, elided_at. frame. Qed.
Lemma framed_printf f c l : framed (CheckPrintf f c l error).
Proof. unfold CheckPrintf, elided_at. frame. Qed.
Lemma framed_cast f c l t p : framed (CheckCStyleCast f c l t p error).
Proof. unfold CheckCStyleCast, elided_at. frame. Qed.
Lemma framed_function_cast f l line m : framed (check_function_cast f l error line m).
Proof. unfold check_function_cast. frame. Qed.
#[local] Hint Resolve framed_cast framed_function_cast : frame.
Lemma framed_casts f c l : framed (CheckCasts f c l error).
Proof. unfold CheckCasts, elided_at. frame. Qed.
Lemma framed_include `{UnicodeDB} fs f ls el l st :
  framed (CheckIncludeLine fs f ls el l st error).
Proof. unfold CheckIncludeLine, check_include_order. frame. Qed.
#[local] Hint Resolve framed_casts framed_static framed_printf framed_include : frame.
Lemma framed_language `{UnicodeDB} fs f c l e st : framed (CheckLanguage fs f c l e st error).
Proof.
  unfold CheckLanguage, check_int_types, check_format_string, check_memset, check_arrays,
    elided_at. frame.
Qed.
Lemma framed_references f c l s : framed (CheckForNonConstReference f c l s error).
Proof. unfold CheckForNonConstReference, elided_at. frame. Qed.

(** The checks of a line and of a file *)
Context (extra : list CheckFn).
Context (Hextra : forall check, check ∈ extra -> forall f c l, framed (check f c l error)).

Lemma framed_extra f c l : framed (for_ extra (fun check => check f c l error)).
Proof.
  induction extra as [|check cs IH]; simpl; [apply framed_ret|].
  apply framed_bind; [apply Hextra; set_solver|]. intros _. apply IH.
  intros check' Hin. apply Hextra. set_solver.
Qed.
#[local] Hint Resolve framed_extra framed_Update framed_namespace framed_functions framed_style
  framed_language framed_references framed_constructs framed_virtual : frame.
Lemma framed_line `{UnicodeDB} fs f e c l s :
  framed (ProcessLine fs f e c l s error extra).
Proof.
  destruct (framed_simple_checks f c l) as (? & ? & ? & ? & ? & ? & ? & ? & ?).
  unfold ProcessLine. frame.
Qed.
#[local] Hint Resolve framed_line : frame.
Lemma framed_lines `{UnicodeDB} fs f e c ixs s :
  framed (process_lines fs f e c ixs s error extra).
Proof.
  revert s. induction ixs as [|l ixs IH]; intros s; cbn [process_lines]; [frame|].
  destruct (framed_simple_checks f c l) as (_ & _ & _ & _ & _ & _ & _ & _ & ?). frame.
Qed.
#[local] Hint Resolve framed_lines framed_copyright framed_multiline framed_guard
  framed_completed framed_iwyu framed_own_header framed_characters framed_newline : frame.
Lemma framed_file `{UnicodeDB, DictOrder} d f e ls :
  framed (ProcessFileData d f e ls error extra).
Proof. unfold ProcessFileData. frame. Qed.
End Checks.

(** ** Linting a file *)

Lemma framed_data `{UnicodeDB, DictOrder} d f e ls :
  framed (ProcessFileData d f e ls Error []).
Proof.
  apply framed_file; [apply framed_Error|]. intros check Hin. by apply not_elem_of_nil in Hin.
Qed.
Lemma framed_stdin : framed read_stdin.
Proof. intros w. by split. Qed.
#[export] Hint Resolve framed_Error framed_data framed_stdin : frame.

(** C6: linting the contents of a file reads the configuration of the run and
    never changes it: whatever the file and the disk hold, and whether or not
    a check raises, the options, the filters and the header root are the ones
    from before, the count of errors has not gone down, and what was written
    is still there, followed by what the file added. *)
Theorem ProcessFileData_frame `{UnicodeDB, DictOrder} d filename file_extension lines w :
  let w' := snd (ProcessFileData d filename file_extension lines Error [] w) in
  configuration w' = configuration w
  /\ (error_count (lint w) <= error_count (lint w'))%Z
  /\ stderr w `prefix_of` stderr w'.
Proof.
  by destruct (framed_data d filename file_extension lines w).
Qed.

(** What [ProcessFile] leaves alone on the way: all but the filters, which a
    configuration file extends, and the line length, which it sets. *)
Definition kept (w : world) :=
  (root w, valid_extensions w,
   (verbose_level (lint w), filters_backup (lint w), counting (lint w), output_format (lint w))).
Definition keeps {A} (mm : M A) : Prop := forall w, kept (snd (mm w)) = kept w.

Lemma framed_keeps {A} (mm : M A) : framed mm -> keeps mm.
Proof.
  intros Hf w. destruct (Hf w) as [Hc _ _]. unfold configuration in Hc. unfold kept. congruence.
Qed.
Lemma keeps_bind {A B} (mm : M A) (f : A -> M B) :
  keeps mm -> (forall a, keeps (f a)) -> keeps (mm ≫= f).
Proof.
  intros Hm Hf w. specialize (Hm w). unfold mbind, M_bind.
  destruct (mm w) as [[a|e] w1]; [|done]. etrans; [apply Hf|done].
Qed.
Lemma keeps_for {A} (l : list A) f : (forall a, keeps (f a)) -> keeps (for_ l f).
Proof.
  intros Hf. induction l as [|a l IH]; simpl; [by apply framed_keeps, framed_ret|].
  by apply keeps_bind.
Qed.
Lemma keeps_line_length n : keeps (modify (set_line_length n)).
Proof. done. Qed.
Lemma keeps_AddFilters fs : keeps (try_lint (CppLintState.AddFilters fs)).
Proof.
  intros w. unfold try_lint, CppLintState.AddFilters. by destruct (List.find _ _).
Qed.
Create HintDb keeps.
#[export] Hint Resolve keeps_line_length keeps_AddFilters framed_keeps : keeps.
Ltac keep_step :=
  match goal with
  | |- keeps (_ ≫= _) => apply keeps_bind; [|intros ?]
  | |- keeps (for_ _ _) => apply keeps_for; intros ?
  | |- keeps (let '(_, _) := ?x in _) => destruct x
  | |- keeps (match ?x with _ => _ end) => destruct x
  end.
Ltac keep := repeat first [solve [eauto with keeps frame nocore] | keep_step].

Lemma keeps_config_lines f c b ls cfg : keeps (config_lines f c b ls cfg).
Proof.
  revert cfg. induction ls as [|l ls IH]; intros cfg; cbn [config_lines]; unfold config_line; keep.
Qed.
#[export] Hint Resolve keeps_config_lines : keeps.
Lemma keeps_config fuel env f a c : keeps (config_go fuel env f a c).
Proof.
  revert a c. induction fuel as [|n IH]; intros a c; cbn [config_go]; keep.
Qed.
#[export] Hint Resolve keeps_config : keeps.
Lemma keeps_overrides env f : keeps (ProcessConfigOverrides env f).
Proof. unfold ProcessConfigOverrides. keep. Qed.

Lemma keeps_lint (w w1 : world) :
  kept w1 = kept w -> filters_backup (lint w) = filters (lint w) ->
  let w2 := set_lint (CppLintState.RestoreFilters (lint w1)) w1 in
  kept w2 = kept w /\ filters (lint w2) = filters (lint w).
Proof.
  unfold kept. intros E B. simpl. injection E as -> -> -> Hb -> ->.
  rewrite Hb. split; [done|]. congruence.
Qed.

(** ** What a run adds

    Also where the configuration changes, the count of errors does not go down
    and output is only appended. *)
Record added (w w' : world) : Prop := {
  ad_count : (error_count (lint w) <= error_count (lint w'))%Z;
  ad_stderr : stderr w `prefix_of` stderr w'
}.
#[export] Instance added_preorder : PreOrder added.
Proof.
  split.
  - intros w. split; [lia|done].
  - intros w1 w2 w3 [C1 P1] [C2 P2]. split; [lia|by etrans].
Qed.
Definition adds {A} (mm : M A) : Prop := forall w, added w (snd (mm w)).
Lemma framed_adds {A} (mm : M A) : framed mm -> adds mm.
Proof. intros Hf w. by destruct (Hf w). Qed.
Lemma adds_bind {A B} (mm : M A) (f : A -> M B) :
  adds mm -> (forall a, adds (f a)) -> adds (mm ≫= f).
Proof.
  intros Hm Hf w. specialize (Hm w). unfold mbind, M_bind.
  destruct (mm w) as [[a|e] w1]; [|done]. etrans; [exact Hm|apply Hf].
Qed.
Lemma adds_for {A} (l : list A) f : (forall a, adds (f a)) -> adds (for_ l f).
Proof.
  intros Hf. induction l as [|a l IH]; simpl; [by apply framed_adds, framed_ret|].
  by apply adds_bind.
Qed.
(** A change of the options leaves counts and output alone. *)
Lemma adds_same {A} (mm : M A) :
  (forall w, error_count (lint (snd (mm w))) = error_count (lint w)
             /\ stderr (snd (mm w)) = stderr w) -> adds mm.
Proof. intros H w. destruct (H w) as [E1 E2]. split; [lia|by rewrite E2]. Qed.
Lemma adds_line_length n : adds (modify (set_line_length n)).
Proof. by apply adds_same. Qed.
Lemma adds_options f :
  (forall s, error_count (f s) = error_count s) -> adds (on_lint f).
Proof. intros Hf. apply adds_same. intros w. by split; [apply Hf|]. Qed.
Lemma adds_AddFilters fs : adds (try_lint (CppLintState.AddFilters fs)).
Proof.
  apply adds_same. intros w. unfold try_lint, CppLintState.AddFilters. by destruct (List.find _ _).
Qed.
Create HintDb adds.
#[export] Hint Resolve adds_line_length adds_AddFilters framed_adds : adds.
#[export] Hint Extern 1 (adds (on_lint _)) => by apply adds_options : adds.
Ltac add_step :=
  match goal with
  | |- adds (_ ≫= _) => apply adds_bind; [|intros ?]
  | |- adds (for_ _ _) => apply adds_for; intros ?
  | |- adds (let '(_, _) := ?x in _) => destruct x
  | |- adds (match ?x with _ => _ end) => destruct x
  end.
Ltac add := repeat first [solve [eauto with adds frame nocore] | add_step].

Lemma adds_config_lines f c b ls cfg : adds (config_lines f c b ls cfg).
Proof.
  revert cfg. induction ls as [|l ls IH]; intros cfg; cbn [config_lines]; unfold config_line; add.
Qed.
#[export] Hint Resolve adds_config_lines : adds.
Lemma adds_config fuel env f a c : adds (config_go fuel env f a c).
Proof.
  revert a c. induction fuel as [|n IH]; intros a c; cbn [config_go]; add.
Qed.
#[export] Hint Resolve adds_config : adds.
Lemma adds_ProcessFile `{UnicodeDB, DictOrder} env f v : adds (ProcessFile env f v []).
Proof. unfold ProcessFile, ProcessConfigOverrides. add. Qed.

(** Two directories: the configuration file of [/a] allows lines of 100
    columns and adds a filter, and the source file of [/b] has a line of 90. *)
Definition two_directories : environment :=
  let source n := u"// Copyright 2014 Authors" ++ replicate n (ch "x") ++ [10%N] in
  Environment
    (Disk (Filesystem (u"/") (fun _ => false))
          (fun f => f =s u"/a/CPPLINT.cfg")
          (fun f => if f =s u"/a/x.cpp" then Some (source 0)
                    else if f =s u"/b/y.cpp" then Some (source 65) else None))
    (fun f => if f =s u"/a/CPPLINT.cfg" then Some (u"linelength=100" ++ [10%N] ++ u"filter=-legal" ++ [10%N]) else None).

Lemma modify_Ok f w x w' : modify f w = (Ok x, w') -> w' = f w.
Proof. unfold modify. congruence. Qed.
Lemma gets_Ok {A} (f : world -> A) w x w' : gets f w = (Ok x, w') -> x = f w /\ w' = w.
Proof. unfold gets. by intros [= <- <-]. Qed.

(** C7: when [ProcessFile] returns, the filters are the ones from before: what
    the configuration files above the file added is gone, and nothing of the
    configuration has changed but the verbosity, which is the argument.  (The
    line length is not among what is restored: see
    [linelength_carries_over] of Config.) *)
Theorem ProcessFile_restores `{UnicodeDB, DictOrder} env filename vlevel w w' :
  ProcessFile env filename vlevel [] w = (Ok tt, w') ->
  filters (lint w') = filters (lint w)
  /\ verbose_level (lint w') = vlevel
  /\ counting (lint w') = counting (lint w)
  /\ output_format (lint w') = output_format (lint w)
  /\ root w' = root w /\ valid_extensions w' = valid_extensions w.
Proof.
  unfold ProcessFile. intros E.
  apply M_bind_Ok in E as (? & w1 & E1%modify_Ok & E). subst w1.
  apply M_bind_Ok in E as (? & w2 & E2%modify_Ok & E). subst w2.
  set (w0 := set_lint (CppLintState.BackupFilters _) _) in E.
  assert (exists w1, kept w1 = kept w0
          /\ w' = set_lint (CppLintState.RestoreFilters (lint w1)) w1) as (w1 & K & ->).
  { apply M_bind_Ok in E as (go & w1 & Ec & E).
    assert (kept w1 = kept w0) as K
      by (pose proof (keeps_overrides env filename w0) as K; rewrite Ec in K; exact K).
    rewrite <- K. clear Ec K. destruct go; cbn [negb] in E.
    2:{ apply modify_Ok in E. by exists w1. }
    apply M_bind_Ok in E as (input & wi & Ei & E).
    assert (kept wi = kept w1) as <-.
    { match type of Ei with ?mm _ = _ => assert (keeps mm) as Hk by (apply framed_keeps; frame) end.
      specialize (Hk w1). rewrite Ei in Hk. exact Hk. }
    clear w1 Ei. rename wi into w1. destruct input as [text|].
    - destruct (strip_cr _ _) as [[ls lf] crlf].
      apply M_bind_Ok in E as (valid & w2 & [_ ->]%gets_Ok & E).
      apply M_bind_Ok in E as (? & w3 & Eb & E).
      apply M_bind_Ok in E as (? & w4 & ->%modify_Ok & E). apply modify_Ok in E as ->.
      eexists. split; [|reflexivity].
      match type of Eb with ?mm _ = _ => assert (keeps mm) as Hk end.
      { apply framed_keeps. frame. }
      specialize (Hk w1). rewrite Eb in Hk. exact Hk.
    - apply M_bind_Ok in E as (? & w2 & ->%modify_Ok & E). apply modify_Ok in E as ->.
      eexists. split; [|reflexivity]. done. }
  destruct (keeps_lint w0 w1 K) as [K2 F]; [done|].
  unfold kept in K2. injection K2 as E1 E2 E3 E4 E5 E6.
  repeat split; try done; congruence.
Qed.

Definition sample_order : DictOrder := fun l => l.
Definition sample_run : res unit * world :=
  @ProcessFile ascii_db sample_order two_directories (u"/a/x.cpp") 1 [] init_world.
Lemma ProcessFile_restores_witness :
  sample_run = (Ok tt, snd sample_run)
  /\ filters (lint (snd sample_run)) = filters (lint init_world)
  /\ line_length (snd sample_run) = 100%Z.
Proof.
  assert (sample_run = (Ok tt, snd sample_run)) as E by (vm_compute; reflexivity).
  split; [exact E|]. split; [|vm_compute; reflexivity].
  destruct (@ProcessFile_restores ascii_db sample_order two_directories (u"/a/x.cpp") 1%Z
              init_world (snd sample_run) E) as [Hf _].
  exact Hf.
Defined.
