(* ===== verification/Config.v ===== *)
(** * How configuration files combine

    [ProcessConfigOverrides] reads the CPPLINT.cfg of the directory of the
    file, then those of the directories above, and adds the filters it found.
    The specification says which files govern a file ([governs]) and what each
    of their lines asks for ([setting]).  One theorem says in which order the
    filters end up, on which their effect depends: the last one that applies
    decides.  The other follows the line length through a run over many files,
    where no file starts afresh. *)

From S2P Require Import Prelude PyStr Regex RePattern Lint FileInfo IncludeState Cleanse Brackets Nesting FunctionState FileChecks LineChecks Spacing RValue Style Language Driver Frame.
From Stdlib Require Import Ascii.

(** ** The specification *)

(** The name and the value on a line, when it is not blank. *)
Definition setting (line : list N) : option (list N * list N) :=
  let text := fst (fst (partition line (u"#"))) in
  if strip_bytes text =s [] then None
  else let '(name, _, val) := partition text (u"=") in Some (strip_bytes name, strip_bytes val).
Definition no_parent (line : list N) : bool :=
  match setting line with Some (name, _) => name =s u"set noparent" | None => false end.
(** The filters a line asks for, as the comma list it gives. *)
Definition line_filter (line : list N) : list (list N) :=
  match setting line with
  | Some (name, val) => if name =s u"filter" then [val] else []
  | None => []
  end.
Definition file_filters (text : list N) : list (list N) := byte_lines_go [] text ≫= line_filter.
Definition stops (text : list N) : bool := existsb no_parent (byte_lines_go [] text).
(** The line lengths a line sets: one at most, a number. *)
Definition line_lengths (line : list N) : list Z :=
  match setting line with
  | Some (name, val) =>
      if name =s u"linelength" then match py_int val with Some n => [n] | None => [] end else []
  | None => []
  end.
Definition file_lengths (text : list N) : list Z := byte_lines_go [] text ≫= line_lengths.
Definition is_exclusion (line : list N) : bool :=
  match setting line with Some (name, _) => name =s u"exclude_files" | None => false end.
(** A configuration file that excludes no files. *)
Definition excludes_none (text : list N) : Prop :=
  forall line, line ∈ byte_lines_go [] text -> is_exclusion line = false.
(** The last of the values an option is given, or the one it has. *)
Definition last_given {A} (n : A) (ns : list A) : A := default n (last ns).
(** The filters of a comma list. *)
Definition filter_items (fs : list N) : list (list N) :=
  List.filter (fun f => negb (f =s [])) (strip_bytes <$> split_on fs (u",")).

(** The contents of the configuration files that govern the path [p], the
    nearest first: those of the directories above it, up to the first that
    asks for no parent or cannot be read. *)
Inductive governs (env : environment) : list N -> list (list N) -> Prop :=
  | governs_top p dir : os_split p = (dir, []) -> governs env p []
  | governs_none p dir base ts :
      os_split p = (dir, base) -> base <> [] ->
      disk_isfile (env_disk env) (path_join dir (u"CPPLINT.cfg")) = false ->
      governs env dir ts -> governs env p ts
  | governs_unreadable p dir base :
      os_split p = (dir, base) -> base <> [] ->
      disk_isfile (env_disk env) (path_join dir (u"CPPLINT.cfg")) = true ->
      env_config env (path_join dir (u"CPPLINT.cfg")) = None ->
      governs env p []
  | governs_last p dir base text :
      os_split p = (dir, base) -> base <> [] ->
      disk_isfile (env_disk env) (path_join dir (u"CPPLINT.cfg")) = true ->
      env_config env (path_join dir (u"CPPLINT.cfg")) = Some text -> stops text = true ->
      governs env p [text]
  | governs_more p dir base text ts :
      os_split p = (dir, base) -> base <> [] ->
      disk_isfile (env_disk env) (path_join dir (u"CPPLINT.cfg")) = true ->
      env_config env (path_join dir (u"CPPLINT.cfg")) = Some text -> stops text = false ->
      governs env dir ts -> governs env p (text :: ts).

(** Two splits of one path are the same. *)
Ltac same_split :=
  repeat match goal with
  | H : os_split ?p = _, H' : os_split ?p = _ |- _ => rewrite H in H'; simplify_eq
  end; try congruence.
(** A path has one list of governing files. *)
Lemma governs_unique env p ts ts' : governs env p ts -> governs env p ts' -> ts' = ts.
Proof.
  intros Hg. revert ts'.
  induction Hg as [| ? ? ? ? ? ? ? ? IH | | | ? ? ? ? ? ? ? ? ? ? ? IH];
    intros ts'; inversion 1; same_split; auto.
  f_equal. auto.
Qed.

Lemma last_given_app {A} (n : A) a b : last_given n (a ++ b) = last_given (last_given n a) b.
Proof. unfold last_given. rewrite last_app. by destruct (last b). Qed.

(** ** The lines of a file *)

Lemma config_line_Ok filename cfg_file base line c w o w' :
  config_line filename cfg_file base line c w = (Ok o, w') ->
  lint w' = lint w /\ line_length w' = last_given (line_length w) (line_lengths line) /\
  match o with
  | Some c' => cfg_filters c' = cfg_filters c ++ line_filter line
               /\ keep_looking c' = keep_looking c && negb (no_parent line)
  | None => is_exclusion line = true
  end.
Proof.
  unfold config_line, line_filter, line_lengths, no_parent, is_exclusion, setting. cbv zeta.
  assert (forall c : config, cfg_filters c = cfg_filters c ++ []
            /\ keep_looking c = keep_looking c && negb false) as Hsame.
  { intros c'. by rewrite app_nil_r, andb_true_r. }
  case_bool; [intros [-> ->]%M_ret_Ok; auto|].
  destruct (partition _ (u"=")) as [[name eq] val].
  destruct (eqs (strip_bytes name) (u"set noparent")) eqn:E1.
  { apply eqs_true in E1 as ->. intros [-> ->]%M_ret_Ok. do 2 (split; [done|]). cbn.
    by rewrite app_nil_r, andb_false_r. }
  destruct (eqs (strip_bytes name) (u"filter")) eqn:E2.
  { apply eqs_true in E2 as ->. intros [-> ->]%M_ret_Ok. cbn. by rewrite andb_true_r. }
  destruct (eqs (strip_bytes name) (u"exclude_files")) eqn:E3.
  { apply eqs_true in E3 as ->. case_bool; [intros [-> ->]%M_ret_Ok; auto|].
    intros E. apply M_bind_Ok in E as (p & w1 & [_ ->]%lift_Ok & E).
    destruct (Matches p base); [|apply M_ret_Ok in E as [-> ->]; auto].
    by apply M_bind_Ok in E as (? & w1 & ->%modify_Ok & [-> ->]%M_ret_Ok). }
  case_bool; intros E; apply M_bind_Ok in E as (? & w1 & E & [-> ->]%M_ret_Ok);
    [destruct (py_int _)|]; apply modify_Ok in E as ->; auto.
Qed.
Lemma config_lines_Ok filename cfg_file base ls c w o w' :
  config_lines filename cfg_file base ls c w = (Ok o, w') ->
  lint w' = lint w /\
  match o with
  | Some c' => cfg_filters c' = cfg_filters c ++ (ls ≫= line_filter)
               /\ keep_looking c' = keep_looking c && negb (existsb no_parent ls)
               /\ line_length w' = last_given (line_length w) (ls ≫= line_lengths)
  | None => exists line, line ∈ ls /\ is_exclusion line = true
  end.
Proof.
  revert c w. induction ls as [|l ls IH]; intros c w; cbn [config_lines].
  - intros [-> ->]%M_ret_Ok. cbn. by rewrite app_nil_r, andb_true_r.
  - intros E. apply M_bind_Ok in E as (o1 & w1 & E1 & E).
    apply config_line_Ok in E1 as (Hw & Hn & H1).
    destruct o1 as [c1|]; [|apply M_ret_Ok in E as [-> ->]; split; [done|]; exists l; set_solver].
    apply IH in E as [Hw2 H2]. split; [congruence|]. destruct o as [c'|].
    + destruct H1 as [F1 K1], H2 as (F2 & K2 & N2). cbn [mbind list_bind existsb].
      rewrite F2, F1, K2, K1, N2, Hn, <- app_assoc, last_given_app.
      by rewrite negb_orb, andb_assoc.
    + destruct H2 as (line & ? & ?). exists line. set_solver.
Qed.

(** ** The climb *)

Lemma config_go_stopped fuel env filename p c w o w' :
  keep_looking c = false -> config_go fuel env filename p c w = (Ok o, w') -> o = Some c /\ w' = w.
Proof. intros Hk. destruct fuel; cbn [config_go]; rewrite Hk; by intros [-> ->]%M_ret_Ok. Qed.
Lemma config_go_Ok fuel env filename p fs w o w' :
  config_go fuel env filename p (Config fs true) w = (Ok o, w') ->
  lint w' = lint w /\
  match o with
  | Some c => exists ts, governs env p ts /\ cfg_filters c = fs ++ (ts ≫= file_filters)
                /\ line_length w' = last_given (line_length w) (ts ≫= file_lengths)
  | None => forall ts, governs env p ts -> ~ Forall excludes_none ts
  end.
Proof.
  revert p fs w. induction fuel as [|n IH]; intros p fs w; cbn [config_go keep_looking negb]; [done|].
  destruct (os_split p) as [dir base] eqn:Ep.
  destruct (eqs base []) eqn:Eb.
  { apply eqs_true in Eb as ->. intros [-> ->]%M_ret_Ok. split; [done|]. exists [].
    split; [by eapply governs_top|]. cbn. by rewrite app_nil_r. }
  apply eqs_false in Eb. destruct (disk_isfile _ _) eqn:Ef; cbn [negb].
  2:{ intros E. apply IH in E as [Hw H]. split; [done|]. destruct o as [c|].
      - destruct H as (ts & Hg & Hc). exists ts. split; [|done]. by eapply governs_none.
      - intros ts. inversion 1; same_split; eauto. }
  destruct (env_config _ _) as [text|] eqn:Et.
  - intros E. apply M_bind_Ok in E as (o1 & w1 & E1 & E).
    apply config_lines_Ok in E1 as [Hw1 H1].
    destruct o1 as [[fs1 k1]|].
    2:{ apply M_ret_Ok in E as [-> ->]. split; [done|]. destruct H1 as (l & Hl & Hx).
        intros ts Hg Hall. assert (exists ts', ts = text :: ts') as [ts' ->]
          by (inversion Hg; same_split; simplify_eq; eauto).
        apply Forall_cons in Hall as [Hn _]. apply Hn in Hl. congruence. }
    cbn in H1. destruct H1 as (-> & -> & N1).
    fold (file_filters text) in E. fold (file_lengths text) in N1. fold (stops text) in E.
    destruct (stops text) eqn:Es; cbn [negb] in E.
    + apply config_go_stopped in E as [-> ->]; [|done]. split; [done|]. exists [text].
      split; [by eapply governs_last|]. cbn. by rewrite !app_nil_r.
    + apply IH in E as [Hw H]. split; [congruence|]. destruct o as [c|].
      * destruct H as (ts & Hg & Hc & Hn). exists (text :: ts). split; [by eapply governs_more|].
        cbn [mbind list_bind]. by rewrite Hc, Hn, N1, <- app_assoc, last_given_app.
      * intros ts. inversion 1; same_split; simplify_eq. rewrite Forall_cons. intros [_ Hall]. by eapply H.
  - intros E. apply M_bind_Ok in E as (? & w1 & ->%modify_Ok & E).
    apply config_go_stopped in E as [-> ->]; [|done]. split; [done|]. exists [].
    split; [by eapply governs_unreadable|]. cbn. by rewrite app_nil_r.
Qed.
Lemma add_filters_Ok ls w x w' :
  for_ ls (fun filt => try_lint (CppLintState.AddFilters filt)) w = (Ok x, w') ->
  filters (lint w') = filters (lint w) ++ (ls ≫= filter_items) /\ line_length w' = line_length w.
Proof.
  revert w. induction ls as [|f ls IH]; intros w; cbn [for_ mbind list_bind].
  - intros [_ ->]%M_ret_Ok. by rewrite app_nil_r.
  - intros E. apply M_bind_Ok in E as (? & w1 & E1 & E). apply IH in E as [-> ->].
    unfold try_lint, CppLintState.AddFilters in E1.
    destruct (List.find _ _); [done|]. injection E1 as _ <-. cbn. by rewrite <- app_assoc.
Qed.

(** C33: when [ProcessConfigOverrides] returns, it has added nothing to the
    filters if the file is excluded, and else the filters of the configuration
    files that govern the file, of which there is only one list, those of the
    outermost directory first, so that the nearest decide.  Within one configuration file, however, the
    order of the lines is reversed as well: an earlier line decides over a
    later one. *)
Theorem ProcessConfigOverrides_filters env filename w go w' :
  ProcessConfigOverrides env filename w = (Ok go, w') ->
  if go : bool then
    exists ts, governs env (abspath (disk_fs (env_disk env)) filename) ts
      /\ (forall ts', governs env (abspath (disk_fs (env_disk env)) filename) ts' -> ts' = ts)
      /\ filters (lint w')
         = filters (lint w)
           ++ (reverse ts ≫= fun text => reverse (file_filters text) ≫= filter_items)
  else filters (lint w') = filters (lint w).
Proof.
  unfold ProcessConfigOverrides. cbv zeta. intros E.
  apply M_bind_Ok in E as (o & w1 & E1 & E). apply config_go_Ok in E1 as [Hw H].
  destruct o as [c|]; [|apply M_ret_Ok in E as [-> ->]; by rewrite Hw].
  apply M_bind_Ok in E as (? & w2 & E2 & [-> ->]%M_ret_Ok).
  apply add_filters_Ok in E2 as [E2 _]. destruct H as (ts & Hg & Hc & _). exists ts.
  split; [done|]. split; [intros ts'; by apply governs_unique|].
  rewrite E2, Hw, Hc. f_equal. cbn [app]. clear. induction ts as [|t ts IH]; [done|].
  cbn [mbind list_bind] in *. rewrite reverse_app, reverse_cons, !bind_app, IH. cbn.
  by rewrite app_nil_r.
Qed.

(** A directory whose configuration turns whitespace errors off, and then those
    about tabs back on; its parent's adds a filter of its own. *)
Definition nested_configs : environment :=
  Environment
    (Disk (Filesystem (u"/") (fun _ => false))
          (fun f => in_strs f [u"/a/CPPLINT.cfg"; u"/a/b/CPPLINT.cfg"]) (fun _ => None))
    (fun f => if f =s u"/a/CPPLINT.cfg" then Some (u"filter=-legal,-build")
              else if f =s u"/a/b/CPPLINT.cfg"
              then Some (u"filter=-whitespace" ++ [10%N] ++ u"filter=+whitespace/tab # tabs" ++ [10%N])
              else None).
Definition nested_run : res bool * world :=
  ProcessConfigOverrides nested_configs (u"/a/b/x.cc") init_world.
(** The tabs stay off. *)
Example nested_filters :
  filters (lint (snd nested_run))
  = _DEFAULT_FILTERS ++ [u"-legal"; u"-build"; u"+whitespace/tab"; u"-whitespace"].
Proof. vm_compute. reflexivity. Qed.
Lemma ProcessConfigOverrides_filters_witness :
  nested_run = (Ok true, snd nested_run)
  /\ let governing := governs nested_configs
                        (abspath (disk_fs (env_disk nested_configs)) (u"/a/b/x.cc")) in
     exists ts, governing ts /\ (forall ts', governing ts' -> ts' = ts)
       /\ filters (lint (snd nested_run))
          = _DEFAULT_FILTERS
            ++ (reverse ts ≫= fun text => reverse (file_filters text) ≫= filter_items).
Proof.
  assert (nested_run = (Ok true, snd nested_run)) as E by (vm_compute; reflexivity).
  split; [exact E|].
  exact (ProcessConfigOverrides_filters nested_configs (u"/a/b/x.cc") init_world true
           (snd nested_run) E).
Defined.

(** ** The line length of a run *)

Lemma framed_line_length_kept {A} (mm : M A) w r w' :
  framed mm -> mm w = (r, w') -> line_length w' = line_length w.
Proof.
  intros Hf E. destruct (Hf w) as [Hc _ _]. rewrite E in Hc. unfold configuration in Hc. cbn in Hc.
  congruence.
Qed.
Lemma overrides_line_length env filename ts w go w' :
  governs env (abspath (disk_fs (env_disk env)) filename) ts -> Forall excludes_none ts ->
  ProcessConfigOverrides env filename w = (Ok go, w') ->
  line_length w' = last_given (line_length w) (ts ≫= file_lengths).
Proof.
  intros Hg Hx E. unfold ProcessConfigOverrides in E. cbv zeta in E.
  apply M_bind_Ok in E as (o & w1 & E1 & E). apply config_go_Ok in E1 as [_ H].
  destruct o as [c|]; [|by destruct (H ts Hg)].
  apply M_bind_Ok in E as (? & w2 & [_ E2]%add_filters_Ok & [_ ->]%M_ret_Ok).
  destruct H as (ts' & Hg' & _ & Hn). by rewrite E2, Hn, (governs_unique _ _ _ _ Hg Hg').
Qed.
Lemma ProcessFile_line_length `{UnicodeDB, DictOrder} env filename vlevel ts w w' :
  governs env (abspath (disk_fs (env_disk env)) filename) ts -> Forall excludes_none ts ->
  ProcessFile env filename vlevel [] w = (Ok tt, w') ->
  line_length w' = last_given (line_length w) (ts ≫= file_lengths).
Proof.
  intros Hg Hx. unfold ProcessFile. intros E.
  apply M_bind_Ok in E as (? & w1 & E1%modify_Ok & E). subst w1.
  apply M_bind_Ok in E as (? & w2 & E2%modify_Ok & E). subst w2.
  apply M_bind_Ok in E as (go & w1 & Ec & E).
  apply (overrides_line_length _ _ _ _ _ _ Hg Hx) in Ec. cbn [line_length set_lint] in Ec.
  rewrite <- Ec. clear Ec. destruct go; cbn [negb] in E; [|by apply modify_Ok in E as ->].
  apply M_bind_Ok in E as (input & w2 & Ei & E).
  apply framed_line_length_kept in Ei; [|frame]. rewrite <- Ei. clear Ei. destruct input.
  - destruct (strip_cr _ _) as [[ls lf] crlf].
    apply M_bind_Ok in E as (valid & w3 & [_ ->]%gets_Ok & E).
    apply M_bind_Ok in E as (? & w3 & Eb & E).
    apply framed_line_length_kept in Eb; [|frame]. rewrite <- Eb.
    by apply M_bind_Ok in E as (? & w4 & ->%modify_Ok & ->%modify_Ok).
  - by apply M_bind_Ok in E as (? & w3 & ->%modify_Ok & ->%modify_Ok).
Qed.

(** C36: a line length never goes back.  When the loop of [main] has gone
    through a list of files, each governed by configuration files that exclude
    none, the line length is the last one set by any configuration file of any
    file of the list, in the order in which they were read: file by file, and
    for one file the nearest directory first.  So what a configuration file sets
    stays for all later files, which it need not govern, until another one sets
    it; and between a directory and its parent, the parent decides. *)
Theorem linelength_carries_over `{UnicodeDB, DictOrder} env filenames tss w w' :
  Forall2 (fun filename ts =>
    governs env (abspath (disk_fs (env_disk env)) filename) ts /\ Forall excludes_none ts)
    filenames tss ->
  for_ filenames (fun filename =>
    level ← gets (fun w => verbose_level (lint w)); ProcessFile env filename level []) w
  = (Ok tt, w') ->
  line_length w' = last_given (line_length w) (tss ≫= fun ts => ts ≫= file_lengths).
Proof.
  intros Hall. revert w. induction Hall as [|f ts fs tss [Hg Hx] _ IH]; intros w; cbn [for_].
  - by intros [_ ->]%M_ret_Ok.
  - intros E. apply M_bind_Ok in E as ([] & w1 & E1 & E). apply IH in E as ->.
    apply M_bind_Ok in E1 as (v & w2 & [_ ->]%gets_Ok & E1).
    cbn [mbind list_bind]. by rewrite (ProcessFile_line_length _ _ _ _ _ _ Hg Hx E1), last_given_app.
Qed.

(** The CPPLINT.cfg of [/a] governs [/a/x.cpp], and nothing governs [/b/y.cpp]. *)
Definition lengths_run : res unit * world :=
  for_ [u"/a/x.cpp"; u"/b/y.cpp"] (fun filename =>
    level ← gets (fun w => verbose_level (lint w));
    @ProcessFile ascii_db sample_order two_directories filename level []) init_world.
Definition a_config : list N := u"linelength=100" ++ [10%N] ++ u"filter=-legal" ++ [10%N].
Lemma two_directories_governed :
  Forall2 (fun filename ts =>
    governs two_directories (abspath (disk_fs (env_disk two_directories)) filename) ts
    /\ Forall excludes_none ts) [u"/a/x.cpp"; u"/b/y.cpp"] [[a_config]; []].
Proof.
  repeat constructor.
  - change (abspath _ _) with (u"/a/x.cpp").
    eapply (governs_more _ _ (u"/a") (u"x.cpp")); try reflexivity; [done|].
    eapply (governs_none _ _ (u"/") (u"a")); try reflexivity; [done|].
    by eapply (governs_top _ _ (u"/")).
  - intros line. vm_compute. set_solver.
  - change (abspath _ _) with (u"/b/y.cpp").
    eapply (governs_none _ _ (u"/b") (u"y.cpp")); try reflexivity; [done|].
    eapply (governs_none _ _ (u"/") (u"b")); try reflexivity; [done|].
    by eapply (governs_top _ _ (u"/")).
Qed.
Lemma linelength_carries_over_witness :
  lengths_run = (Ok tt, snd lengths_run) /\ line_length (snd lengths_run) = 100%Z.
Proof.
  assert (lengths_run = (Ok tt, snd lengths_run)) as E by (vm_compute; reflexivity).
  split; [exact E|].
  exact (@linelength_carries_over ascii_db sample_order two_directories _ _ init_world
           (snd lengths_run) two_directories_governed E).
Defined.

(** With a line of 90 columns in [/b/y.cpp], the order of the arguments decides
    whether the run succeeds. *)
Example order_of_arguments :
  let run argv := fst (@main ascii_db sample_order two_directories argv init_world) in
  run [u"/b/y.cpp"; u"/a/x.cpp"] = Exc (SystemExit 1)
  /\ run [u"/a/x.cpp"; u"/b/y.cpp"] = Exc (SystemExit 0).
Proof. vm_compute. done. Qed.
