(* ===== verification/Options.v ===== *)
(** * The command line

    [ParseArguments] against the command lines one can write: options in full or
    abbreviated, with the value behind an equals sign or as an argument of its
    own, then the files.  The theorem says which of them are accepted, and with
    what effect: the whole state of the program after it. *)

From S2P Require Import Prelude PyStr Regex RePattern Lint FileInfo IncludeState Cleanse Brackets Nesting FunctionState FileChecks LineChecks Spacing RValue Style Language Driver Frame Config.
From Stdlib Require Import Ascii.

(** ** Writing a command line *)


(** ** What a command line asks for *)


(** ** getopt *)



(** ** The loop over the options *)







