(* ===== verification/Terminate.v ===== *)
(** * Termination

    The loops of the source that are not over a range are bounded by fuel in
    the model, and a loop that exhausts it raises [OutOfFuel], which is no
    Python exception.  This file shows that no loop of cpplint does: the
    bounds are enough, so each loop of the source ends.  It shows at the same
    time that linting files never calls [sys.exit]: only the reading of the
    command line and the end of [main] do.

    The one exception is the search for an SVN checkout, which climbs past the
    top of the tree when the top directory has a [.svn]; it is assumed that the
    top directories of absolute paths have none, and that the current directory
    has an absolute name ([no_top_svn]).  The recursion of [IsRValueType] is
    bounded by Python itself. *)

From S2P Require Import Prelude PyStr Regex RePattern Lint FileInfo IncludeState Cleanse Brackets Nesting FunctionState FileChecks LineChecks Spacing RValue Style Language Driver.
From Stdlib Require Import Ascii.

(** ** Computations that end

    A computation that ends without exhausting a bound and without
    [sys.exit]: it returns, or raises one of the other exceptions. *)

Definition ordinary (e : exn) : bool :=
  match e with OutOfFuel | SystemExit _ | SystemExitMsg _ => false | _ => true end.
Definition halts {A} (r : res A) : Prop :=
  match r with Ok _ => True | Exc e => ordinary e = true end.
Definition finishes {A} (mm : M A) : Prop := forall w, halts (fst (mm w)).

Lemma halts_bind {A B} (r : res A) (f : A -> res B) :
  halts r -> (forall a, r = Ok a -> halts (f a)) -> halts (r ≫= f).
Proof. intros Hr Hf. destruct r as [a|e]; simpl; [by apply Hf|done]. Qed.
Lemma halts_fmap {A B} (r : res A) (f : A -> B) : halts r -> halts (f <$> r).
Proof. intros Hr. by destruct r as [a|e]. Qed.
Lemma halts_of_option {A} e (o : option A) : ordinary e = true -> halts (of_option e o).
Proof. intros He. by destruct o. Qed.
Lemma halts_index {A} (l : list A) i : halts (py_index l i).
Proof. unfold py_index. case_bool; [done|]. by apply halts_of_option. Qed.
Lemma halts_compile p : halts (compile_res p).
Proof. by apply halts_of_option. Qed.

Lemma finishes_ret {A} (a : A) : finishes (mret a).
Proof. done. Qed.
Lemma finishes_raise {A} e : ordinary e = true -> finishes (raise e : M A).
Proof. by intros He w. Qed.
Lemma finishes_lift {A} (r : res A) : halts r -> finishes (lift r).
Proof. intros Hr w. exact Hr. Qed.
Lemma finishes_gets {A} (f : world -> A) : finishes (gets f).
Proof. done. Qed.
Lemma finishes_modify f : finishes (modify f).
Proof. done. Qed.
Lemma finishes_bind {A B} (mm : M A) (f : A -> M B) :
  finishes mm -> (forall a, finishes (f a)) -> finishes (mm ≫= f).
Proof.
  intros Hm Hf w. specialize (Hm w). unfold mbind, M_bind.
  destruct (mm w) as [[a|e] w1]; [apply Hf|done].
Qed.
(** The computation may use what the value is. *)
Lemma finishes_bind_lift {A B} (r : res A) (f : A -> M B) :
  halts r -> (forall a, r = Ok a -> finishes (f a)) -> finishes (lift r ≫= f).
Proof.
  intros Hr Hf w. unfold mbind, M_bind, lift. destruct r as [a|e]; [by apply Hf|done].
Qed.
Lemma finishes_ret_bind {A B} (a : A) (f : A -> M B) : finishes (f a) -> finishes (mret a ≫= f).
Proof. done. Qed.
Lemma finishes_when b mm : finishes mm -> finishes (when b mm).
Proof. by destruct b. Qed.
Lemma finishes_for {A} (l : list A) f : (forall a, finishes (f a)) -> finishes (for_ l f).
Proof.
  intros Hf. induction l as [|a l IH]; simpl; [apply finishes_ret|]. by apply finishes_bind.
Qed.
Lemma finishes_for_enum {A} i (l : list A) f :
  (forall i a, finishes (f i a)) -> finishes (for_enum_from i l f).
Proof.
  intros Hf. revert i. induction l as [|a l IH]; intros i; simpl; [apply finishes_ret|].
  by apply finishes_bind.
Qed.

Create HintDb halt.
#[export] Hint Resolve halts_index halts_compile finishes_ret finishes_gets finishes_modify
  finishes_lift : halt.
#[export] Hint Extern 1 (halts (of_option _ _)) => by apply halts_of_option : halt.
#[export] Hint Extern 1 (finishes (raise _)) => by apply finishes_raise : halt.
#[export] Hint Extern 1 (halts (Ok _)) => exact I : halt.
#[export] Hint Extern 1 (halts (mret _)) => exact I : halt.
#[export] Hint Extern 1 (halts (Exc _)) => reflexivity : halt.

(** Split a computation along its binds, tests and matches. *)
Ltac halt_step :=
  match goal with
  | |- halts (_ ≫= _) => apply halts_bind; [|intros ? ?]
  | |- halts (_ <$> _) => apply halts_fmap
  | |- halts (let '(_, _) := ?x in _) => destruct x
  | |- halts (match ?x with _ => _ end) => destruct x eqn:?
  | |- halts ((match ?x with _ => _ end) _) => destruct x eqn:?
  | |- finishes (lift _ ≫= _) => apply finishes_bind_lift; [|intros ? ?]
  | |- finishes (_ ≫= _) => apply finishes_bind; [|intros ?]
  | |- finishes (lift _) => apply finishes_lift
  | |- finishes (when _ _) => apply finishes_when
  | |- finishes (for_ _ _) => apply finishes_for; intros ?
  | |- finishes (for_enum _ _) => apply finishes_for_enum; intros ? ?
  | |- finishes (let '(_, _) := ?x in _) => destruct x
  | |- finishes (match ?x with _ => _ end) => destruct x eqn:?
  | |- finishes ((match ?x with _ => _ end) _) => destruct x eqn:?
  end.
Ltac halt := repeat first [solve [eauto with halt nocore] | halt_step].

(** ** Brackets *)

Lemma halts_prev_is line i c : halts (prev_is line i c).
Proof. unfold prev_is. halt. Qed.
#[export] Hint Resolve halts_prev_is : halt.
Lemma halts_end_step line i stack : halts (end_step line i stack).
Proof. unfold end_step. halt. Qed.
#[export] Hint Resolve halts_end_step : halt.
Lemma halts_end_loop line ixs stack : halts (end_loop line ixs stack).
Proof. revert stack. induction ixs as [|i ixs IH]; intros stack; cbn [end_loop]; halt. Qed.
Lemma halts_FindEnd line p stack : halts (FindEndOfExpressionInLine line p stack).
Proof. apply halts_end_loop. Qed.
#[export] Hint Resolve halts_FindEnd : halt.

Lemma halts_close_loop fuel c line l stack :
  (NumLines c - l <= Z.of_nat fuel)%Z -> halts (close_loop fuel c line l stack).
Proof.
  revert line l stack. induction fuel as [|f IH]; intros line l [[|x s]|] Hf; cbn [close_loop];
    try done; destruct (Z.ltb_spec l (NumLines c - 1)); try done; [lia|].
  halt. apply IH. lia.
Qed.
Lemma halts_CloseExpression c l p : halts (CloseExpression c l p).
Proof. unfold CloseExpression. halt. apply halts_close_loop. lia. Qed.

Lemma halts_start_step line i stack : halts (start_step line i stack).
Proof. unfold start_step. halt. Qed.
#[export] Hint Resolve halts_CloseExpression halts_start_step : halt.
Lemma start_step_back line i stack s j :
  start_step line i stack = Ok (Continue (s, j)) -> (j < i)%Z.
Proof.
  unfold start_step. intros E. apply res_bind_Ok in E as (c & _ & E). cbn beta iota zeta in E.
  repeat (case_match; try (injection E as <- <-; lia); try discriminate E);
    apply res_bind_Ok in E as (b & _ & E); cbn beta in E;
    repeat (case_match; try (injection E as <- <-; lia); try discriminate E).
Qed.
Lemma halts_start_loop fuel line i stack :
  (i < Z.of_nat fuel)%Z -> halts (start_loop fuel line i stack).
Proof.
  revert i stack. induction fuel as [|f IH]; intros i stack Hf; cbn [start_loop];
    (destruct (Z.leb_spec 0 i); [|done]); [lia|].
  apply halts_bind; [apply halts_start_step|]. intros [[s j]|r] E; [|done].
  apply start_step_back in E. apply IH. lia.
Qed.
Lemma halts_FindStart line p stack : halts (FindStartOfExpressionInLine line p stack).
Proof. apply halts_start_loop. lia. Qed.
#[export] Hint Resolve halts_FindStart : halt.
Lemma halts_reverse_loop fuel c line l stack :
  (l <= Z.of_nat fuel)%Z -> halts (reverse_loop fuel c line l stack).
Proof.
  revert line l stack. induction fuel as [|f IH]; intros line l [[|x s]|] Hf; cbn [reverse_loop];
    try done; destruct (Z.ltb_spec 0 l); try done; [lia|].
  halt. apply IH. lia.
Qed.
Lemma halts_ReverseCloseExpression c l p : halts (ReverseCloseExpression c l p).
Proof. unfold ReverseCloseExpression. halt. apply halts_reverse_loop. lia. Qed.
#[export] Hint Resolve halts_ReverseCloseExpression : halt.

(** ** Where [CloseExpression] ends *)

Lemma end_step_return line i stack e s :
  end_step line i stack = Ok (Return (e, s)) -> e = (i + 1)%Z \/ e = (-1)%Z.
Proof.
  unfold end_step. intros E. apply res_bind_Ok in E as (c & _ & E). cbn beta iota zeta in E.
  repeat (case_match; try (injection E as <- <-; lia); try discriminate E);
    apply res_bind_Ok in E as (b & _ & E); cbn beta in E;
    repeat (case_match; try (injection E as <- <-; lia); try discriminate E).
Qed.
Lemma end_loop_return line ixs stack e s :
  end_loop line ixs stack = Ok (e, s) -> (0 <= e)%Z -> exists i, i ∈ ixs /\ e = (i + 1)%Z.
Proof.
  revert stack. induction ixs as [|i ixs IH]; intros stack; cbn [end_loop].
  - intros [= <- _]. lia.
  - intros E He. apply res_bind_Ok in E as ([s'|[e' s']] & E1 & E).
    + destruct (IH _ E He) as (j & ? & ->). exists j. set_solver.
    + injection E as -> ->. apply end_step_return in E1 as [->| ->]; [|lia].
      exists i. set_solver.
Qed.
Lemma FindEnd_after line p stack e s :
  FindEndOfExpressionInLine line p stack = Ok (e, s) -> (0 <= e)%Z -> (p < e)%Z.
Proof.
  intros E He. apply end_loop_return in E as (i & Hi & ->); [|done].
  apply elem_of_xrange in Hi. lia.
Qed.
Lemma close_loop_after fuel c line l stack line' l' p' :
  close_loop fuel c line l stack = Ok (line', l', p') ->
  l' = NumLines c /\ p' = (-1)%Z \/ (l < l')%Z.
Proof.
  revert line l stack. induction fuel as [|f IH]; intros line l [[|x s]|]; cbn [close_loop];
    try (intros [= _ <- <-]; by left); (destruct (l <? _)%Z; [|intros [= _ <- <-]; by left]); [done|].
  intros E. apply res_bind_Ok in E as (ln & _ & E). apply res_bind_Ok in E as ([e st] & _ & E).
  case_bool; [injection E as _ <- _; right; lia|]. apply IH in E. lia.
Qed.
(** The closing bracket stands behind the opening one, unless there is none. *)
Lemma CloseExpression_after c l p line l' p' :
  CloseExpression c l p = Ok (line, l', p') ->
  l' = NumLines c /\ p' = (-1)%Z \/ l' = l /\ (p < p')%Z \/ (l < l')%Z.
Proof.
  unfold CloseExpression. intros E. apply res_bind_Ok in E as (ln & _ & E).
  apply res_bind_Ok in E as (c0 & _ & E).
  case_bool; [injection E as _ <- <-; by left|].
  apply res_bind_Ok in E as ([e st] & E1 & E).
  case_bool.
  - injection E as _ <- <-. apply FindEnd_after in E1; [|bool_simpl; lia]. right. left. done.
  - apply close_loop_after in E. tauto.
Qed.
Lemma CloseExpression_line c l p line l' p' :
  wf_lines c -> CloseExpression c l p = Ok (line, l', p') -> (0 <= l)%Z -> (0 <= l')%Z.
Proof.
  intros Hwf E Hl. apply CloseExpression_after in E. unfold wf_lines, NumLines in *.
  pose proof (len_nonneg (elided c)). lia.
Qed.

(** ** Nesting *)

(** The text from a position on: the characters and the line ends to come. *)
Definition ahead (c : cleansed_lines) (l p : Z) : Z :=
  (Z.max 0 (len (default [] (elided c !! Z.to_nat l)) - p)
   + Z.of_nat (length (concat (drop (S (Z.to_nat l)) (elided c))))
   + (len (elided c) - l))%Z.

Lemma ahead_here c l p p' : (0 <= p < p')%Z ->
  (p < len (default [] (elided c !! Z.to_nat l)))%Z -> (ahead c l p' < ahead c l p)%Z.
Proof. unfold ahead. lia. Qed.
Lemma drop_concat_length {A} (ls : list (list A)) i j :
  i <= j -> length (concat (drop j ls)) <= length (concat (drop i ls)).
Proof.
  intros Hij. rewrite <- (take_drop (j - i) (drop i ls)) at 1.
  rewrite drop_drop. replace (i + (j - i)) with j by lia.
  rewrite concat_app, length_app. lia.
Qed.
Lemma ahead_later c l p l' p' : (0 <= l < l')%Z -> (l' <= len (elided c))%Z -> (0 <= p')%Z ->
  (ahead c l' p' < ahead c l p)%Z.
Proof.
  intros Hl Hn Hp. unfold ahead.
  pose proof (drop_concat_length (elided c) (S (Z.to_nat l)) (Z.to_nat l') ltac:(lia)) as H.
  destruct (elided c !! Z.to_nat l') as [x|] eqn:E.
  - rewrite (drop_S _ _ _ E), concat_cons, length_app in H. simpl. unfold len. lia.
  - apply lookup_ge_None_1 in E.
    rewrite (drop_ge _ (S (Z.to_nat l'))) by lia. unfold len in *. cbn [default length concat]. simpl. lia.
Qed.
Lemma ahead_size c l p : (0 <= l)%Z -> (0 <= p)%Z ->
  (ahead c l p <= Z.of_nat (text_size c))%Z.
Proof.
  intros Hl Hp. unfold ahead, text_size.
  pose proof (drop_concat_length (elided c) 0 (Z.to_nat l) ltac:(lia)) as H. rewrite drop_0 in H.
  destruct (elided c !! Z.to_nat l) as [x|] eqn:E; simpl.
  - rewrite (drop_S _ _ _ E), concat_cons, length_app in H. unfold len. lia.
  - pose proof (drop_concat_length (elided c) 0 (S (Z.to_nat l)) ltac:(lia)) as H2.
    rewrite drop_0 in H2. unfold len. simpl. lia.
Qed.

Lemma group0_nonempty r s o :
  wf_re (rx_re r) -> 1 <= min_width (rx_re r) -> Match r s = Some o ->
  1 <= length (group0 o) <= length s.
Proof.
  intros Hwf Hw H. apply run_Some in H as (z' & g' & Hd & ->); [|done].
  pose proof (den_min_width _ _ _ _ _ _ Hd) as W.
  pose proof (advances_pos _ _ (den_advances _ _ _ _ _ _ Hd)) as Hp.
  assert (zs_str (start_zs s) = s) as E by reflexivity. rewrite E in *.
  unfold group0, sub_str. cbn [mo_str mo_start mo_end].
  change (pos (start_zs s)) with 0 in *. rewrite length_drop, length_take. lia.
Qed.

Lemma halts_in_template fuel c l p :
  wf_lines c -> (0 <= l)%Z -> (0 <= p)%Z -> (ahead c l p < Z.of_nat fuel)%Z ->
  halts (in_template_go fuel c l p).
Proof.
  intros Hwf. unfold wf_lines in Hwf.
  revert l p. induction fuel as [|f IH]; intros l p Hl Hp Hf; cbn [in_template_go];
    unfold NumLines in *; (destruct (Z.ltb_spec l (num_lines c)); [|done]).
  { exfalso. unfold ahead in Hf. lia. }
  apply halts_bind; [apply halts_index|]. intros line E.
  rewrite py_index_pos in E by done.
  assert (elided c !! Z.to_nat l = Some line) as El by (destruct (elided c !! _); naive_solver).
  pose proof (ahead_later c l p (l + 1) 0 ltac:(lia) ltac:(lia) ltac:(lia)) as Hnext.
  destruct (Match _ _) as [o|] eqn:Em; [|apply IH; lia].
  apply group0_nonempty in Em; [|regex_wf|vm_compute; lia].
  rewrite slice_from_pos, length_drop in Em by done.
  case_bool; [done|]. case_bool; [done|].
  set (q := (p + len (group0 o))%Z).
  assert (p < q <= len line)%Z as Hq by (unfold q, len; lia).
  case_bool.
  - destruct (Z.leb_spec (len line) (q + 1)); [apply IH; lia|].
    apply IH; try lia.
    pose proof (ahead_here c l p (q + 1)) as Hh. rewrite El in Hh. simpl in Hh. lia.
  - apply halts_bind; [apply halts_CloseExpression|]. intros [[? l'] p'] Ec.
    destruct (Z.ltb_spec p' 0); [done|].
    apply CloseExpression_after in Ec as [[_ ->]|[[-> Hp']|Hl']]; [lia| |].
    + apply IH; try lia.
      pose proof (ahead_here c l p p') as Hh. rewrite El in Hh. simpl in Hh. lia.
    + destruct (Z.ltb_spec l' (num_lines c)) as [Hn|Hn].
      * apply IH; try lia. pose proof (ahead_later c l p l' p'). lia.
      * destruct f; cbn [in_template_go]; unfold NumLines;
          (destruct (Z.ltb_spec l' (num_lines c)); [lia|done]).
Qed.
Lemma halts_InTemplate c l p :
  wf_lines c -> (0 <= l)%Z -> (0 <= p)%Z -> halts (InTemplateArgumentList c l p).
Proof.
  intros Hwf Hl Hp. apply halts_in_template; [done..|].
  pose proof (ahead_size c l p Hl Hp). lia.
Qed.

Section Errors.
Context (error : ErrorFn).
Context (Herror : forall f l c k msg, finishes (error f l c k msg)).
#[local] Hint Resolve Herror : halt.

Lemma finishes_nolint f raw l : finishes (ParseNolintSuppressions f raw l error).
Proof. unfold ParseNolintSuppressions, add_suppression. halt. Qed.

Lemma halts_last_line c ixs d : halts (last_line_go c ixs d).
Proof. revert d. induction ixs as [|i ixs IH]; intros d; cbn [last_line_go]; halt. Qed.
#[local] Hint Resolve halts_last_line : halt.
Lemma halts_class n k c l : halts (new_ClassInfo n k c l).
Proof. unfold new_ClassInfo. halt. Qed.
Lemma halts_begin c l b : halts (CheckBegin c l b).
Proof. unfold CheckBegin. halt. Qed.
Lemma finishes_disallow f c name ixs b : finishes (disallow_go f c name error ixs b).
Proof. revert b. induction ixs as [|i ixs IH]; intros b; cbn [disallow_go]; halt. Qed.
#[local] Hint Resolve finishes_disallow halts_class halts_begin : halt.
Lemma finishes_CheckEnd f c l b : finishes (CheckEnd f c l error b).
Proof. unfold CheckEnd, ClassInfo_CheckEnd, NamespaceInfo_CheckEnd. halt. Qed.
#[local] Hint Resolve finishes_CheckEnd : halt.

Section Nested.
Context {S : Type} `{NestingOps S}.

Lemma halts_namespaces fuel l line (s : S) :
  length line <= fuel -> halts (namespaces_go fuel l line s).
Proof.
  revert line s. induction fuel as [|n IH]; intros line s Hf; cbn [namespaces_go];
    (destruct (Match _ _) as [o|] eqn:E; [|done]);
    (apply (grp_shorter _ _ _ 2) in E; [|regex_wf|reflexivity]); [lia|].
  case_bool; apply IH; [|lia]. bool_simpl.
  pose proof (find_lower (grp o 2) (u"{")).
  rewrite slice_from_pos, length_drop by lia. lia.
Qed.
Lemma finishes_tokens fuel f c l line (s : S) :
  length line <= fuel -> finishes (tokens_go fuel f c l error line s).
Proof.
  revert line s. induction fuel as [|n IH]; intros line s Hf; cbn [tokens_go];
    (destruct (Match _ _) as [o|] eqn:E; [|by halt]);
    (apply (grp_shorter _ _ _ 2) in E; [|regex_wf|reflexivity]); [lia|].
  apply finishes_bind; [unfold token_step; halt|]. intros s'. apply IH. lia.
Qed.
Lemma halts_update_class c l line (s : S) :
  wf_lines c -> (0 <= l)%Z -> halts (update_class c l line s).
Proof.
  intros Hwf Hl. unfold update_class. halt. apply halts_InTemplate; [done..|apply len_nonneg].
Qed.
Lemma finishes_Update f c l (s : S) :
  wf_lines c -> (0 <= l)%Z -> finishes (Update f c l error s).
Proof.
  intros Hwf Hl. unfold Update, update_begin, update_access.
  pose proof (halts_update_class c l).
  halt; first [apply halts_namespaces | apply finishes_tokens]; lia.
Qed.
End Nested.
End Errors.

(** ** Operator names *)

(** The second group of the pattern is not empty and starts behind a word
    boundary: its first character is none of a word, so no underscore. *)
Lemma operator_match line o :
  Match (rx "^(.*\boperator\b)(\S+)(\s*\(.*)$") line = Some o ->
  exists c g2 rest, grp o 2 = c :: g2 /\ is_word c = false
    /\ line = grp o 1 ++ grp o 2 ++ grp o 3 ++ rest.
Proof.
  intros H. apply Match_den in H as (z' & g' & Hd & ->); [|regex_wf].
  rx_norm_in (rx "^(.*\boperator\b)(\S+)(\s*\(.*)$") Hd.
  den_inv.
  lazymatch goal with
  | |- context [?a ++ 111%N :: 112%N :: 101%N :: 114%N :: 97%N :: 116%N :: 111%N :: 114%N
                  :: ?b ++ ?c ++ 40%N :: ?d ++ ?e = _] =>
      grp_is 1 (@nil N) (a ++ [111; 112; 101; 114; 97; 116; 111; 114]%N) (b ++ c ++ 40%N :: d ++ e);
      grp_is 2 (a ++ [111; 112; 101; 114; 97; 116; 111; 114]%N) b (c ++ 40%N :: d ++ e);
      grp_is 3 (a ++ [111; 112; 101; 114; 97; 116; 111; 114]%N ++ b) (c ++ 40%N :: d) e;
      destruct b as [|x b]; [simpl in *; lia|]; exists x, b, e
  end.
  split; [done|]. split; [|by rewrite <- !app_assoc].
  match goal with H : xorb false (at_wordb (Zs (114%N :: _) _)) = true |- _ =>
    unfold at_wordb in H; simpl in H; by destruct (is_word x) end.
Qed.

(** The characters that are no underscores get fewer. *)
Definition visible (s : list N) : nat := length (List.filter (fun c => negb (c =c ch "_")) s).
Lemma visible_app a b : visible (a ++ b) = visible a + visible b.
Proof. unfold visible. by rewrite List.filter_app, length_app. Qed.
Lemma visible_blank n : visible (replicate n (ch "_")) = 0.
Proof. induction n; [done|]. unfold visible in *. simpl. done. Qed.
Lemma visible_length s : visible s <= length s.
Proof. apply List.filter_length_le. Qed.
Lemma halts_hide_operators fuel line : visible line < fuel -> halts (hide_operators fuel line).
Proof.
  revert line. induction fuel as [|f IH]; intros line Hf; [lia|]; cbn [hide_operators].
  destruct (Match _ _) as [o|] eqn:E; [|done].
  apply operator_match in E as (c & g2 & rest & E2 & Hc & El). apply IH.
  rewrite El, !visible_app, E2 in Hf. rewrite !visible_app, visible_blank.
  assert (visible (c :: g2) = S (visible g2)) as Hv; [|lia].
  unfold visible. simpl. destruct (N.eqb_spec c (ch "_")) as [->|]; [discriminate Hc|done].
Qed.

(** ** The other loops *)

(** Recursion over the indices of a range: by induction on the indices. *)
Ltac by_indices ixs f :=
  let i := fresh "i" in let IH := fresh "IH" in
  induction ixs as [|i ixs IH]; intros; cbn [f]; halt.

Section Lines.
Context (c : cleansed_lines).

Lemma halts_find_symbol fuel l line :
  (l < Z.of_nat fuel)%Z -> halts (find_symbol fuel c l line).
Proof.
  revert l line. induction fuel as [|f IH]; intros l line Hf; cbn [find_symbol];
    (destruct (Z.leb_spec 0 l); [|done]); [lia|].
  halt. apply IH. lia.
Qed.
Lemma find_symbol_line fuel l line l' o :
  find_symbol fuel c l line = Ok (l', Some o) -> (0 <= l')%Z.
Proof.
  revert l line. induction fuel as [|f IH]; intros l line; cbn [find_symbol];
    (destruct (Z.leb_spec 0 l); [|done]); (destruct (Match _ line); [by intros [= <- _]|]); [done|].
  intros E. apply res_bind_Ok in E as (x & _ & E). by apply IH in E.
Qed.
Lemma halts_block_scan fuel line e d :
  (0 <= e)%Z -> (num_lines c <= e + Z.of_nat fuel)%Z -> halts (block_scan fuel c line e d).
Proof.
  revert line e d. induction fuel as [|f IH]; intros line e d He Hf; cbn [block_scan];
    unfold NumLines; destruct (block_scan_line line d) as [[b|] d']; try done;
    (destruct (Z.leb_spec (num_lines c) (e + 1)); [done|]); [lia|].
  halt. apply IH; lia.
Qed.
Lemma halts_prepend ixs t : halts (prepend_elided c ixs t).
Proof. revert t. by_indices ixs (@prepend_elided). Qed.
#[local] Hint Resolve halts_prepend : halt.
Lemma halts_IsRValueType fuel ts s l p :
  halts (IsRValueType fuel ts c s l p).
Proof.
  revert p. induction fuel as [|f IH]; intros p; [done|]. cbn [IsRValueType].
  unfold IsDecltype, IsTemplateParameterList. cbv zeta.
  apply halts_bind; [apply halts_index|]. intros full _.
  destruct (Match _ _); [|done]. do 4 (case_bool; [by halt|]).
  apply halts_bind; [apply halts_find_symbol; lia|].
  intros [start [o|]] E; [|done]. apply find_symbol_line in E.
  halt. apply halts_block_scan; unfold NumLines; lia.
Qed.

Lemma halts_region_end ixs : halts (region_end c ixs).
Proof. by_indices ixs (@region_end). Qed.
#[local] Hint Resolve halts_region_end : halt.
Lemma halts_in_region l ixs : halts (in_region c l ixs).
Proof. by_indices ixs (@in_region). Qed.
Lemma halts_strip_forwarded fuel ts line :
  length line <= fuel -> halts (strip_forwarded fuel ts line).
Proof.
  revert line. induction fuel as [|f IH]; intros [|x line] Hf; try done; cbn [strip_forwarded];
    (destruct (Match _ _) as [o|] eqn:E; [|done]); case_match; try done; [simpl in Hf; lia|].
  apply (grp_shorter _ _ _ 2) in E; [|regex_wf|reflexivity]. apply IH. lia.
Qed.
Lemma halts_find_func_line fuel l :
  (l <= Z.of_nat fuel)%Z -> halts (find_func_line fuel c l).
Proof.
  revert l. induction fuel as [|f IH]; intros l Hf; cbn [find_func_line];
    (destruct (Z.ltb_spec 0 l); [|done]); [lia|].
  halt. apply IH. lia.
Qed.
Lemma halts_join_arguments ixs p t : halts (join_arguments c ixs p t).
Proof. revert p t. by_indices ixs (@join_arguments). Qed.
Lemma halts_typenames fuel t acc : length t <= fuel -> halts (extract_typenames fuel t acc).
Proof.
  revert t acc. induction fuel as [|f IH]; intros t acc Hf; cbn [extract_typenames];
    (destruct (Match _ _) as [o|] eqn:E; [|done]);
    (apply (grp_shorter _ _ _ 2) in E; [|regex_wf|reflexivity]); [lia|].
  apply IH. lia.
Qed.

Lemma halts_initializer_start fuel ls l :
  (l < Z.of_nat fuel)%Z \/ (l < 0)%Z -> halts (initializer_start fuel ls l).
Proof.
  revert l. induction fuel as [|f IH]; intros l Hf; cbn [initializer_start];
    (destruct (Z.leb_spec 0 l); [|done]); [lia|].
  halt. apply IH. lia.
Qed.
Lemma halts_find_semicolon fuel e p :
  (len (elided c) <= e + Z.of_nat fuel)%Z -> halts (find_semicolon fuel c e p).
Proof.
  revert e p. induction fuel as [|f IH]; intros e p Hf; cbn [find_semicolon];
    (destruct (Z.ltb_spec e (len (elided c))); [|done]); [lia|].
  halt. apply IH. lia.
Qed.

Lemma halts_previous ixs : halts (previous_non_blank c ixs).
Proof. by_indices ixs (@previous_non_blank). Qed.
Lemma halts_concat ixs : halts (concat_elided c ixs).
Proof. by_indices ixs (@concat_elided). Qed.
Lemma halts_join_stripped ixs : halts (join_stripped c ixs).
Proof. by_indices ixs (@join_stripped). Qed.
Lemma halts_parameters ixs p : halts (parameter_list_end c ixs p).
Proof. revert p. by_indices ixs (@parameter_list_end). Qed.
Lemma halts_derived ixs : halts (derived_go c ixs).
Proof. by_indices ixs (@derived_go). Qed.
Lemma halts_out_of_line ixs : halts (out_of_line_go c ixs).
Proof. by_indices ixs (@out_of_line_go). Qed.
Lemma halts_initializer l ixs : halts (initializer_go c l ixs).
Proof. by_indices ixs (@initializer_go). Qed.
Lemma halts_after_initializer ixs : halts (after_initializer c ixs).
Proof. by_indices ixs (@after_initializer). Qed.
Lemma halts_whitelisted l ixs : halts (whitelisted_above c l ixs).
Proof. by_indices ixs (@whitelisted_above). Qed.
End Lines.

Lemma halts_parse_check fuel t lhs : length t <= fuel -> halts (parse_check fuel t lhs).
Proof.
  revert t lhs. induction fuel as [|f IH]; intros [|x t] lhs Hf; try done; [simpl in Hf; lia|].
  cbn [parse_check]. destruct (Match _ _) as [o|] eqn:E.
  - apply (grp_shorter _ _ _ 2) in E; [|regex_wf|reflexivity].
    assert (forall i, length (slice_from (grp o 2) i) <= f) as Hs.
    { intros i. unfold slice_from. rewrite length_drop. lia. }
    halt; (apply IH; first [apply Hs | lia]).
  - clear E. case_match eqn:E; [|done]. apply IH.
    destruct (Match (rx "^([^-=!<>()&|]+)(.*)$") _) as [o|] eqn:E1.
    + injection E as <-. apply (grp_shorter _ _ _ 2) in E1; [lia|regex_wf|reflexivity].
    + apply (grp_shorter _ _ _ 2) in E; [lia|regex_wf|reflexivity].
Qed.

#[export] Hint Resolve halts_prepend halts_IsRValueType halts_region_end halts_in_region
  halts_join_arguments halts_previous halts_concat halts_join_stripped halts_parameters
  halts_derived halts_out_of_line halts_initializer halts_after_initializer halts_whitelisted
  : halt.

Lemma halts_template_args c l : halts (GetTemplateArgs c l).
Proof.
  unfold GetTemplateArgs. apply halts_bind; [apply halts_find_func_line; lia|].
  intros [l'|] _; [|by halt]. apply halts_bind; [by halt|]. intros line _.
  apply halts_bind; [by halt|]. intros args _. by apply halts_typenames.
Qed.
Lemma halts_deleted c l : halts (IsDeletedOrDefault c l).
Proof. unfold IsDeletedOrDefault. halt. Qed.
#[export] Hint Resolve halts_template_args halts_deleted : halt.
Lemma halts_allowed c l ts : halts (IsRValueAllowed c l ts).
Proof. unfold IsRValueAllowed. halt. by apply halts_strip_forwarded. Qed.
Lemma halts_previous_line c l : halts (GetPreviousNonBlankLine c l).
Proof. apply halts_previous. Qed.
#[export] Hint Resolve halts_allowed halts_previous_line : halt.

Lemma halts_has_copyright ls ixs : halts (has_copyright ls ixs).
Proof. by_indices ixs (@has_copyright). Qed.
Lemma halts_no_comments ls ixs : halts (no_single_line_comments ls ixs).
Proof. by_indices ixs (@no_single_line_comments). Qed.
Lemma halts_required ls ixs m : halts (required_go ls ixs m).
Proof. revert m. by_indices ixs (@required_go). Qed.
Lemma halts_find_body ls line ixs j s : halts (find_body ls line ixs j s).
Proof. revert j s. by_indices ixs (@find_body). Qed.
Lemma halts_collapse cur rest : halts (collapse_args cur rest).
Proof. revert cur. by_indices rest (@collapse_args). Qed.
Lemma halts_constructor_args text : halts (constructor_args text).
Proof. unfold constructor_args. by repeat case_match; try apply halts_collapse. Qed.
Lemma halts_class_head ls ixs d : halts (class_head_end ls ixs d).
Proof. by_indices ixs (@class_head_end). Qed.
Lemma halts_drop_suffix f ss : halts (drop_suffix_go f ss).
Proof. by_indices ss (@drop_suffix_go). Qed.
#[export] Hint Resolve halts_has_copyright halts_no_comments halts_required halts_find_body
  halts_constructor_args halts_class_head halts_drop_suffix : halt.

(** ** The checks *)

Section Checks.
Context (error : ErrorFn).
Context (Herror : forall f l c k msg, finishes (error f l c k msg)).
#[local] Hint Resolve Herror finishes_nolint finishes_Update finishes_CheckEnd : halt.

Lemma finishes_completed f s : finishes (CheckCompletedBlocks f error s).
Proof. unfold CheckCompletedBlocks. halt. Qed.
Lemma finishes_functions f c l s : finishes (CheckForFunctionLengths f c l s error).
Proof.
  unfold CheckForFunctionLengths, FunctionState.Check, function_start,
    FunctionState.error_level_of. halt.
Qed.

(** Lines *)
Lemma finishes_simple_checks f c l :
  finishes (CheckForMultilineCommentsAndStrings f c l error)
  /\ finishes (CheckPosixThreading f c l error) /\ finishes (CheckVlogArguments f c l error)
  /\ finishes (CheckInvalidIncrement f c l error)
  /\ finishes (CheckSpacingForFunctionCall f c l error)
  /\ finishes (CheckMakePairUsesDeduction f c l error)
  /\ finishes (CheckDefaultLambdaCaptures f c l error)
  /\ finishes (CheckRedundantOverrideOrFinal f c l error)
  /\ finishes (FlagCxx11Features f c l error).
Proof.
  repeat match goal with |- _ /\ _ => split end;
    unfold CheckForMultilineCommentsAndStrings, CheckPosixThreading,
    CheckVlogArguments, CheckInvalidIncrement, CheckSpacingForFunctionCall,
    CheckMakePairUsesDeduction, CheckDefaultLambdaCaptures, CheckRedundantOverrideOrFinal,
    FlagCxx11Features, elided_at; halt.
Qed.
Lemma finishes_namespace f s c l : finishes (CheckForNamespaceIndentation f s c l error).
Proof.
  unfold CheckForNamespaceIndentation, CheckItemIndentationInNamespace,
    ShouldCheckNamespaceIndentation, IsForwardClassDeclaration, IsMacroDefinition. halt.
Qed.
Lemma finishes_constructs f c l s : finishes (CheckForNonStandardConstructs f c l s error).
Proof.
  unfold CheckForNonStandardConstructs, check_constructor, line_at, elided_at. halt.
Qed.
Lemma finishes_specifiers f c l ixs e : finishes (check_specifiers f c l error ixs e).
Proof.
  revert e. induction ixs as [|i ixs IH]; intros e; cbn [check_specifiers]; unfold elided_at; halt.
Qed.
#[local] Hint Resolve finishes_specifiers : halt.
Lemma finishes_virtual f c l : finishes (CheckRedundantVirtual f c l error).
Proof. unfold CheckRedundantVirtual, elided_at. halt. Qed.

(** Spacing *)
Lemma finishes_comment line f l n : finishes (CheckComment line f l n error).
Proof. unfold CheckComment, check_todo, not_space_at. halt. Qed.
#[local] Hint Resolve finishes_comment : halt.
Lemma finishes_spacing f c l s : finishes (CheckSpacing f c l s error).
Proof.
  unfold CheckSpacing, check_blank_line, blank_exception, elided_at. halt.
  apply halts_initializer_start. lia.
Qed.
Lemma finishes_operators `{UnicodeDB} f c l : finishes (CheckOperatorSpacing f c l error).
Proof.
  unfold CheckOperatorSpacing, check_angles, elided_at. halt.
  apply halts_hide_operators. match goal with |- visible ?s < _ => pose proof (visible_length s) end.
  lia.
Qed.
Lemma finishes_spacing_checks f c l s :
  finishes (CheckAccess f c l s error) /\ finishes (CheckParenthesisSpacing f c l error)
  /\ finishes (CheckCommaSpacing f c l error) /\ finishes (CheckBracesSpacing f c l error)
  /\ finishes (CheckRValueReference f c l s error).
Proof.
  repeat match goal with |- _ /\ _ => split end;
    unfold CheckAccess, CheckParenthesisSpacing, CheckCommaSpacing, CheckBracesSpacing,
      CheckRValueReference, elided_at; halt.
Qed.

(** Style *)
Lemma finishes_section f c ci l : finishes (CheckSectionSpacing f c ci l error).
Proof. unfold CheckSectionSpacing, line_at. halt. Qed.
Lemma finishes_if_else f c l line o :
  wf_lines c -> (0 <= l)%Z -> finishes (check_if_else f c l error line o).
Proof.
  intros Hwf Hl. unfold check_if_else, elided_at. cbv zeta.
  assert (forall e p, (0 <= e)%Z -> halts (find_semicolon (length (elided c)) c e p)) as Hs.
  { intros e p He. apply halts_find_semicolon. unfold len. lia. }
  destruct (Search _ line).
  - apply finishes_bind_lift; [by halt|]. intros [[e el] ep] E.
    apply CloseExpression_line in E; [|done..]. specialize (Hs el ep E). halt.
  - apply finishes_ret_bind. specialize (Hs l (m_end o) Hl). halt.
Qed.
Lemma finishes_braces f c l : wf_lines c -> (0 <= l)%Z -> finishes (CheckBraces f c l error).
Proof.
  intros Hwf Hl. pose proof (finishes_if_else f c l).
  unfold CheckBraces, check_else, elided_at. halt.
Qed.
Lemma finishes_style_checks f c l :
  finishes (CheckTrailingSemicolon f c l error) /\ finishes (CheckEmptyBlockBody f c l error)
  /\ finishes (CheckAltTokens f c l error).
Proof.
  repeat match goal with |- _ /\ _ => split end;
    unfold CheckTrailingSemicolon, semicolon_block, CheckEmptyBlockBody, CheckAltTokens, elided_at;
    halt.
Qed.
Lemma finishes_check f c l : finishes (CheckCheck f c l error).
Proof.
  unfold CheckCheck, _CHECK_REPLACEMENT, elided_at. cbv zeta. halt.
  all: by apply halts_parse_check.
Qed.

(** Language *)
Lemma finishes_static f c l : finishes (CheckGlobalStatic f c l error).
Proof. unfold CheckGlobalStatic, elided_at. halt. Qed.
Lemma finishes_printf f c l : finishes (CheckPrintf f c l error).
Proof. unfold CheckPrintf, elided_at. halt. Qed.
Lemma finishes_cast f c l t p : finishes (CheckCStyleCast f c l t p error).
Proof. unfold CheckCStyleCast, elided_at. halt. Qed.
#[local] Hint Resolve finishes_cast : halt.
Lemma finishes_casts f c l : finishes (CheckCasts f c l error).
Proof.
  unfold CheckCasts, check_function_cast, dereferenced_cast, ExpectingFunctionArgs, elided_at.
  halt.
Qed.
Lemma finishes_references f c l s : finishes (CheckForNonConstReference f c l s error).
Proof.
  unfold CheckForNonConstReference, reference_context, join_split_type, IsDerivedFunction,
    IsOutOfLineMethodDefinition, IsInitializerList, elided_at. halt.
Qed.
Lemma finishes_rules f l line :
  finishes (check_int_types f l error line) /\ finishes (check_format_string f l error line)
  /\ finishes (check_memset f l error line) /\ finishes (check_arrays f l error line).
Proof.
  repeat match goal with |- _ /\ _ => split end;
    unfold check_int_types, check_format_string, _GetTextInside, check_memset, check_arrays; halt.
Qed.

(** Files: [RepositoryName] needs a top directory without [.svn]. *)
Context (fs : filesystem) (Hfs : no_top_svn fs).

Lemma halts_RepositoryName f : halts (FileInfo.RepositoryName fs f).
Proof. destruct (RepositoryName_cut fs f Hfs) as (? & ? & -> & _). done. Qed.
#[local] Hint Resolve halts_RepositoryName : halt.
Lemma halts_BaseName f : halts (FileInfo.BaseName fs f).
Proof. unfold FileInfo.BaseName, FileInfo.Split. halt. Qed.
Lemma halts_guard_variable r f : halts (GetHeaderGuardCPPVariable fs r f).
Proof. unfold GetHeaderGuardCPPVariable. halt. Qed.
Lemma halts_classify f i b : halts (_ClassifyInclude fs f i b).
Proof. unfold _ClassifyInclude, _DropCommonSuffixes. halt. Qed.
#[local] Hint Resolve halts_BaseName halts_guard_variable halts_classify : halt.
Lemma halts_order t st : halts (IncludeState.CheckNextIncludeOrder t st).
Proof.
  unfold IncludeState.CheckNextIncludeOrder, IncludeState._TYPE_NAMES,
    IncludeState._SECTION_NAMES. halt.
Qed.
Lemma halts_alphabetical ls l h st : halts (IncludeState.IsInAlphabeticalOrder ls l h st).
Proof. unfold IncludeState.IsInAlphabeticalOrder. halt. Qed.
#[local] Hint Resolve halts_order halts_alphabetical : halt.
Lemma finishes_include `{UnicodeDB} f ls el l st :
  finishes (CheckIncludeLine fs f ls el l st error).
Proof. unfold CheckIncludeLine, check_include_order, append_last. halt. Qed.
Lemma halts_reset d st : halts (IncludeState.ResetSection d st).
Proof. unfold IncludeState.ResetSection, IncludeState.set_last. halt. Qed.
#[local] Hint Resolve finishes_casts finishes_static finishes_printf finishes_include
  halts_reset : halt.
Lemma finishes_language `{UnicodeDB} f c l e st :
  finishes (CheckLanguage fs f c l e st error).
Proof.
  unfold CheckLanguage, elided_at. apply finishes_bind; [by halt|]. intros line.
  destruct (finishes_rules f l line) as (? & ? & ? & ?). halt.
Qed.
#[local] Hint Resolve finishes_section finishes_braces finishes_spacing finishes_operators
  finishes_check : halt.
Lemma finishes_style `{UnicodeDB} f c l e s :
  wf_lines c -> (0 <= l)%Z -> finishes (CheckStyle fs f c l e s error).
Proof.
  intros Hwf Hl.
  destruct (finishes_spacing_checks f c l s) as (? & ? & ? & ? & ?).
  destruct (finishes_style_checks f c l) as (? & ? & ?).
  destruct (finishes_simple_checks f c l) as (? & ? & ? & ? & ? & _).
  unfold CheckStyle, check_line_ends, check_line_length, check_one_command, elided_at. halt.
Qed.

Lemma finishes_file_checks f c ls st :
  finishes (CheckForCopyright f ls error) /\ finishes (CheckForHeaderGuard fs f c error)
  /\ finishes (CheckHeaderFileIncluded fs f st error)
  /\ finishes (CheckForBadCharacters f ls error) /\ finishes (CheckForNewlineAtEOF f ls error).
Proof.
  pose proof finishes_nolint.
  repeat match goal with |- _ /\ _ => split end;
    unfold CheckForCopyright, CheckForHeaderGuard, CheckHeaderFileIncluded,
      CheckForBadCharacters, CheckForNewlineAtEOF; halt.
Qed.
Lemma finishes_iwyu `{DictOrder} d f c st : finishes (CheckForIncludeWhatYouUse d f c st error).
Proof. unfold CheckForIncludeWhatYouUse. halt. Qed.

(** ** A line and a file *)

Context (extra : list CheckFn).
Context (Hextra : forall check, check ∈ extra -> forall f c l, finishes (check f c l error)).

Lemma finishes_extra f c l : finishes (for_ extra (fun check => check f c l error)).
Proof.
  induction extra as [|check cs IH]; simpl; [apply finishes_ret|].
  apply finishes_bind; [apply Hextra; set_solver|]. intros _. apply IH.
  intros check' Hin. apply Hextra. set_solver.
Qed.
#[local] Hint Resolve finishes_extra finishes_namespace finishes_functions finishes_style
  finishes_language finishes_references finishes_constructs finishes_virtual : halt.
Lemma finishes_line `{UnicodeDB} f e c l s :
  wf_lines c -> (0 <= l)%Z -> finishes (ProcessLine fs f e c l s error extra).
Proof.
  intros Hwf Hl. destruct (finishes_simple_checks f c l) as (? & ? & ? & ? & ? & ? & ? & ? & ?).
  unfold ProcessLine. halt.
Qed.
#[local] Hint Resolve finishes_line : halt.
Lemma finishes_lines `{UnicodeDB} f e c ixs s :
  wf_lines c -> Forall (fun l => 0 <= l)%Z ixs -> finishes (process_lines fs f e c ixs s error extra).
Proof.
  intros Hwf Hixs. revert s.
  induction Hixs as [|l ixs Hl _ IH]; intros s; cbn [process_lines]; [by halt|].
  destruct (finishes_simple_checks f c l) as (_ & _ & _ & _ & _ & _ & _ & _ & ?). halt.
Qed.

Lemma finishes_multiline f ls : finishes (RemoveMultiLineComments f ls error).
Proof.
  intros w. unfold RemoveMultiLineComments.
  destruct (remove_comments_go_spec (S (length ls)) f error [] ls w) as (out & o & _ & E); [lia|].
  cbn [app length] in E. rewrite E. clear E. destruct o; [|done].
  refine (finishes_bind _ _ _ _ w); [apply Herror|]. intros _. apply finishes_ret.
Qed.
#[local] Hint Resolve finishes_completed finishes_iwyu finishes_multiline : halt.
Lemma finishes_file `{UnicodeDB, DictOrder} d f e ls :
  disk_fs d = fs -> finishes (ProcessFileData d f e ls error extra).
Proof.
  intros Hd. unfold ProcessFileData. rewrite Hd. cbv zeta.
  apply finishes_bind; [apply finishes_modify|]. intros _.
  apply finishes_bind; [apply (finishes_file_checks f (plain_lines [])), IncludeState.init|].
  intros _. apply finishes_bind; [by halt|]. intros ls'.
  destruct (new_CleansedLines_ok ls') as (c & -> & _ & Hn & He & _).
  apply finishes_ret_bind.
  assert (wf_lines c) as Hwf by (unfold wf_lines; congruence).
  destruct (finishes_file_checks f c ls' IncludeState.init) as (_ & ? & _ & ? & ?).
  apply finishes_bind; [by halt|]. intros _.
  apply finishes_bind.
  { apply finishes_lines; [done|]. apply Forall_forall. intros l Hl.
    apply elem_of_xrange in Hl. lia. }
  intros s. destruct (finishes_file_checks f c ls' (fs_include s)) as (_ & _ & ? & _ & _).
  halt.
Qed.
End Checks.

Lemma finishes_Error f l c k msg : finishes (Error f l c k msg).
Proof.
  assert (finishes (_ShouldPrintError c k l)) as Hp; [|unfold Error, print_err; by halt].
  intros w. unfold _ShouldPrintError. do 2 (case_bool; [done|]). cbn [fst].
  apply halts_fmap. generalize (filters (lint w)). intros fs. generalize false.
  induction fs as [|x fs IH]; intros b; cbn [is_filtered_go]; halt.
Qed.

(** ** The run *)

Lemma os_split_shorter p head tail :
  os_split p = (head, tail) -> tail <> [] -> length head < length p.
Proof.
  intros E Ht. destruct (os_split_app p) as (sl & Hp & _).
  unfold dirname, basename in Hp. rewrite E in Hp. simpl in Hp. rewrite Hp, !length_app.
  destruct tail; simpl; [done|lia].
Qed.

Lemma finishes_config_line f cfg b line c : finishes (config_line f cfg b line c).
Proof. unfold config_line, print_err. halt. Qed.
#[export] Hint Resolve finishes_config_line : halt.
Lemma finishes_config_lines f cfg b ls c : finishes (config_lines f cfg b ls c).
Proof. revert c. induction ls as [|l ls IH]; intros c; cbn [config_lines]; halt. Qed.
#[export] Hint Resolve finishes_config_lines : halt.
Lemma finishes_config fuel env f abs c :
  length abs < fuel -> finishes (config_go fuel env f abs c).
Proof.
  revert abs c. induction fuel as [|n IH]; intros abs c Hf; [lia|]. cbn [config_go].
  case_bool; [by halt|]. destruct (os_split abs) as [head tail] eqn:E.
  destruct (eqs tail []) eqn:Et; [by halt|]. apply eqs_false in Et.
  pose proof (os_split_shorter _ _ _ E Et).
  assert (forall c, finishes (config_go n env f head c)) as Hc by (intros c'; apply IH; lia).
  unfold print_err. halt.
Qed.
Lemma finishes_AddFilters s : finishes (try_lint (CppLintState.AddFilters s)).
Proof.
  intros w. unfold try_lint, CppLintState.AddFilters. by destruct (List.find _ _).
Qed.
#[export] Hint Resolve finishes_AddFilters : halt.
Lemma finishes_overrides env f : finishes (ProcessConfigOverrides env f).
Proof.
  unfold ProcessConfigOverrides. cbv zeta. apply finishes_bind; [apply finishes_config; lia|].
  intros c. halt.
Qed.

Section Run.
Context `{UnicodeDB, DictOrder} (env : environment).
Context (Henv : no_top_svn (disk_fs (env_disk env))).
#[local] Hint Resolve finishes_Error finishes_overrides : halt.

Lemma finishes_ProcessFile f v : finishes (ProcessFile env f v []).
Proof.
  assert (forall e ls, finishes (ProcessFileData (env_disk env) f e ls Error [])) as Hd.
  { intros e ls. apply (finishes_file Error finishes_Error _ Henv); [|done].
    intros check Hin. by apply not_elem_of_nil in Hin. }
  unfold ProcessFile, on_lint, print_err, read_stdin. halt.
Qed.
End Run.

(** ** The command line and [main]

    These call [sys.exit]: [ends] only excludes the exhausted bound. *)

Definition ends_well {A} (mm : M A) : Prop := forall w, fst (mm w) <> Exc OutOfFuel.
Lemma finishes_ends {A} (mm : M A) : finishes mm -> ends_well mm.
Proof. intros Hf w E. specialize (Hf w). by rewrite E in Hf. Qed.
Lemma ends_ret {A} (a : A) : ends_well (mret a).
Proof. done. Qed.
Lemma ends_bind {A B} (mm : M A) (f : A -> M B) :
  ends_well mm -> (forall a, ends_well (f a)) -> ends_well (mm ≫= f).
Proof.
  intros Hm Hf w. specialize (Hm w). unfold mbind, M_bind.
  destruct (mm w) as [[a|e] w1]; [apply Hf|]. intros [= ->]. by apply Hm.
Qed.
Lemma ends_exit {A} msg : ends_well (PrintUsage msg : M A).
Proof. intros w. unfold PrintUsage, print_err. cbn. by case_bool. Qed.
Lemma ends_option opt val o : ends_well (parse_option opt val o).
Proof.
  unfold parse_option. repeat (case_bool; [|try done]);
    repeat case_match; try apply ends_exit; try done; by apply finishes_ends; halt.
Qed.
Lemma ends_options opts o : ends_well (parse_options opts o).
Proof.
  revert o. induction opts as [|[opt val] opts IH]; intros o; cbn [parse_options]; [done|].
  apply ends_bind; [apply ends_option|done].
Qed.
Lemma ends_arguments args : ends_well (ParseArguments args).
Proof.
  unfold ParseArguments. destruct (getopt args long_options) as [[opts files]|]; [|apply ends_exit].
  do 2 (apply ends_bind; [done|intros ?]). apply ends_bind; [apply ends_options|intros o].
  apply ends_bind; [case_bool; [apply ends_exit|done]|intros _].
  do 2 (apply ends_bind; [done|intros _]). apply ends_bind; [|done].
  intros w. unfold try_lint, CppLintState.SetFilters, CppLintState.AddFilters.
  by destruct (List.find _ _).
Qed.
Section Main.
Context `{UnicodeDB, DictOrder} (env : environment).
Context (Henv : no_top_svn (disk_fs (env_disk env))).
#[local] Hint Resolve finishes_ProcessFile : halt.

(** What [main] does with the files before it exits. *)
Definition lint_files (filenames : list (list N)) : M unit :=
  _ ← on_lint CppLintState.ResetErrorCounts;
  _ ← for_ filenames (fun filename =>
        level ← gets (fun w => verbose_level (lint w));
        ProcessFile env filename level []);
  print_error_counts.
Lemma finishes_lint_files filenames : finishes (lint_files filenames).
Proof. unfold lint_files, print_error_counts, on_lint, print_err. halt. Qed.
Definition exit_status (w : world) : exn :=
  SystemExit (if (0 <? error_count (lint w))%Z then 1 else 0).
(** Once the command line is read, [main] exits with the status of the count,
    unless a check raises. *)
Lemma main_run argv w filenames w1 :
  ParseArguments argv w = (Ok filenames, w1) ->
  main env argv w = match lint_files filenames w1 with
                    | (Ok _, w2) => (Exc (exit_status w2), w2)
                    | (Exc e, w2) => (Exc e, w2)
                    end.
Proof.
  intros E. unfold main, lint_files, mbind, M_bind. rewrite E.
  destruct (on_lint CppLintState.ResetErrorCounts w1) as [[?|?] w2]; [|done].
  destruct (for_ _ _ w2) as [[?|?] w3]; [|done].
  by destruct (print_error_counts w3) as [[?|?] w4].
Qed.
End Main.

(** C1: the program always ends.  On every command line, every disk on which no
    top directory of absolute paths has a [.svn] and the current directory has
    an absolute name, and every content of the files, the run of [main] comes to
    an end, and it does so by an exception: [sys.exit], or one
    of Python's.  Each loop of the source ends within the bound the model
    gives it. *)
Theorem main_terminates `{UnicodeDB, DictOrder} env argv w :
  no_top_svn (disk_fs (env_disk env)) ->
  exists e, fst (main env argv w) = Exc e /\ e <> OutOfFuel.
Proof.
  intros Henv. pose proof (ends_arguments argv w) as Ha.
  destruct (ParseArguments argv w) as [[filenames|e] w1] eqn:E.
  - rewrite (main_run env argv w filenames w1 E).
    pose proof (finishes_lint_files env Henv filenames w1) as Hf.
    destruct (lint_files env filenames w1) as [[?|e] w2]; eexists; (split; [reflexivity|]); [done|].
    intros ->. done.
  - exists e. split; [unfold main, mbind, M_bind; by rewrite E|]. intros ->. by apply Ha.
Qed.
Lemma main_terminates_witness :
  let env := Environment (Disk git_fs (fun _ => false) (fun _ => Some (u"int f(A<B>& c) { }")))
               (fun _ => None) in
  no_top_svn (disk_fs (env_disk env))
  /\ exists e, fst (@main ascii_db (fun l => l) env [u"a.cc"] init_world) = Exc e
       /\ e <> OutOfFuel.
Proof.
  intros env. split; [exact git_no_top_svn|].
  apply (@main_terminates ascii_db (fun l => l) env [u"a.cc"] init_world git_no_top_svn).
Defined.
