(* ===== verification/Safe.v ===== *)
(** * The nesting state never raises

    The searches of the code index lines by positions they compute, compile
    patterns they build from names of the file, and call methods of blocks
    pushed many lines ago.  This file shows that none of that can fail in
    [Update]: fed the lines of any file in order, the nesting state comes to
    the end without an exception, as long as the error handler raises none.

    A computation is [tame] (without the world) or [calm] (with it) when it
    raises nothing but [OutOfFuel], which Terminate.v excludes, and its value
    satisfies the postcondition. *)

From S2P Require Import Prelude PyStr Regex RePattern Lint FileInfo IncludeState Cleanse Brackets Nesting FunctionState FileChecks LineChecks Spacing RValue Style Language Driver Terminate.
From Stdlib Require Import Ascii.

Definition tame {A} (Q : A -> Prop) (r : res A) : Prop :=
  match r with Ok a => Q a | Exc e => e = OutOfFuel end.
Definition calm {A} (Q : A -> Prop) (mm : M A) : Prop := forall w, tame Q (fst (mm w)).
Definition always {A} (a : A) : Prop := True.

(** ** Composition *)

Lemma tame_Ok {A} (Q : A -> Prop) a : Q a -> tame Q (Ok a).
Proof. done. Qed.
Lemma tame_fuel {A} (Q : A -> Prop) : tame Q (Exc OutOfFuel).
Proof. done. Qed.
Lemma tame_mono {A} (Q Q' : A -> Prop) r : tame Q r -> (forall a, Q a -> Q' a) -> tame Q' r.
Proof. destruct r; simpl; auto. Qed.
Lemma tame_bind {A B} (Q : A -> Prop) (Q' : B -> Prop) (r : res A) f :
  tame Q r -> (forall a, Q a -> tame Q' (f a)) -> tame Q' (r ≫= f).
Proof. destruct r; simpl; auto. Qed.
Lemma tame_index {A} (l : list A) i :
  (0 <= i < len l)%Z -> tame (fun x => l !! Z.to_nat i = Some x) (py_index l i).
Proof. intros H. by destruct (py_index_in_range l i H) as (a & -> & ?). Qed.

Lemma calm_ret {A} (Q : A -> Prop) (a : A) : Q a -> calm Q (mret a).
Proof. by intros H w. Qed.
Lemma calm_lift {A} (Q : A -> Prop) r : tame Q r -> calm Q (lift r).
Proof. by intros H w. Qed.
Lemma calm_bind {A B} (Q : A -> Prop) (Q' : B -> Prop) (mm : M A) f :
  calm Q mm -> (forall a, Q a -> calm Q' (f a)) -> calm Q' (mm ≫= f).
Proof.
  intros Hm Hf w. specialize (Hm w). unfold mbind, M_bind.
  destruct (mm w) as [[a|e] w1]; simpl in *; [by apply Hf|done].
Qed.
Lemma calm_when b mm : calm always mm -> calm always (when b mm).
Proof. by destruct b. Qed.
Lemma calm_mono {A} (Q Q' : A -> Prop) mm : calm Q mm -> (forall a, Q a -> Q' a) -> calm Q' mm.
Proof. intros Hm HQ w. eapply tame_mono; [apply Hm|done]. Qed.

(** A computation that also ends returns a value. *)
Lemma calm_returns {A} (Q : A -> Prop) (mm : M A) w :
  calm Q mm -> finishes mm -> exists a w', mm w = (Ok a, w') /\ Q a.
Proof.
  intros Hc Hf. specialize (Hc w). specialize (Hf w). unfold halts in Hf.
  destruct (mm w) as [[a|e] w']; simpl in *; [eauto|subst e; done].
Qed.

(** ** Brackets *)

Lemma tame_prev_is line i c : (i <= len line)%Z -> tame always (prev_is line i c).
Proof.
  intros Hi. unfold prev_is. destruct (Z.ltb_spec 0 i); [|done].
  eapply tame_bind; [apply tame_index; lia|done].
Qed.
Lemma tame_end_step line i stack : (0 <= i < len line)%Z -> tame always (end_step line i stack).
Proof.
  intros Hi. unfold end_step. eapply tame_bind; [by apply tame_index|]. intros c _. cbn beta zeta.
  repeat case_match; try done;
    (eapply tame_bind; [apply tame_prev_is; lia|]; intros b _; repeat case_match; done).
Qed.
Lemma tame_end_loop line ixs stack :
  Forall (fun i => 0 <= i < len line)%Z ixs -> tame always (end_loop line ixs stack).
Proof.
  revert stack. induction ixs as [|i ixs IH]; intros stack Hi; cbn [end_loop]; [done|].
  apply Forall_cons_1 in Hi as [Hi Hs].
  eapply tame_bind; [by apply tame_end_step|]. intros [s|r] _; [by apply IH|done].
Qed.
Lemma tame_FindEnd line p stack :
  (0 <= p)%Z -> tame always (FindEndOfExpressionInLine line p stack).
Proof.
  intros Hp. apply tame_end_loop, Forall_forall. intros i Hi%elem_of_xrange. lia.
Qed.
Lemma tame_close_loop fuel c line l stack :
  wf_lines c -> (-1 <= l)%Z -> tame always (close_loop fuel c line l stack).
Proof.
  intros Hwf. unfold wf_lines in Hwf. unfold NumLines.
  revert line l stack. induction fuel as [|f IH]; intros line l [[|x s]|] Hl; cbn [close_loop];
    try done; unfold NumLines; (destruct (Z.ltb_spec l (num_lines c - 1)); [|done]); [done|].
  eapply tame_bind; [apply tame_index; lia|]. intros ln _.
  eapply tame_bind; [by apply tame_FindEnd|]. intros [e st] _. case_bool; [done|].
  apply IH. lia.
Qed.
Lemma tame_CloseExpression c l p line :
  wf_lines c -> (0 <= l)%Z -> elided c !! Z.to_nat l = Some line -> (0 <= p < len line)%Z ->
  tame always (CloseExpression c l p).
Proof.
  intros Hwf Hl El Hp. unfold CloseExpression. rewrite py_index_pos, El by done. cbn.
  eapply tame_bind; [by apply tame_index|]. intros ch _. case_bool; [done|].
  eapply tame_bind; [apply tame_FindEnd; lia|]. intros [e st] _. case_bool; [done|].
  apply tame_close_loop; [done|lia].
Qed.

(** ** Template argument lists *)

Lemma tame_in_template fuel c l p :
  wf_lines c -> (0 <= l)%Z -> (0 <= p)%Z -> tame always (in_template_go fuel c l p).
Proof.
  intros Hwf. pose proof Hwf as Hn. unfold wf_lines in Hn.
  revert l p. induction fuel as [|f IH]; intros l p Hl Hp; cbn [in_template_go];
    unfold NumLines; (destruct (Z.ltb_spec l (num_lines c)); [|done]); [done|].
  eapply tame_bind; [apply tame_index; lia|]. intros line El.
  destruct (Match _ _) as [o|] eqn:Em; [|apply IH; lia].
  apply group0_nonempty in Em; [|regex_wf|vm_compute; lia].
  rewrite slice_from_pos, length_drop in Em by done.
  pose proof (len_nonneg (group0 o)).
  case_bool; [done|]. case_bool; [done|].
  case_bool; [case_bool; apply IH; lia|].
  eapply tame_bind.
  { apply (tame_mono (fun r => always r /\ CloseExpression c l (p + len (group0 o) - 1) = Ok r));
      [|intros a Ha; exact Ha].
    pose proof (tame_CloseExpression c l (p + len (group0 o) - 1) line Hwf Hl El) as Hc.
    destruct (CloseExpression _ _ _); [done|]. apply Hc. unfold len. lia. }
  intros [[ln l'] p'] [_ Ec]. cbn beta. destruct (Z.ltb_spec p' 0); [done|].
  apply IH; [|done]. by eapply CloseExpression_line in Ec.
Qed.

(** ** Blocks *)

Definition in_file (c : cleansed_lines) (i : Z) : Prop := (0 <= i < NumLines c)%Z.
(** The name of a class: letters, digits, underscores and colons. *)
Definition name_char (c : N) : Prop := is_word c = true \/ c = ch ":".

(** The line a block starts on is a line of the file, and its name came from
    a line. *)
Definition good_block (c : cleansed_lines) (b : block) : Prop :=
  match kind b with
  | KClassInfo k => in_file c (ci_starting_linenum k) /\ Forall name_char (ci_name k)
  | NamespaceInfo name _ => Forall name_char name
  | _ => True
  end.

Lemma name_char_literal c : name_char c -> literal_char c = true /\ c <> 0%N.
Proof.
  intros [Hw| ->]; [|split; [vm_compute; reflexivity|done]]. unfold literal_char.
  split; [|by intros ->]. apply negb_true_iff, in_chars_false. intros Hin.
  apply in_chars_spec, existsb_exists in Hin as (d & Hd & E%N.eqb_eq). subst d.
  repeat (destruct Hd as [<-|Hd]; [by vm_compute in Hw|]). done.
Qed.
Lemma name_literal name : Forall name_char name -> forallb literal_char name = true.
Proof. induction 1 as [|c name Hc _ IH]; [done|]. simpl. by rewrite (proj1 (name_char_literal c Hc)). Qed.

(** A step of the parser over a piece of the pattern that is written out. *)
Ltac parse_atom := eapply parses_atom; [done|done|intros; eexists _, _; split; reflexivity|].

Ltac parse_char := apply parses_char; [done|].
Ltac parse_quant := eapply parses_quant; [done|reflexivity|done|cbn [snd p_lazy]].

Lemma disallow_alts s :
  alts 40 (u"DISALLOW_COPY_AND_ASSIGN|DISALLOW_IMPLICIT_CONSTRUCTORS)" ++ s) (ch ")" :: s).
Proof.
  apply (alts_bar 39 (u"DISALLOW_COPY_AND_ASSIGN" ++ u"|DISALLOW_IMPLICIT_CONSTRUCTORS)" ++ s)
           (u"DISALLOW_IMPLICIT_CONSTRUCTORS" ++ u")" ++ s)).
  - eapply parses_mono; [apply (parses_text 1); [reflexivity|]|vm_compute; lia].
    intros l. by apply (parses_end l (ch "|")).
  - apply alts_branch; [|done].
    eapply parses_mono; [apply (parses_text 1); [reflexivity|]|vm_compute; lia].
    intros l. by apply (parses_end l (ch ")")).
Qed.
Lemma compile_disallow name :
  Forall name_char name -> exists r, compile
    (u"\b(DISALLOW_COPY_AND_ASSIGN|DISALLOW_IMPLICIT_CONSTRUCTORS)\(" ++ name ++ u"\)") = Some r.
Proof.
  intros Hn. apply (parses_compile (length name + 50)); [| |reflexivity].
  - change (u"\b(DISALLOW_COPY_AND_ASSIGN|DISALLOW_IMPLICIT_CONSTRUCTORS)\(" ++ name ++ u"\)")
      with (ch "\" :: ch "b" :: ch "(" :: (u"DISALLOW_COPY_AND_ASSIGN|DISALLOW_IMPLICIT_CONSTRUCTORS)"
            ++ (ch "\" :: ch "(" :: name ++ u"\)"))).
    apply (parses_mono (S (S (40 + (length name + 3))))); [|lia].
    parse_atom. apply parses_group with (s' := ch "\" :: ch "(" :: name ++ u"\)");
      [done|apply (alts_mono 40); [apply disallow_alts|lia]|].
    apply (parses_mono (S (length name + 2))); [|lia].
    apply parses_escaped; [done|]. apply parses_text; [by apply name_literal|].
    intros l. apply parses_escaped; [done|]. apply parses_nil.
  - rewrite !length_app. vm_compute (length (u _)). lia.
Qed.

Lemma parses_namespace_tail l : parses 20 l (u"[\*/\.\\\s]*$") [].
Proof.
  apply (parses_mono 16); [|lia].
  eapply parses_atom; [done|done| |].
  { intros f ng Hf. do 13 (destruct f as [|f]; [lia|]). eexists _, _. split; reflexivity. }
  parse_quant. parse_atom. apply (parses_mono 1); [apply parses_nil|lia].
Qed.
Lemma comment_alts s : alts 10 (u"//|/\*)" ++ s) (ch ")" :: s).
Proof.
  apply (alts_bar 9 (u"//" ++ u"|/\*)" ++ s) (u"/\*)" ++ s)).
  - eapply parses_mono; [apply (parses_text 1); [reflexivity|]|vm_compute; lia].
    intros l. by apply (parses_end l (ch "|")).
  - apply alts_branch; [|done]. apply (parses_mono 3); [|lia].
    apply (parses_char 2); [done|]. apply (parses_escaped 1); [done|].
    by apply (parses_end LItem (ch ")")).
Qed.
Lemma length_re_escape s : length s <= length (re_escape s).
Proof.
  induction s as [|c s IH]; [done|]. unfold re_escape. cbn [mbind list_bind]. fold (re_escape s).
  rewrite length_app. destruct (is_alnum c), (c =c 0)%N; vm_compute (length (u _)); cbn [length]; lia.
Qed.
Lemma compile_namespace name :
  Forall name_char name -> exists r, compile
    (u"};*\s*(//|/\*).*\bnamespace\s+" ++ re_escape name ++ u"[\*/\.\\\s]*$") = Some r.
Proof.
  intros Hn. apply (parses_compile (length name + 50)); [| |reflexivity].
  - change (u"};*\s*(//|/\*).*\bnamespace\s+" ++ re_escape name ++ u"[\*/\.\\\s]*$")
      with (u"};*\s*(" ++ u"//|/\*)" ++ u".*\b" ++ u"namespace" ++ u"\s+"
            ++ re_escape name ++ u"[\*/\.\\\s]*$").
    set (s := re_escape name ++ _).
    assert (forall l, parses (length name + 20) l s []) as Hs.
    { apply parses_re_escape; [apply parses_namespace_tail|].
      intros H0. rewrite Forall_forall in Hn. by destruct (name_char_literal _ (Hn _ H0)). }
    apply (parses_mono (S (S (S (S (S (S (length name + 38)))))))); [|lia].
    apply parses_char; [done|]. apply parses_char; [done|]. parse_quant.
    parse_atom. parse_quant.
    apply parses_group with (s' := u".*\b" ++ u"namespace" ++ u"\s+" ++ s);
      [done|apply (alts_mono 10); [apply comment_alts|lia]|].
    apply (parses_mono (S (S (S (9 + (S (S (length name + 20)))))))); [|lia].
    parse_atom. parse_quant. parse_atom.
    apply (parses_text _ (u"namespace")); [reflexivity|]. intros l. parse_atom. parse_quant.
    assert (p_lazy s = (true, s)) as ->; [|apply Hs].
    unfold s. destruct name as [|c name]; [reflexivity|]. unfold re_escape. cbn [mbind list_bind].
    destruct (is_alnum c) eqn:Ec; [|by destruct (c =c 0)%N]. cbn [app p_lazy].
    destruct (N.eqb_spec c (ch "?")) as [->|_]; [by vm_compute in Ec|done].
  - rewrite !length_app. vm_compute (length (u _)).
    pose proof (length_re_escape name). lia.
Qed.

(** ** The methods of blocks *)

(** The lines of a file: the versions that are indexed have the same length. *)
Definition same_length (c : cleansed_lines) : Prop :=
  wf_lines c /\ len (raw_lines c) = num_lines c.
Lemma tame_elided c i :
  same_length c -> in_file c i -> tame always (py_index (elided c) i).
Proof.
  intros [Hwf _] Hi. unfold wf_lines, in_file, NumLines in *.
  eapply tame_mono; [apply tame_index; lia|done].
Qed.
Lemma tame_raw c i : same_length c -> in_file c i -> tame always (py_index (raw_lines c) i).
Proof.
  intros [_ Hr] Hi. unfold in_file, NumLines in *.
  eapply tame_mono; [apply tame_index; lia|done].
Qed.
#[export] Hint Resolve tame_elided tame_raw : halt.

Lemma tame_last_line c ixs depth :
  same_length c -> Forall (in_file c) ixs -> tame always (last_line_go c ixs depth).
Proof.
  intros Hc. revert depth. induction ixs as [|i ixs IH]; intros depth Hi; cbn [last_line_go]; [done|].
  apply Forall_cons_1 in Hi as [Hi Hs].
  eapply tame_bind; [by apply tame_elided|]. intros line _. case_bool; [done|]. by apply IH.
Qed.
Lemma in_file_xrange c l : in_file c l -> Forall (in_file c) (xrange l (NumLines c)).
Proof.
  intros Hl. apply Forall_forall. intros i Hi%elem_of_xrange. unfold in_file in *. lia.
Qed.
Lemma tame_ClassInfo c name kind l :
  same_length c -> in_file c l -> Forall name_char name ->
  tame (good_block c) (new_ClassInfo name kind c l).
Proof.
  intros Hc Hl Hn. unfold new_ClassInfo.
  eapply tame_bind; [by apply tame_raw|]. intros raw _.
  eapply tame_bind; [by apply tame_last_line, in_file_xrange|]. intros last _. by split.
Qed.
Lemma tame_CheckBegin c l b :
  same_length c -> in_file c l -> good_block c b -> tame (good_block c) (CheckBegin c l b).
Proof.
  intros Hc Hl Hb. unfold CheckBegin, good_block in *.
  destruct (kind b) as [| |k|] eqn:Ek; try (simpl; by rewrite Ek).
  eapply tame_bind; [by apply tame_elided|]. intros line _.
  case_bool; simpl; [done|by rewrite Ek].
Qed.

Section Errors.
Context (error : ErrorFn).
Context (Herror : forall f l c k msg, calm always (error f l c k msg)).

Lemma calm_disallow f c name ixs seen :
  same_length c -> Forall name_char name -> Forall (in_file c) ixs ->
  calm always (disallow_go f c name error ixs seen).
Proof.
  intros Hc Hn. revert seen. induction ixs as [|i ixs IH]; intros seen Hi; cbn [disallow_go].
  { by apply calm_ret. }
  apply Forall_cons_1 in Hi as [Hi Hs].
  destruct (compile_disallow name Hn) as [r Er].
  eapply calm_bind with (Q := always).
  { apply calm_lift. unfold compile_res. by rewrite Er. }
  intros p _. eapply calm_bind; [apply calm_lift; by apply tame_elided|]. intros line _.
  destruct (Search p line); [apply calm_when, Herror|by apply IH].
Qed.
Lemma calm_CheckEnd f c l b :
  same_length c -> in_file c l -> good_block c b -> calm always (CheckEnd f c l error b).
Proof.
  intros Hc Hl Hb. unfold CheckEnd, good_block in *.
  destruct (kind b) as [| |k|name start]; try by apply calm_ret.
  - destruct Hb as [Hs Hn]. unfold ClassInfo_CheckEnd.
    eapply calm_bind; [apply calm_disallow; [done..|]|].
    { apply Forall_forall. intros i Hi%elem_of_xrange_down. unfold in_file in *. lia. }
    intros _ _. eapply calm_bind; [apply calm_lift; by apply tame_elided|]. intros line _.
    destruct (Match _ line); [apply calm_when, Herror|by apply calm_ret].
  - unfold NamespaceInfo_CheckEnd.
    eapply calm_bind; [apply calm_lift; by apply tame_raw|]. intros line _.
    case_bool; [by apply calm_ret|]. destruct name as [|x name].
    { apply calm_when. case_bool; apply Herror. }
    destruct (compile_namespace (x :: name) Hb) as [r Er].
    eapply calm_bind with (Q := always).
    { apply calm_lift. unfold compile_res. by rewrite Er. }
    intros p _. apply calm_when, Herror.
Qed.

(** ** Update *)

Section Update.
Context {S : Type} `{NestingOps S} (c : cleansed_lines) (Hc : same_length c).
(** A property of states under which all blocks are good. *)
Context (P : S -> Prop).
Context (Ptop : forall s b, P s -> top_block s = Some b -> good_block c b).
Context (Ppush : forall s b, P s -> good_block c b -> P (push_block b s)).
Context (Ppop : forall s, P s -> P (pop_block s)).
Context (Pmodify : forall f s, (forall b, good_block c b -> good_block c (f b)) ->
           P s -> P (modify_top f s)).
Context (Psave : forall s, P s -> P (save_top s)).
Context (Ppreprocessor : forall line s, P s -> P (UpdatePreprocessor line s)).

Lemma good_keeps_kind f b : kind (f b) = kind b -> good_block c b -> good_block c (f b).
Proof. unfold good_block. by intros ->. Qed.
Lemma modify_same_kind f s : (forall b, kind (f b) = kind b) -> P s -> P (modify_top f s).
Proof. intros Hk. apply Pmodify. intros b. by apply good_keeps_kind. Qed.

Lemma count_parentheses_kind line b : kind (count_parentheses line b) = kind b.
Proof. unfold count_parentheses. by repeat case_match. Qed.

Lemma word_set_char x : set_ok no_flags false [CCls false CWord] x = true -> name_char x.
Proof. unfold set_ok, item_ok. cbn. rewrite orb_false_r. by left. Qed.
Lemma name_set_char x :
  set_ok no_flags false [CRange 58 58; CCls false CWord] x = true -> name_char x.
Proof.
  unfold set_ok, item_ok. cbn. rewrite !orb_false_r, orb_true_iff. intros [Hx|Hx]; [right|by left].
  unfold between in Hx. apply andb_true_iff in Hx as [H1%N.leb_le H2%N.leb_le].
  change (ch ":") with 58%N. lia.
Qed.
Lemma colon_char x : chr_ok no_flags 58 x = true -> name_char x.
Proof. intros ->%chr_ok_eq; [by right|done]. Qed.
(** The groups that capture names capture such characters only. *)
Ltac name_group p :=
  rx_norm p; cbn [group_only only]; repeat split; try discriminate;
  auto using word_set_char, name_set_char, colon_char.

Definition good_pair (x : list N * S) : Prop := P (snd x).
Lemma tame_namespaces fuel l line s :
  P s -> tame good_pair (namespaces_go fuel l line s).
Proof.
  revert line s. induction fuel as [|n IH]; intros line s Hs; cbn [namespaces_go];
    (destruct (Match _ _) as [o|] eqn:E; [|done]); [done|].
  assert (Forall name_char (grp o 1)) as Hn.
  { eapply (grp_only name_char namespace_pattern 1); [regex_wf| |exact E].
    name_group namespace_pattern. }
  assert (P (push_block (new_NamespaceInfo (group o 1) l) s)) as Hp.
  { apply Ppush; [done|]. exact Hn. }
  case_bool; apply IH; [by apply modify_same_kind|done].
Qed.
Lemma tame_class l line s :
  in_file c l -> P s -> tame good_pair (update_class c l line s).
Proof.
  intros Hl Hs. unfold update_class. destruct (Match _ _) as [o|] eqn:E; [|done].
  case_bool; [|done]. eapply tame_bind.
  { apply tame_in_template; [apply Hc|unfold in_file in Hl; lia|apply len_nonneg]. }
  intros b _. destruct b; [done|].
  eapply tame_bind; [apply tame_ClassInfo; [done..|]|intros b Hb; by apply Ppush].
  eapply (grp_only name_char class_decl_pattern 3); [regex_wf| |exact E].
  name_group class_decl_pattern.
Qed.
Lemma tame_begin l s : in_file c l -> P s -> tame P (update_begin c l s).
Proof.
  intros Hl Hs. unfold update_begin. destruct (top_block s) as [b|] eqn:Eb; [|done].
  case_bool; [done|]. eapply tame_bind; [apply tame_CheckBegin; eauto|].
  intros b' Hb. by apply Pmodify.
Qed.
Lemma good_set_access a b : good_block c b -> good_block c (set_access a b).
Proof. unfold good_block, set_access. by destruct (kind b) eqn:E; simpl; rewrite ?E. Qed.
Lemma calm_access f l line s : P s -> calm P (update_access f l error line s).
Proof.
  intros Hs. unfold update_access.
  destruct (top_block s ≫= is_class); [|by apply calm_ret].
  destruct (Match _ _); [|by apply calm_ret].
  eapply calm_bind; [apply calm_when, Herror|]. intros _ _.
  apply calm_ret, Pmodify; [apply good_set_access|done].
Qed.
Lemma calm_token f l token line s :
  in_file c l -> P s -> calm P (token_step f c l error token line s).
Proof.
  intros Hl Hs. unfold token_step.
  case_bool; [apply calm_ret|case_bool; [apply calm_ret; case_bool; auto|]].
  - case_bool; [by apply modify_same_kind|]. case_bool; (apply Ppush; [exact Hs|]); [exact I|].
    unfold asm_block. case_bool; exact I.
  - destruct (top_block s) as [b|] eqn:Eb; [|by apply calm_ret].
    eapply calm_bind; [apply calm_CheckEnd; eauto|]. intros _ _. by apply calm_ret, Ppop.
Qed.
Lemma calm_tokens fuel f l line s :
  in_file c l -> P s -> calm P (tokens_go fuel f c l error line s).
Proof.
  intros Hl. revert line s. induction fuel as [|n IH]; intros line s Hs; cbn [tokens_go];
    (destruct (Match _ _); [|by apply calm_ret]); [done|].
  eapply calm_bind; [by apply calm_token|]. intros s' Hs'. by apply IH.
Qed.
Lemma calm_Update f l s : in_file c l -> P s -> calm P (Update f c l error s).
Proof.
  intros Hl Hs. unfold Update.
  eapply calm_bind; [apply calm_lift; by apply tame_elided|]. intros line _.
  eapply calm_bind; [apply calm_lift, tame_namespaces|].
  { apply modify_same_kind; [apply count_parentheses_kind|]. by apply Ppreprocessor, Psave. }
  intros [line1 s1] H1. eapply calm_bind; [apply calm_lift; by apply tame_class|].
  intros [line2 s2] H2. eapply calm_bind; [apply calm_lift; by apply tame_begin|].
  intros s3 H3. eapply calm_bind; [by apply calm_access|]. intros s4 H4. by apply calm_tokens.
Qed.
Lemma calm_UpdateLines f ls s :
  Forall (in_file c) ls -> P s -> calm P (UpdateLines f c error ls s).
Proof.
  intros Hl. revert s. induction Hl as [|l ls Hl _ IH]; intros s Hs; cbn [UpdateLines];
    [by apply calm_ret|].
  eapply calm_bind; [by apply calm_Update|]. intros s' Hs'. by apply IH.
Qed.
End Update.

(** ** The specification state, and the program's *)

(** The blocks of the stack and of every checkpoint are good. *)
Definition good_state (c : cleansed_lines) (p : pure_state) : Prop :=
  Forall (good_block c) (blocks p)
  /\ Forall (fun pp => Forall (good_block c) (blocks_before_if pp)
                       /\ Forall (good_block c) (blocks_before_else pp)) (pps p).
Lemma good_preprocessor c line p : good_state c p -> good_state c (pure_UpdatePreprocessor line p).
Proof.
  destruct p as [bs ps]. intros [Hb Hp]. unfold pure_UpdatePreprocessor. cbn [blocks pps] in *.
  destruct (directive_of line), ps as [|[bi be seen] ps]; try done;
    try (apply Forall_cons_1 in Hp as [[? ?] ?]); split; cbn in *; try done;
    try (by destruct seen); repeat (constructor; try done); by destruct seen.
Qed.
Lemma good_start c : good_state c (Pure [] []).
Proof. by split; constructor. Qed.
Lemma calm_pure c f ls p :
  same_length c -> Forall (in_file c) ls -> good_state c p ->
  calm (good_state c) (UpdateLines f c error ls p).
Proof.
  intros Hc. apply calm_UpdateLines; [done|..].
  - intros [[|b bs] ps] b' [Hb _] E; [done|]. injection E as <-. by apply Forall_cons_1 in Hb as [? _].
  - intros [bs ps] b [Hb Hp] Hg. split; [by constructor|done].
  - intros [[|b bs] ps] [Hb Hp]; split; try done. by apply Forall_cons_1 in Hb as [_ ?].
  - intros g [[|b bs] ps] Hg [Hb Hp]; split; try done.
    apply Forall_cons_1 in Hb as [? ?]. constructor; auto.
  - done.
  - intros line p' Hp. by apply good_preprocessor.
Qed.
End Errors.

Lemma finishes_UpdateLines {S} `{NestingOps S} f c error ls (s : S) :
  (forall f l c k msg, finishes (error f l c k msg)) -> wf_lines c -> Forall (in_file c) ls ->
  finishes (UpdateLines f c error ls s).
Proof.
  intros He Hc Hl. revert s. induction Hl as [|l ls Hl _ IH]; intros s; cbn [UpdateLines]; [done|].
  apply finishes_bind; [|done]. apply finishes_Update; [done..|]. by destruct Hl.
Qed.
Lemma calm_for {A} (l : list A) f : (forall a, calm always (f a)) -> calm always (for_ l f).
Proof.
  intros Hf. induction l as [|a l IH]; simpl; [by apply calm_ret|]. by eapply calm_bind.
Qed.

(** C3: for every file, the nesting state takes all its lines without an
    exception, reports through any error handler that raises none, stays well
    formed, and the check of the blocks left open at the end of the file does
    not raise either: no index is out of range, every pattern built from a
    name compiles, and every loop ends. *)
Theorem nesting_never_raises ls filename (error : ErrorFn) w :
  (forall f l c k msg w, exists w', error f l c k msg w = (Ok tt, w')) ->
  exists c s w1 w2, new_CleansedLines ls = Ok c
    /\ UpdateLines filename c error (xrange 0 (NumLines c)) new_NestingState w = (Ok s, w1)
    /\ wf_nesting s
    /\ CheckCompletedBlocks filename error s w1 = (Ok tt, w2).
Proof.
  intros Herror.
  assert (forall f l c k msg, calm always (error f l c k msg)) as Hcalm.
  { intros f l c k msg w0. by destruct (Herror f l c k msg w0) as [w' ->]. }
  assert (forall f l c k msg, finishes (error f l c k msg)) as Hfin.
  { intros f l c k msg w0. by destruct (Herror f l c k msg w0) as [w' ->]. }
  destruct (new_CleansedLines_ok ls) as (c & Ec & Hr & Hn & He & _).
  assert (same_length c) as Hc by (split; unfold wf_lines; congruence).
  assert (Forall (in_file c) (xrange 0 (NumLines c))) as Hl.
  { apply Forall_forall. intros i Hi%elem_of_xrange. exact Hi. }
  destruct (calm_returns _ (UpdateLines filename c error (xrange 0 (NumLines c)) (Pure [] [])) w
    (calm_pure error Hcalm c filename _ _ Hc Hl (good_start c))
    (finishes_UpdateLines filename c error _ _ Hfin (proj1 Hc) Hl)) as (p & w1 & E & _).
  destruct (UpdateLines_rel implements filename c error (xrange 0 (NumLines c))
    _ _ new_implements w) as [Hrel Hw]. rewrite E in Hrel, Hw.
  destruct (UpdateLines filename c error _ new_NestingState w) as [[s|e] w1'] eqn:Es;
    cbn in Hrel, Hw; [|done]. subst w1'. destruct Hrel as [Hwf _].
  destruct (calm_returns always (CheckCompletedBlocks filename error s) w1) as ([] & w2 & E2 & _).
  - apply calm_for. intros b. destruct (kind b); first [by apply calm_ret|apply Hcalm].
  - apply finishes_for. intros b. destruct (kind b); first [apply finishes_ret|apply Hfin].
  - by exists c, s, w1, w2.
Qed.

Lemma nesting_never_raises_witness :
  let error : ErrorFn := fun _ _ _ _ msg => print_err msg in
  let ls := [u"namespace a {"; u"class B {"; u"#if X"; u"};"] in
  (forall f l c k msg w, exists w', error f l c k msg w = (Ok tt, w'))
  /\ exists c s w1, new_CleansedLines ls = Ok c
       /\ UpdateLines [] c error (xrange 0 (NumLines c)) new_NestingState init_world = (Ok s, w1).
Proof.
  intros error ls.
  assert (forall f l c k msg w, exists w', error f l c k msg w = (Ok tt, w')) as H.
  { intros f l c k msg w. eexists. reflexivity. }
  split; [exact H|].
  destruct (nesting_never_raises ls [] error init_world H) as (c & s & w1 & _ & E1 & E2 & _).
  exists c, s, w1. split; [exact E1|exact E2].
Defined.
