(* ===== verification/Protoc.v ===== *)
(** * The protoc wrapper

    Models build/protoc_wrapper.py: all functions; the parsed options are the
    argument of [main].

    [pstate] is what the wrapper changes: the files and directories, by path, and
    what it writes to standard error.  A file cannot be opened that is not there,
    is a directory, or may not be read or written; a directory cannot be listed
    that is not there or may not be read.  The program it runs, the name
    [mkdtemp] makes up, [realpath] and what [os.walk] lists are parameters; that
    what a directory holds may be removed is assumed. *)

From S2P Require Import Prelude PyStr Regex RePattern Lint FileInfo FileChecks LineChecks Spacing Driver.
From Stdlib Require Import Ascii.

(** What the process may do with a file or a directory. *)
Record access := Access { readable : bool; writable : bool }.
(** Files with their contents; the path of a directory ends in a slash here. *)
Record pstate := PState {
  pfiles : gmap (list N) (access * list N);
  pdirs : gmap (list N) access;
  perr : list (list N)
}.
Definition set_files f st := PState f (pdirs st) (perr st).
Definition set_dirs d st := PState (pfiles st) d (perr st).

(** ** Computations that change files *)

Definition P (A : Type) : Type := pstate -> res A * pstate.
#[export] Instance P_ret : MRet P := fun A a st => (Ok a, st).
#[export] Instance P_bind : MBind P := fun A B f mm st =>
  match mm st with (Ok a, st') => f a st' | (Exc e, st') => (Exc e, st') end.
Definition plift {A} (r : res A) : P A := fun st => (r, st).
Definition pwrite (t : list N) : P unit := fun st =>
  (Ok tt, PState (pfiles st) (pdirs st) (perr st ++ [t])).
(** [try: body  finally: cleanup]; an exception of the clean-up replaces what the
    body does. *)
Definition try_finally {A} (body : P A) (cleanup : P unit) : P A := fun st =>
  let '(r, st) := body st in
  match cleanup st with (Ok _, st) => (r, st) | (Exc e, st) => (Exc e, st) end.
(** [try: body  except: cleanup; raise] *)
Definition try_except {A} (body : P A) (cleanup : P unit) : P A := fun st =>
  match body st with
  | (Ok a, st) => (Ok a, st)
  | (Exc e, st) => (cleanup ≫= fun _ => plift (Exc e)) st
  end.
Fixpoint pfor {A} (l : list A) (f : A -> P unit) : P unit :=
  match l with [] => mret tt | a :: l' => f a ≫= fun _ => pfor l' f end.

(** ** Files and directories *)

Definition dir_prefix (dir : list N) : list N := path_join dir [].
Definition under (dir path : list N) : bool := starts (dir_prefix dir) path.
(** The directory a path is in, up to the last slash. *)
Definition parent (path : list N) : list N := rstrip_p (fun c => negb (c =c ch "/")) path.
Definition is_directory (path : list N) (st : pstate) : bool :=
  match pdirs st !! dir_prefix path with Some _ => true | None => false end.

(** [open(path).read()] *)
Definition read_file (path : list N) : P (list N) := fun st =>
  match pfiles st !! path with
  | Some (a, text) => (if readable a then Ok text else Exc IOError, st)
  | None => (Exc IOError, st)
  end.
(** [open(path, 'w').write(text)]: a file that is not there is made in its
    directory. *)
Definition write_file (path text : list N) : P unit := fun st =>
  match pfiles st !! path with
  | Some (a, _) =>
      if writable a then (Ok tt, set_files (<[path := (a, text)]> (pfiles st)) st)
      else (Exc IOError, st)
  | None =>
      match pdirs st !! parent path with
      | Some d =>
          if writable d && negb (is_directory path st)
          then (Ok tt, set_files (<[path := (Access true true, text)]> (pfiles st)) st)
          else (Exc IOError, st)
      | None => (Exc IOError, st)
      end
  end.
(** [tempfile.mkdtemp()], which makes up the name [tmp] *)
Definition mkdtemp (tmp : list N) : P (list N) := fun st =>
  (Ok tmp, set_dirs (<[dir_prefix tmp := Access true true]> (pdirs st)) st).
(** [shutil.rmtree(dir)] *)
Definition rmtree (dir : list N) : P unit := fun st =>
  (if is_directory dir st then Ok tt else Exc OSError,
   PState (filter (fun p => under dir (fst p) = false) (pfiles st))
     (filter (fun p => under dir (fst p) = false) (pdirs st)) (perr st)).

(** The name of an entry of a directory, from what follows the directory in the
    path. *)
Definition entry_name (rest : list N) : option (list N) :=
  if (rest =s []) || in_chars (ch "/") rest then None else Some rest.
Definition entries (path : list N) (st : pstate) : list (list N) :=
  let rest p := drop (length (dir_prefix path)) p in
  omap (fun p => if under path p then entry_name (rest p) else None)
    (fst <$> map_to_list (pfiles st))
  ++ omap (fun p => if under path p && ends (u"/") p then entry_name (slice_to (rest p) (-1)) else None)
       (fst <$> map_to_list (pdirs st)).
(** [os.listdir(path)]: the names of the files and directories in it, in some
    order. *)
Definition listdir `{DictOrder} (path : list N) : P (list (list N)) := fun st =>
  match pdirs st !! dir_prefix path with
  | Some d =>
      (if readable d && negb (path =s []) then Ok (dict_order (entries path st)) else Exc OSError, st)
  | None => (Exc OSError, st)
  end.

(** ** ModifyHeader *)

Definition PROTOC_INCLUDE_POINT : list N := u"// @@protoc_insertion_point(includes)" ++ [10%N].
Definition extra_header_msg (extra_header : list N) : list N :=
  u"#include " ++ dq ++ extra_header ++ dq ++ [10%N].
Definition header_contents (extra_header : list N) (lines : list (list N)) : list (list N) :=
  l ← lines; if l =s PROTOC_INCLUDE_POINT then [l; extra_header_msg extra_header] else [l].
Definition ModifyHeader (header_file extra_header : list N) : P Z :=
  text ← read_file header_file;
  let lines := byte_lines_go [] text in
  if negb (in_strs PROTOC_INCLUDE_POINT lines) then mret 1%Z
  else
    write_file header_file (concat (header_contents extra_header lines)) ≫= fun _ => mret 0%Z.

(** ** ScanForBadFiles *)

(** The names that [fnmatch] finds for [*-*.proto]. *)
Definition bad_name (name : list N) : bool :=
  ends (u".proto") name && in_chars (ch "-") (slice name 0 (-6)).

Section Wrapper.
Context `{DictOrder}.
Context (realpath : list N -> list N).
Context (walk : list N -> list (list N * list (list N))).
Context (call : list (list N) -> pstate -> Z * pstate).
Context (tmp : list N).

Fixpoint scan_go (real_scan_root : list N) (dirs : list (list N * list (list N))) (badname : bool)
    : P bool :=
  match dirs with
  | [] => mret badname
  | (dirpath, filenames) :: dirs' =>
      let matches := List.filter bad_name filenames in
      match matches with
      | [] => scan_go real_scan_root dirs' badname
      | _ =>
          (if badname then mret tt
           else pwrite (u"proto files must not have hyphens in their names (see http://crbug.com/386125 for more information):" ++ [10%N])) ≫= fun _ =>
          pfor matches (fun filename =>
            pwrite (u"  " ++ path_join (path_join real_scan_root dirpath) filename ++ [10%N]))
            ≫= fun _ =>
          scan_go real_scan_root dirs' true
      end
  end.
Definition ScanForBadFiles (scan_root : list N) : P bool :=
  let real_scan_root := realpath scan_root in scan_go real_scan_root (walk real_scan_root) false.

(** ** RewriteProtoFilesForSystemProtobuf *)

Definition breaks_build (line : list N) : bool :=
  contains (u"LITE_RUNTIME") line || contains (u"retain_unknown_fields") line.
Definition rewrite_text (text : list N) : list N :=
  concat (List.filter (fun l => negb (breaks_build l)) (byte_lines_go [] text)).
Definition rewrite_file (wrapper_dir path filename : list N) : P unit :=
  if negb (ends (u".proto") filename) then mret tt
  else
    text ← read_file (path_join path filename);
    write_file (path_join wrapper_dir filename) (rewrite_text text).
Definition RewriteProtoFilesForSystemProtobuf (path : list N) : P (list N) :=
  wrapper_dir ← mkdtemp tmp;
  try_except
    (names ← listdir path;
     pfor names (rewrite_file wrapper_dir path) ≫= fun _ => mret wrapper_dir)
    (rmtree wrapper_dir).

(** ** main *)

Record wrapper_options := WrapperOptions {
  extra_header : option (list N);
  generated_header : option (list N);
  proto_in_dir : option (list N);
  proto_in_file : option (list N);
  use_system_protobuf : Z
}.

(** [subprocess.call(args)] *)
Definition subprocess_call (args : list (list N)) : P Z := fun st =>
  let '(ret, st) := call args st in (Ok ret, st).
(** An option that is there and not empty. *)
Definition nonempty_option (o : option (list N)) : option (list N) :=
  match o with Some (_ :: _) => o | _ => None end.
Definition main (options : wrapper_options) (args : list (list N)) : P Z :=
  if (len args <? 2)%Z then mret 1%Z
  else
    dir ← plift (of_option AttributeError (proto_in_dir options));
    bad ← ScanForBadFiles dir;
    if bad : bool then mret 1%Z
    else
      let system := (use_system_protobuf options =? 1)%Z in
      proto_path ← (if system then RewriteProtoFilesForSystemProtobuf dir else mret dir);
      ret ← try_finally
        (file ← plift (of_option AttributeError (proto_in_file options));
         subprocess_call (slice_from args 1
           ++ [u"--proto_path=" ++ proto_path; path_join proto_path file]))
        (if system then rmtree proto_path else mret tt);
      if negb (ret =? 0)%Z then mret ret
      else
        match nonempty_option (extra_header options), nonempty_option (generated_header options) with
        | Some extra, Some header => ModifyHeader header extra
        | _, _ => mret 0%Z
        end.
End Wrapper.

(** ** The lines of a file *)

(** A line: its newline, if it has one, is its last character; [terminated] if
    it has one. *)
Definition terminated (l : list N) : Prop := exists a, l = a ++ [10%N] /\ 10%N ∉ a.
Inductive file_of_lines : list (list N) -> Prop :=
  | fl_nil : file_of_lines []
  | fl_last a : a <> [] -> 10%N ∉ a -> file_of_lines [a]
  | fl_cons l ls : terminated l -> file_of_lines ls -> file_of_lines (l :: ls).

Lemma byte_lines_from cur s :
  10%N ∉ cur ->
  concat (byte_lines_go cur s) = reverse cur ++ s /\ file_of_lines (byte_lines_go cur s).
Proof.
  revert cur. induction s as [|c s IH]; intros cur Hc; cbn [byte_lines_go].
  - rewrite app_nil_r. destruct cur as [|x cur]; [by split; [|constructor]|].
    cbn [concat]. rewrite app_nil_r. split; [done|]. apply fl_last.
    + intros E%(f_equal length). by rewrite length_reverse in E.
    + by rewrite elem_of_reverse.
  - destruct (N.eqb_spec c 10) as [->|Hn].
    + destruct (IH []) as [E F]; [set_solver|]. cbn [concat]. rewrite E, reverse_cons, <- app_assoc.
      split; [done|]. constructor; [|done]. exists (reverse cur). by rewrite elem_of_reverse.
    + destruct (IH (c :: cur)) as [E F]; [set_solver|]. by rewrite E, reverse_cons, <- app_assoc.
Qed.
Lemma byte_lines_concat s : concat (byte_lines_go [] s) = s.
Proof. destruct (byte_lines_from [] s); [set_solver|done]. Qed.
Lemma byte_lines_app a cur s :
  10%N ∉ a -> byte_lines_go cur (a ++ s) = byte_lines_go (reverse a ++ cur) s.
Proof.
  revert cur. induction a as [|c a IH]; intros cur Ha; [done|]. cbn [app byte_lines_go].
  destruct (N.eqb_spec c 10); [set_solver|]. rewrite IH by set_solver.
  by rewrite reverse_cons, <- app_assoc.
Qed.
(** Reading back lines that were written one after the other. *)
Lemma byte_lines_lines ls : file_of_lines ls -> byte_lines_go [] (concat ls) = ls.
Proof.
  induction 1 as [|a Ha Hn|l ls (a & -> & Ha) _ IH]; [done|..]; cbn [concat].
  - rewrite byte_lines_app by done. cbn [byte_lines_go]. rewrite app_nil_r.
    destruct (reverse a) as [|x r] eqn:E.
    + apply (f_equal reverse) in E. by rewrite reverse_involutive in E.
    + by rewrite <- E, reverse_involutive.
  - rewrite <- app_assoc, byte_lines_app by done. cbn [app byte_lines_go].
    by rewrite IH, app_nil_r, reverse_cons, reverse_involutive.
Qed.

(** ** ModifyHeader *)

(** The line that follows each insertion point, taken out again. *)
Fixpoint take_out (ls : list (list N)) : list (list N) :=
  match ls with
  | [] => []
  | l :: ls' =>
      if l =s PROTOC_INCLUDE_POINT then l :: match ls' with [] => [] | _ :: t => take_out t end
      else l :: take_out ls'
  end.
Lemma take_out_contents e ls : take_out (header_contents e ls) = ls.
Proof.
  unfold header_contents. induction ls as [|l ls IH]; [done|]. cbn [mbind list_bind].
  destruct (eqs l PROTOC_INCLUDE_POINT) eqn:E; cbn [app take_out]; rewrite E; by f_equal.
Qed.
Lemma header_contents_lines e ls :
  10%N ∉ e -> file_of_lines ls -> file_of_lines (header_contents e ls).
Proof.
  intros He. unfold header_contents. induction 1 as [|a Ha Hn|l ls Hl Hls IH]; cbn [mbind list_bind].
  - constructor.
  - destruct (eqs a PROTOC_INCLUDE_POINT) eqn:E; [|by constructor].
    apply eqs_true in E as ->. destruct Hn. set_solver.
  - destruct (eqs l PROTOC_INCLUDE_POINT); constructor; try done.
    constructor; [|done]. exists (u"#include " ++ dq ++ e ++ dq).
    unfold extra_header_msg. rewrite <- !app_assoc. split; [done|].
    rewrite !not_elem_of_app. repeat split; try done; apply in_chars_false; vm_compute; reflexivity.
Qed.

(** C39: [ModifyHeader] on a header that may not be read raises [IOError].  On
    one that has no insertion point it changes nothing and answers 1.  Else it
    raises [IOError] and changes nothing if the header may not be written, and
    otherwise answers 0 and changes no other file; in the new header each
    insertion point is followed by the include directive, and taking the line
    behind each insertion point out gives the old header. *)
Theorem ModifyHeader_spec header extra st a text :
  pfiles st !! header = Some (a, text) -> 10%N ∉ extra ->
  let has := PROTOC_INCLUDE_POINT ∈ byte_lines_go [] text in
  (readable a = false -> ModifyHeader header extra st = (Exc IOError, st))
  /\ (readable a = true -> ~ has -> ModifyHeader header extra st = (Ok 1%Z, st))
  /\ (readable a = true -> has -> writable a = false ->
        ModifyHeader header extra st = (Exc IOError, st))
  /\ (readable a = true -> has -> writable a = true -> exists text',
        ModifyHeader header extra st
        = (Ok 0%Z, set_files (<[header := (a, text')]> (pfiles st)) st)
        /\ concat (take_out (byte_lines_go [] text')) = text
        /\ forall i, byte_lines_go [] text' !! i = Some PROTOC_INCLUDE_POINT ->
             byte_lines_go [] text' !! S i = Some (extra_header_msg extra)).
Proof.
  intros Ht He has. unfold ModifyHeader, mbind, P_bind, read_file, write_file. rewrite Ht.
  split; [by intros ->|]. split; [intros ->|split; intros -> Hh]; cbv iota.
  - intros Hh%in_strs_false. by rewrite Hh.
  - apply in_strs_spec in Hh. rewrite Hh. cbn [negb]. rewrite Ht. by intros ->.
  - apply in_strs_spec in Hh. rewrite Hh. cbn [negb]. rewrite Ht. intros ->. eexists. split; [reflexivity|].
    destruct (byte_lines_from [] text) as [Hc Hf]; [set_solver|].
    rewrite byte_lines_lines by (by apply header_contents_lines).
    rewrite take_out_contents, byte_lines_concat. split; [done|].
    generalize (byte_lines_go [] text). intros ls. unfold header_contents.
    induction ls as [|l ls IH]; intros i Hi; [done|]. cbn [mbind list_bind] in *.
    destruct (eqs l PROTOC_INCLUDE_POINT) eqn:E; destruct i as [|i]; cbn in *; try done.
    + destruct i as [|i]; [|by apply IH].
      injection Hi as Hi. by vm_compute in Hi.
    + injection Hi as ->. by rewrite eqs_refl in E.
    + by apply IH.
Qed.
Lemma ModifyHeader_spec_witness :
  let st := PState {[u"a.pb.h" := (Access true true, PROTOC_INCLUDE_POINT)]} ∅ [] in
  pfiles st !! (u"a.pb.h") = Some (Access true true, PROTOC_INCLUDE_POINT) /\ 10%N ∉ u"extra.h"
  /\ exists text', ModifyHeader (u"a.pb.h") (u"extra.h") st
       = (Ok 0%Z, set_files (<[u"a.pb.h" := (Access true true, text')]> (pfiles st)) st)
     /\ concat (take_out (byte_lines_go [] text')) = PROTOC_INCLUDE_POINT.
Proof.
  intros st.
  assert (10%N ∉ u"extra.h") as Hn by (apply in_chars_false; reflexivity).
  split; [reflexivity|]. split; [exact Hn|].
  destruct (ModifyHeader_spec (u"a.pb.h") (u"extra.h") st (Access true true) PROTOC_INCLUDE_POINT
              eq_refl Hn) as (_ & _ & _ & H).
  destruct H as (text' & E & Ht & _); [reflexivity|apply in_strs_spec; vm_compute; reflexivity|reflexivity|].
  by exists text'.
Defined.

(** ** The temporary directory *)

(** There is no such directory, and nothing in it. *)
Definition clean (dir : list N) (st : pstate) : Prop :=
  forall p, under dir p = true -> pfiles st !! p = None /\ pdirs st !! p = None.
Lemma filter_under {A} (dir : list N) (m : gmap (list N) A) (p : list N) :
  filter (fun x => under dir (fst x) = false) m !! p
  = if under dir p then None else m !! p.
Proof.
  destruct (under dir p) eqn:U.
  - apply map_lookup_filter_None_2. right. intros x _. simpl. by rewrite U.
  - destruct (m !! p) as [x|] eqn:E.
    + by apply map_lookup_filter_Some_2.
    + apply map_lookup_filter_None_2. by left.
Qed.
Lemma rmtree_clean dir st : clean dir (snd (rmtree dir st)).
Proof. intros p Hp. unfold rmtree. cbn [pfiles pdirs snd]. by rewrite !filter_under, Hp. Qed.

(** A computation that leaves no file in a directory when there was none. *)
Definition keeps_clean {A} (dir : list N) (mm : P A) : Prop :=
  forall st, clean dir st -> clean dir (snd (mm st)).
Lemma keeps_clean_bind {A B} dir (mm : P A) (f : A -> P B) :
  keeps_clean dir mm -> (forall a, keeps_clean dir (f a)) -> keeps_clean dir (mm ≫= f).
Proof.
  intros Hm Hf st Hc. specialize (Hm st Hc). unfold mbind, P_bind.
  destruct (mm st) as [[a|e] st1]; [by apply Hf|done].
Qed.
Lemma bind_clean {A B} dir (mm : P A) (f : A -> P B) st :
  clean dir (snd (mm st)) -> (forall a, keeps_clean dir (f a)) -> clean dir (snd ((mm ≫= f) st)).
Proof.
  intros Hm Hf. unfold mbind, P_bind. destruct (mm st) as [[a|e] st1]; [by apply Hf|done].
Qed.
(** The first computation may leave files when it succeeds. *)
Lemma bind_clean_at {A B} dir (mm : P A) (f : A -> P B) st :
  match mm st with (Ok _, _) => True | (Exc _, st') => clean dir st' end ->
  (forall a st', mm st = (Ok a, st') -> clean dir (snd (f a st'))) ->
  clean dir (snd ((mm ≫= f) st)).
Proof.
  intros Hm Hf. unfold mbind, P_bind. destruct (mm st) as [[a|e] st1]; [by apply Hf|done].
Qed.
Lemma keeps_clean_ret {A} dir (a : A) : keeps_clean dir (mret a).
Proof. intros st Hc. exact Hc. Qed.
Lemma keeps_clean_lift {A} dir (r : res A) : keeps_clean dir (plift r).
Proof. intros st Hc. exact Hc. Qed.
Lemma keeps_clean_write dir t : keeps_clean dir (pwrite t).
Proof. intros st Hc. exact Hc. Qed.
Lemma keeps_clean_for {A} dir (l : list A) f :
  (forall a, keeps_clean dir (f a)) -> keeps_clean dir (pfor l f).
Proof.
  intros Hf. induction l as [|a l IH]; simpl; [apply keeps_clean_ret|]. by apply keeps_clean_bind.
Qed.
Lemma try_finally_clean {A} dir (body : P A) st : clean dir (snd (try_finally body (rmtree dir) st)).
Proof.
  unfold try_finally. destruct (body st) as [r st1]. pose proof (rmtree_clean dir st1) as Hc.
  by destruct (rmtree dir st1) as [[[]|e] st2].
Qed.
Lemma ModifyHeader_clean dir header extra : keeps_clean dir (ModifyHeader header extra).
Proof.
  intros st Hc. unfold ModifyHeader, mbind, P_bind, read_file.
  destruct (pfiles st !! header) as [[a text]|] eqn:E; [|done].
  destruct (readable a); [|done]. case_bool; [done|]. unfold write_file. rewrite E.
  destruct (writable a); [|done]. intros p Hp. cbn [snd pfiles pdirs set_files].
  destruct (Hc p Hp) as [Hf Hd]. split; [|exact Hd].
  destruct (decide (header = p)) as [->|Hne]; [congruence|].
  etrans; [exact (lookup_insert_ne _ _ _ _ Hne)|exact Hf].
Qed.

Section Clean.
Context `{DictOrder} (realpath : list N -> list N).
Context (walk : list N -> list (list N * list (list N))).
Context (call : list (list N) -> pstate -> Z * pstate) (tmp : list N).

Lemma scan_clean root dirs b : keeps_clean tmp (scan_go root dirs b).
Proof.
  revert b. induction dirs as [|[d fs] dirs IH]; intros b; cbn [scan_go]; [apply keeps_clean_ret|].
  destruct (List.filter bad_name fs); [apply IH|].
  apply keeps_clean_bind; [destruct b; [apply keeps_clean_ret|apply keeps_clean_write]|]. intros _.
  apply keeps_clean_bind; [apply keeps_clean_for; intros ?; apply keeps_clean_write|]. intros _. apply IH.
Qed.
(** The rewrite returns the temporary directory, or leaves it clean. *)
Lemma rewrite_result path st :
  match RewriteProtoFilesForSystemProtobuf tmp path st with
  | (Ok d, _) => d = tmp
  | (Exc _, st') => clean tmp st'
  end.
Proof.
  unfold RewriteProtoFilesForSystemProtobuf. unfold mbind at 1, P_bind at 1, mkdtemp.
  set (st1 := set_dirs _ _). unfold try_except.
  assert (forall e st2, match (rmtree tmp ≫= fun _ => plift (Exc e)) st2 with
            | (Ok d, _) => d = tmp | (Exc _, st') => clean tmp st' end) as Hr.
  { intros e st2. unfold mbind, P_bind. pose proof (rmtree_clean tmp st2) as Hc.
    by destruct (rmtree tmp st2) as [[[]|e'] st3]. }
  unfold mbind at 1, P_bind at 1. destruct (listdir path st1) as [[names|e] st3]; [|apply Hr].
  unfold mbind at 1, P_bind at 1. by destruct (pfor _ _ st3) as [[[]|e] st4]; [|apply Hr].
Qed.

Lemma main_clean options args st :
  use_system_protobuf options = 1%Z -> clean tmp st ->
  clean tmp (snd (main realpath walk call tmp options args st)).
Proof.
  intros Hs Hc. unfold main. case_bool; [done|]. rewrite Hs.
  change (1 =? 1)%Z with true. cbv iota zeta.
  refine (keeps_clean_bind tmp _ _ (keeps_clean_lift _ _) _ st Hc). intros dir.
  apply keeps_clean_bind; [apply scan_clean|]. intros [|]; [apply keeps_clean_ret|].
  clear st Hc. intros st Hc. apply bind_clean_at.
  - pose proof (rewrite_result dir st) as Hr.
    by destruct (RewriteProtoFilesForSystemProtobuf tmp dir st) as [[d|e] st1].
  - intros d st1 E. pose proof (rewrite_result dir st) as Hr. rewrite E in Hr. subst d.
    apply bind_clean; [apply try_finally_clean|]. intros ret.
    case_bool; [apply keeps_clean_ret|].
    destruct (nonempty_option (extra_header options)); [|apply keeps_clean_ret].
    destruct (nonempty_option (generated_header options)); [|apply keeps_clean_ret].
    apply ModifyHeader_clean.
Qed.
End Clean.

(** C40: with the system's protobuf, the wrapper works on copies in a temporary
    directory and leaves nothing of it behind: whether the compiler succeeds
    or fails, whatever it writes there, and when an exception ends the run,
    be it that the source directory cannot be listed or a file not opened, at
    the end the directory is gone with everything in it. *)
Theorem main_removes_copies `{DictOrder} realpath walk call tmp options args st :
  use_system_protobuf options = 1%Z -> clean tmp st ->
  clean tmp (snd (main realpath walk call tmp options args st)).
Proof. apply main_clean. Qed.

(** A compiler that writes a file next to its input and fails. *)
Definition sample_protoc (args : list (list N)) (st : pstate) : Z * pstate :=
  (1%Z, set_files (<[u"/tmp/x/out.pb.h" := (Access true true, u"junk")]> (pfiles st)) st).
(** A directory with one file. *)
Definition sample_protos : pstate :=
  PState {[u"/src/a.proto" := (Access true true, u"message A {}")]} {[u"/src/" := Access true true]} [].
Lemma sample_clean : clean (u"/tmp/x") sample_protos.
Proof.
  intros p Hp. unfold sample_protos. cbn [pfiles pdirs].
  split; apply lookup_singleton_ne; intros <-; by vm_compute in Hp.
Qed.
Lemma main_removes_copies_witness :
  let options := WrapperOptions None None (Some (u"/src")) (Some (u"a.proto")) 1 in
  use_system_protobuf options = 1%Z /\ clean (u"/tmp/x") sample_protos
  /\ clean (u"/tmp/x") (snd (@main (fun l => l) (fun p => p) (fun _ => []) sample_protoc
       (u"/tmp/x") options [u"protoc_wrapper.py"; u"protoc"] sample_protos)).
Proof.
  intros options. split; [reflexivity|]. split; [exact sample_clean|].
  exact (@main_removes_copies (fun l => l) (fun p => p) (fun _ => []) sample_protoc (u"/tmp/x")
           options [u"protoc_wrapper.py"; u"protoc"] sample_protos eq_refl sample_clean).
Defined.

(** ** Names in a directory *)

Lemma dir_prefix_form dir : dir_prefix dir = [] \/ exists a, dir_prefix dir = a ++ [ch "/"].
Proof.
  unfold dir_prefix, path_join. change (starts slash []) with false. cbv iota.
  destruct (eqs dir []) eqn:E; cbn [orb].
  - apply eqs_true in E as ->. by left.
  - destruct (ends slash dir) eqn:F.
    + apply ends_spec in F as [t ->]. right. exists t. by rewrite app_nil_r.
    + right. by exists dir.
Qed.
Lemma path_join_prefix dir name :
  ch "/" ∉ name -> path_join dir name = dir_prefix dir ++ name.
Proof.
  intros Hn. unfold dir_prefix, path_join.
  assert (starts slash name = false) as ->.
  { apply not_true_is_false. intros [t ->]%starts_spec. apply Hn. vm_compute. left. }
  change (starts slash []) with false. case_bool; [by rewrite app_nil_r|].
  by rewrite app_nil_r, <- app_assoc.
Qed.
Lemma under_join dir name : ch "/" ∉ name -> under dir (path_join dir name) = true.
Proof. intros Hn. unfold under. rewrite path_join_prefix by done. apply starts_app. Qed.
Lemma under_self dir : under dir (dir_prefix dir) = true.
Proof. unfold under. apply starts_spec. exists []. by rewrite app_nil_r. Qed.
Lemma parent_join dir name : ch "/" ∉ name -> parent (path_join dir name) = dir_prefix dir.
Proof.
  intros Hn. rewrite path_join_prefix by done. unfold parent.
  assert (Forall (fun c => negb (N.eqb c (ch "/")) = true) name) as Hf.
  { apply Forall_forall. intros c Hc. apply negb_true_iff, N.eqb_neq. by intros ->. }
  destruct (dir_prefix_form dir) as [->|[a ->]]; [by apply rstrip_p_all|].
  rewrite <- app_assoc. cbn [app]. rewrite rstrip_p_stop by done.
  by rewrite rstrip_p_all by done.
Qed.
(** A name in a directory elsewhere is elsewhere. *)
Lemma not_under_join tmp dir name :
  under tmp (dir_prefix dir) = false -> ch "/" ∉ name -> under tmp (path_join dir name) = false.
Proof.
  intros Hu Hn. rewrite path_join_prefix by done. apply not_true_is_false. intros Hs.
  assert (under tmp (dir_prefix dir) = true) as Ht; [|congruence].
  unfold under in *. destruct (dir_prefix_form tmp) as [Et|[a Et]]; rewrite Et in *; [done|].
  apply starts_spec in Hs as [t Hs]. rewrite <- app_assoc in Hs. cbn [app] in Hs.
  apply app_eq_inv in Hs as [(k & Ed & Ek)|(k & _ & Ek)].
  - destruct k as [|c k]; cbn [app] in Ek; [subst name; set_solver|].
    injection Ek as <- _. apply starts_spec. exists k. by rewrite Ed, <- app_assoc.
  - subst name. set_solver.
Qed.
Lemma dir_prefix_name dir name :
  name <> [] -> ch "/" ∉ name -> dir_prefix (path_join dir name) = path_join dir name ++ u"/".
Proof.
  intros Hne Hn. rewrite path_join_prefix by done.
  destruct (exists_last Hne) as (a & c & ->). set (p := dir_prefix dir ++ a ++ [c]).
  unfold dir_prefix, path_join. change (starts slash []) with false. cbv iota.
  assert (eqs p [] = false) as ->.
  { apply eqs_false. unfold p. intros Hp%(f_equal length). rewrite !length_app in Hp. simpl in Hp. lia. }
  assert (ends slash p = false) as ->; [|by rewrite app_nil_r].
  apply not_true_is_false. intros [t Ht]%ends_spec. unfold p in Ht.
  rewrite app_assoc in Ht. apply app_inj_tail in Ht as [_ ->]. set_solver.
Qed.

Lemma slice_slash a : slice_to (a ++ u"/") (-1) = a.
Proof. by apply (slice_to_suffix a (u"/")). Qed.

(** A file or a directory of the name is in the directory. *)
Definition entry (path : list N) (st : pstate) (name : list N) : Prop :=
  name <> [] /\ ch "/" ∉ name
  /\ (is_Some (pfiles st !! path_join path name)
      \/ is_Some (pdirs st !! dir_prefix (path_join path name))).
Lemma entry_name_Some rest name :
  entry_name rest = Some name <-> name = rest /\ name <> [] /\ ch "/" ∉ name.
Proof.
  unfold entry_name. destruct (eqs rest []) eqn:E; [apply eqs_true in E; naive_solver|].
  apply eqs_false in E. destruct (in_chars (ch "/") rest) eqn:F; cbn [orb].
  - apply in_chars_spec in F. naive_solver.
  - apply in_chars_false in F. naive_solver.
Qed.
Lemma elem_of_entries path st name : name ∈ entries path st <-> entry path st name.
Proof.
  unfold entries, entry. rewrite elem_of_app, !list_elem_of_omap.
  setoid_rewrite list_elem_of_fmap. split.
  - intros [(p & ([q x] & -> & Hq%elem_of_map_to_list) & E)|
            (p & ([q x] & -> & Hq%elem_of_map_to_list) & E)]; cbn [fst] in E.
    + destruct (under path q) eqn:U; [|done]. apply entry_name_Some in E as (-> & Hne & Hn).
      do 2 (split; [done|]). left. rewrite path_join_prefix by done.
      apply starts_spec in U as [t ->]. rewrite drop_app_length. eauto.
    + destruct (under path q) eqn:U; [|done]. destruct (ends (u"/") q) eqn:Es; [|done].
      cbn [andb] in E. apply entry_name_Some in E as (-> & Hne & Hn).
      do 2 (split; [done|]). right. rewrite dir_prefix_name, path_join_prefix by done.
      apply starts_spec in U as [t ->]. rewrite drop_app_length in *.
      assert (exists a, t = a ++ u"/") as [a ->].
      { destruct t as [|c t]; [done|]. destruct (exists_last (l := c :: t)) as (a & d & Et); [done|].
        rewrite Et in *. exists a. apply ends_spec in Es as [s Es].
        rewrite app_assoc in Es. by apply app_inj_tail in Es as [_ ->]. }
      rewrite slice_slash in *. rewrite <- app_assoc. eauto.
  - intros (Hne & Hn & [[x Hx]|[x Hx]]).
    + left. exists (path_join path name). split.
      * exists (path_join path name, x). split; [done|by apply elem_of_map_to_list].
      * rewrite under_join by done. apply entry_name_Some.
        by rewrite path_join_prefix, drop_app_length.
    + right. exists (dir_prefix (path_join path name)). split.
      * exists (dir_prefix (path_join path name), x). split; [done|by apply elem_of_map_to_list].
      * rewrite dir_prefix_name, path_join_prefix by done. unfold under.
        rewrite <- app_assoc, starts_app, drop_app_length, slice_slash.
        rewrite app_assoc. rewrite (proj2 (ends_spec _ _)) by by eexists.
        by apply entry_name_Some.
Qed.

(** ** The copies for the system's protobuf *)

Lemma file_of_lines_filter (f : list N -> bool) ls :
  file_of_lines ls -> file_of_lines (List.filter f ls).
Proof.
  induction 1 as [|a Ha Hn|l ls Hl Hls IH]; cbn [List.filter]; [apply fl_nil|..]; case_bool;
    first [by apply fl_last|by apply fl_cons|apply fl_nil|done].
Qed.
Lemma rewrite_text_lines text :
  byte_lines_go [] (rewrite_text text)
  = List.filter (fun l => negb (breaks_build l)) (byte_lines_go [] text).
Proof. apply byte_lines_lines, file_of_lines_filter, byte_lines_from. set_solver. Qed.

Section Copies.
Context (tmp path : list N) (st0 : pstate).
Context (Hclean : clean tmp st0) (Hpath : under tmp (dir_prefix path) = false).

(** What the rewrite makes of the file [name], when it can be read. *)
Definition copy_of (name : list N) : option (list N) :=
  if ends (u".proto") name then rewrite_text ∘ snd <$> pfiles st0 !! path_join path name else None.
(** The file [name] is one that is not copied, or one that can be read. *)
Definition copyable (name : list N) : Prop :=
  ends (u".proto") name = true ->
  exists w t, pfiles st0 !! path_join path name = Some (Access true w, t).
(** While copies are made: only files in the temporary directory are new. *)
Record copying (st : pstate) : Prop := {
  cp_err : perr st = perr st0;
  cp_dirs : pdirs st = <[dir_prefix tmp := Access true true]> (pdirs st0);
  cp_files : forall p, under tmp p = false -> pfiles st !! p = pfiles st0 !! p;
  cp_new : forall p a t, under tmp p = true -> pfiles st !! p = Some (a, t) ->
    writable a = true /\ exists name, ch "/" ∉ name /\ p = path_join tmp name
}.

Lemma write_copying st name text :
  copying st -> name <> [] -> ch "/" ∉ name ->
  exists a, write_file (path_join tmp name) text st
            = (Ok tt, set_files (<[path_join tmp name := (a, text)]> (pfiles st)) st)
    /\ copying (set_files (<[path_join tmp name := (a, text)]> (pfiles st)) st).
Proof.
  intros [He Hd Hf Hw] Hne Hn. pose proof (under_join tmp name Hn) as Hu.
  assert (forall a, writable a = true ->
    copying (set_files (<[path_join tmp name := (a, text)]> (pfiles st)) st)) as Hc.
  { intros a Ha. split; [done|done| |]; cbn [pfiles set_files].
    - intros p Hp. rewrite lookup_insert_ne; [by apply Hf|]. intros <-. congruence.
    - intros p a' t Hp. destruct (decide (path_join tmp name = p)) as [<-|Hp'].
      + rewrite lookup_insert_eq. intros [= <- <-]. eauto.
      + rewrite lookup_insert_ne by done. by apply Hw. }
  unfold write_file. destruct (pfiles st !! path_join tmp name) as [[a t]|] eqn:E.
  - destruct (Hw _ _ _ Hu E) as [Ha _]. rewrite Ha. exists a. auto.
  - rewrite parent_join, Hd, lookup_insert_eq by done. unfold is_directory. rewrite Hd.
    rewrite dir_prefix_name by done. rewrite lookup_insert_ne.
    + destruct (Hclean (path_join tmp name ++ u"/")) as [_ ->].
      { rewrite path_join_prefix by done. unfold under. rewrite <- app_assoc. apply starts_app. }
      exists (Access true true). auto.
    + rewrite path_join_prefix by done. intros Hl%(f_equal length). rewrite !length_app in Hl.
      simpl in Hl. lia.
Qed.
Lemma rewrite_step st name :
  copying st -> name <> [] -> ch "/" ∉ name ->
  exists r st', rewrite_file tmp path name st = (r, st') /\ copying st'
    /\ (r = Ok tt /\ copyable name \/ r = Exc IOError /\ ~ copyable name)
    /\ (r = Ok tt -> forall n, ch "/" ∉ n ->
          snd <$> pfiles st' !! path_join tmp n
          = if (n =s name) && ends (u".proto") n then copy_of n
            else snd <$> pfiles st !! path_join tmp n).
Proof.
  intros Hc Hne Hn. unfold rewrite_file, copyable, copy_of.
  destruct (ends (u".proto") name) eqn:En; cbn [negb].
  2:{ exists (Ok tt), st. split; [done|]. split; [done|]. split; [by left|]. intros _ n Hs.
      destruct (eqs n name) eqn:E; [|done]. apply eqs_true in E as ->. by rewrite En. }
  assert (pfiles st !! path_join path name = pfiles st0 !! path_join path name) as Hf
    by by apply Hc, not_under_join.
  unfold mbind, P_bind, read_file. rewrite Hf.
  destruct (pfiles st0 !! path_join path name) as [[[[] w] t]|] eqn:E; cbn [readable].
  2-3: exists (Exc IOError), st; split; [done|]; split; [exact Hc|]; split; [|done]; right;
       split; [done|]; intros H; by destruct H as (? & ? & ?).
  destruct (write_copying st name (rewrite_text t) Hc Hne Hn) as (a & Ew & Hc').
  rewrite Ew. eexists _, _. split; [reflexivity|]. split; [done|]. split; [left; eauto|].
  intros _ n Hs. cbn [pfiles set_files]. destruct (eqs n name) eqn:Enn.
  - apply eqs_true in Enn as ->. rewrite lookup_insert_eq, En, E. done.
  - cbn [andb]. rewrite lookup_insert_ne; [done|]. rewrite !path_join_prefix by done.
    intros ->%app_inv_head. by rewrite eqs_refl in Enn.
Qed.
Lemma rewrite_loop l st :
  copying st -> Forall (fun name => name <> [] /\ ch "/" ∉ name) l ->
  exists r st', pfor l (rewrite_file tmp path) st = (r, st') /\ copying st'
    /\ (r = Ok tt /\ Forall copyable l \/ r = Exc IOError /\ ~ Forall copyable l)
    /\ (r = Ok tt -> forall n, ch "/" ∉ n ->
          snd <$> pfiles st' !! path_join tmp n
          = if in_strs n l && ends (u".proto") n then copy_of n
            else snd <$> pfiles st !! path_join tmp n).
Proof.
  intros Hc Hl. revert st Hc. induction Hl as [|a l [Hne Hn] _ IH]; intros st Hc; cbn [pfor].
  { exists (Ok tt), st. split; [done|]. split; [done|]. split; [left; by split|]. done. }
  destruct (rewrite_step st a Hc Hne Hn) as (r1 & st1 & E1 & Hc1 & H1 & F1).
  unfold mbind, P_bind. rewrite E1. destruct H1 as [[-> Ha]|[-> Ha]].
  2:{ exists (Exc IOError), st1. split; [done|]. split; [exact Hc1|]. split; [|done]. right.
      split; [done|]. by intros [Hx _]%Forall_cons. }
  destruct (IH st1 Hc1) as (r & st' & -> & Hc' & Hr & F). exists r, st'.
  split; [done|]. split; [done|]. split.
  { rewrite Forall_cons. naive_solver. }
  intros Hok n Hs. rewrite (F Hok n Hs), (F1 eq_refl n Hs). unfold in_strs. cbn [existsb].
  destruct (eqs n a), (existsb (eqs n) l), (ends _ n); done.
Qed.

(** Taking the directory away undoes the copying. *)
Lemma rmtree_copying st : copying st -> rmtree tmp st = (Ok tt, st0).
Proof.
  intros [He Hd Hf _]. unfold rmtree, is_directory. rewrite Hd, lookup_insert_eq, He. f_equal.
  destruct st0 as [f0 d0 e0]. cbn [pfiles pdirs perr] in *. f_equal; apply map_eq; intros p;
    rewrite filter_under; destruct (under tmp p) eqn:U.
  - by destruct (Hclean p U).
  - by apply Hf.
  - by destruct (Hclean p U).
  - apply lookup_insert_ne. intros <-. by rewrite under_self in U.
Qed.
(** The entries of the source directory, when the temporary directory is made. *)
Lemma entry_copying st name :
  copying st -> ends (u".proto/") (dir_prefix tmp) = false -> ends (u".proto") name = true ->
  entry path st name <-> entry path st0 name.
Proof.
  intros [_ Hd Hf _] Ht Hp. unfold entry.
  enough (name <> [] -> ch "/" ∉ name ->
    pfiles st !! path_join path name = pfiles st0 !! path_join path name
    /\ pdirs st !! dir_prefix (path_join path name)
       = pdirs st0 !! dir_prefix (path_join path name)) as He.
  { split; intros (Hne & Hn & H); (split; [done|split; [done|]]); destruct (He Hne Hn) as [E1 E2];
      by rewrite ?E1, ?E2 in *. }
  intros Hne Hn. split; [by apply Hf, not_under_join|]. rewrite Hd.
  apply lookup_insert_ne. rewrite dir_prefix_name, path_join_prefix by done. intros E.
  rewrite E in Ht. apply ends_spec in Hp as [t Hp].
  assert (ends (u".proto/") ((dir_prefix path ++ name) ++ u"/") = true) as Ht'; [|congruence].
  apply ends_spec. exists (dir_prefix path ++ t). by rewrite Hp, <- !app_assoc.
Qed.

Lemma fails_copying {A} (body : P A) st st' e :
  body st = (Exc e, st') -> copying st' -> try_except body (rmtree tmp) st = (Exc e, st0).
Proof.
  intros E Hc. unfold try_except. rewrite E. unfold mbind, P_bind.
  by rewrite (rmtree_copying _ Hc).
Qed.
Definition can_list : Prop :=
  path <> [] /\ exists w, pdirs st0 !! dir_prefix path = Some (Access true w).
Lemma listdir_copying `{DictOrderOk} st :
  copying st ->
  listdir path st = (Exc OSError, st) /\ ~ can_list
  \/ exists names, listdir path st = (Ok names, st) /\ can_list
       /\ forall name, name ∈ names <-> entry path st name.
Proof.
  intros Hc. unfold listdir, can_list.
  assert (pdirs st !! dir_prefix path = pdirs st0 !! dir_prefix path) as ->.
  { rewrite (cp_dirs _ Hc). apply lookup_insert_ne. intros E. by rewrite <- E, under_self in Hpath. }
  destruct (pdirs st0 !! dir_prefix path) as [[[] w]|]; cbn [readable andb].
  2-3: left; split; [done|]; intros [_ Hw]; by destruct Hw.
  destruct (eqs path []) eqn:E; cbn [negb].
  - apply eqs_true in E. left. split; [done|]. by intros [? _].
  - apply eqs_false in E. right. eexists. split; [reflexivity|]. split; [eauto|].
    intros name. by rewrite dict_order_perm, elem_of_entries.
Qed.
Definition can_copy : Prop := forall name, entry path st0 name -> copyable name.
Lemma can_copy_names st names :
  copying st -> ends (u".proto/") (dir_prefix tmp) = false ->
  (forall name, name ∈ names <-> entry path st name) -> Forall copyable names <-> can_copy.
Proof.
  intros Hc Ht Hn. rewrite Forall_forall. unfold can_copy, copyable.
  split; intros Hall name Hin Hp; apply Hall; try done.
  - apply Hn, (entry_copying st name Hc Ht Hp), Hin.
  - apply (entry_copying st name Hc Ht Hp), Hn, Hin.
Qed.
End Copies.

(** C38: the rewrite for the system's protobuf, where [mkdtemp] makes up a new
    name, which does not end in .proto, and the source directory is not inside
    it.  When the source directory cannot be listed, the rewrite raises
    [OSError], and when one of its entries that are named .proto is not a file
    that can be read, [IOError]; in both cases all files and directories are as
    they were.  Otherwise it answers the temporary directory, which is new; it
    changes no other directory, no file elsewhere, and reports nothing; and the
    files in the new directory are the .proto files of the source directory
    with the lines that name LITE_RUNTIME or retain_unknown_fields taken out,
    all other lines as they were and in their order. *)
Theorem RewriteProtoFilesForSystemProtobuf_spec `{DictOrderOk} tmp path st :
  clean tmp st -> ends (u".proto/") (dir_prefix tmp) = false ->
  under tmp (dir_prefix path) = false ->
  let run := RewriteProtoFilesForSystemProtobuf tmp path st in
  let can_list := path <> [] /\ exists w, pdirs st !! dir_prefix path = Some (Access true w) in
  let can_copy := forall name, entry path st name -> ends (u".proto") name = true ->
    exists w t, pfiles st !! path_join path name = Some (Access true w, t) in
  (~ can_list -> run = (Exc OSError, st))
  /\ (can_list -> ~ can_copy -> run = (Exc IOError, st))
  /\ (can_list -> can_copy -> exists st', run = (Ok tmp, st') /\ perr st' = perr st
        /\ pdirs st' = <[dir_prefix tmp := Access true true]> (pdirs st)
        /\ (forall p, under tmp p = false -> pfiles st' !! p = pfiles st !! p)
        /\ (forall p, under tmp p = true -> is_Some (pfiles st' !! p) ->
              exists name, ch "/" ∉ name /\ p = path_join tmp name)
        /\ forall name, ch "/" ∉ name ->
             byte_lines_go [] ∘ snd <$> pfiles st' !! path_join tmp name
             = if ends (u".proto") name
               then (fun f => List.filter (fun l => negb (breaks_build l)) (byte_lines_go [] (snd f)))
                    <$> pfiles st !! path_join path name
               else None).
Proof.
  intros Hc Ht Hp run. unfold run, RewriteProtoFilesForSystemProtobuf.
  fold (can_list path st). fold (copyable path st). fold (can_copy path st).
  unfold mbind at 1 4 7, P_bind at 1 4 7, mkdtemp. set (st1 := set_dirs _ st).
  assert (copying tmp st st1) as C1.
  { split; [done..|]. intros p a t Hu E. destruct (Hc p Hu) as [Hn _]. cbn in E. congruence. }
  destruct (listdir_copying tmp path st Hp st1 C1) as [[El Hl]|(names & El & Hl & Hn)].
  { split; [|by split; intros ?]. intros _. apply (fails_copying tmp st Hc _ st1 st1); [|done].
    unfold mbind, P_bind. by rewrite El. }
  destruct (rewrite_loop tmp path st Hc Hp names st1 C1) as (r & st2 & E & C2 & Hr & F).
  { apply Forall_forall. intros n Hin. apply Hn in Hin. by destruct Hin as (? & ? & _). }
  rewrite (can_copy_names tmp path st Hp st1 names C1 Ht Hn) in Hr.
  split; [done|]. split; intros _ Hcopy; destruct Hr as [[-> Hy]|[-> Hy]]; try done.
  { apply (fails_copying tmp st Hc _ st1 st2); [|done].
    unfold mbind, P_bind. by rewrite El, E. }
  exists st2. split; [unfold try_except, mbind, P_bind; by rewrite El, E|].
  destruct C2 as [He Hd Hf Hw]. do 3 (split; [done|]). split.
  { intros p Hu [[a t] Hx]. by destruct (Hw p a t Hu Hx). }
  intros n Hs. rewrite option_fmap_compose, (F eq_refl n Hs).
  change (pfiles st1) with (pfiles st).
  destruct (ends (u".proto") n) eqn:En.
  2:{ rewrite andb_false_r. destruct (Hc _ (under_join tmp n Hs)) as [Hx _].
      by rewrite Hx. }
  rewrite andb_true_r. unfold copy_of. rewrite En. destruct (in_strs n names) eqn:Hin.
  - destruct (pfiles st !! path_join path n) as [[a t]|]; [|done].
    exact (f_equal Some (rewrite_text_lines t)).
  - destruct (Hc _ (under_join tmp n Hs)) as [Hx _]. rewrite Hx.
    destruct (pfiles st !! path_join path n) as [x|] eqn:Ex; [|done].
    apply in_strs_false in Hin. destruct Hin. apply Hn, (entry_copying tmp path st Hp st1 n C1 Ht En).
    split; [by intros ->|]. split; [done|]. left. by rewrite Ex.
Qed.

Lemma RewriteProtoFilesForSystemProtobuf_spec_witness :
  let tmp := u"/tmp/x" in
  let run path := @RewriteProtoFilesForSystemProtobuf (fun l => l) tmp path sample_protos in
  clean tmp sample_protos
  /\ run (u"/include") = (Exc OSError, sample_protos)
  /\ exists st', run (u"/src") = (Ok tmp, st')
       /\ pfiles st' !! (u"/src/a.proto") = pfiles sample_protos !! (u"/src/a.proto").
Proof.
  intros tmp run. split; [exact sample_clean|]. split.
  - apply (@RewriteProtoFilesForSystemProtobuf_spec (fun l => l) (fun l => reflexivity l)
             tmp (u"/include") sample_protos sample_clean eq_refl eq_refl).
    intros [_ [w Hw]]. vm_compute in Hw. discriminate Hw.
  - destruct (@RewriteProtoFilesForSystemProtobuf_spec (fun l => l) (fun l => reflexivity l)
             tmp (u"/src") sample_protos sample_clean eq_refl eq_refl) as (_ & _ & H).
    destruct H as (st' & E & _ & _ & Ho & _).
    { split; [discriminate|]. by exists true. }
    { intros name (Hne & Hs & [H|H]) _.
      - destruct H as [x Hx]. unfold sample_protos in Hx. cbn [pfiles] in Hx.
        apply lookup_singleton_Some in Hx as [<- _]. by exists true, (u"message A {}").
      - destruct H as [x Hx]. unfold sample_protos in Hx. cbn [pdirs] in Hx.
        apply lookup_singleton_Some in Hx as [Hx _]. exfalso. revert Hx.
        rewrite dir_prefix_name, path_join_prefix by done. intros Hx%(f_equal length).
        change (dir_prefix (u"/src")) with (u"/src/") in Hx. rewrite !length_app in Hx.
        destruct name; [done|]. simpl in Hx. lia. }
    exists st'. split; [exact E|]. apply Ho. reflexivity.
Defined.
