(* ===== verification/CpplintDir.v ===== *)
(** * The lint runner

    Models script/cpplint_dir.py: it looks for the source files of the tree and
    runs cpplint.py on all of them.  What [os.walk] lists, the directory of the
    tree and the program that is run are parameters; at the end the program is
    the model of cpplint itself. *)

From S2P Require Import Prelude PyStr Regex RePattern Lint FileInfo IncludeState Cleanse Brackets Nesting FunctionState FileChecks LineChecks Spacing RValue Style Language Driver Frame Terminate.
From Stdlib Require Import Ascii.

Definition lint_extensions : list (list N) := [u".cc"; u".h"; u".cpp"; u".cu"; u".cuh"].
Definition find_files (walk : list (list N * list (list N))) (black_file_list : list (list N))
    : list (list N) :=
  '(dirpath, files) ← walk;
  name ← files;
  let '(_, file_extension) := splitext name in
  if negb (in_strs file_extension lint_extensions) then []
  else
    let f := path_join dirpath name in
    if negb (in_strs f black_file_list) then [f] else [].
Definition black_file_list (root_dir : list N) : list (list N) :=
  [path_join (path_join (path_join root_dir (u"src")) (u"net")) (u"net_error_list.h")].

Section Runner.
(** A program: from its arguments, its exit status and its output. *)
Context (call : list (list N) -> Z * list N).
Context (executable root_dir : list N).

(** [subprocess.check_output] raises when the exit status is not zero. *)
Definition execute (argv : list (list N)) : bool * list N :=
  let '(status, output) := call argv in ((status =? 0)%Z, output).
Definition run_cpplint (files : list (list N)) : bool * list N :=
  let cpplint := path_join (path_join root_dir (u"script")) (u"cpplint.py") in
  execute ([executable; cpplint; u"--root=src"] ++ files).
(** [main()], and [sys.exit] of what it returns: how the run ends, and what it
    has printed. *)
Definition lint_main (walk : list N -> list (list N * list (list N))) (argv : list (list N))
    : exn * list (list N) :=
  let files := find_files (walk (path_join root_dir (u"src"))) (black_file_list root_dir) in
  let '(success, output) := run_cpplint files in
  if success then (SystemExit 0, if in_strs (u"-v") argv then [output ++ [10%N]] else [])
  else (SystemExitMsg output, []).
End Runner.

(** ** The program that is run *)

(** The exit status of a Python program that ends with an exception. *)
Definition status_of (r : res unit) : Z :=
  match r with
  | Ok _ => 0
  | Exc (SystemExit n) => n
  | Exc _ => 1
  end.
(** cpplint as a process: the interpreter, the script, its arguments; the
    output is what it writes to standard error, and [traceback] what Python
    adds for an exception. *)
Definition cpplint_process `{UnicodeDB, DictOrder} (env : environment)
    (traceback : exn -> list N) (argv : list (list N)) : Z * list N :=
  let '(r, w) := main env (drop 2 argv) init_world in
  (status_of r, concat (stderr w) ++ match r with Exc e => traceback e | Ok _ => [] end).

(** ** Which files are linted *)

Lemma elem_of_find_files walk black f :
  f ∈ find_files walk black <->
  exists dirpath files name, (dirpath, files) ∈ walk /\ name ∈ files
    /\ f = path_join dirpath name /\ snd (splitext name) ∈ lint_extensions /\ f ∉ black.
Proof.
  unfold find_files. rewrite list_elem_of_bind. split.
  - intros ([d fs] & Hf & Hd). apply list_elem_of_bind in Hf as (n & Hn & Hnf).
    exists d, fs, n. destruct (splitext n) as [b e]. cbn [snd].
    destruct (in_strs e lint_extensions) eqn:He; cbn [negb] in Hn; [|set_solver].
    destruct (in_strs (path_join d n) black) eqn:Hb; cbn [negb] in Hn; [set_solver|].
    apply list_elem_of_singleton in Hn as ->. apply in_strs_spec in He. apply in_strs_false in Hb.
    done.
  - intros (d & fs & n & Hd & Hn & -> & He & Hb). exists (d, fs). split; [|done].
    apply list_elem_of_bind. exists n. split; [|done]. destruct (splitext n) as [b e]. cbn [snd] in He.
    apply in_strs_spec in He. apply in_strs_false in Hb. rewrite He, Hb. cbn. left.
Qed.

(** ** The command line the runner writes *)

(** Linting starts at a count of zero and only counts up. *)
Lemma adds_lint_files `{UnicodeDB, DictOrder} env files w :
  (0 <= error_count (lint (snd (lint_files env files w))))%Z.
Proof.
  assert (adds (_ ← for_ files (fun filename =>
                  level ← gets (fun w => verbose_level (lint w));
                  ProcessFile env filename level []); print_error_counts)) as Ha.
  { apply adds_bind.
    - apply adds_for. intros f. apply adds_bind; [by apply framed_adds, framed_gets|].
      intros v. apply adds_ProcessFile.
    - intros _. apply framed_adds. unfold print_error_counts. frame. }
  by destruct (Ha (set_lint (CppLintState.ResetErrorCounts (lint w)) w)) as [Hc _].
Qed.

(** The state cpplint starts to lint in when the runner calls it. *)
Definition runner_world : world :=
  set_root (Some (u"src")) (set_lint (CppLintState.SetCountingStyle [] init_state) init_world).
Lemma runner_arguments f fs :
  starts (u"-") f = false ->
  ParseArguments ((u"--root=src") :: f :: fs) init_world = (Ok (f :: fs), runner_world).
Proof.
  intros Hf. unfold ParseArguments.
  assert (getopt (u"--root=src" :: f :: fs) long_options
          = Some ([(u"--root", u"src")], f :: fs)) as ->.
  { unfold getopt. cbn [length]. set (k := length fs).
    transitivity (getopt_go (S (S k)) (f :: fs) long_options [(u"--root", u"src")]).
    - vm_compute. reflexivity.
    - cbn [getopt_go]. by rewrite Hf. }
  unfold mbind, M_bind. rewrite bool_decide_eq_false_2 by done.
  vm_compute. reflexivity.
Qed.
Lemma no_files :
  fst (ParseArguments [u"--root=src"] init_world)
  = Exc (SystemExitMsg ([10%N] ++ u"FATAL ERROR: No files were specified.")).
Proof. vm_compute. reflexivity. Qed.

Lemma found_absolute root_dir walk f :
  (forall d fs, (d, fs) ∈ walk -> starts slash d = true) ->
  f ∈ find_files walk (black_file_list root_dir) -> starts (u"-") f = false.
Proof.
  intros Hw (d & fs & n & Hd & _ & -> & _)%elem_of_find_files.
  assert (starts slash (path_join d n) = true) as Ha.
  { apply starts_join. by eapply Hw. }
  apply starts_spec in Ha as [t ->]. vm_compute. reflexivity.
Qed.

(** C32: the runner and cpplint together.  Where the walk lists absolute paths
    and no top directory has a [.svn], the runner ends with status zero exactly
    when it found at least one file, cpplint linted them all without an
    exception, and it counted no error.  Otherwise it ends with the output of
    that very run of cpplint as its error message; so it fails on a tree without
    files. *)
Theorem lint_main_succeeds `{UnicodeDB, DictOrder} env traceback executable root_dir walk argv :
  no_top_svn (disk_fs (env_disk env)) ->
  let walked := walk (path_join root_dir (u"src")) in
  (forall d fs, (d, fs) ∈ walked -> starts slash d = true) ->
  let files := find_files walked (black_file_list root_dir) in
  let outcome := fst (lint_main (cpplint_process env traceback) executable root_dir walk argv) in
  let cpplint := path_join (path_join root_dir (u"script")) (u"cpplint.py") in
  let command := [executable; cpplint; u"--root=src"] ++ files in
  (outcome = SystemExit 0 <->
     files <> [] /\ exists w, lint_files env files runner_world = (Ok tt, w)
                            /\ error_count (lint w) = 0%Z)
  /\ (outcome <> SystemExit 0 ->
        outcome = SystemExitMsg (snd (cpplint_process env traceback command))).
Proof.
  intros Henv walked Hw files outcome cpplint command.
  unfold outcome, command, lint_main, run_cpplint, execute, cpplint_process. cbn [app drop].
  fold walked. fold files.
  destruct (main env (u"--root=src" :: files) init_world) as [r w] eqn:E.
  cbn [fst]. destruct (Z.eqb_spec (status_of r) 0) as [Hs|Hs]; cbn [fst].
  2:{ split; [|done]. split; [done|]. intros (Hf & w2 & E2 & Hc). destruct Hs.
      destruct files as [|f fs] eqn:Ef; [done|].
      assert (starts (u"-") f = false) as Hm
        by (apply (found_absolute root_dir walked f Hw); fold files; rewrite Ef; left).
      rewrite (main_run env _ _ _ _ (runner_arguments f fs Hm)), E2 in E. injection E as <- _.
      cbn. by rewrite Hc. }
  split; [|done]. split; [|done]. intros _.
  destruct files as [|f fs] eqn:Ef.
  - pose proof no_files as Hn. unfold main, mbind, M_bind in E.
    destruct (ParseArguments _ _) as [[?|e] w1]; [done|].
    injection E as <- _. injection Hn as ->. done.
  - split; [done|].
    assert (starts (u"-") f = false) as Hm
      by (apply (found_absolute root_dir walked f Hw); fold files; rewrite Ef; left).
    rewrite (main_run env _ _ _ _ (runner_arguments f fs Hm)) in E.
    pose proof (finishes_lint_files env Henv (f :: fs) runner_world) as Hfin.
    pose proof (adds_lint_files env (f :: fs) runner_world) as Hadd.
    destruct (lint_files env (f :: fs) runner_world) as [[[]|e] w2]; injection E as <- _.
    + exists w2. split; [done|]. cbn [fst snd] in *.
      unfold status_of, exit_status in Hs. destruct (Z.ltb_spec 0 (error_count (lint w2))); [done|].
      lia.
    + cbn in Hfin, Hs. by destruct e.
Qed.

(** A tree with one file, which is in order. *)
Definition sample_walk (dir : list N) : list (list N * list (list N)) :=
  [(u"/b/src", [u"README"; u"x.cpp"])].
Definition sample_tree : environment :=
  Environment (Disk git_fs (fun _ => false)
                 (fun f => if f =s u"/b/src/x.cpp" then Some (u"// Copyright 2014 A" ++ [10%N]) else None))
              (fun _ => None).
Definition sample_end : res unit * world :=
  @lint_files ascii_db sample_order sample_tree [u"/b/src/x.cpp"] runner_world.
Lemma lint_main_succeeds_witness :
  no_top_svn (disk_fs (env_disk sample_tree))
  /\ fst (lint_main (@cpplint_process ascii_db sample_order sample_tree (fun _ => []))
            (u"python") (u"/b") sample_walk []) = SystemExit 0.
Proof.
  split; [exact git_no_top_svn|].
  destruct (@lint_main_succeeds ascii_db sample_order sample_tree (fun _ => []) (u"python")
              (u"/b") sample_walk [] git_no_top_svn) as [[_ H] _].
  { intros d fs Hd. apply list_elem_of_singleton in Hd. injection Hd as -> _. reflexivity. }
  apply H. change (find_files (sample_walk (path_join (u"/b") (u"src"))) (black_file_list (u"/b")))
    with [u"/b/src/x.cpp"].
  split; [discriminate|]. exists (snd sample_end). split; vm_compute; reflexivity.
Defined.
